(* ===== verification/_CoqProject ===== *)
-Q . S2P
Prelude.v
GoStrings.v
Semver.v
K8s.v
WorkQueue.v
Types.v
CassandraVersion.v
RateLimit.v
VersionJSON.v
Internal.v
Conversion.v
Defaults.v
Cluster.v
Fixtures.v
Handlers.v
PilotController.v
PilotHooks.v
GenericPilot.v
GenericPilotFacts.v
PilotConcurrent.v
PilotScheduler.v
PilotRuntime.v
CassUtil.v
CassResources.v
CassControl.v
CassFacts.v
CassSync.v
ESPilot.v
Nodetool.v
CassPilot.v
ESUtil.v
Validation.v
ESResources.v
ValidationFacts.v
ESResourcesFacts.v
ESScale.v
ESUpdateVersion.v
ESControl.v
ESControlFacts.v
ESSync.v
ESController.v
PilotLabels.v
Memory.v
DeepCopy.v
NavigatorDeepCopy.v
Registry.v
Listers.v
PilotFlags.v
PilotLaunch.v
RestClient.v
Scheme.v
APIRoutes.v
APIStore.v
APIServer.v
FakeClient.v
Informers.v
ClientSets.v
Wiring.v
LeaderElection.v
APIStart.v
ControllerApp.v
ControllerCommand.v
APIStorage.v
StorageCodecs.v
PilotWiring.v
PilotAccess.v
