(* ===== verification/Prelude.v ===== *)
(** * Navigator: a verification development

    Navigator runs database clusters on Kubernetes.  Three controllers
    (pkg/controllers) watch objects through informer caches and write to the
    API server until the cluster looks as specified: one for
    ElasticsearchCluster, one for CassandraCluster, one for the Pilot of each
    pod.  An API server (pkg/apis, pkg/registry) converts, defaults and
    validates the resources.  A pilot process (pkg/pilot) runs beside every
    database node, starts it and reports its state.  All of them talk to the API
    server through generated clients (pkg/client).  This development models
    the controllers, the API machinery, the clients and the pilots, and proves what makes
    them correct, alone and where they meet.

    ** How the code is modelled

    A Go function that can only fail by returning an error gives [Res A]
    (an error or a value) or [option Err]; one that can also panic, by
    dereferencing a nil pointer or by a failed type assertion, gives
    [outcome A]; one that calls the API server or records events is a
    [GoM World A], which passes the [World] along.  The world holds the log of
    all API calls and events in order, and the pod cache, which one controller
    writes to.  The API server is not part of the repository: its answer to a
    call is the field [Clientset] of [State], an arbitrary function of the log
    and the call, so every theorem about the controllers covers every pattern
    of failures.  The informer caches are the [Lister]s of [State]; the class
    [LawfulLister] states what the code relies on (an object found under a key
    has that key, a list holds the matching objects once), and [cacheLister]
    of Cluster.v is an implementation that has it.  int32 arithmetic wraps
    (int32_add and friends), maps that may be nil are options of gmap, and the
    unspecified order of Go's range over a map is the class [MapRange].

    Theorems about effects are stated with [triple m Q] (Cluster.v): from
    every world, [m] only appends to the log and [Q] holds of its result and
    of the API calls it made.

    The pilots have more state than the controllers: [GoM] then passes a pair
    of the pilot's fields and an environment that the hooks, the process and
    the database API may change ([PW] and [Env] of GenericPilot).  Objects that
    must not be shared live in an explicit memory of cells (Memory).

    ** The files

    - Prelude: integers, outcomes, the monad, errors, tactics.
    - GoStrings: the functions of strings and strconv that the code uses,
      with the lemmas that they invert each other.
    - Semver: vendor/github.com/coreos/go-semver (Elasticsearch versions);
      CassandraVersion: pkg/api/version and vendor/github.com/hashicorp/go-version
      (Cassandra versions and the supported range); VersionJSON: their JSON
      forms.
    - K8s: the parts of the Kubernetes API types in use, owner references,
      label selectors.
    - Types, Internal: pkg/apis/navigator/v1alpha1/types.go and helpers.go,
      pkg/apis/navigator/types.go.
    - Conversion, Defaults, Validation, ValidationFacts: the conversion,
      defaulting and validation of pkg/apis/navigator.
    - Memory, DeepCopy, NavigatorDeepCopy: zz_generated.deepcopy.go of v1alpha1
      and of the internal types, over a memory in which every pointer, slice and
      map of an object is a cell, the inf.Dec of a quantity included.
    - Registry: pkg/registry/navigator/*/strategy.go under the create and update
      paths of the vendored API server, and plugin/pkg/admission.
    - WorkQueue: vendor/k8s.io/client-go/util/workqueue and
      processNextWorkItem, as a transition system of any number of workers;
      RateLimit: the rate limiters of the queues and of the clients over the
      token bucket of vendor/github.com/juju/ratelimit.
    - Cluster: pkg/controllers/executor.go's State, the world, traces, listers.
    - Listers: the indexed store of vendor/k8s.io/client-go/tools/cache and the
      generated listers of pkg/client/listers, which implement [cacheLister].
    - Fixtures: concrete clusters and caches at which theorems are evaluated.
    - Handlers: pkg/controllers/util.go, util_api.go and the event handlers of
      the two cluster controllers; PilotController:
      pkg/controllers/pilotcontroller.
    - CassUtil, CassResources, CassControl: pkg/controllers/cassandra with its
      sub-packages; CassFacts and CassSync: their theorems.
    - ESUtil, ESResources, ESScale, ESUpdateVersion, ESControl:
      pkg/controllers/elasticsearch with its sub-packages; ESResourcesFacts,
      ESControlFacts, ESSync: their theorems; ESController: elasticsearch.go;
      PilotLabels: the pilots the actions select.
    - PilotHooks: pkg/pilot/genericpilot/hook and probe; GenericPilot and
      GenericPilotFacts: genericpilot.go, controller.go and processmanager;
      PilotConcurrent: their sync, shutdown and process as concurrent threads;
      PilotScheduler: controller/scheduler; PilotRuntime: the other files of
      pkg/pilot/genericpilot/controller.
    - ESPilot: pkg/pilot/elasticsearch/v5; Nodetool: pkg/cassandra/nodetool;
      CassPilot: pkg/pilot/cassandra/v3.
    - PilotFlags: vendor/github.com/spf13/pflag and the reader of encoding/csv
      under it; PilotLaunch: the options.go files of the pilots, healthz.go and
      cmd/pilot-*, against the containers that the controllers write.
    - RestClient: the typed clients of pkg/client/clientset over the requests of
      vendor/k8s.io/client-go/rest; FakeClient: their fakes over the object
      tracker of client-go/testing; Informers: pkg/client/informers;
      ClientSets: clientset.go of both versions and the internal factory;
      Scheme: what register.go, install.go and the scheme packages register.
    - APIRoutes: the storages of pkg/apiserver and the routes the installer of
      vendor/k8s.io/apiserver makes of them, the reading of a request and the
      choice of its route; APIStore: the update path from the handler through
      the registry's store to the etcd transaction; APIServer: the storages of
      pkg/registry/navigator/*/etcd.go behind one class, served to the clients;
      APIStorage: get, list, create and delete of the registry's store over etcd,
      with the selection functions of strategy.go; StorageCodecs: the codec of
      the store, with which its theorems hold of the three resources.
    - Wiring: the constructors, Run and worker of the controllers,
      pkg/controllers/register.go and the start of the controllers.
    - LeaderElection: the elector of vendor/k8s.io/client-go/tools/leaderelection
      with the configurations of cmd/controller/app and of
      pkg/pilot/genericpilot/leaderelection, as a timed transition system.
    - APIStart: cmd/apiserver and pkg/apiserver/admission; ControllerApp:
      cmd/controller/app; ControllerCommand: the flags, the command and main of
      cmd/controller and the signal handler.
    - PilotWiring: the constructors and Run of the pilots; PilotAccess: every
      request a pilot sends against the role that the controllers create.

    Definitions have the names of the code where they can; a method [m] of a
    type [T] is [T_m] or, where two packages share a name, the file tells them
    apart (ESControl.Sync and CassControl.Sync).

    ** What is proved

    - Safety of the actions.  Scaling an Elasticsearch pool down is written
      only when every pilot to be removed reports no documents; a version
      update releases one replica at a time and only while the cluster is
      healthy; a Cassandra pool grows by one replica when all are ready; sets
      are deleted only when the cluster controls them and no pool needs them.
    - Order and number of the API calls of each Sync, of the controllers' sync
      and of the pilot controller; silence when nothing is to be done or the
      cluster is paused.
    - Progress.  Every write of a set brings the cluster nearer to its
      specification, a finished version update is recorded, the queue drains.
    - The queue: one worker per key, no request lost, FIFO bookkeeping as the
      comment on the Go type states it; retries back off.
    - The caches: the indexed store and the generated listers refine the map
      that the controllers are proved against; deep copies are independent;
      informers are shared, run once and list their own resource.
    - Clients and server: the requests of the typed clients reach the handlers
      of their actions, within the rate of their configuration; a successful status update was written over the revision
      its sender had read, under any interleaving with other writers; get, create
      and delete of the store and the fake clients refine a map; lists are exact;
      the versioned object that is stored for a create is the one sent, with its
      defaults, and is read back as such.
    - Wiring: every change of a watched object leaves its cluster pending, in
      the queue of its controller and nowhere else; workers end with an empty
      queue after a shutdown; no controller waits for an informer that is not
      started; informers watch the namespace of the options; a server in a
      cluster admits no create in a namespace that is being terminated.
    - Leader election: at most one process leads, under any interleaving of
      attempts, failures, crashes and restarts and any difference of the clocks,
      and the durations in use leave room for attempts of a second and a third;
      the controllers panic exactly on flags whose durations the elector refuses.
    - The generated resources: selectors, labels, owner references, volumes and
      mounts fit together, the configuration asks for a majority, and the
      arguments of the containers give the pilots valid options.
    - Registration: no scheme panics at start-up, and each knows its kinds in the
      versions it serves.
    - Access: every request of a pilot is permitted by the role of its pods.
    - The API: conversion (of all but the TypeMeta) and JSON round trips of versions, defaulting is complete and idempotent,
      validation accepts exactly the declaratively valid objects and updates,
      the two endpoints keep specification and status apart, and end to end an
      accepted cluster is configured without split brain.
    - The pilots: an invariant of the life of the process and its hooks over
      all interleavings of the steps of a sync, the shutdown and the process; hooks refine a counter that
      resumes where a phase failed; what a sync reports; which pilots are
      synced and when they are synced again; document counts are never stale;
      the status of Cassandra nodes and the readiness derived from it.
    - Error paths and defects: where the code does not do what it means to, the
      behaviour is stated and proved (probes that ask the wrong port, pilots
      that no action finds, a process started behind a shutdown, plugins that are
      split, an exit status that is dropped, a timer that is
      cancelled, a label update that is not retried, a quorum that is not
      updated, a condition that is not added, an overflow in the count of
      masters, a stalled update, events that reach no queue, status routes that
      lead to list handlers).

    ** Bounds and fuel

    [matchSegments] of CassandraVersion walks a version string and is started
    with its length, and each step consumes a character, so it never runs out.
    [parseArgs] of PilotFlags is started with the number of arguments, which is
    enough (flag_parsing_terminates).  [RootControllerRef] follows owner
    references, which may form a cycle on which the Go function does not
    return either (root_of_cycle_diverges); for the chain pilot, pod, set,
    cluster three steps are enough (root_of_pilot_is_cluster), and the pilots
    that call it are proved correct for every fuel, [None] standing for a call
    that does not return.  [GuaranteedUpdate] of APIStore retries whenever
    another writer was faster; it is started with three rounds more than there
    are writes of others, which is enough (GuaranteedUpdate_terminates); two more
    are enough for [etcd_Delete] of APIStorage (conditionalDelete_terminates).  The [worker] of Wiring needs one round more than there are queued keys
    (worker_drains_on_shutdown).  [bucketLoop] of RateLimit tries fewer than 400
    quanta for any rate (NewBucketWithRate_spec).

    The leader election has no fuel: a trace of any length is run.  Its clocks run
    at the same rate, an attempt takes at most [maxAttempt], timers fire in time,
    and nobody but the electors writes the lock.

    The sync and the stop of the generic pilot are programs of single steps in
    PilotConcurrent, interleaved with each other, with the exit of the process,
    changes of leadership and of the environment: sync holds a lock that stop does
    not take.  A Transition, which holds the lock of the hooks, is one step, at most
    one sync is under way (there is one worker), and memory is sequentially
    consistent.

    ** Not modelled

    The generic API server behind its options, the request decoding of the handlers
    other than update, paged lists, finalizers and graceful deletion, watch streams and the reflectors that fill the caches from them, the decoding
    of answers by the clients, the JSON text of objects (but for the versions in
    it), the answers to discovery, log output and metrics.
    Floating point numbers are exact rationals but for the product that
    NewLeaderElector compares, which is rounded as a float64.  In the pilots' life cycle leadership is a
    flag that may change at any time.  Event text is kept as format and
    arguments.  ValidateObjectMeta of apimachinery, the metadata checks of the
    API server, the codec factories, the kubelet, the operating system, the Elasticsearch and
    Jolokia endpoints, time.ParseDuration and the RBAC authorizer are parameters.

    ** Plan

    What is left is the generic API server: watches, paged lists, finalizers and
    the decoding of requests, vendored code that the repository only configures. *)

From stdpp Require Export base gmap sets list strings pretty.
From Stdlib Require Export ZArith Lia.
From Stdlib Require Import Ascii.

#[export] Set Default Goal Selector "!".

(** ** Notation scope and hint databases of the development *)

Declare Scope navigator_scope.
Delimit Scope navigator_scope with nav.
Open Scope navigator_scope.
Open Scope Z_scope.

Create HintDb navigator.
#[export] Hint Constants Opaque : navigator.
#[export] Hint Variables Transparent : navigator.

(** ** Go integers

    An [int32] is a [Z] in [int32_min, int32_max]; arithmetic on it wraps. *)

Definition int32_min : Z := -2147483648.
Definition int32_max : Z := 2147483647.

Definition int32_wrap (z : Z) : Z := (z + 2147483648) mod 4294967296 - 2147483648.

Definition is_int32 (z : Z) : Prop := int32_min ≤ z ≤ int32_max.

#[export] Instance is_int32_dec z : Decision (is_int32 z).
Proof. unfold is_int32. apply _. Defined.

Definition int32_add (a b : Z) : Z := int32_wrap (a + b).
Definition int32_sub (a b : Z) : Z := int32_wrap (a - b).
(** Go's [/] truncates toward zero. *)
Definition int32_quot (a b : Z) : Z := int32_wrap (Z.quot a b).

Lemma int32_wrap_id z : is_int32 z → int32_wrap z = z.
Proof.
  unfold is_int32, int32_min, int32_max, int32_wrap. intros ?.
  rewrite Z.mod_small; lia.
Qed.

Lemma int32_wrap_range z : is_int32 (int32_wrap z).
Proof.
  unfold is_int32, int32_min, int32_max, int32_wrap.
  pose proof (Z.mod_pos_bound (z + 2147483648) 4294967296 ltac:(lia)). lia.
Qed.

Lemma int32_wrap_add_l a b : int32_wrap (int32_wrap a + b) = int32_wrap (a + b).
Proof.
  unfold int32_wrap. f_equal.
  replace (_ - 2147483648 + b + 2147483648) with ((a + 2147483648) mod 4294967296 + b) by lia.
  rewrite Zplus_mod_idemp_l. f_equal. lia.
Qed.

Lemma int32_add_id a b : is_int32 (a + b) → int32_add a b = a + b.
Proof. apply int32_wrap_id. Qed.

Lemma int32_sub_id a b : is_int32 (a - b) → int32_sub a b = a - b.
Proof. apply int32_wrap_id. Qed.

#[export] Hint Resolve int32_wrap_range : navigator.

Ltac int32_lia :=
  unfold is_int32, int32_min, int32_max in *; lia.

(** ** Effects of Go code

    A Go function runs on a world [W], may change it, and either returns a
    value or panics (a nil dereference, a write to a nil map). *)

Inductive outcome (A : Type) : Type :=
| Ret (a : A)
| Panic (why : string).
Arguments Ret {A} a.
Arguments Panic {A} why.

#[export] Instance outcome_ret : MRet outcome := λ A a, Ret a.
#[export] Instance outcome_bind : MBind outcome := λ A B k m,
  match m with
  | Ret a => k a
  | Panic p => Panic p
  end.

(** Dereference of a pointer in pure code. *)
Definition deref_pure {A} (p : option A) : outcome A :=
  match p with
  | Some a => Ret a
  | None => Panic "invalid memory address or nil pointer dereference"
  end.

Definition GoM (W A : Type) : Type := W → outcome A * W.

#[export] Instance gom_ret W : MRet (GoM W) := λ A a w, (Ret a, w).
#[export] Instance gom_bind W : MBind (GoM W) := λ A B k m w,
  match m w with
  | (Ret a, w') => k a w'
  | (Panic p, w') => (Panic p, w')
  end.

(** A pure computation inside an effectful one. *)
Definition lift {W A} (o : outcome A) : GoM W A := λ w, (o, w).

Definition go_panic {W A} (why : string) : GoM W A := λ w, (Panic why, w).
Definition go_get {W} : GoM W W := λ w, (Ret w, w).
Definition go_modify {W} (f : W → W) : GoM W () := λ w, (Ret (), f w).

(** Dereference of a pointer. *)
Definition deref {W A} (p : option A) : GoM W A := lift (deref_pure p).

(** [for _, x := range xs { body }] where the body may return early with a
    value ([Some r]) or fall through ([None]). *)
Fixpoint for_range {W A R} (xs : list A) (body : A → GoM W (option R)) : GoM W (option R) :=
  match xs with
  | [] => mret None
  | x :: xs' =>
      r ← body x;
      match r with
      | Some v => mret (Some v)
      | None => for_range xs' body
      end
  end.

Lemma gom_bind_ret {W A B} (m : GoM W A) (k : A → GoM W B) w a w' :
  m w = (Ret a, w') → (m ≫= k) w = k a w'.
Proof. intros H. unfold mbind, gom_bind. by rewrite H. Qed.

Lemma gom_bind_panic {W A B} (m : GoM W A) (k : A → GoM W B) w p w' :
  m w = (Panic p, w') → (m ≫= k) w = (Panic p, w').
Proof. intros H. unfold mbind, gom_bind. by rewrite H. Qed.

Lemma gom_bind_inv {W A B} (m : GoM W A) (k : A → GoM W B) w b w2 :
  (m ≫= k) w = (Ret b, w2) →
  ∃ a w1, m w = (Ret a, w1) ∧ k a w1 = (Ret b, w2).
Proof.
  unfold mbind, gom_bind. destruct (m w) as [[a|p] w1]; intros; simplify_eq; eauto.
Qed.

Lemma for_range_cons_None {W A R} x xs (body : A → GoM W (option R)) w w' :
  body x w = (Ret None, w') → for_range (x :: xs) body w = for_range xs body w'.
Proof. intros H. simpl. by rewrite (gom_bind_ret _ _ _ _ _ H). Qed.

Lemma for_range_cons_Some {W A R} x xs (body : A → GoM W (option R)) w r w' :
  body x w = (Ret (Some r), w') → for_range (x :: xs) body w = (Ret (Some r), w').
Proof. intros H. simpl. by rewrite (gom_bind_ret _ _ _ _ _ H). Qed.

(** ** Errors

    A Go [error] keeps its format string and its arguments; API errors keep
    the status reason that [errors.IsNotFound] and friends inspect. *)

Inductive StatusReason :=
| StatusReasonNotFound
| StatusReasonAlreadyExists
| StatusReasonForbidden
| StatusReasonConflict
| StatusReasonInternalError
| StatusReasonUnknown.

#[export] Instance StatusReason_eq_dec : EqDecision StatusReason.
Proof. solve_decision. Defined.

Inductive Err :=
| StatusError (reason : StatusReason) (message : string) (causes : list Err)
| Errorf (format : string) (args : list Arg)
| Wrapf (cause : Err) (format : string) (args : list Arg)
| AggregateErr (errs : list Err)
with Arg :=
| AStr (s : string)
| AInt (z : Z)
| APtr (p : option Z)
| AErr (e : Err).

Definition reasonForError (e : option Err) : StatusReason :=
  match e with
  | Some (StatusError r _ _) => r
  | _ => StatusReasonUnknown
  end.

Definition IsNotFound (e : option Err) : bool :=
  bool_decide (reasonForError e = StatusReasonNotFound).
Definition IsAlreadyExists (e : option Err) : bool :=
  bool_decide (reasonForError e = StatusReasonAlreadyExists).

Definition NewNotFound (name : string) : Err := StatusError StatusReasonNotFound name [].

(** utilerrors.NewAggregate: nil entries are dropped, an empty list is nil. *)
Definition NewAggregate (errs : list (option Err)) : option Err :=
  match omap id errs with
  | [] => None
  | es => Some (AggregateErr es)
  end.

Lemma NewAggregate_None errs : NewAggregate errs = None ↔ Forall (λ e, e = None) errs.
Proof.
  unfold NewAggregate. induction errs as [|[e|] errs IH]; simpl.
  - split; auto.
  - split; [done|]. intros H. by inversion H.
  - rewrite IH. split; [auto|]. intros H; by inversion H.
Qed.

(** A Go function that returns [(T, error)] where only one is meaningful:
    [inl] carries the error, [inr] the value. *)
Definition Res (A : Type) : Type := Err + A.

Definition res_err {A} (r : Res A) : option Err :=
  match r with inl e => Some e | inr _ => None end.

(** ** Lists *)

Lemma Forall_choose {A B} (R : A → B → Prop) (l : list A) :
  Forall (λ a, ∃ b, R a b) l → ∃ k, Forall2 R l k.
Proof.
  induction 1 as [|a l [b Hb] _ [k IH]]; [by exists []|]. exists (b :: k). by constructor.
Qed.

(** ** Tactics *)

(** Split the scrutinee of every [match] or [if] that blocks hypothesis [H]. *)
Ltac split_in H :=
  repeat match type of H with
  | context [match ?x with _ => _ end] =>
      match x with context [match _ with _ => _ end] => fail 1 | _ => idtac end;
      let E := fresh "E" in destruct x eqn:E; simplify_eq/=; try done
  end.

(** Identify the results of equal computations. *)
Ltac res_eq :=
  repeat match goal with
  | H1 : ?t = inr _, H2 : ?t = inr _ |- _ => rewrite H1 in H2; injection H2 as ?; subst
  | H1 : ?t = inl _, H2 : ?t = inl _ |- _ => rewrite H1 in H2; injection H2 as ?; subst
  | H1 : ?t = inr _, H2 : ?t = inl _ |- _ => exfalso; rewrite H1 in H2; discriminate H2
  | _ => progress simplify_eq
  end.

(** Run a monadic computation in [H] backwards into its steps. *)
Ltac run_inv H :=
  repeat match type of H with
  | mbind _ _ _ = (Ret _, _) =>
      let a := fresh "a" in let w := fresh "w" in let H1 := fresh "Hrun" in
      apply gom_bind_inv in H as (a & w & H1 & H);
      simpl in H1, H
  end.

(** A decidable proposition without variables, by evaluation. *)
Ltac decide_closed := refine (bool_decide_unpack _ _); vm_compute; exact I.
