(* ===== verification/GoStrings.v ===== *)
(** * Go strings

    What the sources use of package strings and strconv: splitting at a
    one-byte separator, joining, decimal printing ([%d], stdpp's [pretty]) and
    decimal parsing (strconv.ParseInt, base 10), with the lemmas that relate
    them. *)

From S2P Require Import Prelude.
From Stdlib Require Import Ascii.

#[local] Arguments String.append !s1 s2 : simpl nomatch.

Definition itoa (z : Z) : string := pretty z.

(** ** Characters and splitting *)

Fixpoint has_char (d : ascii) (s : string) : bool :=
  match s with
  | EmptyString => false
  | String c s' => bool_decide (c = d) || has_char d s'
  end.

(** strings.SplitN(s, d, 2): the parts around the first [d]. *)
Fixpoint split_first (d : ascii) (s : string) : option (string * string) :=
  match s with
  | EmptyString => None
  | String c s' =>
      if bool_decide (c = d) then Some ("", s')
      else match split_first d s' with
           | Some (a, b) => Some (String c a, b)
           | None => None
           end
  end.

(** strings.SplitN(s, d, 3) *)
Definition split_n3 (d : ascii) (s : string) : list string :=
  match split_first d s with
  | None => [s]
  | Some (a, r) =>
      match split_first d r with
      | None => [a; r]
      | Some (b, c) => [a; b; c]
      end
  end.

(** strings.Split(s, d): never empty. *)
Fixpoint split_all (d : ascii) (s : string) : list string :=
  match s with
  | EmptyString => [""]
  | String c s' =>
      if bool_decide (c = d) then "" :: split_all d s'
      else match split_all d s' with
           | p :: ps => String c p :: ps
           | [] => [String c ""]
           end
  end.

(** strings.Join *)
Fixpoint join (sep : string) (parts : list string) : string :=
  match parts with
  | [] => ""
  | [p] => p
  | p :: ps => p +:+ sep +:+ join sep ps
  end.

Lemma split_first_None d s : has_char d s = false → split_first d s = None.
Proof.
  induction s as [|c s IH]; simpl; [done|]. case_bool_decide; simpl; [done|].
  intros H'. by rewrite IH.
Qed.

Lemma split_first_app d a b :
  has_char d a = false → split_first d (a +:+ String d b) = Some (a, b).
Proof.
  induction a as [|c a IH]; simpl.
  - by rewrite bool_decide_eq_true_2.
  - case_bool_decide; simpl; [done|]. intros Ha. by rewrite IH.
Qed.

Lemma split_first_Some d s a b :
  split_first d s = Some (a, b) → s = a +:+ String d b ∧ has_char d a = false.
Proof.
  revert a. induction s as [|c s IH]; simpl; intros a; [done|].
  case_bool_decide as Hc; [intros; simplify_eq; done|].
  destruct (split_first d s) as [[a' b']|]; [|done]. intros; simplify_eq.
  destruct (IH a') as [-> ?]; [done|]. simpl. by rewrite bool_decide_eq_false_2.
Qed.

Lemma has_char_app d a b : has_char d (a +:+ b) = has_char d a || has_char d b.
Proof.
  induction a as [|c a IH]; simpl; [done|].
  rewrite IH. apply orb_assoc.
Qed.

Lemma string_app_assoc (a b c : string) : (a +:+ b) +:+ c = a +:+ (b +:+ c).
Proof. induction a as [|x a IH]; simpl; [done|by f_equal]. Qed.

Lemma string_app_nil_r (a : string) : a +:+ "" = a.
Proof. induction a as [|x a IH]; simpl; [done|by f_equal]. Qed.

Lemma string_length_app (a b : string) : String.length (a +:+ b) = (String.length a + String.length b)%nat.
Proof. induction a as [|c a IH]; [done|]. change (String c a +:+ b) with (String c (a +:+ b)). simpl. by rewrite IH. Qed.

Lemma string_app_cancel_r (a b c : string) : a +:+ c = b +:+ c → a = b.
Proof.
  revert b. induction a as [|x a IH]; intros [|y b] Heq; [done|..];
    try (apply (f_equal String.length) in Heq; rewrite !string_length_app in Heq; simpl in Heq; lia).
  injection Heq as -> Heq. f_equal. by apply IH.
Qed.

Lemma split_all_nonempty d s : split_all d s ≠ [].
Proof. destruct s; simpl; [done|]. repeat case_match; done. Qed.

Lemma join_split_all d s : join (String d "") (split_all d s) = s.
Proof.
  induction s as [|c s IH]; simpl; [done|]. case_bool_decide as Hc.
  - subst c. pose proof (split_all_nonempty d s).
    destruct (split_all d s) as [|p ps] eqn:E; [done|]. rewrite <-E in *. simpl.
    rewrite E in *. by rewrite IH.
  - pose proof (split_all_nonempty d s).
    destruct (split_all d s) as [|p [|q ps]]; simpl in *; [done|..]; by rewrite <-IH.
Qed.

#[export] Instance split_all_inj d : Inj (=) (=) (split_all d).
Proof. intros s t H. by rewrite <-(join_split_all d s), <-(join_split_all d t), H. Qed.

Lemma split_all_single d s : has_char d s = false → split_all d s = [s].
Proof.
  induction s as [|c s IH]; simpl; [done|]. intros [Hc Hs]%orb_false_iff.
  rewrite Hc, IH by done. done.
Qed.

Lemma split_all_app d s t : has_char d s = false → split_all d (s +:+ String d t) = s :: split_all d t.
Proof.
  induction s as [|c s IH]; simpl; [by rewrite bool_decide_eq_true_2|]. intros [Hc Hs]%orb_false_iff.
  rewrite Hc, IH by done. done.
Qed.

(** strings.Split undoes strings.Join when no part has the separator. *)
Lemma split_all_join d parts :
  parts ≠ [] → Forall (λ p, has_char d p = false) parts → split_all d (join (String d "") parts) = parts.
Proof.
  intros Hne Hall. destruct parts as [|p parts]; [done|]. clear Hne. revert p Hall.
  induction parts as [|q parts IH]; intros p [Hp Hq]%Forall_cons; [by apply split_all_single|].
  change (join (String d "") (p :: q :: parts)) with (p +:+ String d (join (String d "") (q :: parts))).
  rewrite split_all_app by done. f_equal. by apply IH.
Qed.

(** ** Letter case *)

Definition lower_char (c : ascii) : ascii :=
  let n := nat_of_ascii c in
  if decide (65 ≤ n ≤ 90)%nat then ascii_of_nat (n + 32) else c.

(** strings.ToLower on ASCII text; the texts it is compared with are ASCII, and
    no other character has one of their letters as its lower case. *)
Fixpoint ToLower (s : string) : string :=
  match s with
  | EmptyString => ""
  | String c s => String (lower_char c) (ToLower s)
  end.

(** ** Decimal parsing *)

Definition digit_value (c : ascii) : option Z :=
  let n := Z.of_nat (nat_of_ascii c) in
  if (48 <=? n) && (n <=? 57) then Some (n - 48) else None.

Fixpoint parse_digits (acc : Z) (s : string) : option Z :=
  match s with
  | EmptyString => Some acc
  | String c s' =>
      match digit_value c with
      | Some v => parse_digits (10 * acc + v) s'
      | None => None
      end
  end.

Definition parse_unsigned (s : string) : option Z :=
  match s with
  | EmptyString => None
  | _ => parse_digits 0 s
  end.

Definition int64_max : Z := 9223372036854775807.

Definition check_max (m : Z) (o : option Z) : option Z :=
  match o with
  | Some z => if decide (z ≤ m) then Some z else None
  | None => None
  end.

(** strconv.ParseInt(s, 10, 64), [None] for its syntax and range errors. *)
Definition parse_int64 (s : string) : option Z :=
  match s with
  | String "+"%char s' => check_max int64_max (parse_unsigned s')
  | String "-"%char s' => Z.opp <$> check_max (int64_max + 1) (parse_unsigned s')
  | _ => check_max int64_max (parse_unsigned s)
  end.

Lemma digit_value_pretty x :
  (x < 10)%N → digit_value (pretty_N_char x) = Some (Z.of_N x).
Proof.
  intros Hx.
  assert (x = 0 ∨ x = 1 ∨ x = 2 ∨ x = 3 ∨ x = 4 ∨ x = 5 ∨ x = 6
          ∨ x = 7 ∨ x = 8 ∨ x = 9)%N by lia. naive_solver.
Qed.

Lemma parse_digits_pretty_go x s :
  parse_digits 0 (pretty_N_go x s) = parse_digits (Z.of_N x) s.
Proof.
  revert s. induction (N.lt_wf_0 x) as [x _ IH]; intros s.
  destruct (decide (x = 0)%N) as [->|]; [done|].
  rewrite pretty_N_go_step by lia. rewrite IH by (apply N.div_lt; lia). simpl.
  rewrite digit_value_pretty by (apply N.mod_lt; lia). f_equal.
  rewrite N2Z.inj_div, N2Z.inj_mod. pose proof (Z.div_mod (Z.of_N x) 10). lia.
Qed.

(** The characters of a decimal number are digits. *)
Definition all_digits (s : string) : bool :=
  forallb (λ c, bool_decide (is_Some (digit_value c))) (String.list_ascii_of_string s).

Lemma all_digits_pretty_go x s : all_digits s = true → all_digits (pretty_N_go x s) = true.
Proof.
  revert s. induction (N.lt_wf_0 x) as [x _ IH]; intros s Hs.
  destruct (decide (x = 0)%N) as [->|]; [done|].
  rewrite pretty_N_go_step by lia. apply IH; [apply N.div_lt; lia|].
  unfold all_digits in *. simpl. rewrite Hs, andb_true_r.
  rewrite digit_value_pretty by (apply N.mod_lt; lia). by apply bool_decide_eq_true.
Qed.

Lemma itoa_all_digits z : 0 ≤ z → all_digits (itoa z) = true.
Proof.
  intros Hz. destruct z as [|p|p]; [done| |lia]. unfold itoa, pretty, pretty_Z, pretty, pretty_positive, pretty, pretty_N.
  rewrite decide_False by lia. by apply all_digits_pretty_go.
Qed.

Lemma all_digits_has_char d s :
  all_digits s = true → digit_value d = None → has_char d s = false.
Proof.
  unfold all_digits. induction s as [|c s IH]; simpl; [done|].
  intros [Hc%bool_decide_eq_true Hs]%andb_true_iff Hd. rewrite IH by done.
  rewrite bool_decide_eq_false_2; [done|]. intros ->. rewrite Hd in Hc. by destruct Hc.
Qed.

Lemma itoa_has_char d z : 0 ≤ z → digit_value d = None → has_char d (itoa z) = false.
Proof. intros. apply all_digits_has_char; auto using itoa_all_digits. Qed.

Lemma pretty_N_go_nonempty x s : s ≠ "" → pretty_N_go x s ≠ "".
Proof.
  revert s. induction (N.lt_wf_0 x) as [x _ IH]; intros s Hs.
  destruct (decide (x = 0)%N) as [->|]; [done|].
  rewrite pretty_N_go_step by lia. apply IH; [apply N.div_lt; lia|done].
Qed.

Lemma parse_unsigned_itoa z : 0 ≤ z → parse_unsigned (itoa z) = Some z.
Proof.
  intros Hz. destruct z as [|p|p]; [done| |lia].
  unfold itoa, pretty, pretty_Z, pretty, pretty_positive, pretty, pretty_N.
  rewrite decide_False by lia. unfold parse_unsigned.
  destruct (pretty_N_go (N.pos p) "") eqn:E; [|by rewrite <-E, parse_digits_pretty_go].
  rewrite pretty_N_go_step in E by lia. by apply pretty_N_go_nonempty in E.
Qed.

Lemma parse_int64_unsigned s z :
  all_digits s = true → parse_unsigned s = Some z → z ≤ int64_max → parse_int64 s = Some z.
Proof.
  intros Hs Hp Hz. unfold parse_int64.
  assert (check_max int64_max (parse_unsigned s) = Some z) as Hmain.
  { rewrite Hp. simpl. by rewrite decide_True. }
  repeat case_match; subst; done.
Qed.

Lemma parse_int64_itoa z : 0 ≤ z ≤ int64_max → parse_int64 (itoa z) = Some z.
Proof.
  intros. apply parse_int64_unsigned; [apply itoa_all_digits|apply parse_unsigned_itoa|]; lia.
Qed.

(** A number that carries no sign parses to a non-negative value. *)
Lemma parse_digits_nonneg acc s z : 0 ≤ acc → parse_digits acc s = Some z → 0 ≤ z.
Proof.
  revert acc. induction s as [|c s IH]; simpl; intros acc Hacc; [naive_solver|].
  unfold digit_value.
  destruct (_ && _) eqn:E; [|done]. apply IH. apply andb_true_iff in E as [?%Z.leb_le _]. lia.
Qed.

Lemma parse_unsigned_nonneg s z : parse_unsigned s = Some z → 0 ≤ z.
Proof. destruct s; [done|]. by apply parse_digits_nonneg. Qed.

Lemma check_max_Some m o z : check_max m o = Some z → o = Some z ∧ z ≤ m.
Proof. destruct o; simpl; [case_decide|]; naive_solver. Qed.

Lemma parse_int64_range s z :
  has_char "-"%char s = false → parse_int64 s = Some z → 0 ≤ z ≤ int64_max.
Proof.
  assert (∀ t, check_max int64_max (parse_unsigned t) = Some z → 0 ≤ z ≤ int64_max) as Hmain.
  { intros t [?%parse_unsigned_nonneg ?]%check_max_Some. lia. }
  unfold parse_int64. intros Hs H. repeat case_match; subst; first [done|by eauto].
Qed.

(** ** Names with a numeric suffix: [fmt.Sprintf("%s-%d", name, i)] *)

Definition dash_name (base suffix : string) : string := base +:+ "-" +:+ suffix.

(** The suffix after the last dash determines the split when it has no dash. *)
Lemma dash_name_inj b1 b2 s1 s2 :
  has_char "-"%char s1 = false → has_char "-"%char s2 = false →
  dash_name b1 s1 = dash_name b2 s2 → b1 = b2 ∧ s1 = s2.
Proof.
  unfold dash_name. intros H1 H2. revert b2.
  induction b1 as [|c b1 IH]; intros [|c' b2]; simpl; intros Heq; simplify_eq.
  - done.
  - exfalso. rewrite has_char_app in H1. simpl in H1. by rewrite orb_true_r in H1.
  - exfalso. rewrite has_char_app in H2. simpl in H2. by rewrite orb_true_r in H2.
  - match goal with H : _ = _ |- _ => destruct (IH _ H); by subst end.
Qed.
