(* ===== verification/Semver.v ===== *)
(** * github.com/coreos/go-semver

    The vendored version type of ElasticsearchCluster: parsing ([Set],
    [NewVersion]), printing ([String]) and comparison. *)

From S2P Require Import Prelude GoStrings.
From Stdlib Require Import Ascii.

#[local] Arguments String.append !s1 s2 : simpl nomatch.

Record Version := mkVersion {
  v_Major : Z;
  v_Minor : Z;
  v_Patch : Z;
  v_PreRelease : string;
  v_Metadata : string;
}.

#[export] Instance Version_eq_dec : EqDecision Version.
Proof. solve_decision. Defined.

Definition emptyVersion : Version := mkVersion 0 0 0 "" "".

Definition splitOff (input : string) (delim : ascii) : string * string :=
  match split_first delim input with
  | Some (a, b) => (a, b)
  | None => (input, "")
  end.

Definition Version_Set (version : string) : option Version :=
  let '(version, metadata) := splitOff version "+"%char in
  let '(version, preRelease) := splitOff version "-"%char in
  match split_n3 "."%char version with
  | [a; b; c] =>
      major ← parse_int64 a;
      minor ← parse_int64 b;
      patch ← parse_int64 c;
      Some (mkVersion major minor patch preRelease metadata)
  | _ => None
  end.

Definition NewVersion (version : string) : option Version := Version_Set version.

Definition Version_String (v : Version) : string :=
  itoa (v_Major v) +:+ "." +:+ itoa (v_Minor v) +:+ "." +:+ itoa (v_Patch v) +:+
  (if bool_decide (v_PreRelease v = "") then "" else "-" +:+ v_PreRelease v) +:+
  (if bool_decide (v_Metadata v = "") then "" else "+" +:+ v_Metadata v).

(** ** Comparison *)

Definition comparisonZ (c : comparison) : Z :=
  match c with Lt => -1 | Eq => 0 | Gt => 1 end.

Fixpoint recursiveCompare (a b : list Z) : Z :=
  match a, b with
  | x :: a', y :: b' =>
      if x >? y then 1 else if x <? y then -1 else recursiveCompare a' b'
  | _, _ => 0
  end.

(** [a > b] and [a < b] on Go strings compare bytes. *)
Fixpoint recursivePreReleaseCompare (a b : list string) : Z :=
  match a, b with
  | [], [] => 0
  | [], _ :: _ => -1
  | _ :: _, [] => 1
  | x :: a', y :: b' =>
      let strings :=
        match String.compare x y with
        | Gt => 1
        | Lt => -1
        | Eq => recursivePreReleaseCompare a' b'
        end in
      match parse_int64 x, parse_int64 y with
      | Some xi, Some yi => if xi >? yi then 1 else if xi <? yi then -1 else strings
      | _, _ => strings
      end
  end.

Definition PreRelease_Slice (p : string) : list string := split_all "."%char p.

Definition preReleaseCompare (a b : Version) : Z :=
  let pa := v_PreRelease a in
  let pb := v_PreRelease b in
  if bool_decide (pa = "") && negb (bool_decide (pb = "")) then 1
  else if bool_decide (pb = "") && negb (bool_decide (pa = "")) then -1
  else recursivePreReleaseCompare (PreRelease_Slice pa) (PreRelease_Slice pb).

Definition Version_Slice (v : Version) : list Z := [v_Major v; v_Minor v; v_Patch v].

Definition Version_Compare (a b : Version) : Z :=
  let cmp := recursiveCompare (Version_Slice a) (Version_Slice b) in
  if bool_decide (cmp = 0) then preReleaseCompare a b else cmp.

Definition Version_Equal (a b : Version) : bool := bool_decide (Version_Compare a b = 0).

(** ** Well-formed versions *)

Definition int64_nonneg (z : Z) : Prop := 0 ≤ z ≤ int64_max.

(** What a parsed version satisfies: numbers without sign, and a pre-release
    part that does not run into the metadata. *)
Record wf_Version (v : Version) : Prop := {
  wf_Major : int64_nonneg (v_Major v);
  wf_Minor : int64_nonneg (v_Minor v);
  wf_Patch : int64_nonneg (v_Patch v);
  wf_PreRelease : has_char "+"%char (v_PreRelease v) = false;
}.

#[export] Instance wf_Version_dec v : Decision (wf_Version v).
Proof.
  destruct (decide (int64_nonneg (v_Major v) ∧ int64_nonneg (v_Minor v) ∧
    int64_nonneg (v_Patch v) ∧ has_char "+"%char (v_PreRelease v) = false)) as [H|H].
  - left. destruct H as (?&?&?&?). by split.
  - right. intros []. by apply H.
Defined.

Lemma splitOff_has_char input d a b :
  splitOff input d = (a, b) → has_char d a = false.
Proof.
  unfold splitOff. destruct (split_first d input) as [[a' b']|] eqn:E; intros; simplify_eq.
  - by apply split_first_Some in E as [_ ?].
  - induction a as [|c a IH]; simpl in *; [done|]. case_bool_decide; [done|].
    apply IH. by destruct (split_first d a) as [[]|].
Qed.

Lemma splitOff_sub d d' input a b :
  splitOff input d = (a, b) → has_char d' input = false →
  has_char d' a = false ∧ has_char d' b = false.
Proof.
  unfold splitOff. destruct (split_first d input) as [[a' b']|] eqn:E; intros; simplify_eq; [|done].
  apply split_first_Some in E as [-> _]. rewrite has_char_app in *. simpl in *.
  by repeat match goal with H : _ || _ = false |- _ => apply orb_false_iff in H as [? ?] end.
Qed.

Lemma split_n3_has_char d d' s a b c :
  split_n3 d s = [a; b; c] → has_char d' s = false →
  has_char d' a = false ∧ has_char d' b = false ∧ has_char d' c = false.
Proof.
  unfold split_n3. destruct (split_first d s) as [[x r]|] eqn:E; [|done].
  destruct (split_first d r) as [[y z]|] eqn:E'; [|done]. intros ? Hs; simplify_eq.
  apply split_first_Some in E as [-> _]. apply split_first_Some in E' as [-> _].
  rewrite has_char_app in Hs. simpl in Hs.
  apply orb_false_iff in Hs as [? Hs]. apply orb_false_iff in Hs as [_ Hs].
  rewrite has_char_app in Hs. simpl in Hs.
  apply orb_false_iff in Hs as [? Hs]. by apply orb_false_iff in Hs as [_ ?].
Qed.

Lemma NewVersion_wf s v : NewVersion s = Some v → wf_Version v.
Proof.
  unfold NewVersion, Version_Set.
  destruct (splitOff s _) as [s1 meta] eqn:E1. destruct (splitOff s1 _) as [s2 pre] eqn:E2.
  destruct (split_n3 _ s2) as [|a [|b [|c []]]] eqn:E3; try done.
  apply splitOff_has_char in E1. pose proof (splitOff_has_char _ _ _ _ E2) as Hd.
  destruct (splitOff_sub _ _ _ _ _ E2 E1) as [_ Hpre].
  destruct (split_n3_has_char _ _ _ _ _ _ E3 Hd) as (Ha & Hb & Hc).
  intros H. simplify_option_eq. split; simpl; try done;
    (eapply parse_int64_range; [|eassumption]; done).
Qed.

(** ** Parsing inverts printing *)

Lemma splitOff_app d a b : has_char d a = false → splitOff (a +:+ String d b) d = (a, b).
Proof. intros. unfold splitOff. by rewrite split_first_app. Qed.

Lemma splitOff_none d a : has_char d a = false → splitOff a d = (a, "").
Proof. intros. unfold splitOff. by rewrite split_first_None. Qed.

(** An optional suffix introduced by [d] is split off, present or not. *)
Lemma splitOff_suffix d a b :
  has_char d a = false →
  splitOff (a +:+ (if bool_decide (b = "") then "" else String d b)) d = (a, b).
Proof.
  intros. case_bool_decide; subst.
  - rewrite string_app_nil_r. by apply splitOff_none.
  - by apply splitOff_app.
Qed.

Lemma Version_String_NewVersion v : wf_Version v → NewVersion (Version_String v) = Some v.
Proof.
  intros [[??] [??] [??] Hpre]. unfold NewVersion, Version_Set, Version_String.
  set (nums := itoa (v_Major v) +:+ "." +:+ itoa (v_Minor v) +:+ "." +:+ itoa (v_Patch v)).
  assert (∀ d, digit_value d = None → d ≠ "."%char → has_char d nums = false) as Hnums.
  { intros d Hd Hdot. unfold nums. repeat (rewrite has_char_app; simpl).
    rewrite !itoa_has_char by done. by rewrite bool_decide_eq_false_2. }
  set (pre := if bool_decide (v_PreRelease v = "") then "" else "-" +:+ v_PreRelease v).
  replace (_ +:+ _) with ((nums +:+ pre) +:+
    (if bool_decide (v_Metadata v = "") then "" else String "+"%char (v_Metadata v))).
  2:{ unfold nums. by rewrite !string_app_assoc. }
  rewrite splitOff_suffix.
  2:{ rewrite has_char_app, Hnums by done. unfold pre. by case_bool_decide. }
  unfold pre. change ("-" +:+ v_PreRelease v) with (String "-"%char (v_PreRelease v)).
  rewrite splitOff_suffix by by apply Hnums.
  unfold split_n3, nums.
  change ("." +:+ itoa (v_Minor v) +:+ "." +:+ itoa (v_Patch v))
    with (String "."%char (itoa (v_Minor v) +:+ String "."%char (itoa (v_Patch v)))).
  rewrite !split_first_app by (apply itoa_has_char; done).
  rewrite !parse_int64_itoa by done. simpl. by destruct v.
Qed.

(** ** What [Equal] compares *)

Lemma recursiveCompare_refl l : recursiveCompare l l = 0.
Proof.
  induction l as [|x l IH]; simpl; [done|]. by rewrite Z.gtb_ltb, Z.ltb_irrefl.
Qed.

Lemma string_compare_refl s : String.compare s s = Eq.
Proof.
  pose proof (String.compare_antisym s s). by destruct (String.compare s s).
Qed.

Lemma recursivePreReleaseCompare_0 a b : recursivePreReleaseCompare a b = 0 ↔ a = b.
Proof.
  split.
  - revert b. induction a as [|x a IH]; intros [|y b]; simpl; try done.
    assert (match String.compare x y with
            | Eq => recursivePreReleaseCompare a b | Lt => -1 | Gt => 1 end = 0 →
            x :: a = y :: b) as Hs.
    { destruct (String.compare x y) eqn:E; try done.
      apply String.compare_eq_iff in E as ->. intros ?%IH. by subst. }
    repeat case_match; done || auto.
  - intros <-. induction a as [|x a IH]; simpl; [done|].
    rewrite string_compare_refl. destruct (parse_int64 x); [|done].
    by rewrite Z.gtb_ltb, Z.ltb_irrefl.
Qed.

(** [Equal] holds exactly when everything but the metadata is the same. *)
Lemma Version_Equal_spec a b :
  Version_Equal a b = true ↔
  v_Major a = v_Major b ∧ v_Minor a = v_Minor b ∧ v_Patch a = v_Patch b ∧
  v_PreRelease a = v_PreRelease b.
Proof.
  unfold Version_Equal. rewrite bool_decide_eq_true. unfold Version_Compare. split.
  - case_bool_decide as Hc; [|done]. intros Hp. simpl in Hc.
    repeat case_match; try done.
    rewrite Z.gtb_ltb, Z.ltb_ge in *. repeat split; try lia.
    unfold preReleaseCompare in Hp. repeat case_match; try done.
    apply recursivePreReleaseCompare_0 in Hp. by apply (inj _) in Hp.
  - intros (H1 & H2 & H3 & H4).
    assert (Version_Slice a = Version_Slice b) as -> by (unfold Version_Slice; congruence).
    rewrite recursiveCompare_refl, bool_decide_eq_true_2 by done.
    unfold preReleaseCompare. rewrite H4.
    destruct (bool_decide (v_PreRelease b = "")) eqn:E; simpl;
      by apply recursivePreReleaseCompare_0.
Qed.

Lemma Version_Equal_refl v : Version_Equal v v = true.
Proof. by apply Version_Equal_spec. Qed.

#[export] Hint Resolve Version_Equal_refl NewVersion_wf : navigator.
