(* ===== verification/K8s.v ===== *)
(** * Kubernetes objects the controllers read and write

    The fields of the vendored API types (metav1.ObjectMeta, apps/v1beta1
    StatefulSet, core/v1 Pod, Service, ...) that Navigator reads, compares or
    sets, the owner-reference helpers of metav1 and the equality-based label
    selectors of k8s.io/apimachinery/pkg/labels.  A nil pointer or nil map is
    [None]; a slice whose nil-ness [reflect.DeepEqual] can observe is an
    [option (list _)]. *)

From S2P Require Import Prelude.
From Stdlib Require Import Ascii.

Abbreviation smap := (gmap string string).

(** Reading a nil or non-nil Go map; the second component of the read is the
    [ok] flag. *)
Definition map_get {V} (m : option (gmap string V)) (k : string) : option V :=
  m ≫= λ m', m' !! k.

(** [m[k]] on a map of strings: the zero value when the key is missing. *)
Definition map_get0 (m : option smap) (k : string) : string := default "" (map_get m k).

(** ** metav1 *)

Record OwnerReference := mkOwnerReference {
  or_APIVersion : string;
  or_Kind : string;
  or_Name : string;
  or_UID : string;
  or_Controller : option bool;
  or_BlockOwnerDeletion : option bool;
}.

#[export] Instance OwnerReference_eq_dec : EqDecision OwnerReference.
Proof. solve_decision. Defined.

Record ObjectMeta := mkObjectMeta {
  om_Name : string;
  om_Namespace : string;
  om_UID : string;
  om_ResourceVersion : string;
  om_Labels : option smap;
  om_Annotations : option smap;
  om_OwnerReferences : list OwnerReference;
  om_DeletionTimestamp : option Z;
}.

#[export] Instance ObjectMeta_eq_dec : EqDecision ObjectMeta.
Proof. solve_decision. Defined.

(** An object literal that sets only name, namespace, labels, annotations and
    owners leaves the server-side fields at their zero value. *)
Definition newObjectMeta (name namespace : string) (labels annotations : option smap)
    (owners : list OwnerReference) : ObjectMeta :=
  mkObjectMeta name namespace "" "" labels annotations owners None.

(** Objects that carry metadata: what meta.Accessor gives access to. *)
Class HasMeta (T : Type) := {
  objMeta : T → ObjectMeta;
  withMeta : ObjectMeta → T → T;
  objMeta_withMeta m obj : objMeta (withMeta m obj) = m;
  withMeta_withMeta m m' obj : withMeta m (withMeta m' obj) = withMeta m obj;
}.

Record GroupVersionKind := mkGVK { gvk_Group : string; gvk_Version : string; gvk_Kind : string }.

(** schema.GroupVersion.String *)
Definition GroupVersion_String (g v : string) : string :=
  if bool_decide (g = "") then (if bool_decide (v = "") then "" else v)
  else g +:+ "/" +:+ v.

Definition NewControllerRef (owner : ObjectMeta) (gvk : GroupVersionKind) : OwnerReference :=
  {| or_APIVersion := GroupVersion_String (gvk_Group gvk) (gvk_Version gvk);
     or_Kind := gvk_Kind gvk;
     or_Name := om_Name owner;
     or_UID := om_UID owner;
     or_Controller := Some true;
     or_BlockOwnerDeletion := Some true |}.

Fixpoint firstController (refs : list OwnerReference) : option OwnerReference :=
  match refs with
  | [] => None
  | ref :: rest =>
      match or_Controller ref with
      | Some true => Some ref
      | _ => firstController rest
      end
  end.

Definition GetControllerOf (obj : ObjectMeta) : option OwnerReference :=
  firstController (om_OwnerReferences obj).

Definition IsControlledBy (obj owner : ObjectMeta) : bool :=
  match GetControllerOf obj with
  | None => false
  | Some ref => bool_decide (or_UID ref = om_UID owner)
  end.

(** ** Label selectors *)

Definition is_alnum (c : ascii) : bool :=
  let n := nat_of_ascii c in
  ((48 <=? n) && (n <=? 57) || (65 <=? n) && (n <=? 90) || (97 <=? n) && (n <=? 122))%nat.

Definition is_label_char (c : ascii) : bool :=
  is_alnum c || bool_decide (c = "-"%char) || bool_decide (c = "_"%char) || bool_decide (c = "."%char).

Fixpoint string_chars (s : string) : list ascii :=
  match s with
  | EmptyString => []
  | String c s' => c :: string_chars s'
  end.

(** (([A-Za-z0-9][-A-Za-z0-9_.]* )?[A-Za-z0-9])? *)
Definition matchesLabelValueRegexp (value : string) : bool :=
  match string_chars value with
  | [] => true
  | c :: cs => is_alnum c && forallb is_label_char (c :: cs) && is_alnum (List.last (c :: cs) c)
  end.

Definition LabelValueMaxLength : nat := 63.

Definition IsValidLabelValue (value : string) : bool :=
  (String.length value <=? LabelValueMaxLength)%nat && matchesLabelValueRegexp value.

(** Requirements built with [selection.Equals] and a valid constant key. *)
Record Requirement := mkRequirement { req_key : string; req_value : string }.

Definition NewRequirement (key value : string) : Res Requirement :=
  if IsValidLabelValue value then inr (mkRequirement key value)
  else inl (Errorf "invalid label value: %q: %s" [AStr value]).

Definition Requirement_Matches (r : Requirement) (ls : option smap) : bool :=
  bool_decide (map_get ls (req_key r) = Some (req_value r)).

Abbreviation Selector := (list Requirement).

Definition Selector_Matches (sel : Selector) (ls : option smap) : bool :=
  forallb (λ r, Requirement_Matches r ls) sel.

(** ** core/v1 *)

(** resource.Quantity: value * 10^scale, from its int64Amount or its inf.Dec
    (Memory.v has the two forms), with its format and cached string. *)
Record Quantity := mkQuantity { q_value : Z; q_scale : Z; q_Format : string; q_s : string }.

#[export] Instance Quantity_eq_dec : EqDecision Quantity.
Proof. solve_decision. Defined.

Definition Quantity_IsZero (q : Quantity) : bool := bool_decide (q_value q = 0).
Definition Quantity_Sign (q : Quantity) : Z := Z.sgn (q_value q).

(** resource.MustParse on the two literals the sources use. *)
Definition quantity_10m : Quantity := mkQuantity 10 (-3) "DecimalSI" "10m".
Definition quantity_50Mi : Quantity := mkQuantity 52428800 0 "BinarySI" "50Mi".

Record ResourceRequirements := mkResourceRequirements {
  rr_Limits : option (gmap string Quantity);
  rr_Requests : option (gmap string Quantity);
}.

#[export] Instance ResourceRequirements_eq_dec : EqDecision ResourceRequirements.
Proof. solve_decision. Defined.

Inductive VolumeSource :=
| EmptyDir
| ConfigMapSource (name : string).

Record Volume := mkVolume { vol_Name : string; vol_Source : VolumeSource }.

Record VolumeMount := mkVolumeMount { vm_Name : string; vm_MountPath : string; vm_ReadOnly : bool }.

(** An environment variable is a literal or a reference to a pod field. *)
Inductive EnvValue :=
| EnvLiteral (value : string)
| EnvFieldRef (fieldPath : string).

Record EnvVar := mkEnvVar { env_Name : string; env_Value : EnvValue }.

Record Probe := mkProbe {
  probe_Port : Z;
  probe_Path : string;
  probe_InitialDelaySeconds : Z;
  probe_TimeoutSeconds : Z;
  probe_PeriodSeconds : Z;
  probe_SuccessThreshold : Z;
  probe_FailureThreshold : Z;
}.

Record ContainerPort := mkContainerPort { cp_Name : string; cp_ContainerPort : Z }.

Record SecurityContext := mkSecurityContext {
  sc_RunAsUser : option Z;
  sc_CapabilitiesAdd : option (list string);
}.

Record Container := mkContainer {
  ct_Name : string;
  ct_Image : string;
  ct_ImagePullPolicy : string;
  ct_Command : list string;
  ct_Args : list string;
  ct_Env : list EnvVar;
  ct_SecurityContext : option SecurityContext;
  ct_ReadinessProbe : option Probe;
  ct_LivenessProbe : option Probe;
  ct_Resources : ResourceRequirements;
  ct_Ports : list ContainerPort;
  ct_VolumeMounts : list VolumeMount;
}.

Definition set_Image (image : string) (c : Container) : Container :=
  {| ct_Name := ct_Name c; ct_Image := image; ct_ImagePullPolicy := ct_ImagePullPolicy c;
     ct_Command := ct_Command c; ct_Args := ct_Args c; ct_Env := ct_Env c;
     ct_SecurityContext := ct_SecurityContext c; ct_ReadinessProbe := ct_ReadinessProbe c;
     ct_LivenessProbe := ct_LivenessProbe c; ct_Resources := ct_Resources c;
     ct_Ports := ct_Ports c; ct_VolumeMounts := ct_VolumeMounts c |}.

Record PodSpec := mkPodSpec {
  ps_TerminationGracePeriodSeconds : option Z;
  ps_ServiceAccountName : string;
  ps_NodeSelector : option smap;
  ps_SchedulerName : string;
  (** SecurityContext.FSGroup *)
  ps_FSGroup : option Z;
  ps_Volumes : list Volume;
  ps_InitContainers : list Container;
  ps_Containers : list Container;
}.

Record PodTemplateSpec := mkPodTemplateSpec {
  pt_Labels : option smap;
  pt_Annotations : option smap;
  pt_Spec : PodSpec;
}.

Record Pod := mkPod { pod_Meta : ObjectMeta; pod_Spec : PodSpec }.

Definition set_om_Labels (ls : option smap) (m : ObjectMeta) : ObjectMeta :=
  mkObjectMeta (om_Name m) (om_Namespace m) (om_UID m) (om_ResourceVersion m)
    ls (om_Annotations m) (om_OwnerReferences m) (om_DeletionTimestamp m).

Definition set_om_Annotations (an : option smap) (m : ObjectMeta) : ObjectMeta :=
  mkObjectMeta (om_Name m) (om_Namespace m) (om_UID m) (om_ResourceVersion m)
    (om_Labels m) an (om_OwnerReferences m) (om_DeletionTimestamp m).

Record PersistentVolumeClaim := mkPVC {
  pvc_Name : string;
  pvc_Annotations : option smap;
  pvc_AccessModes : list string;
  pvc_StorageClassName : option string;
  pvc_StorageRequest : Quantity;
}.

(** TargetPort is an intstr.IntOrString; [None] is its zero value. *)
Record ServicePort := mkServicePort {
  sp_Name : string; sp_Port : Z; sp_TargetPort : option Z }.

Record Service := mkService {
  svc_Meta : ObjectMeta;
  svc_ClusterIP : string;
  svc_Type : string;
  svc_Selector : option smap;
  svc_Ports : list ServicePort;
  svc_PublishNotReadyAddresses : bool;
}.

Record ServiceAccount := mkServiceAccount { sa_Meta : ObjectMeta }.

Record ConfigMap := mkConfigMap { cm_Meta : ObjectMeta; cm_Data : option smap }.

(** ** rbac/v1beta1 *)

Record PolicyRule := mkPolicyRule {
  pr_Verbs : option (list string);
  pr_APIGroups : option (list string);
  pr_Resources : option (list string);
  pr_ResourceNames : option (list string);
  pr_NonResourceURLs : option (list string);
}.

#[export] Instance PolicyRule_eq_dec : EqDecision PolicyRule.
Proof. solve_decision. Defined.

Record Role := mkRole { role_Meta : ObjectMeta; role_Rules : option (list PolicyRule) }.

Record Subject := mkSubject {
  subj_Kind : string; subj_APIGroup : string; subj_Name : string; subj_Namespace : string }.

#[export] Instance Subject_eq_dec : EqDecision Subject.
Proof. solve_decision. Defined.

Record RoleRef := mkRoleRef { rref_APIGroup : string; rref_Kind : string; rref_Name : string }.

#[export] Instance RoleRef_eq_dec : EqDecision RoleRef.
Proof. solve_decision. Defined.

Record RoleBinding := mkRoleBinding {
  rb_Meta : ObjectMeta; rb_Subjects : option (list Subject); rb_RoleRef : RoleRef }.

(** ** apps/v1beta1 *)

(** RollingUpdateStatefulSetStrategy *)
Record RollingUpdate := mkRollingUpdate { ru_Partition : option Z }.

Record StatefulSetSpec := mkStatefulSetSpec {
  sss_Replicas : option Z;
  sss_Selector : option smap;
  sss_Template : PodTemplateSpec;
  sss_VolumeClaimTemplates : list PersistentVolumeClaim;
  sss_ServiceName : string;
  sss_PodManagementPolicy : string;
  sss_UpdateStrategyType : string;
  sss_RollingUpdate : option RollingUpdate;
}.

Record StatefulSetStatus := mkStatefulSetStatus {
  sst_ReadyReplicas : Z;
  sst_CurrentReplicas : Z;
  sst_UpdatedReplicas : Z;
}.

Record StatefulSet := mkStatefulSet {
  ss_Meta : ObjectMeta;
  ss_Spec : StatefulSetSpec;
  ss_Status : StatefulSetStatus;
}.

Definition ss_Name (ss : StatefulSet) : string := om_Name (ss_Meta ss).
Definition ss_Namespace (ss : StatefulSet) : string := om_Namespace (ss_Meta ss).
Definition ss_Replicas (ss : StatefulSet) : option Z := sss_Replicas (ss_Spec ss).

(** [set.Spec.Replicas = &n] *)
Definition set_Replicas (n : Z) (ss : StatefulSet) : StatefulSet :=
  let sp := ss_Spec ss in
  mkStatefulSet (ss_Meta ss)
    (mkStatefulSetSpec (Some n) (sss_Selector sp) (sss_Template sp) (sss_VolumeClaimTemplates sp)
       (sss_ServiceName sp) (sss_PodManagementPolicy sp) (sss_UpdateStrategyType sp)
       (sss_RollingUpdate sp))
    (ss_Status ss).

(** [set.Spec.UpdateStrategy.RollingUpdate.Partition = &n], the RollingUpdate
    pointer being initialised first when nil. *)
Definition set_Partition (n : Z) (ss : StatefulSet) : StatefulSet :=
  let sp := ss_Spec ss in
  mkStatefulSet (ss_Meta ss)
    (mkStatefulSetSpec (sss_Replicas sp) (sss_Selector sp) (sss_Template sp)
       (sss_VolumeClaimTemplates sp) (sss_ServiceName sp) (sss_PodManagementPolicy sp)
       (sss_UpdateStrategyType sp) (Some (mkRollingUpdate (Some n))))
    (ss_Status ss).

Definition set_Containers (cs : list Container) (ss : StatefulSet) : StatefulSet :=
  let sp := ss_Spec ss in
  let t := sss_Template sp in
  let p := pt_Spec t in
  mkStatefulSet (ss_Meta ss)
    (mkStatefulSetSpec (sss_Replicas sp) (sss_Selector sp)
       (mkPodTemplateSpec (pt_Labels t) (pt_Annotations t)
          (mkPodSpec (ps_TerminationGracePeriodSeconds p) (ps_ServiceAccountName p)
             (ps_NodeSelector p) (ps_SchedulerName p) (ps_FSGroup p) (ps_Volumes p)
             (ps_InitContainers p) cs))
       (sss_VolumeClaimTemplates sp) (sss_ServiceName sp) (sss_PodManagementPolicy sp)
       (sss_UpdateStrategyType sp) (sss_RollingUpdate sp))
    (ss_Status ss).

Definition ss_Containers (ss : StatefulSet) : list Container :=
  ps_Containers (pt_Spec (sss_Template (ss_Spec ss))).

(** [set.Annotations[k] = v] on a non-nil annotation map. *)
Definition set_Annotation (k v : string) (an : smap) (ss : StatefulSet) : StatefulSet :=
  mkStatefulSet (set_om_Annotations (Some (<[k := v]> an)) (ss_Meta ss)) (ss_Spec ss) (ss_Status ss).

(** ** Well-formed objects *)

(** [selects sel labels]: a label selector given as a map matches the labels. *)
Definition selects (sel labels : option smap) : Prop :=
  ∀ k v, map_get sel k = Some v → map_get labels k = Some v.

(** Every mount of a container names a volume of the pod or a claim of the set. *)
Definition mountsResolved (ss : StatefulSet) : Prop :=
  let spec := pt_Spec (sss_Template (ss_Spec ss)) in
  ∀ ct m, ct ∈ ps_InitContainers spec ++ ps_Containers spec → m ∈ ct_VolumeMounts ct →
    vm_Name m ∈ map vol_Name (ps_Volumes spec) ++ map pvc_Name (sss_VolumeClaimTemplates (ss_Spec ss)).

(** ** Facts about owner references and selectors *)

Lemma GetControllerOf_Controller obj ref :
  GetControllerOf obj = Some ref →
  or_Controller ref = Some true ∧ ref ∈ om_OwnerReferences obj.
Proof.
  unfold GetControllerOf. induction (om_OwnerReferences obj) as [|r rs IH]; simpl; [done|].
  destruct (or_Controller r) as [[]|] eqn:E; intros; simplify_eq; [set_solver|..];
    destruct IH; [done|set_solver|done|set_solver].
Qed.

(** An object created with the owner's controller reference is controlled by
    that owner. *)
Lemma IsControlledBy_new owner gvk name ns ls an :
  IsControlledBy (newObjectMeta name ns ls an [NewControllerRef owner gvk]) owner = true.
Proof. unfold IsControlledBy. simpl. by apply bool_decide_eq_true. Qed.

Lemma Selector_Matches_spec sel ls :
  Selector_Matches sel ls = true ↔
  ∀ r, r ∈ sel → map_get ls (req_key r) = Some (req_value r).
Proof.
  unfold Selector_Matches. rewrite forallb_forall. unfold Requirement_Matches.
  setoid_rewrite bool_decide_eq_true. by setoid_rewrite list_elem_of_In.
Qed.
