(* ===== verification/WorkQueue.v ===== *)
(** * The work queue and the workers of a controller

    vendor/k8s.io/client-go/util/workqueue (queue.go, the delayed additions of
    delaying_queue.go, the rate limiter's failure counts) and the
    [processNextWorkItem] of the three controllers, as a transition system of
    any number of workers.  A label is one atomic section of the code: a call
    that holds the queue's lock, or the end of a worker's sync. *)

From S2P Require Import Prelude.

(** ** queue.go *)

Record Queue := mkQueue {
  q_queue : list string;
  q_dirty : gset string;
  q_processing : gset string;
  q_shuttingDown : bool;
  (** keys handed to AddAfter whose delay has not passed, with repetitions *)
  q_waiting : list string;
  (** ItemExponentialFailureRateLimiter.failures *)
  q_failures : gmap string nat;
}.

Definition newQueue : Queue := mkQueue [] ∅ ∅ false [] ∅.

Definition Add (item : string) (q : Queue) : Queue :=
  if q_shuttingDown q then q
  else if bool_decide (item ∈ q_dirty q) then q
  else
    let dirty := {[item]} ∪ q_dirty q in
    if bool_decide (item ∈ q_processing q)
    then mkQueue (q_queue q) dirty (q_processing q) (q_shuttingDown q) (q_waiting q) (q_failures q)
    else mkQueue (q_queue q ++ [item]) dirty (q_processing q) (q_shuttingDown q) (q_waiting q) (q_failures q).

(** [None]: the call blocks; [Some (None, _)]: the queue is shut down. *)
Definition Get (q : Queue) : option (option string * Queue) :=
  match q_queue q with
  | [] => if q_shuttingDown q then Some (None, q) else None
  | item :: rest =>
      Some (Some item, mkQueue rest (q_dirty q ∖ {[item]}) ({[item]} ∪ q_processing q)
                         (q_shuttingDown q) (q_waiting q) (q_failures q))
  end.

Definition Done (item : string) (q : Queue) : Queue :=
  mkQueue (if bool_decide (item ∈ q_dirty q) then q_queue q ++ [item] else q_queue q)
    (q_dirty q) (q_processing q ∖ {[item]}) (q_shuttingDown q) (q_waiting q) (q_failures q).

Definition ShutDown (q : Queue) : Queue :=
  mkQueue (q_queue q) (q_dirty q) (q_processing q) true (q_waiting q) (q_failures q).

(** ** Rate limited additions *)

(** The delay of the rate limiter is positive, so AddAfter hands the key to
    the waiting loop. *)
Definition AddRateLimited (item : string) (q : Queue) : Queue :=
  let failures := <[item := S (default O (q_failures q !! item))]> (q_failures q) in
  mkQueue (q_queue q) (q_dirty q) (q_processing q) (q_shuttingDown q)
    (if q_shuttingDown q then q_waiting q else q_waiting q ++ [item]) failures.

Definition Forget (item : string) (q : Queue) : Queue :=
  mkQueue (q_queue q) (q_dirty q) (q_processing q) (q_shuttingDown q) (q_waiting q)
    (delete item (q_failures q)).

Definition set_waiting (waiting : list string) (q : Queue) : Queue :=
  mkQueue (q_queue q) (q_dirty q) (q_processing q) (q_shuttingDown q) waiting (q_failures q).

(** What a worker does with the result of a sync. *)
Definition requeue (key : string) (err : option Err) (q : Queue) : Queue :=
  match err with
  | Some _ => AddRateLimited key q
  | None => Forget key q
  end.

(** One item of work of a worker that runs alone; [None] when Get blocks. *)
Definition processNextWorkItem (sync : string → option Err) (q : Queue) : option (bool * Queue) :=
  match Get q with
  | None => None
  | Some (None, q') => Some (false, q')
  | Some (Some key, q') => Some (true, Done key (requeue key (sync key) q'))
  end.

(** ** The system *)

Inductive Worker :=
| Idle
| Syncing (key : string)
| Finishing (key : string)
| Exited.

Definition held (w : Worker) : option string :=
  match w with
  | Syncing k | Finishing k => Some k
  | Idle | Exited => None
  end.

Record Sys := mkSys { sys_queue : Queue; sys_workers : list Worker }.

Inductive Label :=
| LAdd (k : string)
| LAddRateLimited (k : string)
| LGet (i : nat) (k : string)
| LSynced (i : nat) (k : string) (err : option Err)
| LDone (i : nat) (k : string)
| LExit (i : nat)
| LFire (k : string)
| LMerge (k : string)
| LShutDown.

Inductive step : Sys → Label → Sys → Prop :=
| step_add q ws k : step (mkSys q ws) (LAdd k) (mkSys (Add k q) ws)
| step_add_limited q ws k : step (mkSys q ws) (LAddRateLimited k) (mkSys (AddRateLimited k q) ws)
| step_get q ws i k q' :
    ws !! i = Some Idle → Get q = Some (Some k, q') →
    step (mkSys q ws) (LGet i k) (mkSys q' (<[i := Syncing k]> ws))
| step_synced q ws i k err :
    ws !! i = Some (Syncing k) →
    step (mkSys q ws) (LSynced i k err) (mkSys (requeue k err q) (<[i := Finishing k]> ws))
| step_done q ws i k :
    ws !! i = Some (Finishing k) →
    step (mkSys q ws) (LDone i k) (mkSys (Done k q) (<[i := Idle]> ws))
| step_exit q ws i q' :
    ws !! i = Some Idle → Get q = Some (None, q') →
    step (mkSys q ws) (LExit i) (mkSys q' (<[i := Exited]> ws))
| step_fire q ws k pre post :
    q_waiting q = pre ++ k :: post →
    step (mkSys q ws) (LFire k) (mkSys (Add k (set_waiting (pre ++ post) q)) ws)
| step_merge q ws k pre post :
    q_waiting q = pre ++ k :: post → k ∈ pre ++ post →
    step (mkSys q ws) (LMerge k) (mkSys (set_waiting (pre ++ post) q) ws)
| step_shutdown q ws : step (mkSys q ws) LShutDown (mkSys (ShutDown q) ws).

Inductive steps : Sys → list Label → Sys → Prop :=
| steps_nil s : steps s [] s
| steps_cons s l s1 tr s2 : step s l s1 → steps s1 tr s2 → steps s (l :: tr) s2.

Definition initial (n : nat) : Sys := mkSys newQueue (replicate n Idle).

Definition reachable (n : nat) (s : Sys) : Prop := ∃ tr, steps (initial n) tr s.

(** ** The invariant *)

(** The comment on [Type]: what is queued is dirty and not being processed;
    conversely every other dirty key is being processed. *)
Record queue_ok (q : Queue) : Prop := {
  qok_NoDup : NoDup (q_queue q);
  qok_queue k : k ∈ q_queue q ↔ k ∈ q_dirty q ∧ k ∉ q_processing q;
}.

(** Every key being processed is held by exactly one worker. *)
Record workers_ok (processing : gset string) (ws : list Worker) : Prop := {
  wok_held k : k ∈ processing ↔ ∃ i w, ws !! i = Some w ∧ held w = Some k;
  wok_exclusive i j w w' k :
    ws !! i = Some w → ws !! j = Some w' → held w = Some k → held w' = Some k → i = j;
}.

Record sys_ok (s : Sys) : Prop := {
  sok_queue : queue_ok (sys_queue s);
  sok_workers : workers_ok (q_processing (sys_queue s)) (sys_workers s);
  sok_exited i : sys_workers s !! i = Some Exited → q_shuttingDown (sys_queue s) = true;
}.

Lemma queue_ok_ext q q' :
  q_queue q' = q_queue q → q_dirty q' = q_dirty q → q_processing q' = q_processing q → queue_ok q → queue_ok q'.
Proof. intros H1 H2 H3 [Hnd Hq]. split; [by rewrite H1|]. intros k. by rewrite H1, H2, H3. Qed.

Lemma Add_ok k q : queue_ok q → queue_ok (Add k q).
Proof.
  intros Hok. unfold Add. destruct (q_shuttingDown q); [done|]. case_bool_decide as Hd; [done|].
  destruct Hok as [Hnd Hq]. case_bool_decide as Hp; split; simpl; try done.
  - intros k'. rewrite Hq. set_solver.
  - apply NoDup_app. split_and!; [done| |apply NoDup_singleton]. intros x Hx%Hq. set_solver.
  - intros k'. rewrite elem_of_app, Hq. set_solver.
Qed.

Lemma Add_processing k q : q_processing (Add k q) = q_processing q.
Proof. unfold Add. destruct (q_shuttingDown q); [done|]. by repeat case_bool_decide. Qed.

Lemma Add_shuttingDown k q : q_shuttingDown (Add k q) = q_shuttingDown q.
Proof. unfold Add. destruct (q_shuttingDown q) eqn:E; [done|]. by repeat case_bool_decide. Qed.

Lemma Get_item q k q' :
  Get q = Some (Some k, q') → ∃ rest, q_queue q = k :: rest ∧ q' =
    mkQueue rest (q_dirty q ∖ {[k]}) ({[k]} ∪ q_processing q) (q_shuttingDown q) (q_waiting q) (q_failures q).
Proof.
  unfold Get. destruct (q_queue q) as [|x rest]; [by destruct (q_shuttingDown q)|].
  intros [= <- <-]. by eexists.
Qed.

Lemma Get_shutdown q q' : Get q = Some (None, q') → q' = q ∧ q_shuttingDown q = true.
Proof.
  unfold Get. destruct (q_queue q); [|done]. destruct (q_shuttingDown q) eqn:E; [|done]. by intros [= <-].
Qed.

Lemma Get_ok q k q' : queue_ok q → Get q = Some (Some k, q') → queue_ok q' ∧ k ∉ q_processing q.
Proof.
  intros [Hnd Hq] (rest & Heq & ->)%Get_item. rewrite Heq in *. apply NoDup_cons in Hnd as [Hk Hnd].
  assert (k ∈ q_dirty q ∧ k ∉ q_processing q) as [_ Hp] by (apply Hq; set_solver).
  split; [split; simpl; [done|]|done]. intros k'. specialize (Hq k'). rewrite elem_of_cons in Hq.
  rewrite elem_of_difference, elem_of_union, elem_of_singleton. destruct (decide (k' = k)) as [->|]; naive_solver.
Qed.

Lemma Done_ok k q : queue_ok q → k ∈ q_processing q → queue_ok (Done k q).
Proof.
  intros [Hnd Hq] Hp. assert (k ∉ q_queue q) by (rewrite Hq; naive_solver).
  split; simpl; case_bool_decide as Hd.
  - apply NoDup_app. split_and!; [done|set_solver|apply NoDup_singleton].
  - done.
  - intros k'. rewrite elem_of_app, list_elem_of_singleton, Hq, elem_of_difference, elem_of_singleton.
    destruct (decide (k' = k)) as [->|]; naive_solver.
  - intros k'. rewrite Hq, elem_of_difference, elem_of_singleton.
    destruct (decide (k' = k)) as [->|]; naive_solver.
Qed.

(** A worker's change of state that keeps or drops its key. *)
Lemma requeue_fields k err q :
  q_queue (requeue k err q) = q_queue q ∧ q_dirty (requeue k err q) = q_dirty q ∧
  q_processing (requeue k err q) = q_processing q ∧ q_shuttingDown (requeue k err q) = q_shuttingDown q.
Proof. by destruct err. Qed.

Lemma worker_insert (ws : list Worker) i w0 w1 j w :
  ws !! i = Some w0 → (<[i := w1]> ws !! j = Some w ↔ (j = i ∧ w = w1) ∨ (j ≠ i ∧ ws !! j = Some w)).
Proof.
  intros Hi. destruct (decide (j = i)) as [->|Hne].
  - rewrite list_lookup_insert_eq by by eapply lookup_lt_Some. naive_solver.
  - rewrite list_lookup_insert_ne by done. naive_solver.
Qed.

(** A worker that keeps what it holds. *)
Lemma workers_ok_keep P ws i w0 w1 :
  ws !! i = Some w0 → held w1 = held w0 → workers_ok P ws → workers_ok P (<[i := w1]> ws).
Proof.
  intros Hi Hh [Hp He].
  assert (∀ j w, <[i := w1]> ws !! j = Some w → ∃ w', ws !! j = Some w' ∧ held w' = held w) as Hback.
  { intros j w Hj. apply (worker_insert _ _ _ _ _ _ Hi) in Hj as [[-> ->]|[_ ?]]; eauto. }
  split.
  - intros k. rewrite Hp. split.
    + intros (j & w & Hj & Hk). destruct (decide (j = i)) as [->|Hne].
      * exists i, w1. split; [apply (worker_insert _ _ _ _ _ _ Hi); by left|congruence].
      * exists j, w. split; [apply (worker_insert _ _ _ _ _ _ Hi); by right|done].
    + intros (j & w & (w' & ? & ?)%Hback & Hk). exists j, w'. split; [done|congruence].
  - intros j1 j2 w2 w3 k (w2' & ? & ?)%Hback (w3' & ? & ?)%Hback Hk2 Hk3.
    eapply (He j1 j2 w2' w3' k); congruence.
Qed.

(** A worker that takes a key nobody holds. *)
Lemma workers_ok_take P ws i w0 w1 k :
  ws !! i = Some w0 → held w0 = None → held w1 = Some k → k ∉ P →
  workers_ok P ws → workers_ok ({[k]} ∪ P) (<[i := w1]> ws).
Proof.
  intros Hi H0 H1 Hk [Hp He]. split.
  - intros k'. rewrite elem_of_union, elem_of_singleton, Hp. split.
    + intros [->|(j & w & Hj & Hh)].
      * exists i, w1. split; [apply (worker_insert _ _ _ _ _ _ Hi); by left|done].
      * exists j, w. split; [apply (worker_insert _ _ _ _ _ _ Hi); right|done]. split; [congruence|done].
    + intros (j & w & [[-> ->]|[_ Hj]]%(worker_insert _ _ _ _ _ _ Hi) & Hh); [left; congruence|right; eauto].
  - assert (∀ j w, ws !! j = Some w → held w ≠ Some k) as Hno.
    { intros j w Hj Hh. apply Hk, Hp. eauto. }
    intros j1 j2 w2 w3 k' [[-> ->]|[_ Hj1]]%(worker_insert _ _ _ _ _ _ Hi)
      [[-> ->]|[_ Hj2]]%(worker_insert _ _ _ _ _ _ Hi) Hh1 Hh2; [done|..|by eapply He].
    + destruct (Hno _ _ Hj2). congruence.
    + destruct (Hno _ _ Hj1). congruence.
Qed.

(** A worker that gives its key back. *)
Lemma workers_ok_drop P ws i w0 w1 k :
  ws !! i = Some w0 → held w0 = Some k → held w1 = None →
  workers_ok P ws → workers_ok (P ∖ {[k]}) (<[i := w1]> ws).
Proof.
  intros Hi H0 H1 [Hp He]. split.
  - intros k'. rewrite elem_of_difference, elem_of_singleton, Hp. split.
    + intros [(j & w & Hj & Hh) Hne]. exists j, w. split; [|done].
      apply (worker_insert _ _ _ _ _ _ Hi). right. split; [congruence|done].
    + intros (j & w & [[-> ->]|[Hne Hj]]%(worker_insert _ _ _ _ _ _ Hi) & Hh); [congruence|].
      split; [eauto|]. intros ->. apply Hne. by eapply He.
  - intros j1 j2 w2 w3 k' [[-> ->]|[_ Hj1]]%(worker_insert _ _ _ _ _ _ Hi)
      [[-> ->]|[_ Hj2]]%(worker_insert _ _ _ _ _ _ Hi) Hh1 Hh2; [congruence..|by eapply He].
Qed.

(** No worker exits unless the queue is shut down. *)
Lemma exited_insert (ws : list Worker) i w0 w1 (b : bool) :
  ws !! i = Some w0 → w1 ≠ Exited → (∀ j, ws !! j = Some Exited → b = true) →
  ∀ j, <[i := w1]> ws !! j = Some Exited → b = true.
Proof. intros Hi Hne Hx j [[_ ?]|[_ ?]]%(worker_insert _ _ _ _ _ _ Hi); [done|by eapply Hx]. Qed.

Lemma sys_ok_step s l s' : sys_ok s → step s l s' → sys_ok s'.
Proof.
  intros [Hq Hw Hx] Hstep. destruct Hstep as
    [q ws k|q ws k|q ws i k q' Hi Hget|q ws i k err Hi|q ws i k Hi|q ws i q' Hi Hget
    |q ws k pre post _|q ws k pre post _ _|q ws]; simpl in *.
  - split; simpl; [by apply Add_ok|by rewrite Add_processing|by rewrite Add_shuttingDown].
  - split; simpl; [by apply (queue_ok_ext q)|done..].
  - destruct (Get_ok _ _ _ Hq Hget) as [Hq' Hk]. apply Get_item in Hget as (rest & _ & ->).
    split; simpl; [done|by eapply workers_ok_take|by eapply exited_insert].
  - destruct (requeue_fields k err q) as (E1 & E2 & E3 & E4).
    split; simpl; [by apply (queue_ok_ext q)|rewrite E3; by eapply workers_ok_keep|rewrite E4; by eapply exited_insert].
  - split; simpl; [|by eapply (workers_ok_drop _ _ _ (Finishing k))|by eapply exited_insert].
    apply Done_ok; [done|]. apply (wok_held _ _ Hw). exists i, (Finishing k). done.
  - apply Get_shutdown in Hget as [-> Hsd].
    split; simpl; [done|by eapply workers_ok_keep|done].
  - split; simpl; [by apply Add_ok, (queue_ok_ext q)|by rewrite Add_processing|by rewrite Add_shuttingDown].
  - split; simpl; [by apply (queue_ok_ext q)|done..].
  - split; simpl; [by apply (queue_ok_ext q)|done..].
Qed.

Lemma sys_ok_initial n : sys_ok (initial n).
Proof.
  assert (∀ i w, replicate n Idle !! i = Some w → w = Idle) as Hidle.
  { intros i w [-> _]%lookup_replicate. done. }
  split; simpl; [split; simpl; [constructor|set_solver]| |].
  - split; [|intros i j w w' k ->%Hidle; done]. intros k. split; [set_solver|]. by intros (i & w & ->%Hidle & ?).
  - intros i Hi. by apply Hidle in Hi.
Qed.

Lemma sys_ok_steps s tr s' : steps s tr s' → sys_ok s → sys_ok s'.
Proof. induction 1; eauto using sys_ok_step. Qed.

Lemma reachable_ok n s : reachable n s → sys_ok s.
Proof. intros [tr Htr]. eapply sys_ok_steps; [exact Htr|apply sys_ok_initial]. Qed.

(** C7. In every reachable state of the queue and any number of workers no two workers hold the
    same key, the queue has no duplicates and holds exactly the dirty keys that are not being
    processed. *)
Theorem one_worker_per_key n s :
  reachable n s →
  (∀ i j w w' k, sys_workers s !! i = Some w → sys_workers s !! j = Some w' →
     held w = Some k → held w' = Some k → i = j) ∧
  NoDup (q_queue (sys_queue s)) ∧
  (∀ k, k ∈ q_queue (sys_queue s) ↔ k ∈ q_dirty (sys_queue s) ∧ k ∉ q_processing (sys_queue s)).
Proof. intros [[Hnd Hq] [_ He] _]%reachable_ok. done. Qed.

(** ** No request is lost *)

(** A sync of [k] is owed: it is marked dirty or waits for its delay. *)
Definition pending (k : string) (q : Queue) : Prop := k ∈ q_dirty q ∨ k ∈ q_waiting q.

Lemma Add_pending k q : q_shuttingDown q = false → pending k (Add k q).
Proof.
  intros Hs. unfold Add, pending. rewrite Hs.
  case_bool_decide; [by left|]. case_bool_decide; left; set_solver.
Qed.

Lemma Add_pending_other k k' q : pending k q → pending k (Add k' q).
Proof.
  unfold Add, pending. destruct (q_shuttingDown q); [done|].
  repeat case_bool_decide; simpl; [done|..]; rewrite elem_of_union; naive_solver.
Qed.

Lemma waiting_split k k' pre post q :
  q_waiting q = pre ++ k' :: post → pending k q → k = k' ∨ pending k (set_waiting (pre ++ post) q).
Proof. intros Hw [?|Hin]; [by right; left|]. rewrite Hw in Hin. unfold pending. simpl. set_solver. Qed.

Lemma shuttingDown_step s l s' :
  step s l s' → q_shuttingDown (sys_queue s') = false → q_shuttingDown (sys_queue s) = false.
Proof.
  intros Hstep. destruct Hstep as
    [q ws k|q ws k|q ws i k q' Hi Hget|q ws i k err Hi|q ws i k Hi|q ws i q' Hi Hget
    |q ws k pre post _|q ws k pre post _ _|q ws]; simpl; rewrite ?Add_shuttingDown; try done.
  - by apply Get_item in Hget as (rest & _ & ->).
  - by destruct (requeue_fields k err q) as (_ & _ & _ & ->).
  - by apply Get_shutdown in Hget as [-> _].
Qed.

Lemma shuttingDown_steps s tr s' :
  steps s tr s' → q_shuttingDown (sys_queue s') = false → q_shuttingDown (sys_queue s) = false.
Proof. induction 1; eauto using shuttingDown_step. Qed.

(** Only the start of a sync of [k] discharges the debt. *)
Lemma pending_step s l s' k :
  step s l s' → q_shuttingDown (sys_queue s') = false → pending k (sys_queue s) →
  pending k (sys_queue s') ∨ ∃ i, l = LGet i k.
Proof.
  intros Hstep Hsd Hp. destruct Hstep as
    [q ws k'|q ws k'|q ws i k' q' Hi Hget|q ws i k' err Hi|q ws i k' Hi|q ws i q' Hi Hget
    |q ws k' pre post Hw|q ws k' pre post Hw Hdup|q ws]; simpl in *.
  - left. by apply Add_pending_other.
  - left. destruct Hp; [by left|right]. simpl. destruct (q_shuttingDown q); set_solver.
  - apply Get_item in Hget as (rest & _ & ->). destruct (decide (k = k')) as [->|Hne]; [right; eauto|left].
    destruct Hp; [left; set_solver|by right].
  - left. destruct Hp; [left; by destruct err|right].
    destruct err; simpl; [destruct (q_shuttingDown q); set_solver|done].
  - by left.
  - left. by apply Get_shutdown in Hget as [-> _].
  - left. destruct (waiting_split k k' pre post q Hw Hp) as [->|?]; [|by apply Add_pending_other].
    apply Add_pending. by rewrite Add_shuttingDown in Hsd.
  - left. destruct (waiting_split k k' pre post q Hw Hp) as [->|?]; [by right|done].
  - by left.
Qed.

Lemma pending_steps s tr s' k :
  steps s tr s' → q_shuttingDown (sys_queue s') = false → pending k (sys_queue s) →
  pending k (sys_queue s') ∨ ∃ i, LGet i k ∈ tr.
Proof.
  induction 1 as [|s l s1 tr s2 Hstep Hsteps IH]; intros Hsd Hp; [by left|].
  pose proof (shuttingDown_steps _ _ _ Hsteps Hsd) as Hsd1.
  destruct (pending_step _ _ _ k Hstep Hsd1 Hp) as [Hp1|[i ->]]; [|right; exists i; left].
  destruct (IH Hsd Hp1) as [?|[i Hi]]; [by left|right; exists i; by right].
Qed.

(** The labels that ask for a sync of a key: an event, or a failed sync. *)
Definition requests (l : Label) (k : string) : Prop :=
  l = LAdd k ∨ l = LAddRateLimited k ∨ ∃ i e, l = LSynced i k (Some e).

Lemma requests_pending s l s' k :
  step s l s' → requests l k → q_shuttingDown (sys_queue s') = false → pending k (sys_queue s').
Proof.
  intros Hstep Hl Hsd. pose proof (shuttingDown_step _ _ _ Hstep Hsd) as Hsd0.
  destruct Hl as [->|[->|(i & e & ->)]]; inversion Hstep; subst; simpl in *.
  - by apply Add_pending.
  - right. simpl. rewrite Hsd0. set_solver.
  - right. simpl. rewrite Hsd0. set_solver.
Qed.

(** Nothing is queued, delayed or in progress. *)
Definition quiescent (s : Sys) : Prop :=
  q_queue (sys_queue s) = [] ∧ q_waiting (sys_queue s) = [] ∧ Forall (λ w, held w = None) (sys_workers s).

Lemma quiescent_not_pending s k : sys_ok s → quiescent s → ¬ pending k (sys_queue s).
Proof.
  intros [[_ Hq] [Hp _] _] (H1 & H2 & H3) [Hd|Hw]; [|rewrite H2 in Hw; set_solver].
  destruct (decide (k ∈ q_processing (sys_queue s))) as [(i & w & Hi & Hh)%Hp|Hn].
  - rewrite Forall_lookup in H3. rewrite (H3 _ _ Hi) in Hh. done.
  - assert (k ∈ q_queue (sys_queue s)) as Hin by by apply Hq. rewrite H1 in Hin. set_solver.
Qed.

(** C8. No request is lost: after an event for a key, or a failed sync of it, every run that
    comes to rest without shutting down contains a later start of a sync of that key. *)
Theorem no_request_lost n s l k s1 tr s2 :
  reachable n s → requests l k → step s l s1 → steps s1 tr s2 →
  q_shuttingDown (sys_queue s2) = false → quiescent s2 →
  ∃ i, LGet i k ∈ tr.
Proof.
  intros Hr Hl Hstep Hsteps Hsd Hquiet.
  assert (sys_ok s2) as Hok by eauto using sys_ok_steps, sys_ok_step, reachable_ok.
  pose proof (requests_pending _ _ _ _ Hstep Hl (shuttingDown_steps _ _ _ Hsteps Hsd)) as Hp.
  destruct (pending_steps _ _ _ k Hsteps Hsd Hp) as [Hp2|?]; [|done].
  by destruct (quiescent_not_pending s2 k Hok Hquiet).
Qed.

(** ** The queue drains *)

(** Steps of the controller itself in which every sync succeeds. *)
Definition succeeding (l : Label) : Prop :=
  match l with
  | LGet _ _ | LSynced _ _ None | LDone _ _ | LFire _ => True
  | _ => False
  end.

Definition workLeft (w : Worker) : nat :=
  match w with
  | Syncing _ => 2
  | Finishing _ => 1
  | Idle | Exited => 0
  end.

(** The steps that remain when no further request arrives. *)
Definition backlog (s : Sys) : nat :=
  4 * length (q_waiting (sys_queue s)) + 3 * size (q_dirty (sys_queue s)) +
  sum_list_with workLeft (sys_workers s).

Lemma workLeft_insert (ws : list Worker) i w0 w1 :
  ws !! i = Some w0 →
  (sum_list_with workLeft (<[i := w1]> ws) + workLeft w0 = sum_list_with workLeft ws + workLeft w1)%nat.
Proof.
  revert i. induction ws as [|w ws IH]; intros [|i] Hi; simplify_eq/=; [lia|].
  specialize (IH _ Hi). lia.
Qed.

Lemma Add_dirty_size k q : (size (q_dirty (Add k q)) ≤ S (size (q_dirty q)))%nat.
Proof.
  assert (size ({[k]} ∪ q_dirty q) ≤ S (size (q_dirty q)))%nat.
  { rewrite size_union_alt, size_singleton. pose proof (subseteq_size (q_dirty q ∖ {[k]}) (q_dirty q)). set_solver by lia. }
  unfold Add. destruct (q_shuttingDown q); [lia|]. repeat case_bool_decide; simpl; lia.
Qed.

Lemma Add_waiting k q : q_waiting (Add k q) = q_waiting q.
Proof. unfold Add. destruct (q_shuttingDown q); [done|]. by repeat case_bool_decide. Qed.

(** What is left to do is found and done. *)
Lemma backlog_step s :
  sys_ok s → (0 < length (sys_workers s))%nat → q_shuttingDown (sys_queue s) = false → ¬ quiescent s →
  ∃ l s', step s l s' ∧ succeeding l ∧ (backlog s' < backlog s)%nat ∧
    length (sys_workers s') = length (sys_workers s) ∧ q_shuttingDown (sys_queue s') = false.
Proof.
  intros [[Hnd Hq] Hw Hx] Hlen Hsd Hbusy. destruct s as [q ws]. simpl in *.
  destruct (decide (Exists (λ w, is_Some (held w)) ws)) as [Hh|Hidle].
  { apply Exists_exists in Hh as (w & [i Hi]%list_elem_of_lookup & Hheld).
    destruct w as [|k|k|]; try (by destruct Hheld).
    - exists (LSynced i k None). eexists. split; [by apply step_synced|]. unfold backlog. simpl.
      pose proof (workLeft_insert ws i _ (Finishing k) Hi) as Hl. simpl in Hl. rewrite length_insert.
      split_and!; [done|lia|done|done].
    - exists (LDone i k). eexists. split; [by apply step_done|]. unfold backlog. simpl.
      pose proof (workLeft_insert ws i _ Idle Hi) as Hl. simpl in Hl. rewrite length_insert.
      split_and!; [done|lia|done|done]. }
  assert (∀ i w, ws !! i = Some w → w = Idle) as Hall.
  { intros i w Hi. destruct w as [|k|k|]; [done|..].
    - destruct Hidle. apply Exists_exists. exists (Syncing k). split; [by eapply list_elem_of_lookup_2|by eexists].
    - destruct Hidle. apply Exists_exists. exists (Finishing k). split; [by eapply list_elem_of_lookup_2|by eexists].
    - apply Hx in Hi. congruence. }
  destruct (q_waiting q) as [|k post] eqn:Ew.
  - destruct (lookup_lt_is_Some_2 ws 0) as [w Hw0]; [done|]. pose proof (Hall _ _ Hw0) as ->.
    destruct (q_queue q) as [|k rest] eqn:Eq.
    + destruct Hbusy. split_and!; [done|done|]. apply Forall_lookup. intros i w ->%Hall. done.
    + exists (LGet 0 k). eexists. split; [apply step_get; [done|]; unfold Get; by rewrite Eq|].
      assert (k ∈ q_dirty q) by (apply (Hq k); set_solver). unfold backlog. simpl.
      pose proof (workLeft_insert ws 0 _ (Syncing k) Hw0) as Hl. simpl in Hl. rewrite length_insert.
      assert (size (q_dirty q ∖ {[k]}) + 1 = size (q_dirty q))%nat.
      { rewrite size_difference, size_singleton by set_solver.
        assert (size (q_dirty q) ≠ 0)%nat by (rewrite size_non_empty_iff; set_solver). lia. }
      split_and!; [done|lia|done|done].
  - exists (LFire k). eexists. split; [by apply (step_fire _ _ _ [])|]. unfold backlog. simpl.
    pose proof (Add_dirty_size k (set_waiting post q)) as Hs. rewrite Add_waiting, Add_shuttingDown. simpl in *.
    rewrite Ew. simpl. split_and!; [done|lia|done|done].
Qed.

Lemma steps_length s tr s' : steps s tr s' → length (sys_workers s') = length (sys_workers s).
Proof.
  induction 1 as [|s l s1 tr s2 Hstep _ ->]; [done|].
  destruct Hstep; simpl; rewrite ?length_insert; done.
Qed.

#[export] Instance quiescent_dec s : Decision (quiescent s).
Proof. unfold quiescent. apply _. Defined.

Lemma drain_run m s :
  (backlog s ≤ m)%nat → sys_ok s → (0 < length (sys_workers s))%nat → q_shuttingDown (sys_queue s) = false →
  ∃ tr s', steps s tr s' ∧ Forall succeeding tr ∧ quiescent s' ∧ (length tr ≤ backlog s)%nat ∧
    q_shuttingDown (sys_queue s') = false.
Proof.
  revert s. induction m as [|m IH]; intros s Hm Hok Hlen Hsd;
    (destruct (decide (quiescent s)) as [Hquiet|Hbusy];
      [exists [], s; split_and!; [constructor|constructor|done|simpl; lia|done]|]);
    destruct (backlog_step s Hok Hlen Hsd Hbusy) as (l & s1 & Hstep & Hsucc & Hlt & Hlen1 & Hsd1); [lia|].
  destruct (IH s1) as (tr & s' & Htr & Hall & Hquiet & Hb & Hsd'); [lia|by eapply sys_ok_step|lia|done|].
  exists (l :: tr), s'. split_and!; [by econstructor|by constructor|done|simpl; lia|done].
Qed.

(** C28. From every reachable state with a worker and no shutdown the controller can come to rest
    by its own successful steps, within a number of steps bounded by the backlog, and every
    pending key is synced on the way. *)
Theorem queue_drains n s :
  reachable n s → (0 < n)%nat → q_shuttingDown (sys_queue s) = false →
  ∃ tr s', steps s tr s' ∧ Forall succeeding tr ∧ quiescent s' ∧ (length tr ≤ backlog s)%nat ∧
    ∀ k, pending k (sys_queue s) → ∃ i, LGet i k ∈ tr.
Proof.
  intros Hr Hn Hsd. assert (length (sys_workers s) = n) as Hlen.
  { destruct Hr as [tr0 Htr]. by rewrite (steps_length _ _ _ Htr); simpl; rewrite length_replicate. }
  apply reachable_ok in Hr.
  destruct (drain_run (backlog s) s) as (tr & s' & Htr & Hsucc & Hquiet & Hlt & Hsd'); [lia|done|lia|done|].
  exists tr, s'. split_and!; [done..|]. intros k Hp.
  destruct (pending_steps _ _ _ k Htr Hsd' Hp) as [Hp'|?]; [|done].
  destruct (quiescent_not_pending s' k); eauto using sys_ok_steps.
Qed.

(** ** A worker alone *)

(** processNextWorkItem is the three steps of one worker in a row. *)
Lemma processNextWorkItem_steps sync q q' ws i :
  processNextWorkItem sync q = Some (true, q') → ws !! i = Some Idle →
  ∃ k, steps (mkSys q ws) [LGet i k; LSynced i k (sync k); LDone i k] (mkSys q' ws).
Proof.
  unfold processNextWorkItem. destruct (Get q) as [[[k|] q1]|] eqn:Eg; [|done..]. intros [= <-] Hi.
  assert (i < length ws)%nat as Hlt by by eapply lookup_lt_Some. exists k.
  eapply steps_cons; [by apply step_get|]. eapply steps_cons.
  { apply step_synced. by apply list_lookup_insert_eq. }
  rewrite list_insert_insert_eq. eapply steps_cons.
  { apply step_done. by apply list_lookup_insert_eq. }
  rewrite list_insert_insert_eq, list_insert_id by done. constructor.
Qed.

(** ** Runs *)

Definition demoKey : string := "default/demo".

(** The queue after a key was added, taken, synced and given back. *)
Definition taken : Queue := mkQueue [] (q_dirty (Add demoKey newQueue) ∖ {[demoKey]})
  ({[demoKey]} ∪ q_processing (Add demoKey newQueue)) false [] ∅.

(** Worker 0 of two syncs the key. *)
Definition busySys : Sys := mkSys taken [Syncing demoKey; Idle].

Lemma busySys_reachable : reachable 2 busySys.
Proof.
  exists [LAdd demoKey; LGet 0 demoKey].
  eapply steps_cons; [apply step_add|]. eapply steps_cons; [by apply (step_get _ _ 0)|]. constructor.
Qed.

Lemma one_worker_per_key_witness :
  NoDup (q_queue (sys_queue busySys)) ∧
  (demoKey ∈ q_queue (sys_queue busySys) ↔
   demoKey ∈ q_dirty (sys_queue busySys) ∧ demoKey ∉ q_processing (sys_queue busySys)).
Proof.
  destruct (one_worker_per_key 2 busySys busySys_reachable) as (_ & Hnd & Hq). split; [exact Hnd|apply Hq].
Defined.

Definition served : Queue := Done demoKey (Forget demoKey taken).

Lemma no_request_lost_witness : ∃ i, LGet i demoKey ∈ [LGet 0 demoKey; LSynced 0 demoKey None; LDone 0 demoKey].
Proof.
  apply (no_request_lost 1 (initial 1) (LAdd demoKey) demoKey (mkSys (Add demoKey newQueue) [Idle]) _
    (mkSys served [Idle])).
  - exists []. constructor.
  - left. reflexivity.
  - apply step_add.
  - eapply steps_cons; [apply (step_get _ _ 0); reflexivity|].
    eapply steps_cons; [apply (step_synced _ _ 0); reflexivity|].
    eapply steps_cons; [apply (step_done _ _ 0); reflexivity|]. constructor.
  - reflexivity.
  - split; [vm_compute; reflexivity|]. split; [reflexivity|]. repeat constructor.
Defined.

Lemma queue_drains_witness :
  ∃ tr s', steps busySys tr s' ∧ Forall succeeding tr ∧ quiescent s' ∧ (length tr ≤ backlog busySys)%nat ∧
    ∀ k, pending k (sys_queue busySys) → ∃ i, LGet i k ∈ tr.
Proof. apply (queue_drains 2 busySys busySys_reachable); [lia|reflexivity]. Defined.
