(* ===== verification/Types.v ===== *)
(** * pkg/apis/navigator/v1alpha1: the versioned API types

    One record per struct of types.go (TypeMeta is in Conversion: the scheme sets
    it and no modelled code reads it), the constants, and the condition
    helpers of helpers.go. *)

From S2P Require Import Prelude GoStrings Semver K8s.

(** ** Constants *)

Definition ElasticsearchClusterNameLabel : string := "navigator.jetstack.io/elasticsearch-cluster-name".
Definition ElasticsearchNodePoolNameLabel : string := "navigator.jetstack.io/elasticsearch-node-pool-name".
Definition ElasticsearchNodePoolVersionAnnotation : string := "navigator.jetstack.io/elasticsearch-version".
Definition ElasticsearchRoleLabelPrefix : string := "navigator.jetstack.io/elasticsearch-role-".
Definition CassandraClusterNameLabel : string := "navigator.jetstack.io/cassandra-cluster-name".
Definition CassandraNodePoolNameLabel : string := "navigator.jetstack.io/cassandra-node-pool-name".
Definition PilotLabel : string := "navigator.jetstack.io/has-pilot".

(** navigator.GroupName *)
Definition GroupName : string := "navigator.jetstack.io".

Definition ElasticsearchClusterHealthRed : string := "Red".
Definition ElasticsearchClusterHealthYellow : string := "Yellow".
Definition ElasticsearchClusterHealthGreen : string := "Green".

Definition ElasticsearchRoleData : string := "data".
Definition ElasticsearchRoleMaster : string := "master".
Definition ElasticsearchRoleIngest : string := "ingest".

Definition ClusterConditionAvailable : string := "Available".
Definition ClusterConditionProgressing : string := "Progressing".
Definition PausedClusterReason : string := "ClusterPaused".
Definition ResumedClusterReason : string := "ClusterResumed".

Definition PilotConditionReady : string := "Ready".
Definition PilotConditionStarted : string := "Started".
Definition PilotConditionStopped : string := "Stopped".

Definition ConditionTrue : string := "True".
Definition ConditionFalse : string := "False".
Definition ConditionUnknown : string := "Unknown".

(** corev1.PullPolicy *)
Definition PullAlways : string := "Always".
Definition PullNever : string := "Never".
Definition PullIfNotPresent : string := "IfNotPresent".

(** corev1.EventType *)
Definition EventTypeNormal : string := "Normal".
Definition EventTypeWarning : string := "Warning".

(** ** Shared structures *)

Record ImageSpec := mkImageSpec {
  img_Repository : string;
  img_Tag : string;
  img_PullPolicy : string;
}.

Record NavigatorSecurityContext := mkNavigatorSecurityContext { nsc_RunAsUser : option Z }.

Record NavigatorClusterConfig := mkNavigatorClusterConfig {
  cfg_PilotImage : ImageSpec;
  cfg_SecurityContext : NavigatorSecurityContext;
  cfg_Paused : bool;
}.

Record ClusterCondition := mkClusterCondition {
  cc_Type : string;
  cc_Status : string;
  cc_LastTransitionTime : Z;
  cc_Reason : string;
  cc_Message : string;
}.

(** NavigatorClusterStatus *)
Record NavigatorClusterStatus := mkNavigatorClusterStatus { ncs_Conditions : list ClusterCondition }.

Record PersistenceConfig := mkPersistenceConfig {
  pc_Size : Quantity;
  pc_StorageClass : option string;
}.

#[export] Instance PersistenceConfig_eq_dec : EqDecision PersistenceConfig.
Proof. solve_decision. Defined.

(** ** Elasticsearch *)

Record ElasticsearchClusterNodePool := mkElasticsearchClusterNodePool {
  enp_Name : string;
  enp_Replicas : option Z;
  enp_Roles : option (list string);
  enp_NodeSelector : option smap;
  enp_Resources : ResourceRequirements;
  enp_Persistence : option PersistenceConfig;
  enp_SchedulerName : string;
}.

#[export] Instance ElasticsearchClusterNodePool_eq_dec : EqDecision ElasticsearchClusterNodePool.
Proof. solve_decision. Defined.

Record ElasticsearchClusterSpec := mkElasticsearchClusterSpec {
  es_Config : NavigatorClusterConfig;
  es_Version : Version;
  es_Plugins : list string;
  es_NodePools : list ElasticsearchClusterNodePool;
  es_Image : option ImageSpec;
  es_MinimumMasters : option Z;
}.

Record ElasticsearchClusterNodePoolStatus := mkElasticsearchClusterNodePoolStatus {
  enps_ReadyReplicas : Z }.

Record ElasticsearchClusterStatus := mkElasticsearchClusterStatus {
  est_Conditions : NavigatorClusterStatus;
  est_NodePools : option (gmap string ElasticsearchClusterNodePoolStatus);
  est_Health : option string;
}.

Record ElasticsearchCluster := mkElasticsearchCluster {
  esc_Meta : ObjectMeta;
  esc_Spec : ElasticsearchClusterSpec;
  esc_Status : ElasticsearchClusterStatus;
}.

Definition esc_Name (c : ElasticsearchCluster) : string := om_Name (esc_Meta c).
Definition esc_Namespace (c : ElasticsearchCluster) : string := om_Namespace (esc_Meta c).

(** [range np.Roles] *)
Definition enp_roles (np : ElasticsearchClusterNodePool) : list string := default [] (enp_Roles np).

(** ** Cassandra *)

(** github.com/hashicorp/go-version's Version. *)
Record HVersion := mkHVersion {
  hv_metadata : string;
  hv_pre : string;
  hv_segments : list Z;
  hv_si : Z;
}.

#[export] Instance HVersion_eq_dec : EqDecision HVersion.
Proof. solve_decision. Defined.

(** pkg/api/version: the original string and its parsed form. *)
Record CassVersion := mkCassVersion {
  cv_versionString : string;
  cv_semver : option HVersion;
}.

#[export] Instance CassVersion_eq_dec : EqDecision CassVersion.
Proof. solve_decision. Defined.

Record CassandraClusterNodePool := mkCassandraClusterNodePool {
  cnp_Name : string;
  cnp_Replicas : option Z;
  cnp_Persistence : option PersistenceConfig;
  cnp_NodeSelector : option smap;
  cnp_Rack : option string;
  cnp_Datacenter : option string;
  cnp_Resources : ResourceRequirements;
  cnp_SchedulerName : string;
}.

#[export] Instance CassandraClusterNodePool_eq_dec : EqDecision CassandraClusterNodePool.
Proof. solve_decision. Defined.

Record CassandraClusterSpec := mkCassandraClusterSpec {
  cs_Config : NavigatorClusterConfig;
  cs_NodePools : list CassandraClusterNodePool;
  cs_Image : option ImageSpec;
  cs_Version : CassVersion;
}.

Record CassandraClusterNodePoolStatus := mkCassandraClusterNodePoolStatus {
  cnps_ReadyReplicas : Z }.

Record CassandraClusterStatus := mkCassandraClusterStatus {
  cst_Conditions : NavigatorClusterStatus;
  cst_NodePools : option (gmap string CassandraClusterNodePoolStatus);
}.

Record CassandraCluster := mkCassandraCluster {
  cass_Meta : ObjectMeta;
  cass_Spec : CassandraClusterSpec;
  cass_Status : CassandraClusterStatus;
}.

Definition cass_Name (c : CassandraCluster) : string := om_Name (cass_Meta c).
Definition cass_Namespace (c : CassandraCluster) : string := om_Namespace (cass_Meta c).

(** ** Pilot *)

Record PilotCondition := mkPilotCondition {
  pc_Type : string;
  pc_Status : string;
  pc_LastTransitionTime : Z;
  pc_Reason : string;
  pc_Message : string;
}.

Record ElasticsearchPilotStatus := mkElasticsearchPilotStatus {
  eps_Documents : option Z;
  eps_Version : option Version;
}.

Record CassandraPilotStatus := mkCassandraPilotStatus { cps_Version : option CassVersion }.

Record PilotStatus := mkPilotStatus {
  pst_Conditions : list PilotCondition;
  pst_Elasticsearch : option ElasticsearchPilotStatus;
  pst_Cassandra : option CassandraPilotStatus;
}.

Record Pilot := mkPilot { pil_Meta : ObjectMeta; pil_Status : PilotStatus }.

Definition pil_Name (p : Pilot) : string := om_Name (pil_Meta p).
Definition pil_Namespace (p : Pilot) : string := om_Namespace (pil_Meta p).

(** ** helpers.go *)

(** GetStatusCondition: the first condition of the given type. *)
Fixpoint GetStatusCondition (conds : list ClusterCondition) (conditionType : string)
    : option ClusterCondition :=
  match conds with
  | [] => None
  | c :: cs => if bool_decide (cc_Type c = conditionType) then Some c
               else GetStatusCondition cs conditionType
  end.

(** The loop of NavigatorClusterStatus.UpdateStatusCondition over a non-empty
    condition list: the first condition of the type is replaced in place. *)
Fixpoint replaceCondition (t : Z) (new : ClusterCondition) (conds : list ClusterCondition)
    : list ClusterCondition :=
  match conds with
  | [] => []
  | cond :: rest =>
      if bool_decide (cc_Type cond = cc_Type new) then
        let time := if bool_decide (cc_Status cond = cc_Status new)
                    then cc_LastTransitionTime cond else t in
        mkClusterCondition (cc_Type new) (cc_Status new) time (cc_Reason new) (cc_Message new) :: rest
      else cond :: replaceCondition t new rest
  end.

(** NavigatorClusterStatus.UpdateStatusCondition at time [t]. *)
Definition UpdateStatusCondition (t : Z) (conds : list ClusterCondition)
    (conditionType status reason message : string) : list ClusterCondition :=
  let new := mkClusterCondition conditionType status t reason message in
  match conds with
  | [] => [new]
  | _ => replaceCondition t new conds
  end.

Definition HasCondition (p : Pilot) (condition : PilotCondition) : bool :=
  existsb (λ cond, bool_decide (pc_Type condition = pc_Type cond)
                   && bool_decide (pc_Status condition = pc_Status cond))
    (pst_Conditions (pil_Status p)).

Fixpoint replacePilotCondition (t : Z) (new : PilotCondition) (conds : list PilotCondition)
    : list PilotCondition :=
  match conds with
  | [] => []
  | cond :: rest =>
      if bool_decide (pc_Type cond = pc_Type new) then
        let time := if bool_decide (pc_Status cond = pc_Status new)
                    then pc_LastTransitionTime cond else t in
        mkPilotCondition (pc_Type new) (pc_Status new) time (pc_Reason new) (pc_Message new) :: rest
      else cond :: replacePilotCondition t new rest
  end.

(** Pilot.UpdateStatusCondition at time [t]; [message] is the already
    formatted text. *)
Definition Pilot_UpdateStatusCondition (t : Z) (conds : list PilotCondition)
    (conditionType status reason message : string) : list PilotCondition :=
  let new := mkPilotCondition conditionType status t reason message in
  match conds with
  | [] => [new]
  | _ => replacePilotCondition t new conds
  end.

(** The conditions after syncPausedConditions, for either kind of cluster. *)
Definition pausedConditions (now : Z) (paused : bool) (conds : list ClusterCondition)
    : list ClusterCondition :=
  let cond := GetStatusCondition conds ClusterConditionProgressing in
  let pausedCondExists :=
    match cond with
    | Some cond => bool_decide (cc_Reason cond = PausedClusterReason)
    | None => false
    end in
  if paused && negb pausedCondExists then
    UpdateStatusCondition now conds ClusterConditionProgressing ConditionFalse
      PausedClusterReason "Cluster is paused"
  else if negb paused && pausedCondExists then
    UpdateStatusCondition now conds ClusterConditionProgressing ConditionTrue
      ResumedClusterReason "Cluster is resumed"
  else conds.

(** ** Metadata of the objects *)

#[export] Program Instance v1alpha1_Pilot_HasMeta : HasMeta Pilot :=
  {| objMeta := pil_Meta; withMeta m p := mkPilot m (pil_Status p) |}.
Solve All Obligations with done.
#[export] Program Instance v1alpha1_ElasticsearchCluster_HasMeta : HasMeta ElasticsearchCluster :=
  {| objMeta := esc_Meta; withMeta m c := mkElasticsearchCluster m (esc_Spec c) (esc_Status c) |}.
Solve All Obligations with done.
#[export] Program Instance v1alpha1_CassandraCluster_HasMeta : HasMeta CassandraCluster :=
  {| objMeta := cass_Meta; withMeta m c := mkCassandraCluster m (cass_Spec c) (cass_Status c) |}.
Solve All Obligations with done.
