(* ===== verification/CassandraVersion.v ===== *)
(** * Cassandra versions

    pkg/api/version/version.go over the vendored hashicorp/go-version: the
    version syntax (a regular expression with leftmost-first matching),
    comparison, and the constraint functions the API validation uses. *)

From S2P Require Import Prelude GoStrings Semver K8s Types.
From Stdlib Require Import Ascii.

(** ** The version syntax *)

(** [0-9A-Za-z\-~] *)
Definition is_ident_char (c : ascii) : bool :=
  is_alnum c || bool_decide (c = "-"%char) || bool_decide (c = "~"%char).

(** [0-9A-Za-z\-~]+(\.[0-9A-Za-z\-~]+)* *)
Definition is_idents (s : string) : bool :=
  forallb (λ part, negb (bool_decide (part = "")) && forallb is_ident_char (string_chars part))
    (split_all "."%char s).

(** The optional pre-release group, which has to use up its input: the
    submatch without the optional dash. *)
Definition matchPre (s : string) : option string :=
  match s with
  | EmptyString => Some ""
  | String c s' =>
      if bool_decide (c = "-"%char) && is_idents s' then Some s'
      else if is_idents s then Some s
      else None
  end.

(** The pre-release and metadata groups up to the end of the input.  No
    pre-release contains a plus sign, so the first one starts the metadata. *)
Definition matchTail (s : string) : option (string * string) :=
  match split_first "+"%char s with
  | None => (λ pre, (pre, "")) <$> matchPre s
  | Some (a, meta) => if is_idents meta then (λ pre, (pre, meta)) <$> matchPre a else None
  end.

(** The ways to match [0-9]+ at the start, the longest first. *)
Fixpoint digitSplits (s : string) : list (string * string) :=
  match s with
  | EmptyString => []
  | String c s' =>
      match digit_value c with
      | Some _ => ((λ '(p, r), (String c p, r)) <$> digitSplits s') ++ [(String c "", s')]
      | None => []
      end
  end.

Fixpoint first_some {A B} (f : A → option B) (xs : list A) : option B :=
  match xs with
  | [] => None
  | x :: xs' =>
      match f x with
      | Some b => Some b
      | None => first_some f xs'
      end
  end.

(** (\.[0-9]+)*? and what follows: stop as early as the rest matches.  Every
    step uses up two characters, so the length of the input is enough fuel. *)
Fixpoint matchSegments (fuel : nat) (acc s : string) : option (string * (string * string)) :=
  match matchTail s with
  | Some t => Some (acc, t)
  | None =>
      match fuel, s with
      | S fuel', String c s' =>
          if bool_decide (c = "."%char)
          then first_some (λ '(p, r), matchSegments fuel' (acc +:+ "." +:+ p) r) (digitSplits s')
          else None
      | _, _ => None
      end
  end.

(** Submatches 1 (segments), 4 (pre-release) and 7 (metadata). *)
Definition matchVersion (v : string) : option (string * (string * string)) :=
  let s := match v with
           | String c s' => if bool_decide (c = "v"%char) then s' else v
           | EmptyString => v
           end in
  first_some (λ '(p, r), matchSegments (String.length r) p r) (digitSplits s).

Fixpoint pad3 (n : nat) (segs : list Z) : list Z :=
  match n with
  | O => segs
  | S n' => match segs with
            | [] => 0 :: pad3 n' []
            | x :: xs => x :: pad3 n' xs
            end
  end.

Definition HVersion_NewVersion (v : string) : option HVersion :=
  match matchVersion v with
  | None => None
  | Some (segs, (pre, meta)) =>
      match mapM parse_int64 (split_all "."%char segs) with
      | None => None
      | Some segments =>
          Some (mkHVersion meta pre (pad3 3 segments) (Z.of_nat (length segments)))
      end
  end.

Definition HVersion_String (v : HVersion) : string :=
  join "." (itoa <$> hv_segments v) +:+
  (if bool_decide (hv_pre v = "") then "" else "-" +:+ hv_pre v) +:+
  (if bool_decide (hv_metadata v = "") then "" else "+" +:+ hv_metadata v).

(** ** Comparison *)

Definition allZero (segs : list Z) : bool := forallb (λ s, bool_decide (s = 0)) segs.

(** strconv.ParseInt's value, also on error: 0 for a syntax error, the
    nearest bound for a range error. *)
Definition parse_int64_value (s : string) : Z :=
  match parse_int64 s with
  | Some z => z
  | None =>
      match s with
      | String "-"%char s' => match parse_unsigned s' with Some _ => - (int64_max + 1) | None => 0 end
      | String "+"%char s' => match parse_unsigned s' with Some _ => int64_max | None => 0 end
      | _ => match parse_unsigned s with Some _ => int64_max | None => 0 end
      end
  end.

Definition comparePart (preSelf preOther : string) : Z :=
  if bool_decide (preSelf = preOther) then 0
  else
    let selfNumeric := bool_decide (is_Some (parse_int64 preSelf)) in
    let otherNumeric := bool_decide (is_Some (parse_int64 preOther)) in
    if bool_decide (preSelf = "") then (if otherNumeric then -1 else 1)
    else if bool_decide (preOther = "") then (if selfNumeric then 1 else -1)
    else if selfNumeric && negb otherNumeric then -1
    else if negb selfNumeric && otherNumeric then 1
    else if negb selfNumeric && negb otherNumeric
            && bool_decide (String.compare preSelf preOther = Gt) then 1
    else if bool_decide (parse_int64_value preOther < parse_int64_value preSelf) then 1
    else -1.

(** The loop over the first [n] parts; a missing part counts as empty. *)
Fixpoint compareParts (n : nat) (a b : list string) : Z :=
  match n with
  | O => 0
  | S n' =>
      let c := comparePart (List.hd "" a) (List.hd "" b) in
      if bool_decide (c = 0) then compareParts n' (List.tl a) (List.tl b) else c
  end.

Definition comparePrereleases (v other : string) : Z :=
  if bool_decide (v = other) then 0
  else
    let self := split_all "."%char v in
    let others := split_all "."%char other in
    compareParts (length self `max` length others)%nat self others.

(** The loop over the segments. *)
Fixpoint compareSegments (self other : list Z) : Z :=
  match self, other with
  | [], [] => 0
  | [], _ => if allZero other then 0 else -1
  | _, [] => if allZero self then 0 else 1
  | lhs :: self', rhs :: other' =>
      if bool_decide (lhs = rhs) then compareSegments self' other'
      else if bool_decide (lhs < rhs) then -1
      else 1
  end.

Definition HVersion_Compare (v other : HVersion) : Z :=
  if bool_decide (HVersion_String v = HVersion_String other) then 0
  else if bool_decide (hv_segments v = hv_segments other) then
    if bool_decide (hv_pre v = "") && bool_decide (hv_pre other = "") then 0
    else if bool_decide (hv_pre v = "") then 1
    else if bool_decide (hv_pre other = "") then -1
    else comparePrereleases (hv_pre v) (hv_pre other)
  else compareSegments (hv_segments v) (hv_segments other).

Definition HVersion_Equal (v o : HVersion) : bool := bool_decide (HVersion_Compare v o = 0).

(** ** Constraints *)

Definition prereleaseCheck (v c : HVersion) : bool :=
  let vPre := negb (bool_decide (hv_pre v = "")) in
  let cPre := negb (bool_decide (hv_pre c = "")) in
  if cPre && vPre then bool_decide (hv_segments c = hv_segments v)
  else if negb cPre && vPre then false
  else true.

Definition constraintGreaterThanEqual (v c : HVersion) : bool :=
  prereleaseCheck v c && bool_decide (0 ≤ HVersion_Compare v c).

Definition constraintLessThan (v c : HVersion) : bool :=
  prereleaseCheck v c && bool_decide (HVersion_Compare v c = -1).

(** ** pkg/api/version *)

Definition CassVersion_set (s : string) : option CassVersion :=
  match HVersion_NewVersion s with
  | None => None
  | Some sv => Some (mkCassVersion s (Some sv))
  end.

(** New panics on a malformed version. *)
Definition CassVersion_New (s : string) : outcome CassVersion :=
  match CassVersion_set s with
  | None => Panic "Malformed version"
  | Some v => Ret v
  end.

(** Equal dereferences both parsed versions. *)
Definition CassVersion_Equal (v versionB : CassVersion) : outcome bool :=
  a ← deref_pure (cv_semver v);
  b ← deref_pure (cv_semver versionB);
  Ret (HVersion_Equal a b).

Definition CassVersion_String (v : CassVersion) : string := cv_versionString v.

Definition zeroCassVersion : CassVersion := mkCassVersion "" None.

Definition CassVersion_DeepCopy (v : CassVersion) : outcome CassVersion :=
  match cv_semver v with
  | None => Ret zeroCassVersion
  | Some _ => CassVersion_New (CassVersion_String v)
  end.

Example parse_3_11 : HVersion_NewVersion "3.11" = Some (mkHVersion "" "" [3; 11; 0] 2).
Proof. vm_compute. reflexivity. Qed.
Example parse_v3_rc : HVersion_NewVersion "v3.11.2-rc.1+b7" = Some (mkHVersion "b7" "rc.1" [3; 11; 2] 3).
Proof. vm_compute. reflexivity. Qed.
(** Backtracking into the digits. *)
Example parse_wildcard : HVersion_NewVersion "3.11.x" = Some (mkHVersion "" "1.x" [3; 1; 0] 2).
Proof. vm_compute. reflexivity. Qed.
Example parse_bad : HVersion_NewVersion "x3" = None.
Proof. vm_compute. reflexivity. Qed.

(** ** Facts *)

Lemma HVersion_Compare_refl v : HVersion_Compare v v = 0.
Proof. unfold HVersion_Compare. by rewrite bool_decide_eq_true_2. Qed.

Lemma pad3_cons segs : ∃ x y z rest, pad3 3 segs = x :: y :: z :: rest.
Proof. destruct segs as [|x [|y [|z rest]]]; simpl; eauto. Qed.

(** A parsed version keeps its string and can be parsed from it again. *)
Definition wf_CassVersion (v : CassVersion) : Prop :=
  ∃ sv, cv_semver v = Some sv ∧ HVersion_NewVersion (cv_versionString v) = Some sv.

Lemma CassVersion_New_wf s v : CassVersion_New s = Ret v → wf_CassVersion v ∧ CassVersion_String v = s.
Proof.
  unfold CassVersion_New, CassVersion_set. destruct (HVersion_NewVersion s) as [sv|] eqn:E; [|done].
  intros [= <-]. split; [|done]. by exists sv.
Qed.

Lemma CassVersion_DeepCopy_id v : wf_CassVersion v → CassVersion_DeepCopy v = Ret v.
Proof.
  intros (sv & Hsv & Hp). unfold CassVersion_DeepCopy, CassVersion_New, CassVersion_set, CassVersion_String.
  rewrite Hsv, Hp. destruct v as [str sem]. simpl in *. by subst.
Qed.

Lemma mapM_parse_nonneg parts segs :
  mapM parse_int64 parts = Some segs → Forall (λ p, has_char "-"%char p = false) parts → Forall (λ z, 0 ≤ z) segs.
Proof.
  intros H Hp. apply mapM_Some in H. induction H as [|p z ps zs Hz _ IH]; [constructor|].
  apply Forall_cons in Hp as [Hp Hps]. constructor; [|by apply IH].
  by destruct (parse_int64_range _ _ Hp Hz).
Qed.

Lemma digitSplits_no_dash s p r : (p, r) ∈ digitSplits s → has_char "-"%char p = false.
Proof.
  revert p. induction s as [|c s IH]; intros p; simpl; [by intros ?%not_elem_of_nil|].
  destruct (digit_value c) eqn:E; [|by intros ?%not_elem_of_nil].
  assert (c ≠ "-"%char) by (intros ->; done).
  rewrite elem_of_app, list_elem_of_singleton. intros [Hin|[= -> ->]].
  - apply list_elem_of_fmap in Hin as ([p' r'] & [= -> ->] & Hin). simpl.
    rewrite bool_decide_eq_false_2 by done. eauto.
  - simpl. by rewrite bool_decide_eq_false_2.
Qed.

Lemma first_some_elem {A B} (f : A → option B) xs b : first_some f xs = Some b → ∃ x, x ∈ xs ∧ f x = Some b.
Proof.
  induction xs as [|x xs IH]; simpl; [done|]. destruct (f x) eqn:E.
  - intros [= <-]. exists x. set_solver.
  - intros (y & ? & ?)%IH. exists y. set_solver.
Qed.

Lemma matchSegments_no_dash fuel acc s segs t :
  has_char "-"%char acc = false → matchSegments fuel acc s = Some (segs, t) → has_char "-"%char segs = false.
Proof.
  revert acc s. induction fuel as [|fuel IH]; intros acc s Hacc; simpl;
    (destruct (matchTail s); [by intros [= <- _]|]); [done|].
  destruct s as [|c s]; [done|]. case_bool_decide; [|done].
  intros ([p r] & Hin & Hf)%first_some_elem. eapply IH; [|exact Hf].
  rewrite !has_char_app, Hacc, (digitSplits_no_dash _ _ _ Hin). done.
Qed.

Lemma split_all_no_char d e s : has_char e s = false → Forall (λ p, has_char e p = false) (split_all d s).
Proof.
  induction s as [|c s IH]; simpl; [by constructor|]. intros [Hc Hs]%orb_false_iff. specialize (IH Hs).
  destruct (bool_decide (c = d)); [by constructor|]. destruct (split_all d s); simpl.
  - constructor; [|constructor]. simpl. by rewrite Hc.
  - apply Forall_cons in IH as [? ?]. constructor; [|done]. simpl. by rewrite Hc.
Qed.

(** The shape of a parsed version: at least three segments, none negative. *)
Lemma HVersion_NewVersion_segments s v :
  HVersion_NewVersion s = Some v →
  ∃ x y z rest, hv_segments v = x :: y :: z :: rest ∧ Forall (λ n, 0 ≤ n) (hv_segments v).
Proof.
  unfold HVersion_NewVersion, matchVersion. destruct (first_some _ _) as [[segs [pre meta]]|] eqn:E; [|done].
  destruct (mapM _ _) as [nums|] eqn:Em; [|done]. intros [= <-]. simpl.
  assert (Forall (λ n, 0 ≤ n) nums) as Hn.
  { eapply mapM_parse_nonneg; [done|]. apply split_all_no_char.
    apply first_some_elem in E as ([p r] & Hin & Hf).
    eapply matchSegments_no_dash; [|exact Hf]. by eapply digitSplits_no_dash. }
  destruct nums as [|x [|y [|z rest]]]; simpl; do 4 eexists; (split; [reflexivity|]);
    repeat (apply Forall_cons in Hn as [? Hn]); repeat constructor; try done; lia.
Qed.

(** ** The supported versions *)

Definition hv3 : HVersion := mkHVersion "" "" [3; 0; 0] 1.
Definition hv4 : HVersion := mkHVersion "" "" [4; 0; 0] 1.

(** version.NewConstraint(">= 3, < 4") of validation/cassandra.go, and its
    Check. *)
Definition supportedCassandraVersions : list (HVersion → bool) :=
  [λ v, constraintGreaterThanEqual v hv3; λ v, constraintLessThan v hv4].

Definition Constraints_Check (cs : list (HVersion → bool)) (v : HVersion) : bool :=
  forallb (λ c, c v) cs.

Example constraint_versions :
  HVersion_NewVersion "3" = Some hv3 ∧ HVersion_NewVersion "4" = Some hv4.
Proof. split; vm_compute; reflexivity. Qed.

Lemma join_has_char d e parts :
  d ≠ e → Forall (λ p, has_char e p = false) parts → has_char e (join (String d "") parts) = false.
Proof.
  intros Hne Hall. induction Hall as [|p parts Hp Hall IH]; [done|].
  destruct parts as [|q parts]; [done|].
  change (join (String d "") (p :: q :: parts)) with (p +:+ String d (join (String d "") (q :: parts))).
  rewrite has_char_app, Hp. simpl. by rewrite bool_decide_eq_false_2.
Qed.

(** The printed form of a release determines its segments. *)
Lemma HVersion_String_segments v w :
  HVersion_String v = HVersion_String w → hv_pre v = "" → hv_pre w = "" → hv_metadata w = "" →
  hv_segments v ≠ [] → hv_segments w ≠ [] → Forall (λ n, 0 ≤ n) (hv_segments v) →
  Forall (λ n, 0 ≤ n) (hv_segments w) → hv_segments v = hv_segments w.
Proof.
  assert (∀ d l, digit_value d = None → Forall (λ n, 0 ≤ n) l →
    Forall (λ p, has_char d p = false) (itoa <$> l)) as Hitoa.
  { intros d l Hd Hl. apply Forall_fmap. eapply Forall_impl; [exact Hl|]. intros z Hz. by apply itoa_has_char. }
  intros Heq Hpv Hpw Hmw Hv Hw Hnv Hnw. unfold HVersion_String in Heq.
  rewrite Hpv, Hpw, Hmw in Heq. rewrite !bool_decide_eq_true_2 in Heq by done.
  change ("" +:+ ?x) with x in Heq. rewrite string_app_nil_r in Heq. case_bool_decide as Hmeta.
  - rewrite string_app_nil_r in Heq. apply (f_equal (split_all "."%char)) in Heq.
    rewrite !(split_all_join "."%char) in Heq; try (by apply Hitoa); try (by intros ?%fmap_nil_inv).
    by apply (inj (fmap itoa)) in Heq.
  - apply (f_equal (has_char "+"%char)) in Heq. rewrite !has_char_app in Heq.
    rewrite !(join_has_char "."%char) in Heq by (done || by apply Hitoa). done.
Qed.

Lemma compareSegments_3 x y z rest :
  0 ≤ y → 0 ≤ z → Forall (λ n, 0 ≤ n) rest → (0 ≤ compareSegments (x :: y :: z :: rest) [3; 0; 0] ↔ 3 ≤ x).
Proof.
  intros Hy Hz Hrest. simpl. repeat (case_bool_decide; try lia). destruct rest; simpl; [lia|].
  destruct (_ && _); lia.
Qed.

Lemma compareSegments_4 x y z rest :
  0 ≤ y → 0 ≤ z → Forall (λ n, 0 ≤ n) rest → (compareSegments (x :: y :: z :: rest) [4; 0; 0] = -1 ↔ x < 4).
Proof.
  intros Hy Hz Hrest. simpl. repeat (case_bool_decide; try lia). destruct rest; simpl; [lia|].
  destruct (_ && _); lia.
Qed.

Lemma HVersion_Compare_release v w :
  hv_pre v = "" → hv_pre w = "" → hv_metadata w = "" → hv_segments v ≠ [] → hv_segments w ≠ [] →
  Forall (λ n, 0 ≤ n) (hv_segments v) → Forall (λ n, 0 ≤ n) (hv_segments w) →
  HVersion_Compare v w = compareSegments (hv_segments v) (hv_segments w).
Proof.
  assert (∀ l, compareSegments l l = 0) as Hrefl.
  { induction l as [|a l IH]; simpl; [done|]. by rewrite bool_decide_eq_true_2. }
  intros Hpv Hpw Hmw Hv Hw Hnv Hnw. unfold HVersion_Compare. case_bool_decide as Hs.
  - by rewrite (HVersion_String_segments v w), Hrefl.
  - case_bool_decide as Hseg; [|done]. rewrite Hpv, Hpw. simpl. by rewrite Hseg, Hrefl.
Qed.

Lemma supported_check v s :
  HVersion_NewVersion s = Some v →
  Constraints_Check supportedCassandraVersions v = true ↔
  hv_pre v = "" ∧ List.hd 0 (hv_segments v) = 3.
Proof.
  intros (x & y & z & rest & Hseg & Hall)%HVersion_NewVersion_segments. unfold Constraints_Check. simpl.
  rewrite andb_true_r. unfold constraintGreaterThanEqual, constraintLessThan, prereleaseCheck. simpl.
  destruct (decide (hv_pre v = "")) as [Hpre|Hpre].
  - rewrite (bool_decide_eq_true_2 (hv_pre v = "")) by done. simpl.
    rewrite !HVersion_Compare_release by first [done | by rewrite Hseg | by (repeat constructor; lia)].
    simpl hv_segments. rewrite Hseg in Hall |- *. apply Forall_cons in Hall as [? Hall].
    apply Forall_cons in Hall as [? Hall]. apply Forall_cons in Hall as [? Hall].
    rewrite andb_true_iff, !bool_decide_eq_true, compareSegments_3, compareSegments_4 by done.
    simpl. intuition lia.
  - rewrite (bool_decide_eq_false_2 (hv_pre v = "")) by done. simpl. naive_solver.
Qed.
