(* ===== verification/RateLimit.v ===== *)
(** * Rate limiters

    The token bucket of vendor/github.com/juju/ratelimit, which throttles the
    requests of every client (flowcontrol/throttle.go), and the limiters of
    workqueue/default_rate_limiters.go, which delay the retries of the
    controllers.  Times are in nanoseconds.  The rates are exact rationals where
    the code computes with floating point numbers; the sums and products of a
    bucket stay below the number of nanoseconds since its start times its rate
    and are not wrapped. *)

From S2P Require Import Prelude GoStrings WorkQueue.
From Stdlib Require Import QArith_base Qround Sorted.

Local Open Scope Z_scope.

(** ** Bucket *)

Record Bucket := mkBucket {
  tb_startTime : Z;
  tb_capacity : Z;
  tb_quantum : Z;
  tb_fillInterval : Z;
  tb_avail : Z;
  tb_availTick : Z;
}.

Definition NewBucketWithQuantumAndClock (now fillInterval capacity quantum : Z) : outcome Bucket :=
  if bool_decide (fillInterval ≤ 0) then Panic "token bucket fill interval is not > 0"
  else if bool_decide (capacity ≤ 0) then Panic "token bucket capacity is not > 0"
  else if bool_decide (quantum ≤ 0) then Panic "token bucket quantum is not > 0"
  else Ret (mkBucket now capacity quantum fillInterval capacity 0).

(** adjust: the current tick; a full bucket keeps its tick. *)
Definition Bucket_adjust (now : Z) (tb : Bucket) : Z * Bucket :=
  let currentTick := Z.quot (now - tb_startTime tb) (tb_fillInterval tb) in
  if bool_decide (tb_capacity tb ≤ tb_avail tb) then (currentTick, tb)
  else
    let avail := tb_avail tb + (currentTick - tb_availTick tb) * tb_quantum tb in
    (currentTick,
     mkBucket (tb_startTime tb) (tb_capacity tb) (tb_quantum tb) (tb_fillInterval tb)
       (if bool_decide (tb_capacity tb < avail) then tb_capacity tb else avail) currentTick).

Definition set_avail (avail : Z) (tb : Bucket) : Bucket :=
  mkBucket (tb_startTime tb) (tb_capacity tb) (tb_quantum tb) (tb_fillInterval tb) avail (tb_availTick tb).

Definition infinityDuration : Z := int64_max.

(** Time.Sub, which saturates *)
Definition Time_Sub (t u : Z) : Z := Z.min int64_max (t - u).

Definition Bucket_take (now count maxWait : Z) (tb : Bucket) : Z * bool * Bucket :=
  if bool_decide (count ≤ 0) then (0, true, tb)
  else
    let '(currentTick, tb) := Bucket_adjust now tb in
    let avail := tb_avail tb - count in
    if bool_decide (0 ≤ avail) then (0, true, set_avail avail tb)
    else
      let endTick := currentTick + Z.quot (- avail + tb_quantum tb - 1) (tb_quantum tb) in
      let endTime := tb_startTime tb + endTick * tb_fillInterval tb in
      let waitTime := Time_Sub endTime now in
      if bool_decide (maxWait < waitTime) then (0, false, tb)
      else (waitTime, true, set_avail avail tb).

Definition Bucket_Take (now count : Z) (tb : Bucket) : Z * Bucket :=
  let '(d, _, tb) := Bucket_take now count infinityDuration tb in (d, tb).

(** Wait, with the time at which it returns *)
Definition Bucket_Wait (now count : Z) (tb : Bucket) : Z * Bucket :=
  let '(d, tb) := Bucket_Take now count tb in
  (if bool_decide (0 < d) then now + d else now, tb).

Definition Bucket_takeAvailable (now count : Z) (tb : Bucket) : Z * Bucket :=
  if bool_decide (count ≤ 0) then (0, tb)
  else
    let '(_, tb) := Bucket_adjust now tb in
    if bool_decide (tb_avail tb ≤ 0) then (0, tb)
    else
      let count := if bool_decide (tb_avail tb < count) then tb_avail tb else count in
      (count, set_avail (tb_avail tb - count) tb).

(** ** The bucket of a rate *)

Definition nextQuantum (q : Z) : Z :=
  let q1 := Z.quot (q * 11) 10 in
  if bool_decide (q1 = q) then q1 + 1 else q1.

Definition second : Q := inject_Z 1000000000.

Definition Bucket_Rate (tb : Bucket) : Q := (second * inject_Z (tb_quantum tb) / inject_Z (tb_fillInterval tb))%Q.

Definition Qabs_le (x bound : Q) : bool := Qle_bool (- bound) x && Qle_bool x bound.

(** The loop of NewBucketWithRateAndClock *)
Fixpoint bucketLoop (fuel : nat) (now : Z) (rate : Q) (capacity quantum : Z) : outcome Bucket :=
  match fuel with
  | O => Panic "out of fuel"
  | S fuel =>
      if bool_decide (2 ^ 50 ≤ quantum) then Panic "cannot find suitable quantum"
      else
        let fillInterval := Qfloor (second * inject_Z quantum / rate) in
        if bool_decide (fillInterval ≤ 0) then bucketLoop fuel now rate capacity (nextQuantum quantum)
        else
          tb ← NewBucketWithQuantumAndClock now fillInterval capacity quantum;
          if Qabs_le ((Bucket_Rate tb - rate) / rate) (1 # 100) then Ret tb
          else bucketLoop fuel now rate capacity (nextQuantum quantum)
  end.

(** The quanta up to 2^50 are fewer than this. *)
Definition quanta : nat := 400.

Definition NewBucketWithRate (now : Z) (rate : Q) (capacity : Z) : outcome Bucket := bucketLoop quanta now rate capacity 1.

(** flowcontrol *)
Definition NewTokenBucketRateLimiter (now : Z) (qps : Q) (burst : Z) : outcome Bucket := NewBucketWithRate now qps burst.

Definition tokenBucket_Accept (now : Z) (tb : Bucket) : Z * Bucket := Bucket_Wait now 1 tb.
Definition tokenBucket_TryAccept (now : Z) (tb : Bucket) : bool * Bucket :=
  let '(n, tb) := Bucket_takeAvailable now 1 tb in (bool_decide (n = 1), tb).

(** ** Limiters of the work queues *)

Record ItemExponentialFailureRateLimiter := mkItemExponential {
  ie_failures : gmap string Z;
  ie_baseDelay : Z;
  ie_maxDelay : Z;
}.

Definition NewItemExponentialFailureRateLimiter (baseDelay maxDelay : Z) : ItemExponentialFailureRateLimiter :=
  mkItemExponential ∅ baseDelay maxDelay.

Definition ItemExponential_NumRequeues (item : string) (r : ItemExponentialFailureRateLimiter) : Z :=
  default 0 (ie_failures r !! item).

(** When; doublings of a float64 are exact. *)
Definition ItemExponential_When (item : string) (r : ItemExponentialFailureRateLimiter) : Z * ItemExponentialFailureRateLimiter :=
  let exp := default 0 (ie_failures r !! item) in
  let backoff := ie_baseDelay r * 2 ^ exp in
  (if bool_decide (2 ^ 63 < backoff) then ie_maxDelay r
   else if bool_decide (ie_maxDelay r < backoff) then ie_maxDelay r
   else backoff,
   mkItemExponential (<[item := exp + 1]> (ie_failures r)) (ie_baseDelay r) (ie_maxDelay r)).

Definition ItemExponential_Forget (item : string) (r : ItemExponentialFailureRateLimiter) : ItemExponentialFailureRateLimiter :=
  mkItemExponential (delete item (ie_failures r)) (ie_baseDelay r) (ie_maxDelay r).

(** MaxOfRateLimiter over the two limiters of DefaultControllerRateLimiter *)
Record ControllerRateLimiter := mkControllerRateLimiter {
  cr_items : ItemExponentialFailureRateLimiter;
  cr_bucket : Bucket;
}.

Definition Millisecond : Z := 1000000.

Definition DefaultControllerRateLimiter (now : Z) : outcome ControllerRateLimiter :=
  bucket ← NewBucketWithRate now (inject_Z 10) 100;
  Ret (mkControllerRateLimiter (NewItemExponentialFailureRateLimiter (5 * Millisecond) (1000 * 1000 * Millisecond)) bucket).

Definition MaxOf_When (now : Z) (item : string) (r : ControllerRateLimiter) : Z * ControllerRateLimiter :=
  let ret := 0 in
  let '(curr, items) := ItemExponential_When item (cr_items r) in
  let ret := if bool_decide (ret < curr) then curr else ret in
  let '(curr, bucket) := Bucket_Take now 1 (cr_bucket r) in
  let ret := if bool_decide (ret < curr) then curr else ret in
  (ret, mkControllerRateLimiter items bucket).

Definition MaxOf_Forget (item : string) (r : ControllerRateLimiter) : ControllerRateLimiter :=
  mkControllerRateLimiter (ItemExponential_Forget item (cr_items r)) (cr_bucket r).

Definition MaxOf_NumRequeues (item : string) (r : ControllerRateLimiter) : Z :=
  let curr := ItemExponential_NumRequeues item (cr_items r) in
  if bool_decide (0 < curr) then curr else 0.

Example default_bucket : NewBucketWithRate 0 (inject_Z 5) 10 = Ret (mkBucket 0 10 1 200000000 10 0).
Proof. reflexivity. Qed.
Example controller_bucket : NewBucketWithRate 0 (inject_Z 10) 100 = Ret (mkBucket 0 100 1 100000000 100 0).
Proof. reflexivity. Qed.
Example loopback_bucket : NewBucketWithRate 0 (inject_Z 50) 100 = Ret (mkBucket 0 100 1 20000000 100 0).
Proof. reflexivity. Qed.

(** ** The loop that looks for a quantum *)

Fixpoint reachesEnd (fuel : nat) (q : Z) : bool :=
  match fuel with
  | O => false
  | S fuel => bool_decide (2 ^ 50 ≤ q) || reachesEnd fuel (nextQuantum q)
  end.

Lemma bucketLoop_fuel fuel now rate capacity q :
  reachesEnd fuel q = true → bucketLoop fuel now rate capacity q ≠ Panic "out of fuel".
Proof.
  revert q. induction fuel as [|fuel IH]; intros q; [done|]. cbn [reachesEnd bucketLoop].
  case_bool_decide; [done|]. simpl. intros Hr. case_bool_decide; [by apply IH|].
  unfold NewBucketWithQuantumAndClock, mbind, outcome_bind. repeat (case_bool_decide; [done|]).
  destruct (Qabs_le _ _); [done|by apply IH].
Qed.

(** A bucket as the constructors make it, or as it is used. *)
Record wfBucket (tb : Bucket) : Prop := {
  wf_capacity : 0 < tb_capacity tb;
  wf_quantum : 0 < tb_quantum tb;
  wf_fillInterval : 0 < tb_fillInterval tb;
}.

Definition fresh (now capacity : Z) (tb : Bucket) : Prop :=
  wfBucket tb ∧ tb_startTime tb = now ∧ tb_capacity tb = capacity ∧ tb_avail tb = capacity ∧ tb_availTick tb = 0.

Lemma NewBucketWithQuantumAndClock_fresh now f capacity q tb :
  NewBucketWithQuantumAndClock now f capacity q = Ret tb → fresh now capacity tb.
Proof.
  unfold NewBucketWithQuantumAndClock. repeat (case_bool_decide; [done|]). intros [= <-].
  split_and!; [|done..]. split; simpl; lia.
Qed.

Lemma bucketLoop_spec fuel now rate capacity q tb :
  bucketLoop fuel now rate capacity q = Ret tb → fresh now capacity tb ∧ Qabs_le ((Bucket_Rate tb - rate) / rate) (1 # 100) = true.
Proof.
  revert q. induction fuel as [|fuel IH]; intros q; [done|]. cbn [bucketLoop].
  case_bool_decide; [done|]. case_bool_decide; [apply IH|]. unfold mbind, outcome_bind.
  destruct (NewBucketWithQuantumAndClock _ _ _ _) as [tb'|] eqn:Hb; [|done].
  destruct (Qabs_le ((Bucket_Rate tb' - rate) / rate) (1 # 100)) eqn:Hr; [intros [= <-]|apply IH]. split; [|done]. by eapply NewBucketWithQuantumAndClock_fresh.
Qed.

(** No bucket has room for nothing. *)
Lemma bucketLoop_no_capacity fuel now rate capacity q : capacity ≤ 0 → ∃ why, bucketLoop fuel now rate capacity q = Panic why.
Proof.
  intros Hcap. revert q. induction fuel as [|fuel IH]; intros q; [by eexists|]. cbn [bucketLoop].
  case_bool_decide; [by eexists|]. case_bool_decide; [apply IH|]. unfold NewBucketWithQuantumAndClock, mbind, outcome_bind.
  case_bool_decide; [by eexists|]. case_bool_decide; [by eexists|lia].
Qed.

(** The bucket of a rate is full and fills within one percent of the rate; the search for it
    ends within the fuel. *)
Lemma NewBucketWithRate_spec now rate capacity :
  match NewBucketWithRate now rate capacity with
  | Ret tb => fresh now capacity tb ∧ Qabs_le ((Bucket_Rate tb - rate) / rate) (1 # 100) = true
  | Panic why => why ≠ "out of fuel"
  end.
Proof.
  unfold NewBucketWithRate. destruct (bucketLoop _ _ _ _ _) as [tb|why] eqn:Hl; [by eapply bucketLoop_spec|].
  intros ->. revert Hl. apply bucketLoop_fuel. vm_compute. reflexivity.
Qed.

(** ** One request *)

(** The tokens taken since the start, less the capacity and the tokens that were
    dropped because the bucket was full: a request is served at the first
    tick that has filled this many. *)
Definition issued (tb : Bucket) : Z := tb_availTick tb * tb_quantum tb - tb_avail tb.

Definition tickOf (tb : Bucket) (now : Z) : Z := (now - tb_startTime tb) / tb_fillInterval tb.

(** What one request makes of [issued]; the first request finds a full bucket whose
    tick is not moved. *)
Definition issuedAt (tb : Bucket) (now : Z) : Z :=
  if bool_decide (tb_capacity tb ≤ tb_avail tb) then issued tb
  else Z.max (issued tb) (tickOf tb now * tb_quantum tb - tb_capacity tb).

Definition params (tb : Bucket) : Z * Z * Z * Z := (tb_startTime tb, tb_capacity tb, tb_quantum tb, tb_fillInterval tb).

Definition ceilDiv (x q : Z) : Z := (x + q - 1) / q.

Lemma ceilDiv_spec x q : 0 < q → (ceilDiv x q - 1) * q < x ≤ ceilDiv x q * q.
Proof. intros Hq. unfold ceilDiv. pose proof (Z.div_mod (x + q - 1) q) as Hd. pose proof (Z.mod_pos_bound (x + q - 1) q Hq). nia. Qed.

Lemma ceilDiv_le x y q : 0 < q → x ≤ y → ceilDiv x q ≤ ceilDiv y q.
Proof. intros Hq Hxy. unfold ceilDiv. apply Z.div_le_mono; lia. Qed.

Lemma ceilDiv_bound x c q : 0 < q → x ≤ c * q → ceilDiv x q ≤ c.
Proof. intros Hq Hx. pose proof (ceilDiv_spec x q Hq). nia. Qed.

Lemma tickOf_spec tb now : wfBucket tb → tickOf tb now * tb_fillInterval tb ≤ now - tb_startTime tb < (tickOf tb now + 1) * tb_fillInterval tb.
Proof.
  intros Hwf. destruct Hwf as [_ _ Hf]. unfold tickOf. pose proof (Z.div_mod (now - tb_startTime tb) (tb_fillInterval tb)).
  pose proof (Z.mod_pos_bound (now - tb_startTime tb) (tb_fillInterval tb) Hf). nia.
Qed.

(** When a request that came at [now] is served *)
Definition servedAt (tb : Bucket) (now n : Z) : Z :=
  if bool_decide (n ≤ tickOf tb now * tb_quantum tb) then now
  else Z.min (now + int64_max) (tb_startTime tb + ceilDiv n (tb_quantum tb) * tb_fillInterval tb).

Lemma Bucket_Wait_spec tb now release tb' :
  wfBucket tb → tb_startTime tb ≤ now → tb_avail tb ≤ tb_capacity tb → Bucket_Wait now 1 tb = (release, tb') →
  wfBucket tb' ∧ params tb' = params tb ∧ issued tb' = issuedAt tb now + 1 ∧ tb_avail tb' < tb_capacity tb' ∧
  release = (if bool_decide (tb_capacity tb ≤ tb_avail tb) then now else servedAt tb now (issuedAt tb now + 1)).
Proof.
  intros Hwf Hnow Hav. pose proof (tickOf_spec tb now Hwf) as Ht. destruct tb as [start cap q f avail tick]. destruct Hwf as [Hcap Hq Hf].
  unfold Bucket_Wait, Bucket_Take, Bucket_take, Bucket_adjust, issuedAt, servedAt, issued. simpl in *.
  rewrite Z.quot_div_nonneg by lia. change ((now - start) / f) with (tickOf (mkBucket start cap q f avail tick) now).
  set (c := tickOf _ now) in *.
  destruct (bool_decide (cap ≤ avail)) eqn:Hfull; simpl.
  - apply bool_decide_eq_true in Hfull. rewrite (bool_decide_eq_true_2 (0 ≤ avail - 1)) by lia. simpl.
    intros [= <- <-]. split_and!; simpl; try done; lia.
  - apply bool_decide_eq_false in Hfull.
    assert ((if bool_decide (cap < avail + (c - tick) * q) then cap else avail + (c - tick) * q) =
      c * q - Z.max (tick * q - avail) (c * q - cap)) as -> by (case_bool_decide; lia).
    set (V := Z.max _ _). case_bool_decide as Hz; simpl.
    + rewrite (bool_decide_eq_true_2 (V + 1 ≤ c * q)) by lia. intros [= <- <-]. split_and!; simpl; try done; lia.
    + rewrite (bool_decide_eq_false_2 (V + 1 ≤ c * q)) by lia. rewrite Z.quot_div_nonneg by lia.
      assert (c + (- (c * q - V - 1) + q - 1) / q = ceilDiv (V + 1) q) as ->.
      { unfold ceilDiv. replace (V + 1 + q - 1) with (- (c * q - V - 1) + q - 1 + c * q) by lia. rewrite Z.div_add by lia. lia. }
      pose proof (ceilDiv_spec (V + 1) q Hq) as Hceil. unfold Time_Sub, infinityDuration.
      rewrite (bool_decide_eq_false_2 (int64_max < _)) by lia. simpl.
      assert (c + 1 ≤ ceilDiv (V + 1) q) as Hc by nia.
      assert (now - start < ceilDiv (V + 1) q * f) as Hlate by nia.
      rewrite bool_decide_eq_true_2 by (unfold int64_max; lia). intros [= <- <-]. split_and!; simpl; try done; lia.
Qed.

(** ** A sequence of requests *)

(** The times at which requests that came at [times] are served *)
Fixpoint releases (times : list Z) (tb : Bucket) : list Z :=
  match times with
  | [] => []
  | now :: times => let '(release, tb) := Bucket_Wait now 1 tb in release :: releases times tb
  end.

(** Served within the ticks from [a] to [b] *)
Definition within (tb : Bucket) (a b release : Z) : Prop :=
  tb_startTime tb + a * tb_fillInterval tb ≤ release < tb_startTime tb + (b + 1) * tb_fillInterval tb.
#[export] Instance within_dec tb a b release : Decision (within tb a b release).
Proof. unfold within. apply _. Defined.

Definition servedWithin (tb : Bucket) (a b : Z) (rs : list Z) : Z := Z.of_nat (length (filter (within tb a b) rs)).

Lemma within_params tb tb' a b r : params tb' = params tb → within tb' a b r ↔ within tb a b r.
Proof. unfold params, within. by intros [= -> _ _ ->]. Qed.

Lemma servedWithin_cons tb tb' a b r rs :
  params tb' = params tb → servedWithin tb a b (r :: rs) = (if decide (within tb a b r) then 1 else 0) + servedWithin tb' a b rs.
Proof.
  intros Hp. unfold servedWithin. rewrite filter_cons.
  assert (filter (within tb' a b) rs = filter (within tb a b) rs) as ->.
  { apply list_filter_iff. intros. by apply within_params. }
  destruct (decide (within tb a b r)); simpl; lia.
Qed.

(** A request that is served within ticks has a token of those ticks, or one the bucket held. *)
Lemma served_bounds tb now a b :
  wfBucket tb → tb_startTime tb ≤ now → (b + 1) * tb_fillInterval tb ≤ int64_max → tb_avail tb < tb_capacity tb →
  let n := issuedAt tb now + 1 in
  within tb a b (servedAt tb now n) →
  a * tb_quantum tb - Z.max (tb_capacity tb) (tb_quantum tb) < n ≤ b * tb_quantum tb.
Proof.
  intros Hwf Hnow Hb Hav n Hw. pose proof (tickOf_spec tb now Hwf) as Ht. destruct Hwf as [Hcap Hq Hf].
  assert (tickOf tb now * tb_quantum tb - tb_capacity tb < n) as Hn.
  { unfold n, issuedAt. rewrite bool_decide_eq_false_2 by lia. lia. }
  unfold within, servedAt in Hw. case_bool_decide as Himm.
  - assert (a < tickOf tb now + 1 ∧ tickOf tb now < b + 1) as [Ha Hb'] by (split; nia). nia.
  - pose proof (ceilDiv_spec n (tb_quantum tb) Hq) as Hceil.
    assert (a ≤ ceilDiv n (tb_quantum tb) ∧ ceilDiv n (tb_quantum tb) < b + 1) as [Ha Hb'] by (split; nia). nia.
Qed.

(** The tokens that requests of a used bucket can still have of the ticks from [a] to [b] *)
Definition budget (tb : Bucket) (a b : Z) : Z :=
  Z.max 0 (b * tb_quantum tb - Z.max (issued tb) (a * tb_quantum tb - Z.max (tb_capacity tb) (tb_quantum tb))).

Lemma releases_budget times tb a b :
  wfBucket tb → Forall (λ now, tb_startTime tb ≤ now) times → (b + 1) * tb_fillInterval tb ≤ int64_max →
  tb_avail tb < tb_capacity tb → servedWithin tb a b (releases times tb) ≤ budget tb a b.
Proof.
  revert tb. induction times as [|now times IH]; intros tb Hwf Htimes Hb Hav; [unfold budget, servedWithin; simpl; lia|].
  apply Forall_cons in Htimes as [Hnow Htimes]. simpl. destruct (Bucket_Wait now 1 tb) as [release tb'] eqn:Hw.
  destruct (Bucket_Wait_spec tb now release tb' Hwf Hnow) as (Hwf' & Hp & Hi & Hav' & Hr); [lia|done|].
  rewrite bool_decide_eq_false_2 in Hr by lia. rewrite (servedWithin_cons tb tb') by done.
  assert (servedWithin tb' a b (releases times tb') ≤ budget tb' a b) as IH'.
  { unfold params in Hp. injection Hp as Hs Hc Hq Hf. apply IH; [done| |congruence|done]. by rewrite Hs. }
  assert (issued tb ≤ issuedAt tb now) as Hmono by (unfold issuedAt; case_bool_decide; lia).
  pose proof (served_bounds tb now a b Hwf Hnow Hb Hav) as Hsb. simpl in Hsb. rewrite <- Hr in Hsb.
  unfold budget in *. unfold params in Hp. injection Hp as _ Hc Hq _. rewrite Hi, Hc, Hq in IH'.
  destruct (decide (within tb a b release)) as [Hin|Hout]; [specialize (Hsb Hin)|]; lia.
Qed.

(** A request is not served before it comes. *)
Lemma servedAt_late tb now n : wfBucket tb → now ≤ servedAt tb now n.
Proof.
  intros Hwf. pose proof (tickOf_spec tb now Hwf) as Htick. destruct Hwf as [Hcap Hq Hf]. unfold servedAt. case_bool_decide as Himm; [done|].
  pose proof (ceilDiv_spec n (tb_quantum tb) Hq) as Hceil. assert (0 < int64_max) as Hmax by done.
  assert (tickOf tb now + 1 ≤ ceilDiv n (tb_quantum tb)) as Hlate by nia.
  assert (now < tb_startTime tb + ceilDiv n (tb_quantum tb) * tb_fillInterval tb) as Hlate' by nia. lia.
Qed.

Lemma releases_late times tb :
  wfBucket tb → tb_avail tb ≤ tb_capacity tb → Forall (λ now, tb_startTime tb ≤ now) times → Forall2 Z.le times (releases times tb).
Proof.
  revert tb. induction times as [|now times IH]; intros tb Hwf Hav Htimes; [constructor|].
  apply Forall_cons in Htimes as [Hnow Htimes]. simpl. destruct (Bucket_Wait now 1 tb) as [release tb'] eqn:Hw.
  destruct (Bucket_Wait_spec tb now release tb' Hwf Hnow Hav Hw) as (Hwf' & Hp & _ & Hav' & ->).
  unfold params in Hp. injection Hp as Hst _ _ _. constructor; [|apply IH; [done|lia|by rewrite Hst]].
  case_bool_decide; [done|by apply servedAt_late].
Qed.

(** A request that comes later is not served earlier. *)
Definition floor (tb : Bucket) (t r : Z) : Prop :=
  r ≤ t ∨ r ≤ t + int64_max ∧ r ≤ tb_startTime tb + ceilDiv (issued tb) (tb_quantum tb) * tb_fillInterval tb.

Lemma Bucket_Wait_floor tb t now r release tb' :
  wfBucket tb → tb_startTime tb ≤ now → t ≤ now → tb_avail tb < tb_capacity tb → floor tb t r →
  Bucket_Wait now 1 tb = (release, tb') → r ≤ release ∧ floor tb' now release.
Proof.
  intros Hwf Hnow Ht Hav Hfl Hw. destruct (Bucket_Wait_spec tb now release tb' Hwf Hnow) as (_ & Hp & Hi & _ & Hr); [lia|done|].
  rewrite bool_decide_eq_false_2 in Hr by lia. pose proof (servedAt_late tb now (issuedAt tb now + 1) Hwf) as Hlate.
  rewrite <- Hr in Hlate. pose proof (tickOf_spec tb now Hwf) as Htick. destruct Hwf as [Hcap Hq Hf].
  assert (issued tb ≤ issuedAt tb now) as Hmono by (unfold issuedAt; case_bool_decide; lia).
  unfold params in Hp. injection Hp as Hs _ Hq' Hf'. unfold floor in *. rewrite Hs, Hq', Hf', Hi.
  set (n := issuedAt tb now + 1) in *. unfold servedAt in Hr. assert (0 < int64_max) as Hmax by done.
  pose proof (ceilDiv_le (issued tb) n (tb_quantum tb) Hq ltac:(lia)) as Hle.
  case_bool_decide as Himm.
  - subst release. split; [|by left]. destruct Hfl as [?|[_ Hfl]]; [lia|].
    pose proof (ceilDiv_bound n _ _ Hq Himm). nia.
  - split; [|right; lia]. destruct Hfl as [?|[Hfl1 Hfl2]]; [lia|]. nia.
Qed.

Lemma releases_sorted times tb t r :
  wfBucket tb → tb_startTime tb ≤ t → Sorted Z.le (t :: times) → tb_avail tb < tb_capacity tb → floor tb t r →
  Sorted Z.le (r :: releases times tb).
Proof.
  revert tb t r. induction times as [|now times IH]; intros tb t r Hwf Ht Hs Hav Hfl; [simpl; repeat constructor|].
  apply Sorted_inv in Hs as [Hs Hhd]. apply HdRel_inv in Hhd. simpl. destruct (Bucket_Wait now 1 tb) as [release tb'] eqn:Hw.
  assert (tb_startTime tb ≤ now) as Hnow by lia.
  destruct (Bucket_Wait_spec tb now release tb' Hwf Hnow) as (Hwf' & Hp & _ & Hav' & _); [lia|done|].
  destruct (Bucket_Wait_floor tb t now r release tb') as (H1 & H3); [done..|].
  unfold params in Hp. injection Hp as Hst _ _ _. constructor; [|by constructor]. apply (IH tb' now); [done|lia|done..].
Qed.

Lemma fresh_releases now burst tb times a b :
  fresh now burst tb → Sorted Z.le (now :: times) → a ≤ b → (b + 1) * tb_fillInterval tb ≤ int64_max →
  Sorted Z.le (releases times tb) ∧ Forall2 Z.le times (releases times tb) ∧
  servedWithin tb a b (releases times tb) ≤ 1 + Z.max burst (tb_quantum tb) + (b - a) * tb_quantum tb.
Proof.
  intros (Hwf & Hst & Hcap & Hav & Htick) Hs Hab Hb. pose proof (wf_quantum tb Hwf) as Hq.
  destruct times as [|t times]; [split_and!; [constructor..|]; unfold servedWithin; simpl; nia|].
  apply Sorted_inv in Hs as [Hs Hhd]. apply HdRel_inv in Hhd. simpl. destruct (Bucket_Wait t 1 tb) as [release tb'] eqn:Hw.
  destruct (Bucket_Wait_spec tb t release tb' Hwf) as (Hwf' & Hp & Hi & Hav' & Hr); [lia|lia|done|].
  rewrite bool_decide_eq_true_2 in Hr by lia. subst release. rewrite (servedWithin_cons tb tb') by done.
  unfold params in Hp. injection Hp as Hst' Hcap' Hq' Hf'.
  assert (Forall (λ now, tb_startTime tb' ≤ now) times) as Hafter.
  { apply Sorted_StronglySorted in Hs; [|intros ???; lia]. apply StronglySorted_inv in Hs as [_ Hall].
    eapply Forall_impl; [exact Hall|]. simpl. lia. }
  split_and!.
  - apply (releases_sorted times tb' t t); [done|lia|done|done|by left].
  - constructor; [lia|]. apply releases_late; [done|lia|done].
  - pose proof (releases_budget times tb' a b Hwf' Hafter ltac:(by rewrite Hf') Hav') as Hbud.
    unfold budget in Hbud. rewrite Hq', Hcap' in Hbud. destruct (decide (within tb a b t)); nia.
Qed.

Lemma NewTokenBucketRateLimiter_fresh now rate burst tb :
  NewTokenBucketRateLimiter now rate burst = Ret tb → fresh now burst tb ∧ Qabs_le ((Bucket_Rate tb - rate) / rate) (1 # 100) = true.
Proof. apply bucketLoop_spec. Qed.

Lemma NewTokenBucketRateLimiter_no_burst now rate burst : burst ≤ 0 → ∃ why, NewTokenBucketRateLimiter now rate burst = Panic why.
Proof. apply bucketLoop_no_capacity. Qed.

(** Clients only use the lemmas above. *)
#[global] Opaque NewTokenBucketRateLimiter.

(** C37. The rate limiter of a client fills within one percent of its rate, serves requests in
    the order in which they come and none before it comes, and serves within any ticks at most
    its burst (or its quantum where that is more), the tokens of the elapsed ticks, and one
    request more: a full bucket does not move its tick, so that the first request is free. *)
Theorem clients_are_throttled now rate burst tb times a b :
  NewTokenBucketRateLimiter now rate burst = Ret tb → Sorted Z.le (now :: times) →
  a ≤ b → (b + 1) * tb_fillInterval tb ≤ int64_max →
  Qabs_le ((Bucket_Rate tb - rate) / rate) (1 # 100) = true ∧
  Sorted Z.le (releases times tb) ∧ Forall2 Z.le times (releases times tb) ∧
  servedWithin tb a b (releases times tb) ≤ 1 + Z.max burst (tb_quantum tb) + (b - a) * tb_quantum tb.
Proof.
  intros [Hf Hrate]%NewTokenBucketRateLimiter_fresh Hs Hab Hb. split; [done|]. by apply (fresh_releases now).
Qed.

Lemma clients_are_throttled_witness :
  servedWithin (mkBucket 0 10 1 200000000 10 0) 5 9 (releases (replicate 40 1000000000) (mkBucket 0 10 1 200000000 10 0)) ≤ 15.
Proof.
  refine (proj2 (proj2 (proj2 (clients_are_throttled 0 (inject_Z 5) 10 (mkBucket 0 10 1 200000000 10 0) (replicate 40 1000000000) 5 9 _ _ _ _)))).
  - reflexivity.
  - repeat (constructor; try done).
  - done.
  - done.
Defined.

(** The bound is met: a bucket that was never used and has waited serves one request more
    than its capacity at once, because a full bucket does not move its tick. *)
Example one_more_than_burst :
  servedWithin (mkBucket 0 10 1 200000000 10 0) 5 5 (releases (replicate 40 1000000000) (mkBucket 0 10 1 200000000 10 0)) = 11.
Proof. vm_compute. reflexivity. Qed.

(** ** Retries *)

(** How the workers use the limiter of their queue *)
Inductive limiterUse :=
| UseAddRateLimited (now : Z) (item : string)
| UseForget (item : string).

(** AddRateLimited and Forget of the rate limiting queue, with its limiter *)
Definition useLimiter (s : Queue * ControllerRateLimiter) (u : limiterUse) : Queue * ControllerRateLimiter :=
  let '(q, r) := s in
  match u with
  | UseAddRateLimited now item => (AddRateLimited item q, (MaxOf_When now item r).2)
  | UseForget item => (Forget item q, MaxOf_Forget item r)
  end.

(** The failures of an item since it was last forgotten *)
Definition failuresSince (item : string) (uses : list limiterUse) : nat :=
  foldl (λ n u,
    match u with
    | UseAddRateLimited _ item' => if bool_decide (item' = item) then S n else n
    | UseForget item' => if bool_decide (item' = item) then O else n
    end) O uses.

Definition tracks (item : string) (n : nat) (s : Queue * ControllerRateLimiter) : Prop :=
  default O (q_failures s.1 !! item) = n ∧ default 0 (ie_failures (cr_items s.2) !! item) = Z.of_nat n ∧
  ie_baseDelay (cr_items s.2) = 5 * Millisecond ∧ ie_maxDelay (cr_items s.2) = 1000 * 1000 * Millisecond.

Lemma MaxOf_When_items now item r : cr_items (MaxOf_When now item r).2 = (ItemExponential_When item (cr_items r)).2.
Proof. unfold MaxOf_When. destruct (ItemExponential_When item (cr_items r)), (Bucket_Take now 1 (cr_bucket r)). done. Qed.

Lemma uses_track item uses n s :
  tracks item n s →
  tracks item (foldl (λ n u,
    match u with
    | UseAddRateLimited _ item' => if bool_decide (item' = item) then S n else n
    | UseForget item' => if bool_decide (item' = item) then O else n
    end) n uses) (foldl useLimiter s uses).
Proof.
  revert n s. induction uses as [|u uses IH]; intros n s Hs; [done|]. simpl. apply IH. clear IH.
  destruct s as [q r], Hs as (Hq & Hr & Hb & Hm). unfold tracks, useLimiter. simpl in *.
  destruct u as [now item'|item']; simpl; rewrite ?MaxOf_When_items; simpl; case_bool_decide as He.
  - subst item'. rewrite !lookup_insert_eq. simpl. rewrite Hr, Hq. split_and!; [done|lia|done..].
  - by rewrite !lookup_insert_ne by done.
  - subst item'. by rewrite !lookup_delete_eq.
  - by rewrite !lookup_delete_ne by done.
Qed.

(** C38. However the workers use the rate limiter of their queue, it has counted exactly the
    failures of a key since the key was last forgotten, as the queue has, and delays its next
    retry by five milliseconds doubled once for each of them, up to a thousand seconds, or longer
    when the shared bucket is empty. *)
Theorem retries_back_off start r uses item now :
  DefaultControllerRateLimiter start = Ret r →
  let s := foldl useLimiter (newQueue, r) uses in
  let n := failuresSince item uses in
  let delay := (MaxOf_When now item s.2).1 in
  let backoff := Z.min (5 * Millisecond * 2 ^ Z.of_nat n) (1000 * 1000 * Millisecond) in
  MaxOf_NumRequeues item s.2 = Z.of_nat n ∧ default O (q_failures s.1 !! item) = n ∧
  0 < backoff ∧ delay = Z.max backoff (Bucket_Take now 1 (cr_bucket s.2)).1.
Proof.
  intros Hnew s n delay backoff. destruct (uses_track item uses O (newQueue, r)) as (Hq & Hr & Hb & Hm).
  { unfold DefaultControllerRateLimiter, mbind, outcome_bind in Hnew.
    destruct (NewBucketWithRate start (inject_Z 10) 100) as [bucket|]; [|done]. by injection Hnew as <-. }
  fold s in Hq, Hr, Hb, Hm. change (foldl _ O uses) with n in Hq, Hr.
  assert (0 < 2 ^ Z.of_nat n) as Hpow by (apply Z.pow_pos_nonneg; lia).
  assert (0 < backoff) as Hpos by (unfold backoff, Millisecond; lia).
  unfold delay, MaxOf_When, MaxOf_NumRequeues, ItemExponential_NumRequeues, ItemExponential_When. rewrite Hr, Hb, Hm.
  destruct (Bucket_Take now 1 (cr_bucket s.2)) as [wait bucket'].
  assert ((if bool_decide (2 ^ 63 < 5 * Millisecond * 2 ^ Z.of_nat n) then 1000 * 1000 * Millisecond
           else if bool_decide (1000 * 1000 * Millisecond < 5 * Millisecond * 2 ^ Z.of_nat n) then 1000 * 1000 * Millisecond
           else 5 * Millisecond * 2 ^ Z.of_nat n) = backoff) as ->.
  { unfold backoff, Millisecond. repeat case_bool_decide; lia. }
  rewrite (bool_decide_eq_true_2 (0 < backoff)) by done. split_and!; [case_bool_decide; lia|done|done|]. simpl. case_bool_decide; lia.
Qed.

Lemma retries_back_off_witness :
  let uses := [UseAddRateLimited 0 "default/es"; UseForget "default/other"; UseAddRateLimited 1 "default/es"] in
  ∃ r, DefaultControllerRateLimiter 0 = Ret r ∧
    (MaxOf_When 2 "default/es" (foldl useLimiter (newQueue, r) uses).2).1 = 20 * Millisecond.
Proof.
  eexists. split; [vm_compute; reflexivity|].
  rewrite (proj2 (proj2 (proj2 (retries_back_off 0 _ [UseAddRateLimited 0 "default/es"; UseForget "default/other"; UseAddRateLimited 1 "default/es"]
    "default/es" 2 ltac:(vm_compute; reflexivity))))).
  vm_compute. reflexivity.
Defined.
