(* ===== verification/VersionJSON.v ===== *)
(** * The JSON forms of the versions

    MarshalJSON and UnmarshalJSON of pkg/api/version (Cassandra) and of the
    vendored coreos/go-semver (Elasticsearch), with strconv.Quote and Unquote.
    The data is a JSON value, so a quoted string starts with a double quote;
    bytes from 128 on are copied by Unquote, and no version has one to quote. *)

From S2P Require Import Prelude GoStrings Semver K8s Types CassandraVersion.
From Stdlib Require Import Ascii.

(** ** strconv.Quote *)

Definition dquote : ascii := "034"%char.
Definition backslash : ascii := "092"%char.
Definition newline : ascii := "010"%char.

Definition hexDigit (n : nat) : ascii := ascii_of_nat (if (n <? 10)%nat then 48 + n else 87 + n).

(** The escape of a character that is not copied: the letter after the backslash. *)
Definition escapeLetter (c : ascii) : option ascii :=
  match nat_of_ascii c with
  | 7 => Some "a"%char
  | 8 => Some "b"%char
  | 12 => Some "f"%char
  | 10 => Some "n"%char
  | 13 => Some "r"%char
  | 9 => Some "t"%char
  | 11 => Some "v"%char
  | 92 => Some backslash
  | 34 => Some dquote
  | _ => None
  end%nat.

Definition quoteChar (c : ascii) : string :=
  let n := nat_of_ascii c in
  match escapeLetter c with
  | Some l => String backslash (String l "")
  | None =>
      if ((32 <=? n) && (n <? 127))%nat then String c ""
      else String backslash (String "x" (String (hexDigit (n / 16)) (String (hexDigit (n mod 16)) "")))
  end.

Fixpoint quoteBody (s : string) : string :=
  match s with
  | EmptyString => ""
  | String c s => quoteChar c +:+ quoteBody s
  end.

Definition Quote (s : string) : string := String dquote (quoteBody s +:+ String dquote "").

(** ** strconv.Unquote *)

Definition hexValue (c : ascii) : option N :=
  let n := N_of_ascii c in
  if ((48 <=? n) && (n <=? 57))%N then Some (n - 48)%N
  else if ((97 <=? n) && (n <=? 102))%N then Some (n - 87)%N
  else if ((65 <=? n) && (n <=? 70))%N then Some (n - 55)%N
  else None.

Definition hexValues (cs : list ascii) : option N :=
  foldl (λ acc c, a ← acc; d ← hexValue c; Some (a * 16 + d)%N) (Some 0%N) cs.

Definition octalValue (c : ascii) : option N :=
  let n := N_of_ascii c in if ((48 <=? n) && (n <=? 55))%N then Some (n - 48)%N else None.

(** utf8.EncodeRune; surrogates become the replacement character. *)
Definition EncodeRune (r : N) : string :=
  let b n := ascii_of_N n in
  let r := if ((55296 <=? r) && (r <=? 57343))%N then 65533%N else r in
  if (r <? 128)%N then String (b r) ""
  else if (r <? 2048)%N then String (b (192 + r / 64)%N) (String (b (128 + r mod 64)%N) "")
  else if (r <? 65536)%N then
    String (b (224 + r / 4096)%N) (String (b (128 + r / 64 mod 64)%N) (String (b (128 + r mod 64)%N) ""))
  else
    String (b (240 + r / 262144)%N) (String (b (128 + r / 4096 mod 64)%N) (String (b (128 + r / 64 mod 64)%N) (String (b (128 + r mod 64)%N) ""))).

Definition runeOf (cs : list ascii) : option string :=
  r ← hexValues cs; if (1114111 <? r)%N then None else Some (EncodeRune r).

Definition unescapeLetter (l : ascii) : option ascii :=
  match nat_of_ascii l with
  | 97 => Some "007"%char
  | 98 => Some "008"%char
  | 102 => Some "012"%char
  | 110 => Some "010"%char
  | 114 => Some "013"%char
  | 116 => Some "009"%char
  | 118 => Some "011"%char
  | 92 => Some backslash
  | 34 => Some dquote
  | _ => None
  end%nat.

(** The characters up to the closing quote, which has to be the last one. *)
Fixpoint unquoteBody (s : string) : option string :=
  match s with
  | EmptyString => None
  | String c s =>
      if bool_decide (c = dquote) then (if bool_decide (s = "") then Some "" else None)
      else if bool_decide (c = newline) then None
      else if negb (bool_decide (c = backslash)) then String c <$> unquoteBody s
      else
        match s with
        | EmptyString => None
        | String l s' =>
            match unescapeLetter l with
            | Some c => String c <$> unquoteBody s'
            | None =>
                if bool_decide (l = "x"%char) then
                  match s' with
                  | String a (String b s') => v ← hexValues [a; b]; String (ascii_of_N v) <$> unquoteBody s'
                  | _ => None
                  end
                else if bool_decide (l = "u"%char) then
                  match s' with
                  | String a (String b (String d (String e s'))) => v ← runeOf [a; b; d; e]; (λ rest, v +:+ rest) <$> unquoteBody s'
                  | _ => None
                  end
                else if bool_decide (l = "U"%char) then
                  match s' with
                  | String a (String b (String d (String e (String f (String g (String h (String i s'))))))) =>
                      v ← runeOf [a; b; d; e; f; g; h; i]; (λ rest, v +:+ rest) <$> unquoteBody s'
                  | _ => None
                  end
                else
                  match octalValue l, s' with
                  | Some x, String a (String b s') =>
                      y ← octalValue a; z ← octalValue b;
                      let v := (x * 64 + y * 8 + z)%N in
                      if (255 <? v)%N then None else String (ascii_of_N v) <$> unquoteBody s'
                  | _, _ => None
                  end
            end
        end
  end.

Definition Unquote (s : string) : option string :=
  match s with
  | String c s => if bool_decide (c = dquote) then unquoteBody s else None
  | EmptyString => None
  end.

(** ** The versions *)

Definition invalidSyntax : Err := Errorf "invalid syntax" [].

(** pkg/api/version *)
Definition CassVersion_MarshalJSON (v : CassVersion) : string := Quote (CassVersion_String v).

Definition CassVersion_UnmarshalJSON (data : string) : Res CassVersion :=
  match Unquote data with
  | None => inl invalidSyntax
  | Some s =>
      match CassVersion_set s with
      | None => inl (Errorf "Malformed version: %s" [AStr s])
      | Some v => inr v
      end
  end.

(** coreos/go-semver: the string is copied between the quotes. *)
Definition Version_MarshalJSON (v : Version) : string := String dquote (Version_String v +:+ String dquote "").

(** The data without its last character, which has to be a quote. *)
Fixpoint dropLastQuote (s : string) : option string :=
  match s with
  | EmptyString => None
  | String c EmptyString => if bool_decide (c = dquote) then Some "" else None
  | String c s => String c <$> dropLastQuote s
  end.

Definition Version_UnmarshalJSON (v : Version) (data : string) : Res Version :=
  if bool_decide (data = "") || bool_decide (data = String dquote (String dquote "")) then inr v
  else
    match data with
    | String c rest =>
        match (if bool_decide (c = dquote) then dropLastQuote rest else None) with
        | None => inl (Errorf "invalid semver string" [])
        | Some s =>
            match Version_Set s with
            | None => inl (Errorf "%s is not in dotted-tri format" [AStr s])
            | Some v => inr v
            end
        end
    | EmptyString => inr v
    end.

(** ** Quoting *)

Definition plain (c : ascii) : bool := is_ident_char c || bool_decide (c = "."%char) || bool_decide (c = "+"%char).

Fixpoint all_plain (s : string) : bool :=
  match s with
  | EmptyString => true
  | String c s => plain c && all_plain s
  end.

(** Plain characters are copied both ways. *)
Lemma plain_chars :
  forallb (λ n, let c := ascii_of_nat n in
    negb (plain c) || (bool_decide (quoteChar c = String c "") && negb (bool_decide (c = dquote)) &&
                       negb (bool_decide (c = newline)) && negb (bool_decide (c = backslash)))) (seq 0 256) = true.
Proof. vm_compute. reflexivity. Qed.

Lemma plain_spec c : plain c = true → quoteChar c = String c "" ∧ c ≠ dquote ∧ c ≠ newline ∧ c ≠ backslash.
Proof.
  intros Hc. pose proof plain_chars as H. rewrite forallb_forall in H. specialize (H (nat_of_ascii c)). cbv beta zeta in H.
  rewrite ascii_nat_embedding in H. rewrite Hc in H. cbn [negb orb] in H.
  rewrite !andb_true_iff, !negb_true_iff, !bool_decide_eq_false, bool_decide_eq_true in H.
  destruct H as [[[??]?]?]; [|done]. apply in_seq. pose proof (nat_ascii_bounded c). lia.
Qed.

Lemma quote_plain s : all_plain s = true → Quote s = String dquote (s +:+ String dquote "").
Proof.
  intros Hs. unfold Quote. do 2 f_equal. induction s as [|c s IH]; [done|]. simpl in *.
  apply andb_prop in Hs as [Hc Hs]. apply plain_spec in Hc as [-> _]. simpl. by rewrite IH.
Qed.

Lemma unquote_plain s : all_plain s = true → Unquote (String dquote (s +:+ String dquote "")) = Some s.
Proof.
  intros Hs. unfold Unquote. rewrite bool_decide_eq_true_2 by done. induction s as [|c s IH]; [done|].
  cbn [all_plain] in Hs. apply andb_prop in Hs as [(_ & H1 & H2 & H3)%plain_spec Hs].
  change (String c s +:+ String dquote "") with (String c (s +:+ String dquote "")). cbn [unquoteBody].
  rewrite !bool_decide_eq_false_2 by done. cbn [negb]. by rewrite IH.
Qed.

Lemma dropLastQuote_app s : dropLastQuote (s +:+ String dquote "") = Some s.
Proof.
  induction s as [|c s IH]; [done|]. change (String c s +:+ String dquote "") with (String c (s +:+ String dquote "")).
  cbn [dropLastQuote]. rewrite IH. by destruct s.
Qed.

(** ** Accepted versions are plain *)

Lemma all_plain_app a b : all_plain (a +:+ b) = all_plain a && all_plain b.
Proof. induction a as [|c a IH]; simpl; [done|]. by rewrite IH, andb_assoc. Qed.

Lemma all_plain_chars s : all_plain s = forallb plain (string_chars s).
Proof. induction s as [|c s IH]; simpl; [done|]. by rewrite IH. Qed.

Lemma idents_plain s : is_idents s = true → all_plain s = true.
Proof.
  unfold is_idents. rewrite <- (join_split_all "."%char s) at 2. generalize (split_all "."%char s) as parts.
  induction parts as [|p parts IH]; [done|]. cbn [forallb]. rewrite !andb_true_iff. intros [[_ Hp] Hps].
  assert (all_plain p = true) as Hpl.
  { rewrite all_plain_chars. rewrite forallb_forall in Hp |- *. intros c Hc. unfold plain. by rewrite Hp. }
  destruct parts as [|p' parts]; [done|]. change (join "." (p :: p' :: parts)) with (p +:+ "." +:+ join "." (p' :: parts)). by rewrite !all_plain_app, Hpl, IH.
Qed.

Lemma matchPre_plain s pre : matchPre s = Some pre → all_plain s = true.
Proof.
  destruct s as [|c s]; [done|]. unfold matchPre. destruct (_ && is_idents s) eqn:H1.
  - intros _. apply andb_prop in H1 as [Hc%bool_decide_eq_true Hs]. subst c. simpl. by apply idents_plain.
  - destruct (is_idents (String c s)) eqn:H2; [|done]. intros _. by apply idents_plain.
Qed.

Lemma matchTail_plain s t : matchTail s = Some t → all_plain s = true.
Proof.
  unfold matchTail. destruct (split_first "+"%char s) as [[a meta]|] eqn:Hs.
  - apply split_first_Some in Hs as [-> _]. destruct (is_idents meta) eqn:Hm; [|done].
    destruct (matchPre a) eqn:Hp; [|done]. intros _. rewrite all_plain_app. simpl.
    by rewrite (matchPre_plain _ _ Hp), (idents_plain _ Hm).
  - destruct (matchPre s) eqn:Hp; [|done]. intros _. by eapply matchPre_plain.
Qed.

Lemma digit_plain :
  forallb (λ n, let c := ascii_of_nat n in negb (bool_decide (is_Some (digit_value c))) || plain c) (seq 0 256) = true.
Proof. vm_compute. reflexivity. Qed.

Lemma digit_value_plain c d : digit_value c = Some d → plain c = true.
Proof.
  intros Hc. pose proof digit_plain as H. rewrite forallb_forall in H. specialize (H (nat_of_ascii c)). cbv beta zeta in H.
  rewrite ascii_nat_embedding, Hc in H. apply H, in_seq. pose proof (nat_ascii_bounded c). lia.
Qed.

Lemma digitSplits_app s p r : (p, r) ∈ digitSplits s → s = p +:+ r ∧ all_plain p = true.
Proof.
  revert p. induction s as [|c s IH]; intros p; simpl; [by intros ?%not_elem_of_nil|].
  destruct (digit_value c) eqn:E; [|by intros ?%not_elem_of_nil]. apply digit_value_plain in E.
  rewrite elem_of_app, list_elem_of_singleton. intros [Hin|[= -> ->]].
  - apply list_elem_of_fmap in Hin as ([p' r'] & [= -> ->] & Hin). destruct (IH _ Hin) as [-> Hp]. simpl. by rewrite E.
  - simpl. by rewrite E.
Qed.

Lemma matchSegments_plain fuel acc s t : matchSegments fuel acc s = Some t → all_plain s = true.
Proof.
  revert acc s. induction fuel as [|fuel IH]; intros acc s; cbn [matchSegments];
    (destruct (matchTail s) eqn:Ht; [by intros _; eapply matchTail_plain|]); [done|].
  destruct s as [|c s]; [done|]. case_bool_decide; [subst c|done].
  intros ([p r] & Hin & Hf)%first_some_elem. apply digitSplits_app in Hin as [-> Hp]. simpl.
  rewrite all_plain_app, Hp. by eapply IH.
Qed.

Lemma matchVersion_plain v t : matchVersion v = Some t → all_plain v = true.
Proof.
  unfold matchVersion. intros ([p r] & Hin & Hf)%first_some_elem. apply digitSplits_app in Hin as [Hv Hp].
  apply matchSegments_plain in Hf. assert (all_plain (p +:+ r) = true) as Hpr by (by rewrite all_plain_app, Hp).
  rewrite <- Hv in Hpr. destruct v as [|c v]; [done|]. revert Hpr. case_bool_decide; [subst c|done]. done.
Qed.

(** C36. The JSON of a well-formed Elasticsearch or Cassandra version decodes to the same
    version; a decoder that succeeds gives a well-formed version, or, for empty Elasticsearch
    data, leaves the old one; and the zero Cassandra version, which is encoded as an empty
    string, is refused by its own decoder. *)
Theorem versions_survive_json :
  (∀ v old, wf_Version v → Version_UnmarshalJSON old (Version_MarshalJSON v) = inr v) ∧
  (∀ v old data, Version_UnmarshalJSON old data = inr v → v = old ∨ wf_Version v) ∧
  (∀ v, wf_CassVersion v → CassVersion_UnmarshalJSON (CassVersion_MarshalJSON v) = inr v) ∧
  (∀ v data, CassVersion_UnmarshalJSON data = inr v → wf_CassVersion v ∧ Unquote data = Some (CassVersion_String v)) ∧
  (∃ err, CassVersion_UnmarshalJSON (CassVersion_MarshalJSON zeroCassVersion) = inl err).
Proof.
  split_and!.
  - intros v old Hwf. pose proof (Version_String_NewVersion v Hwf) as Hs. unfold Version_UnmarshalJSON, Version_MarshalJSON.
    assert (Version_String v ≠ "") as Hne by (intros He; by rewrite He in Hs).
    rewrite (bool_decide_eq_false_2 (_ = "")) by done.
    rewrite (bool_decide_eq_false_2 (_ = String dquote _)); [|by destruct (Version_String v) as [|? []]].
    rewrite bool_decide_eq_true_2 by done. cbn [orb]. rewrite dropLastQuote_app. unfold NewVersion in Hs. by rewrite Hs.
  - intros v old data. unfold Version_UnmarshalJSON. destruct (_ || _); [intros [= <-]; by left|].
    destruct data as [|c rest]; [intros [= <-]; by left|].
    destruct (if bool_decide (c = dquote) then _ else _) as [s|]; [|done].
    destruct (Version_Set s) as [v'|] eqn:Hs; [|done]. intros [= <-]. right. by apply (NewVersion_wf s).
  - intros [str sem] (sv & Hsv & Hp). simpl in *. subst sem. unfold CassVersion_UnmarshalJSON, CassVersion_MarshalJSON, CassVersion_String.
    cbn [cv_versionString]. assert (all_plain str = true) as Hpl.
    { unfold HVersion_NewVersion in Hp. destruct (matchVersion str) eqn:Hm; [|done]. by eapply matchVersion_plain. }
    rewrite quote_plain, unquote_plain by done. unfold CassVersion_set. by rewrite Hp.
  - intros v data. unfold CassVersion_UnmarshalJSON. destruct (Unquote data) as [s|]; [|done]. unfold CassVersion_set.
    destruct (HVersion_NewVersion s) as [sv|] eqn:Hs; [|done]. intros [= <-]. split; [by exists sv|done].
  - eexists. vm_compute. reflexivity.
Qed.
