(* ===== verification/Internal.v ===== *)
(** * pkg/apis/navigator: the internal API types

    The hub types of types.go, which validation works on.  They have the
    fields of the v1alpha1 types; the names of the projections carry an [n]. *)

From S2P Require Import Prelude GoStrings Semver K8s Types.
Record ImageSpec := mkImageSpec {
  nimg_Repository : string;
  nimg_Tag : string;
  nimg_PullPolicy : string;
}.

Record NavigatorSecurityContext := mkNavigatorSecurityContext {
  nnsc_RunAsUser : option Z;
}.

Record NavigatorClusterConfig := mkNavigatorClusterConfig {
  ncfg_PilotImage : ImageSpec;
  ncfg_SecurityContext : NavigatorSecurityContext;
  ncfg_Paused : bool;
}.

Record ClusterCondition := mkClusterCondition {
  ncc_Type : string;
  ncc_Status : string;
  ncc_LastTransitionTime : Z;
  ncc_Reason : string;
  ncc_Message : string;
}.

Record NavigatorClusterStatus := mkNavigatorClusterStatus {
  nncs_Conditions : list ClusterCondition;
}.

Record PersistenceConfig := mkPersistenceConfig {
  npc_Size : Quantity;
  npc_StorageClass : option string;
}.

#[export] Instance nPersistenceConfig_eq_dec : EqDecision PersistenceConfig.
Proof. solve_decision. Defined.

Record ElasticsearchClusterNodePool := mkElasticsearchClusterNodePool {
  nenp_Name : string;
  nenp_Replicas : option Z;
  nenp_Roles : option (list string);
  nenp_NodeSelector : option smap;
  nenp_Resources : ResourceRequirements;
  nenp_Persistence : option PersistenceConfig;
  nenp_SchedulerName : string;
}.

#[export] Instance nElasticsearchClusterNodePool_eq_dec : EqDecision ElasticsearchClusterNodePool.
Proof. solve_decision. Defined.

Record ElasticsearchClusterSpec := mkElasticsearchClusterSpec {
  nes_Config : NavigatorClusterConfig;
  nes_Version : Version;
  nes_Image : option ImageSpec;
  nes_Plugins : list string;
  nes_NodePools : list ElasticsearchClusterNodePool;
  nes_MinimumMasters : option Z;
}.

Record ElasticsearchClusterNodePoolStatus := mkElasticsearchClusterNodePoolStatus {
  nenps_ReadyReplicas : Z;
}.

Record ElasticsearchClusterStatus := mkElasticsearchClusterStatus {
  nest_Conditions : NavigatorClusterStatus;
  nest_NodePools : option (gmap string ElasticsearchClusterNodePoolStatus);
  nest_Health : option string;
}.

Record ElasticsearchCluster := mkElasticsearchCluster {
  nesc_Meta : ObjectMeta;
  nesc_Spec : ElasticsearchClusterSpec;
  nesc_Status : ElasticsearchClusterStatus;
}.

Record CassandraClusterNodePool := mkCassandraClusterNodePool {
  ncnp_Name : string;
  ncnp_Replicas : option Z;
  ncnp_Persistence : option PersistenceConfig;
  ncnp_NodeSelector : option smap;
  ncnp_Rack : option string;
  ncnp_Datacenter : option string;
  ncnp_Resources : ResourceRequirements;
  ncnp_SchedulerName : string;
}.

#[export] Instance nCassandraClusterNodePool_eq_dec : EqDecision CassandraClusterNodePool.
Proof. solve_decision. Defined.

Record CassandraClusterSpec := mkCassandraClusterSpec {
  ncs_Config : NavigatorClusterConfig;
  ncs_NodePools : list CassandraClusterNodePool;
  ncs_Version : CassVersion;
  ncs_Image : option ImageSpec;
}.

Record CassandraClusterNodePoolStatus := mkCassandraClusterNodePoolStatus {
  ncnps_ReadyReplicas : Z;
}.

Record CassandraClusterStatus := mkCassandraClusterStatus {
  ncst_Conditions : NavigatorClusterStatus;
  ncst_NodePools : option (gmap string CassandraClusterNodePoolStatus);
}.

Record CassandraCluster := mkCassandraCluster {
  ncass_Meta : ObjectMeta;
  ncass_Spec : CassandraClusterSpec;
  ncass_Status : CassandraClusterStatus;
}.

Record ElasticsearchPilotStatus := mkElasticsearchPilotStatus {
  neps_Documents : option Z;
  neps_Version : option Version;
}.

Record CassandraPilotStatus := mkCassandraPilotStatus {
  ncps_Version : option CassVersion;
}.

Record PilotCondition := mkPilotCondition {
  npilc_Type : string;
  npilc_Status : string;
  npilc_LastTransitionTime : Z;
  npilc_Reason : string;
  npilc_Message : string;
}.

Record PilotStatus := mkPilotStatus {
  npst_Conditions : list PilotCondition;
  npst_Elasticsearch : option ElasticsearchPilotStatus;
  npst_Cassandra : option CassandraPilotStatus;
}.

Record Pilot := mkPilot {
  npil_Meta : ObjectMeta;
  npil_Status : PilotStatus;
}.


(** ** Metadata of the objects *)

#[export] Program Instance Pilot_HasMeta : HasMeta Pilot :=
  {| objMeta := npil_Meta; withMeta m p := mkPilot m (npil_Status p) |}.
Solve All Obligations with done.
#[export] Program Instance ElasticsearchCluster_HasMeta : HasMeta ElasticsearchCluster :=
  {| objMeta := nesc_Meta; withMeta m c := mkElasticsearchCluster m (nesc_Spec c) (nesc_Status c) |}.
Solve All Obligations with done.
#[export] Program Instance CassandraCluster_HasMeta : HasMeta CassandraCluster :=
  {| objMeta := ncass_Meta; withMeta m c := mkCassandraCluster m (ncass_Spec c) (ncass_Status c) |}.
Solve All Obligations with done.
