(* ===== verification/Conversion.v ===== *)
(** * pkg/apis/navigator/v1alpha1/zz_generated.conversion.go

    Conversion between the v1alpha1 and the internal types, one function per
    pair.  A cast of a pointer, slice or map through [unsafe.Pointer] reads the
    elements at the other type, whose fields are in the same order: it is the
    element conversion under [option], [list] or the map.  No conversion
    returns an error.  The conversions of objects and lists leave the TypeMeta
    of the object they write to as it is ([autoConvert_] names what they assign). *)

From S2P Require Import Prelude GoStrings Semver K8s Internal Types.

Definition Convert_v1alpha1_ImageSpec_To_navigator_ImageSpec
    (i : Types.ImageSpec) : Internal.ImageSpec :=
  {| Internal.nimg_Repository := Types.img_Repository i;
     Internal.nimg_Tag := Types.img_Tag i;
     Internal.nimg_PullPolicy := Types.img_PullPolicy i |}.

Definition Convert_navigator_ImageSpec_To_v1alpha1_ImageSpec
    (i : Internal.ImageSpec) : Types.ImageSpec :=
  {| Types.img_Repository := Internal.nimg_Repository i;
     Types.img_Tag := Internal.nimg_Tag i;
     Types.img_PullPolicy := Internal.nimg_PullPolicy i |}.

Definition Convert_v1alpha1_NavigatorSecurityContext_To_navigator_NavigatorSecurityContext
    (i : Types.NavigatorSecurityContext) : Internal.NavigatorSecurityContext :=
  {| Internal.nnsc_RunAsUser := Types.nsc_RunAsUser i |}.

Definition Convert_navigator_NavigatorSecurityContext_To_v1alpha1_NavigatorSecurityContext
    (i : Internal.NavigatorSecurityContext) : Types.NavigatorSecurityContext :=
  {| Types.nsc_RunAsUser := Internal.nnsc_RunAsUser i |}.

Definition Convert_v1alpha1_NavigatorClusterConfig_To_navigator_NavigatorClusterConfig
    (i : Types.NavigatorClusterConfig) : Internal.NavigatorClusterConfig :=
  {| Internal.ncfg_PilotImage := Convert_v1alpha1_ImageSpec_To_navigator_ImageSpec (Types.cfg_PilotImage i);
     Internal.ncfg_SecurityContext := Convert_v1alpha1_NavigatorSecurityContext_To_navigator_NavigatorSecurityContext (Types.cfg_SecurityContext i);
     Internal.ncfg_Paused := Types.cfg_Paused i |}.

Definition Convert_navigator_NavigatorClusterConfig_To_v1alpha1_NavigatorClusterConfig
    (i : Internal.NavigatorClusterConfig) : Types.NavigatorClusterConfig :=
  {| Types.cfg_PilotImage := Convert_navigator_ImageSpec_To_v1alpha1_ImageSpec (Internal.ncfg_PilotImage i);
     Types.cfg_SecurityContext := Convert_navigator_NavigatorSecurityContext_To_v1alpha1_NavigatorSecurityContext (Internal.ncfg_SecurityContext i);
     Types.cfg_Paused := Internal.ncfg_Paused i |}.

Definition Convert_v1alpha1_ClusterCondition_To_navigator_ClusterCondition
    (i : Types.ClusterCondition) : Internal.ClusterCondition :=
  {| Internal.ncc_Type := Types.cc_Type i;
     Internal.ncc_Status := Types.cc_Status i;
     Internal.ncc_LastTransitionTime := Types.cc_LastTransitionTime i;
     Internal.ncc_Reason := Types.cc_Reason i;
     Internal.ncc_Message := Types.cc_Message i |}.

Definition Convert_navigator_ClusterCondition_To_v1alpha1_ClusterCondition
    (i : Internal.ClusterCondition) : Types.ClusterCondition :=
  {| Types.cc_Type := Internal.ncc_Type i;
     Types.cc_Status := Internal.ncc_Status i;
     Types.cc_LastTransitionTime := Internal.ncc_LastTransitionTime i;
     Types.cc_Reason := Internal.ncc_Reason i;
     Types.cc_Message := Internal.ncc_Message i |}.

Definition Convert_v1alpha1_NavigatorClusterStatus_To_navigator_NavigatorClusterStatus
    (i : Types.NavigatorClusterStatus) : Internal.NavigatorClusterStatus :=
  {| Internal.nncs_Conditions := (Convert_v1alpha1_ClusterCondition_To_navigator_ClusterCondition <$> (Types.ncs_Conditions i)) |}.

Definition Convert_navigator_NavigatorClusterStatus_To_v1alpha1_NavigatorClusterStatus
    (i : Internal.NavigatorClusterStatus) : Types.NavigatorClusterStatus :=
  {| Types.ncs_Conditions := (Convert_navigator_ClusterCondition_To_v1alpha1_ClusterCondition <$> (Internal.nncs_Conditions i)) |}.

Definition Convert_v1alpha1_PersistenceConfig_To_navigator_PersistenceConfig
    (i : Types.PersistenceConfig) : Internal.PersistenceConfig :=
  {| Internal.npc_Size := Types.pc_Size i;
     Internal.npc_StorageClass := Types.pc_StorageClass i |}.

Definition Convert_navigator_PersistenceConfig_To_v1alpha1_PersistenceConfig
    (i : Internal.PersistenceConfig) : Types.PersistenceConfig :=
  {| Types.pc_Size := Internal.npc_Size i;
     Types.pc_StorageClass := Internal.npc_StorageClass i |}.

Definition Convert_v1alpha1_ElasticsearchClusterNodePool_To_navigator_ElasticsearchClusterNodePool
    (i : Types.ElasticsearchClusterNodePool) : Internal.ElasticsearchClusterNodePool :=
  {| Internal.nenp_Name := Types.enp_Name i;
     Internal.nenp_Replicas := Types.enp_Replicas i;
     Internal.nenp_Roles := Types.enp_Roles i;
     Internal.nenp_NodeSelector := Types.enp_NodeSelector i;
     Internal.nenp_Resources := Types.enp_Resources i;
     Internal.nenp_Persistence := (Convert_v1alpha1_PersistenceConfig_To_navigator_PersistenceConfig <$> (Types.enp_Persistence i));
     Internal.nenp_SchedulerName := Types.enp_SchedulerName i |}.

Definition Convert_navigator_ElasticsearchClusterNodePool_To_v1alpha1_ElasticsearchClusterNodePool
    (i : Internal.ElasticsearchClusterNodePool) : Types.ElasticsearchClusterNodePool :=
  {| Types.enp_Name := Internal.nenp_Name i;
     Types.enp_Replicas := Internal.nenp_Replicas i;
     Types.enp_Roles := Internal.nenp_Roles i;
     Types.enp_NodeSelector := Internal.nenp_NodeSelector i;
     Types.enp_Resources := Internal.nenp_Resources i;
     Types.enp_Persistence := (Convert_navigator_PersistenceConfig_To_v1alpha1_PersistenceConfig <$> (Internal.nenp_Persistence i));
     Types.enp_SchedulerName := Internal.nenp_SchedulerName i |}.

Definition Convert_v1alpha1_ElasticsearchClusterSpec_To_navigator_ElasticsearchClusterSpec
    (i : Types.ElasticsearchClusterSpec) : Internal.ElasticsearchClusterSpec :=
  {| Internal.nes_Config := Convert_v1alpha1_NavigatorClusterConfig_To_navigator_NavigatorClusterConfig (Types.es_Config i);
     Internal.nes_Version := Types.es_Version i;
     Internal.nes_Image := (Convert_v1alpha1_ImageSpec_To_navigator_ImageSpec <$> (Types.es_Image i));
     Internal.nes_Plugins := Types.es_Plugins i;
     Internal.nes_NodePools := (Convert_v1alpha1_ElasticsearchClusterNodePool_To_navigator_ElasticsearchClusterNodePool <$> (Types.es_NodePools i));
     Internal.nes_MinimumMasters := Types.es_MinimumMasters i |}.

Definition Convert_navigator_ElasticsearchClusterSpec_To_v1alpha1_ElasticsearchClusterSpec
    (i : Internal.ElasticsearchClusterSpec) : Types.ElasticsearchClusterSpec :=
  {| Types.es_Config := Convert_navigator_NavigatorClusterConfig_To_v1alpha1_NavigatorClusterConfig (Internal.nes_Config i);
     Types.es_Version := Internal.nes_Version i;
     Types.es_Plugins := Internal.nes_Plugins i;
     Types.es_NodePools := (Convert_navigator_ElasticsearchClusterNodePool_To_v1alpha1_ElasticsearchClusterNodePool <$> (Internal.nes_NodePools i));
     Types.es_Image := (Convert_navigator_ImageSpec_To_v1alpha1_ImageSpec <$> (Internal.nes_Image i));
     Types.es_MinimumMasters := Internal.nes_MinimumMasters i |}.

Definition Convert_v1alpha1_ElasticsearchClusterNodePoolStatus_To_navigator_ElasticsearchClusterNodePoolStatus
    (i : Types.ElasticsearchClusterNodePoolStatus) : Internal.ElasticsearchClusterNodePoolStatus :=
  {| Internal.nenps_ReadyReplicas := Types.enps_ReadyReplicas i |}.

Definition Convert_navigator_ElasticsearchClusterNodePoolStatus_To_v1alpha1_ElasticsearchClusterNodePoolStatus
    (i : Internal.ElasticsearchClusterNodePoolStatus) : Types.ElasticsearchClusterNodePoolStatus :=
  {| Types.enps_ReadyReplicas := Internal.nenps_ReadyReplicas i |}.

Definition Convert_v1alpha1_ElasticsearchClusterStatus_To_navigator_ElasticsearchClusterStatus
    (i : Types.ElasticsearchClusterStatus) : Internal.ElasticsearchClusterStatus :=
  {| Internal.nest_Conditions := Convert_v1alpha1_NavigatorClusterStatus_To_navigator_NavigatorClusterStatus (Types.est_Conditions i);
     Internal.nest_NodePools := (fmap (M:=gmap string) Convert_v1alpha1_ElasticsearchClusterNodePoolStatus_To_navigator_ElasticsearchClusterNodePoolStatus <$> (Types.est_NodePools i));
     Internal.nest_Health := Types.est_Health i |}.

Definition Convert_navigator_ElasticsearchClusterStatus_To_v1alpha1_ElasticsearchClusterStatus
    (i : Internal.ElasticsearchClusterStatus) : Types.ElasticsearchClusterStatus :=
  {| Types.est_Conditions := Convert_navigator_NavigatorClusterStatus_To_v1alpha1_NavigatorClusterStatus (Internal.nest_Conditions i);
     Types.est_NodePools := (fmap (M:=gmap string) Convert_navigator_ElasticsearchClusterNodePoolStatus_To_v1alpha1_ElasticsearchClusterNodePoolStatus <$> (Internal.nest_NodePools i));
     Types.est_Health := Internal.nest_Health i |}.

Definition autoConvert_v1alpha1_ElasticsearchCluster_To_navigator_ElasticsearchCluster
    (i : Types.ElasticsearchCluster) : Internal.ElasticsearchCluster :=
  {| Internal.nesc_Meta := Types.esc_Meta i;
     Internal.nesc_Spec := Convert_v1alpha1_ElasticsearchClusterSpec_To_navigator_ElasticsearchClusterSpec (Types.esc_Spec i);
     Internal.nesc_Status := Convert_v1alpha1_ElasticsearchClusterStatus_To_navigator_ElasticsearchClusterStatus (Types.esc_Status i) |}.

Definition autoConvert_navigator_ElasticsearchCluster_To_v1alpha1_ElasticsearchCluster
    (i : Internal.ElasticsearchCluster) : Types.ElasticsearchCluster :=
  {| Types.esc_Meta := Internal.nesc_Meta i;
     Types.esc_Spec := Convert_navigator_ElasticsearchClusterSpec_To_v1alpha1_ElasticsearchClusterSpec (Internal.nesc_Spec i);
     Types.esc_Status := Convert_navigator_ElasticsearchClusterStatus_To_v1alpha1_ElasticsearchClusterStatus (Internal.nesc_Status i) |}.

Definition Convert_v1alpha1_CassandraClusterNodePool_To_navigator_CassandraClusterNodePool
    (i : Types.CassandraClusterNodePool) : Internal.CassandraClusterNodePool :=
  {| Internal.ncnp_Name := Types.cnp_Name i;
     Internal.ncnp_Replicas := Types.cnp_Replicas i;
     Internal.ncnp_Persistence := (Convert_v1alpha1_PersistenceConfig_To_navigator_PersistenceConfig <$> (Types.cnp_Persistence i));
     Internal.ncnp_NodeSelector := Types.cnp_NodeSelector i;
     Internal.ncnp_Rack := Types.cnp_Rack i;
     Internal.ncnp_Datacenter := Types.cnp_Datacenter i;
     Internal.ncnp_Resources := Types.cnp_Resources i;
     Internal.ncnp_SchedulerName := Types.cnp_SchedulerName i |}.

Definition Convert_navigator_CassandraClusterNodePool_To_v1alpha1_CassandraClusterNodePool
    (i : Internal.CassandraClusterNodePool) : Types.CassandraClusterNodePool :=
  {| Types.cnp_Name := Internal.ncnp_Name i;
     Types.cnp_Replicas := Internal.ncnp_Replicas i;
     Types.cnp_Persistence := (Convert_navigator_PersistenceConfig_To_v1alpha1_PersistenceConfig <$> (Internal.ncnp_Persistence i));
     Types.cnp_NodeSelector := Internal.ncnp_NodeSelector i;
     Types.cnp_Rack := Internal.ncnp_Rack i;
     Types.cnp_Datacenter := Internal.ncnp_Datacenter i;
     Types.cnp_Resources := Internal.ncnp_Resources i;
     Types.cnp_SchedulerName := Internal.ncnp_SchedulerName i |}.

Definition Convert_v1alpha1_CassandraClusterSpec_To_navigator_CassandraClusterSpec
    (i : Types.CassandraClusterSpec) : Internal.CassandraClusterSpec :=
  {| Internal.ncs_Config := Convert_v1alpha1_NavigatorClusterConfig_To_navigator_NavigatorClusterConfig (Types.cs_Config i);
     Internal.ncs_NodePools := (Convert_v1alpha1_CassandraClusterNodePool_To_navigator_CassandraClusterNodePool <$> (Types.cs_NodePools i));
     Internal.ncs_Version := Types.cs_Version i;
     Internal.ncs_Image := (Convert_v1alpha1_ImageSpec_To_navigator_ImageSpec <$> (Types.cs_Image i)) |}.

Definition Convert_navigator_CassandraClusterSpec_To_v1alpha1_CassandraClusterSpec
    (i : Internal.CassandraClusterSpec) : Types.CassandraClusterSpec :=
  {| Types.cs_Config := Convert_navigator_NavigatorClusterConfig_To_v1alpha1_NavigatorClusterConfig (Internal.ncs_Config i);
     Types.cs_NodePools := (Convert_navigator_CassandraClusterNodePool_To_v1alpha1_CassandraClusterNodePool <$> (Internal.ncs_NodePools i));
     Types.cs_Image := (Convert_navigator_ImageSpec_To_v1alpha1_ImageSpec <$> (Internal.ncs_Image i));
     Types.cs_Version := Internal.ncs_Version i |}.

Definition Convert_v1alpha1_CassandraClusterNodePoolStatus_To_navigator_CassandraClusterNodePoolStatus
    (i : Types.CassandraClusterNodePoolStatus) : Internal.CassandraClusterNodePoolStatus :=
  {| Internal.ncnps_ReadyReplicas := Types.cnps_ReadyReplicas i |}.

Definition Convert_navigator_CassandraClusterNodePoolStatus_To_v1alpha1_CassandraClusterNodePoolStatus
    (i : Internal.CassandraClusterNodePoolStatus) : Types.CassandraClusterNodePoolStatus :=
  {| Types.cnps_ReadyReplicas := Internal.ncnps_ReadyReplicas i |}.

Definition Convert_v1alpha1_CassandraClusterStatus_To_navigator_CassandraClusterStatus
    (i : Types.CassandraClusterStatus) : Internal.CassandraClusterStatus :=
  {| Internal.ncst_Conditions := Convert_v1alpha1_NavigatorClusterStatus_To_navigator_NavigatorClusterStatus (Types.cst_Conditions i);
     Internal.ncst_NodePools := (fmap (M:=gmap string) Convert_v1alpha1_CassandraClusterNodePoolStatus_To_navigator_CassandraClusterNodePoolStatus <$> (Types.cst_NodePools i)) |}.

Definition Convert_navigator_CassandraClusterStatus_To_v1alpha1_CassandraClusterStatus
    (i : Internal.CassandraClusterStatus) : Types.CassandraClusterStatus :=
  {| Types.cst_Conditions := Convert_navigator_NavigatorClusterStatus_To_v1alpha1_NavigatorClusterStatus (Internal.ncst_Conditions i);
     Types.cst_NodePools := (fmap (M:=gmap string) Convert_navigator_CassandraClusterNodePoolStatus_To_v1alpha1_CassandraClusterNodePoolStatus <$> (Internal.ncst_NodePools i)) |}.

Definition autoConvert_v1alpha1_CassandraCluster_To_navigator_CassandraCluster
    (i : Types.CassandraCluster) : Internal.CassandraCluster :=
  {| Internal.ncass_Meta := Types.cass_Meta i;
     Internal.ncass_Spec := Convert_v1alpha1_CassandraClusterSpec_To_navigator_CassandraClusterSpec (Types.cass_Spec i);
     Internal.ncass_Status := Convert_v1alpha1_CassandraClusterStatus_To_navigator_CassandraClusterStatus (Types.cass_Status i) |}.

Definition autoConvert_navigator_CassandraCluster_To_v1alpha1_CassandraCluster
    (i : Internal.CassandraCluster) : Types.CassandraCluster :=
  {| Types.cass_Meta := Internal.ncass_Meta i;
     Types.cass_Spec := Convert_navigator_CassandraClusterSpec_To_v1alpha1_CassandraClusterSpec (Internal.ncass_Spec i);
     Types.cass_Status := Convert_navigator_CassandraClusterStatus_To_v1alpha1_CassandraClusterStatus (Internal.ncass_Status i) |}.

Definition Convert_v1alpha1_ElasticsearchPilotStatus_To_navigator_ElasticsearchPilotStatus
    (i : Types.ElasticsearchPilotStatus) : Internal.ElasticsearchPilotStatus :=
  {| Internal.neps_Documents := Types.eps_Documents i;
     Internal.neps_Version := Types.eps_Version i |}.

Definition Convert_navigator_ElasticsearchPilotStatus_To_v1alpha1_ElasticsearchPilotStatus
    (i : Internal.ElasticsearchPilotStatus) : Types.ElasticsearchPilotStatus :=
  {| Types.eps_Documents := Internal.neps_Documents i;
     Types.eps_Version := Internal.neps_Version i |}.

Definition Convert_v1alpha1_CassandraPilotStatus_To_navigator_CassandraPilotStatus
    (i : Types.CassandraPilotStatus) : Internal.CassandraPilotStatus :=
  {| Internal.ncps_Version := Types.cps_Version i |}.

Definition Convert_navigator_CassandraPilotStatus_To_v1alpha1_CassandraPilotStatus
    (i : Internal.CassandraPilotStatus) : Types.CassandraPilotStatus :=
  {| Types.cps_Version := Internal.ncps_Version i |}.

Definition Convert_v1alpha1_PilotCondition_To_navigator_PilotCondition
    (i : Types.PilotCondition) : Internal.PilotCondition :=
  {| Internal.npilc_Type := Types.pc_Type i;
     Internal.npilc_Status := Types.pc_Status i;
     Internal.npilc_LastTransitionTime := Types.pc_LastTransitionTime i;
     Internal.npilc_Reason := Types.pc_Reason i;
     Internal.npilc_Message := Types.pc_Message i |}.

Definition Convert_navigator_PilotCondition_To_v1alpha1_PilotCondition
    (i : Internal.PilotCondition) : Types.PilotCondition :=
  {| Types.pc_Type := Internal.npilc_Type i;
     Types.pc_Status := Internal.npilc_Status i;
     Types.pc_LastTransitionTime := Internal.npilc_LastTransitionTime i;
     Types.pc_Reason := Internal.npilc_Reason i;
     Types.pc_Message := Internal.npilc_Message i |}.

Definition Convert_v1alpha1_PilotStatus_To_navigator_PilotStatus
    (i : Types.PilotStatus) : Internal.PilotStatus :=
  {| Internal.npst_Conditions := (Convert_v1alpha1_PilotCondition_To_navigator_PilotCondition <$> (Types.pst_Conditions i));
     Internal.npst_Elasticsearch := (Convert_v1alpha1_ElasticsearchPilotStatus_To_navigator_ElasticsearchPilotStatus <$> (Types.pst_Elasticsearch i));
     Internal.npst_Cassandra := (Convert_v1alpha1_CassandraPilotStatus_To_navigator_CassandraPilotStatus <$> (Types.pst_Cassandra i)) |}.

Definition Convert_navigator_PilotStatus_To_v1alpha1_PilotStatus
    (i : Internal.PilotStatus) : Types.PilotStatus :=
  {| Types.pst_Conditions := (Convert_navigator_PilotCondition_To_v1alpha1_PilotCondition <$> (Internal.npst_Conditions i));
     Types.pst_Elasticsearch := (Convert_navigator_ElasticsearchPilotStatus_To_v1alpha1_ElasticsearchPilotStatus <$> (Internal.npst_Elasticsearch i));
     Types.pst_Cassandra := (Convert_navigator_CassandraPilotStatus_To_v1alpha1_CassandraPilotStatus <$> (Internal.npst_Cassandra i)) |}.

Definition autoConvert_v1alpha1_Pilot_To_navigator_Pilot (i : Types.Pilot) : Internal.Pilot :=
  {| Internal.npil_Meta := Types.pil_Meta i;
     Internal.npil_Status := Convert_v1alpha1_PilotStatus_To_navigator_PilotStatus (Types.pil_Status i) |}.

Definition autoConvert_navigator_Pilot_To_v1alpha1_Pilot (i : Internal.Pilot) : Types.Pilot :=
  {| Types.pil_Meta := Internal.npil_Meta i;
     Types.pil_Status := Convert_navigator_PilotStatus_To_v1alpha1_PilotStatus (Internal.npil_Status i) |}.

(** ** Round trips *)

#[local] Instance option_fmap_cancel {A B} (f : B → A) (g : A → B) :
  Cancel (=) f g → Cancel (=) (fmap (M:=option) f) (fmap g).
Proof. intros Hc [a|]; simpl; [|done]. f_equal. apply Hc. Qed.

#[local] Instance list_fmap_cancel {A B} (f : B → A) (g : A → B) :
  Cancel (=) f g → Cancel (=) (fmap (M:=list) f) (fmap g).
Proof. intros Hc l. induction l as [|a l IH]; [done|]. rewrite !fmap_cons, IH. f_equal. apply Hc. Qed.

#[local] Instance gmap_fmap_cancel {A B} (f : B → A) (g : A → B) :
  Cancel (=) f g → Cancel (=) (fmap (M:=gmap string) f) (fmap g).
Proof.
  intros Hc m. apply map_eq. intros k. rewrite !lookup_fmap. destruct (m !! k); simpl; [|done].
  f_equal. apply Hc.
Qed.

(** One pair of conversions undoes the other, given that the nested ones do. *)
Ltac solve_roundtrip :=
  intros []; lazymatch goal with |- ?f (?g _) = _ => unfold f, g end; simpl; f_equal; apply (cancel _ _).

#[local] Instance ImageSpec_v1alpha1_roundtrip :
  Cancel (=) Convert_navigator_ImageSpec_To_v1alpha1_ImageSpec
    Convert_v1alpha1_ImageSpec_To_navigator_ImageSpec.
Proof. solve_roundtrip. Qed.
#[local] Instance ImageSpec_navigator_roundtrip :
  Cancel (=) Convert_v1alpha1_ImageSpec_To_navigator_ImageSpec
    Convert_navigator_ImageSpec_To_v1alpha1_ImageSpec.
Proof. solve_roundtrip. Qed.

#[local] Instance NavigatorSecurityContext_v1alpha1_roundtrip :
  Cancel (=) Convert_navigator_NavigatorSecurityContext_To_v1alpha1_NavigatorSecurityContext
    Convert_v1alpha1_NavigatorSecurityContext_To_navigator_NavigatorSecurityContext.
Proof. solve_roundtrip. Qed.
#[local] Instance NavigatorSecurityContext_navigator_roundtrip :
  Cancel (=) Convert_v1alpha1_NavigatorSecurityContext_To_navigator_NavigatorSecurityContext
    Convert_navigator_NavigatorSecurityContext_To_v1alpha1_NavigatorSecurityContext.
Proof. solve_roundtrip. Qed.

#[local] Instance NavigatorClusterConfig_v1alpha1_roundtrip :
  Cancel (=) Convert_navigator_NavigatorClusterConfig_To_v1alpha1_NavigatorClusterConfig
    Convert_v1alpha1_NavigatorClusterConfig_To_navigator_NavigatorClusterConfig.
Proof. solve_roundtrip. Qed.
#[local] Instance NavigatorClusterConfig_navigator_roundtrip :
  Cancel (=) Convert_v1alpha1_NavigatorClusterConfig_To_navigator_NavigatorClusterConfig
    Convert_navigator_NavigatorClusterConfig_To_v1alpha1_NavigatorClusterConfig.
Proof. solve_roundtrip. Qed.

#[local] Instance ClusterCondition_v1alpha1_roundtrip :
  Cancel (=) Convert_navigator_ClusterCondition_To_v1alpha1_ClusterCondition
    Convert_v1alpha1_ClusterCondition_To_navigator_ClusterCondition.
Proof. solve_roundtrip. Qed.
#[local] Instance ClusterCondition_navigator_roundtrip :
  Cancel (=) Convert_v1alpha1_ClusterCondition_To_navigator_ClusterCondition
    Convert_navigator_ClusterCondition_To_v1alpha1_ClusterCondition.
Proof. solve_roundtrip. Qed.

#[local] Instance NavigatorClusterStatus_v1alpha1_roundtrip :
  Cancel (=) Convert_navigator_NavigatorClusterStatus_To_v1alpha1_NavigatorClusterStatus
    Convert_v1alpha1_NavigatorClusterStatus_To_navigator_NavigatorClusterStatus.
Proof. solve_roundtrip. Qed.
#[local] Instance NavigatorClusterStatus_navigator_roundtrip :
  Cancel (=) Convert_v1alpha1_NavigatorClusterStatus_To_navigator_NavigatorClusterStatus
    Convert_navigator_NavigatorClusterStatus_To_v1alpha1_NavigatorClusterStatus.
Proof. solve_roundtrip. Qed.

#[local] Instance PersistenceConfig_v1alpha1_roundtrip :
  Cancel (=) Convert_navigator_PersistenceConfig_To_v1alpha1_PersistenceConfig
    Convert_v1alpha1_PersistenceConfig_To_navigator_PersistenceConfig.
Proof. solve_roundtrip. Qed.
#[local] Instance PersistenceConfig_navigator_roundtrip :
  Cancel (=) Convert_v1alpha1_PersistenceConfig_To_navigator_PersistenceConfig
    Convert_navigator_PersistenceConfig_To_v1alpha1_PersistenceConfig.
Proof. solve_roundtrip. Qed.

#[local] Instance ElasticsearchClusterNodePool_v1alpha1_roundtrip :
  Cancel (=) Convert_navigator_ElasticsearchClusterNodePool_To_v1alpha1_ElasticsearchClusterNodePool
    Convert_v1alpha1_ElasticsearchClusterNodePool_To_navigator_ElasticsearchClusterNodePool.
Proof. solve_roundtrip. Qed.
#[local] Instance ElasticsearchClusterNodePool_navigator_roundtrip :
  Cancel (=) Convert_v1alpha1_ElasticsearchClusterNodePool_To_navigator_ElasticsearchClusterNodePool
    Convert_navigator_ElasticsearchClusterNodePool_To_v1alpha1_ElasticsearchClusterNodePool.
Proof. solve_roundtrip. Qed.

#[local] Instance ElasticsearchClusterSpec_v1alpha1_roundtrip :
  Cancel (=) Convert_navigator_ElasticsearchClusterSpec_To_v1alpha1_ElasticsearchClusterSpec
    Convert_v1alpha1_ElasticsearchClusterSpec_To_navigator_ElasticsearchClusterSpec.
Proof. solve_roundtrip. Qed.
#[local] Instance ElasticsearchClusterSpec_navigator_roundtrip :
  Cancel (=) Convert_v1alpha1_ElasticsearchClusterSpec_To_navigator_ElasticsearchClusterSpec
    Convert_navigator_ElasticsearchClusterSpec_To_v1alpha1_ElasticsearchClusterSpec.
Proof. solve_roundtrip. Qed.

#[local] Instance ElasticsearchClusterNodePoolStatus_v1alpha1_roundtrip :
  Cancel (=) Convert_navigator_ElasticsearchClusterNodePoolStatus_To_v1alpha1_ElasticsearchClusterNodePoolStatus
    Convert_v1alpha1_ElasticsearchClusterNodePoolStatus_To_navigator_ElasticsearchClusterNodePoolStatus.
Proof. solve_roundtrip. Qed.
#[local] Instance ElasticsearchClusterNodePoolStatus_navigator_roundtrip :
  Cancel (=) Convert_v1alpha1_ElasticsearchClusterNodePoolStatus_To_navigator_ElasticsearchClusterNodePoolStatus
    Convert_navigator_ElasticsearchClusterNodePoolStatus_To_v1alpha1_ElasticsearchClusterNodePoolStatus.
Proof. solve_roundtrip. Qed.

#[local] Instance ElasticsearchClusterStatus_v1alpha1_roundtrip :
  Cancel (=) Convert_navigator_ElasticsearchClusterStatus_To_v1alpha1_ElasticsearchClusterStatus
    Convert_v1alpha1_ElasticsearchClusterStatus_To_navigator_ElasticsearchClusterStatus.
Proof. solve_roundtrip. Qed.
#[local] Instance ElasticsearchClusterStatus_navigator_roundtrip :
  Cancel (=) Convert_v1alpha1_ElasticsearchClusterStatus_To_navigator_ElasticsearchClusterStatus
    Convert_navigator_ElasticsearchClusterStatus_To_v1alpha1_ElasticsearchClusterStatus.
Proof. solve_roundtrip. Qed.

#[local] Instance ElasticsearchCluster_v1alpha1_roundtrip :
  Cancel (=) autoConvert_navigator_ElasticsearchCluster_To_v1alpha1_ElasticsearchCluster
    autoConvert_v1alpha1_ElasticsearchCluster_To_navigator_ElasticsearchCluster.
Proof. solve_roundtrip. Qed.
#[local] Instance ElasticsearchCluster_navigator_roundtrip :
  Cancel (=) autoConvert_v1alpha1_ElasticsearchCluster_To_navigator_ElasticsearchCluster
    autoConvert_navigator_ElasticsearchCluster_To_v1alpha1_ElasticsearchCluster.
Proof. solve_roundtrip. Qed.

#[local] Instance CassandraClusterNodePool_v1alpha1_roundtrip :
  Cancel (=) Convert_navigator_CassandraClusterNodePool_To_v1alpha1_CassandraClusterNodePool
    Convert_v1alpha1_CassandraClusterNodePool_To_navigator_CassandraClusterNodePool.
Proof. solve_roundtrip. Qed.
#[local] Instance CassandraClusterNodePool_navigator_roundtrip :
  Cancel (=) Convert_v1alpha1_CassandraClusterNodePool_To_navigator_CassandraClusterNodePool
    Convert_navigator_CassandraClusterNodePool_To_v1alpha1_CassandraClusterNodePool.
Proof. solve_roundtrip. Qed.

#[local] Instance CassandraClusterSpec_v1alpha1_roundtrip :
  Cancel (=) Convert_navigator_CassandraClusterSpec_To_v1alpha1_CassandraClusterSpec
    Convert_v1alpha1_CassandraClusterSpec_To_navigator_CassandraClusterSpec.
Proof. solve_roundtrip. Qed.
#[local] Instance CassandraClusterSpec_navigator_roundtrip :
  Cancel (=) Convert_v1alpha1_CassandraClusterSpec_To_navigator_CassandraClusterSpec
    Convert_navigator_CassandraClusterSpec_To_v1alpha1_CassandraClusterSpec.
Proof. solve_roundtrip. Qed.

#[local] Instance CassandraClusterNodePoolStatus_v1alpha1_roundtrip :
  Cancel (=) Convert_navigator_CassandraClusterNodePoolStatus_To_v1alpha1_CassandraClusterNodePoolStatus
    Convert_v1alpha1_CassandraClusterNodePoolStatus_To_navigator_CassandraClusterNodePoolStatus.
Proof. solve_roundtrip. Qed.
#[local] Instance CassandraClusterNodePoolStatus_navigator_roundtrip :
  Cancel (=) Convert_v1alpha1_CassandraClusterNodePoolStatus_To_navigator_CassandraClusterNodePoolStatus
    Convert_navigator_CassandraClusterNodePoolStatus_To_v1alpha1_CassandraClusterNodePoolStatus.
Proof. solve_roundtrip. Qed.

#[local] Instance CassandraClusterStatus_v1alpha1_roundtrip :
  Cancel (=) Convert_navigator_CassandraClusterStatus_To_v1alpha1_CassandraClusterStatus
    Convert_v1alpha1_CassandraClusterStatus_To_navigator_CassandraClusterStatus.
Proof. solve_roundtrip. Qed.
#[local] Instance CassandraClusterStatus_navigator_roundtrip :
  Cancel (=) Convert_v1alpha1_CassandraClusterStatus_To_navigator_CassandraClusterStatus
    Convert_navigator_CassandraClusterStatus_To_v1alpha1_CassandraClusterStatus.
Proof. solve_roundtrip. Qed.

#[local] Instance CassandraCluster_v1alpha1_roundtrip :
  Cancel (=) autoConvert_navigator_CassandraCluster_To_v1alpha1_CassandraCluster
    autoConvert_v1alpha1_CassandraCluster_To_navigator_CassandraCluster.
Proof. solve_roundtrip. Qed.
#[local] Instance CassandraCluster_navigator_roundtrip :
  Cancel (=) autoConvert_v1alpha1_CassandraCluster_To_navigator_CassandraCluster
    autoConvert_navigator_CassandraCluster_To_v1alpha1_CassandraCluster.
Proof. solve_roundtrip. Qed.

#[local] Instance ElasticsearchPilotStatus_v1alpha1_roundtrip :
  Cancel (=) Convert_navigator_ElasticsearchPilotStatus_To_v1alpha1_ElasticsearchPilotStatus
    Convert_v1alpha1_ElasticsearchPilotStatus_To_navigator_ElasticsearchPilotStatus.
Proof. solve_roundtrip. Qed.
#[local] Instance ElasticsearchPilotStatus_navigator_roundtrip :
  Cancel (=) Convert_v1alpha1_ElasticsearchPilotStatus_To_navigator_ElasticsearchPilotStatus
    Convert_navigator_ElasticsearchPilotStatus_To_v1alpha1_ElasticsearchPilotStatus.
Proof. solve_roundtrip. Qed.

#[local] Instance CassandraPilotStatus_v1alpha1_roundtrip :
  Cancel (=) Convert_navigator_CassandraPilotStatus_To_v1alpha1_CassandraPilotStatus
    Convert_v1alpha1_CassandraPilotStatus_To_navigator_CassandraPilotStatus.
Proof. solve_roundtrip. Qed.
#[local] Instance CassandraPilotStatus_navigator_roundtrip :
  Cancel (=) Convert_v1alpha1_CassandraPilotStatus_To_navigator_CassandraPilotStatus
    Convert_navigator_CassandraPilotStatus_To_v1alpha1_CassandraPilotStatus.
Proof. solve_roundtrip. Qed.

#[local] Instance PilotCondition_v1alpha1_roundtrip :
  Cancel (=) Convert_navigator_PilotCondition_To_v1alpha1_PilotCondition
    Convert_v1alpha1_PilotCondition_To_navigator_PilotCondition.
Proof. solve_roundtrip. Qed.
#[local] Instance PilotCondition_navigator_roundtrip :
  Cancel (=) Convert_v1alpha1_PilotCondition_To_navigator_PilotCondition
    Convert_navigator_PilotCondition_To_v1alpha1_PilotCondition.
Proof. solve_roundtrip. Qed.

#[local] Instance PilotStatus_v1alpha1_roundtrip :
  Cancel (=) Convert_navigator_PilotStatus_To_v1alpha1_PilotStatus
    Convert_v1alpha1_PilotStatus_To_navigator_PilotStatus.
Proof. solve_roundtrip. Qed.
#[local] Instance PilotStatus_navigator_roundtrip :
  Cancel (=) Convert_v1alpha1_PilotStatus_To_navigator_PilotStatus
    Convert_navigator_PilotStatus_To_v1alpha1_PilotStatus.
Proof. solve_roundtrip. Qed.

#[local] Instance Pilot_v1alpha1_roundtrip :
  Cancel (=) autoConvert_navigator_Pilot_To_v1alpha1_Pilot
    autoConvert_v1alpha1_Pilot_To_navigator_Pilot.
Proof. solve_roundtrip. Qed.
#[local] Instance Pilot_navigator_roundtrip :
  Cancel (=) autoConvert_v1alpha1_Pilot_To_navigator_Pilot
    autoConvert_navigator_Pilot_To_v1alpha1_Pilot.
Proof. solve_roundtrip. Qed.

(** ** Objects *)

(** metav1.TypeMeta *)
Record TypeMeta := mkTypeMeta {
  tm_Kind : string;
  tm_APIVersion : string;
}.

(** An object with the TypeMeta it embeds: the records of the two versions hold the other fields. *)
Record Typed (A : Type) := mkTyped {
  ty_TypeMeta : TypeMeta;
  ty_Fields : A;
}.
Arguments mkTyped {A}.
Arguments ty_TypeMeta {A} t : rename.
Arguments ty_Fields {A} t : rename.

(** A conversion sets the fields of [out] from those of [i]; the TypeMeta of [out] stays. *)
Definition assignFields {A B} (convert : A → B) (i : Typed A) (out : Typed B) : Typed B :=
  mkTyped (ty_TypeMeta out) (convert (ty_Fields i)).

Lemma assignFields_back {A B} (f : A → B) (g : B → A) `{!Cancel (=) g f} i out out' :
  assignFields g (assignFields f i out) out' = mkTyped (ty_TypeMeta out') (ty_Fields i).
Proof. unfold assignFields. simpl. f_equal. apply (cancel _ _). Qed.

Definition Convert_v1alpha1_ElasticsearchCluster_To_navigator_ElasticsearchCluster :=
  assignFields autoConvert_v1alpha1_ElasticsearchCluster_To_navigator_ElasticsearchCluster.
Definition Convert_navigator_ElasticsearchCluster_To_v1alpha1_ElasticsearchCluster :=
  assignFields autoConvert_navigator_ElasticsearchCluster_To_v1alpha1_ElasticsearchCluster.
Definition Convert_v1alpha1_CassandraCluster_To_navigator_CassandraCluster :=
  assignFields autoConvert_v1alpha1_CassandraCluster_To_navigator_CassandraCluster.
Definition Convert_navigator_CassandraCluster_To_v1alpha1_CassandraCluster :=
  assignFields autoConvert_navigator_CassandraCluster_To_v1alpha1_CassandraCluster.
Definition Convert_v1alpha1_Pilot_To_navigator_Pilot := assignFields autoConvert_v1alpha1_Pilot_To_navigator_Pilot.
Definition Convert_navigator_Pilot_To_v1alpha1_Pilot := assignFields autoConvert_navigator_Pilot_To_v1alpha1_Pilot.

(** ** Lists *)

(** metav1.ListMeta *)
Record ListMeta := mkListMeta {
  lm_SelfLink : string;
  lm_ResourceVersion : string;
  lm_Continue : string;
}.

(** The list types of both versions: nil items are not the same as none. *)
Record ListOf (A : Type) := mkListOf {
  lo_ListMeta : ListMeta;
  lo_Items : option (list (Typed A));
}.
Arguments mkListOf {A}.
Arguments lo_ListMeta {A} l : rename.
Arguments lo_Items {A} l : rename.

(** The items of a list, changed one by one; nil stays nil. *)
Definition mapItems {A B} (f : Typed A → Typed B) (l : ListOf A) : ListOf B :=
  mkListOf (lo_ListMeta l) (match lo_Items l with Some items => Some (map f items) | None => None end).

(** The generated loop converts each item into an element of a slice just made, which is zero. *)
Definition zeroTypeMeta : TypeMeta := mkTypeMeta "" "".

Definition convertItem {A B} (convert : A → B) (i : Typed A) : Typed B := mkTyped zeroTypeMeta (convert (ty_Fields i)).

(** A cast of the slice reads every item at the other type, TypeMeta included. *)
Definition castItem {A B} (cast : A → B) (i : Typed A) : Typed B := mkTyped (ty_TypeMeta i) (cast (ty_Fields i)).

Definition dropTypeMeta {A} (i : Typed A) : Typed A := mkTyped zeroTypeMeta (ty_Fields i).

Lemma mapItems_mapItems {A B C} (f : Typed A → Typed B) (g : Typed B → Typed C) l :
  mapItems g (mapItems f l) = mapItems (g ∘ f) l.
Proof. destruct l as [m [items|]]; [|done]. unfold mapItems. simpl. by rewrite map_map. Qed.

Lemma mapItems_ext {A B} (f g : Typed A → Typed B) l : (∀ i, f i = g i) → mapItems f l = mapItems g l.
Proof. intros Hfg. destruct l as [m [items|]]; [|done]. unfold mapItems. simpl. by rewrite (map_ext f g). Qed.

Lemma convertItems_roundtrip {A B} (f : A → B) (g : B → A) l :
  Cancel (=) g f → mapItems (convertItem g) (mapItems (convertItem f) l) = mapItems dropTypeMeta l.
Proof.
  intros Hc. rewrite mapItems_mapItems. apply mapItems_ext. intros [ty a]. unfold convertItem, dropTypeMeta. simpl.
  f_equal. apply Hc.
Qed.

#[local] Instance castItems_roundtrip {A B} (f : A → B) (g : B → A) :
  Cancel (=) g f → Cancel (=) (mapItems (castItem g)) (mapItems (castItem f)).
Proof.
  intros Hc l. rewrite mapItems_mapItems. transitivity (mapItems id l).
  - apply mapItems_ext. intros [ty a]. unfold castItem. simpl. f_equal. apply Hc.
  - destruct l as [m [items|]]; [|done]. unfold mapItems. simpl. by rewrite map_id.
Qed.

Definition Convert_v1alpha1_ElasticsearchClusterList_To_navigator_ElasticsearchClusterList :=
  assignFields (mapItems (convertItem autoConvert_v1alpha1_ElasticsearchCluster_To_navigator_ElasticsearchCluster)).
Definition Convert_navigator_ElasticsearchClusterList_To_v1alpha1_ElasticsearchClusterList :=
  assignFields (mapItems (convertItem autoConvert_navigator_ElasticsearchCluster_To_v1alpha1_ElasticsearchCluster)).
Definition Convert_v1alpha1_CassandraClusterList_To_navigator_CassandraClusterList :=
  assignFields (mapItems (convertItem autoConvert_v1alpha1_CassandraCluster_To_navigator_CassandraCluster)).
Definition Convert_navigator_CassandraClusterList_To_v1alpha1_CassandraClusterList :=
  assignFields (mapItems (convertItem autoConvert_navigator_CassandraCluster_To_v1alpha1_CassandraCluster)).

(** Pilots have the same layout in both versions, and the list is cast. *)
Definition Convert_v1alpha1_PilotList_To_navigator_PilotList :=
  assignFields (mapItems (castItem autoConvert_v1alpha1_Pilot_To_navigator_Pilot)).
Definition Convert_navigator_PilotList_To_v1alpha1_PilotList :=
  assignFields (mapItems (castItem autoConvert_navigator_Pilot_To_v1alpha1_Pilot)).

(** The object of [out] after a conversion there and back: its own TypeMeta and the fields of [i]. *)
Definition restored {A} (i out : Typed A) : Typed A := mkTyped (ty_TypeMeta out) (ty_Fields i).

(** The same for a list of clusters, whose items lose their TypeMeta. *)
Definition restoredList {A} (i out : Typed (ListOf A)) : Typed (ListOf A) :=
  mkTyped (ty_TypeMeta out) (mapItems dropTypeMeta (ty_Fields i)).

Lemma convertList_back {A B} (f : A → B) (g : B → A) i out out' :
  Cancel (=) g f →
  assignFields (mapItems (convertItem g)) (assignFields (mapItems (convertItem f)) i out) out' = restoredList i out'.
Proof. intros Hc. unfold assignFields, restoredList. simpl. f_equal. by apply convertItems_roundtrip. Qed.

(** C40. A cluster, a pilot or a list of them that is converted from v1alpha1 to the internal
    version and back, or the other way round, has its metadata, specification and status (list
    metadata and items) again. The TypeMeta is not converted: the result has the one of the
    object it was written to, the items of a list of clusters end up with an empty one, and those
    of a list of pilots, which is cast, keep theirs. *)
Theorem conversion_roundtrip :
  (∀ c out out', Convert_navigator_ElasticsearchCluster_To_v1alpha1_ElasticsearchCluster
     (Convert_v1alpha1_ElasticsearchCluster_To_navigator_ElasticsearchCluster c out) out' = restored c out') ∧
  (∀ c out out', Convert_v1alpha1_ElasticsearchCluster_To_navigator_ElasticsearchCluster
     (Convert_navigator_ElasticsearchCluster_To_v1alpha1_ElasticsearchCluster c out) out' = restored c out') ∧
  (∀ c out out', Convert_navigator_CassandraCluster_To_v1alpha1_CassandraCluster
     (Convert_v1alpha1_CassandraCluster_To_navigator_CassandraCluster c out) out' = restored c out') ∧
  (∀ c out out', Convert_v1alpha1_CassandraCluster_To_navigator_CassandraCluster
     (Convert_navigator_CassandraCluster_To_v1alpha1_CassandraCluster c out) out' = restored c out') ∧
  (∀ p out out', Convert_navigator_Pilot_To_v1alpha1_Pilot (Convert_v1alpha1_Pilot_To_navigator_Pilot p out) out' = restored p out') ∧
  (∀ p out out', Convert_v1alpha1_Pilot_To_navigator_Pilot (Convert_navigator_Pilot_To_v1alpha1_Pilot p out) out' = restored p out') ∧
  (∀ l out out', Convert_navigator_ElasticsearchClusterList_To_v1alpha1_ElasticsearchClusterList
     (Convert_v1alpha1_ElasticsearchClusterList_To_navigator_ElasticsearchClusterList l out) out' = restoredList l out') ∧
  (∀ l out out', Convert_v1alpha1_ElasticsearchClusterList_To_navigator_ElasticsearchClusterList
     (Convert_navigator_ElasticsearchClusterList_To_v1alpha1_ElasticsearchClusterList l out) out' = restoredList l out') ∧
  (∀ l out out', Convert_navigator_CassandraClusterList_To_v1alpha1_CassandraClusterList
     (Convert_v1alpha1_CassandraClusterList_To_navigator_CassandraClusterList l out) out' = restoredList l out') ∧
  (∀ l out out', Convert_v1alpha1_CassandraClusterList_To_navigator_CassandraClusterList
     (Convert_navigator_CassandraClusterList_To_v1alpha1_CassandraClusterList l out) out' = restoredList l out') ∧
  (∀ l out out', Convert_navigator_PilotList_To_v1alpha1_PilotList
     (Convert_v1alpha1_PilotList_To_navigator_PilotList l out) out' = restored l out') ∧
  (∀ l out out', Convert_v1alpha1_PilotList_To_navigator_PilotList
     (Convert_navigator_PilotList_To_v1alpha1_PilotList l out) out' = restored l out').
Proof. split_and!; intros; first [apply assignFields_back; apply _ | apply convertList_back; apply _]. Qed.
