(* ===== verification/Defaults.v ===== *)
(** * Defaulting of the v1alpha1 types

    v1alpha1/defaults.go and the object defaulters of
    v1alpha1/zz_generated.defaults.go, which the API server applies before
    conversion and validation. *)

From S2P Require Import Prelude GoStrings Semver K8s Types.

Definition cassDefaultDatacenter : string := "navigator-default-datacenter".

(** [if p == nil { p = v }] *)
Definition or_default {A} (v : A) (p : option A) : option A := Some (default v p).

Definition SetDefaults_CassandraClusterNodePool (np : CassandraClusterNodePool) : CassandraClusterNodePool :=
  {| cnp_Name := cnp_Name np;
     cnp_Replicas := or_default 1 (cnp_Replicas np);
     cnp_Persistence := cnp_Persistence np;
     cnp_NodeSelector := or_default ∅ (cnp_NodeSelector np);
     cnp_Rack := or_default (cnp_Name np) (cnp_Rack np);
     cnp_Datacenter := or_default cassDefaultDatacenter (cnp_Datacenter np);
     cnp_Resources := cnp_Resources np;
     cnp_SchedulerName := cnp_SchedulerName np |}.

Definition SetDefaults_ElasticsearchClusterNodePool (np : ElasticsearchClusterNodePool)
    : ElasticsearchClusterNodePool :=
  {| enp_Name := enp_Name np;
     enp_Replicas := or_default 1 (enp_Replicas np);
     enp_Roles := enp_Roles np;
     enp_NodeSelector := or_default ∅ (enp_NodeSelector np);
     enp_Resources := enp_Resources np;
     enp_Persistence := enp_Persistence np;
     enp_SchedulerName := enp_SchedulerName np |}.

Definition SetDefaults_ImageSpec (spec : ImageSpec) : ImageSpec :=
  if bool_decide (img_PullPolicy spec = "")
  then mkImageSpec (img_Repository spec) (img_Tag spec) PullIfNotPresent
  else spec.

(** [SetDefaults_ImageSpec(&in.Spec.NavigatorClusterConfig.PilotImage)] *)
Definition defaultConfig (cfg : NavigatorClusterConfig) : NavigatorClusterConfig :=
  mkNavigatorClusterConfig (SetDefaults_ImageSpec (cfg_PilotImage cfg)) (cfg_SecurityContext cfg)
    (cfg_Paused cfg).

Definition SetObjectDefaults_CassandraCluster (c : CassandraCluster) : CassandraCluster :=
  let sp := cass_Spec c in
  mkCassandraCluster (cass_Meta c)
    {| cs_Config := defaultConfig (cs_Config sp);
       cs_NodePools := SetDefaults_CassandraClusterNodePool <$> cs_NodePools sp;
       cs_Image := SetDefaults_ImageSpec <$> cs_Image sp;
       cs_Version := cs_Version sp |}
    (cass_Status c).

Definition SetObjectDefaults_CassandraClusterList (items : list CassandraCluster) : list CassandraCluster :=
  SetObjectDefaults_CassandraCluster <$> items.

Definition SetObjectDefaults_ElasticsearchCluster (c : ElasticsearchCluster) : ElasticsearchCluster :=
  let sp := esc_Spec c in
  mkElasticsearchCluster (esc_Meta c)
    {| es_Config := defaultConfig (es_Config sp);
       es_Version := es_Version sp;
       es_Plugins := es_Plugins sp;
       es_NodePools := SetDefaults_ElasticsearchClusterNodePool <$> es_NodePools sp;
       es_Image := SetDefaults_ImageSpec <$> es_Image sp;
       es_MinimumMasters := es_MinimumMasters sp |}
    (esc_Status c).

Definition SetObjectDefaults_ElasticsearchClusterList (items : list ElasticsearchCluster)
    : list ElasticsearchCluster :=
  SetObjectDefaults_ElasticsearchCluster <$> items.

(** ** Facts *)

Lemma SetDefaults_ImageSpec_idemp spec :
  SetDefaults_ImageSpec (SetDefaults_ImageSpec spec) = SetDefaults_ImageSpec spec.
Proof.
  unfold SetDefaults_ImageSpec at 2 3. case_bool_decide as H; unfold SetDefaults_ImageSpec; [done|].
  by rewrite bool_decide_eq_false_2.
Qed.

Lemma SetDefaults_ImageSpec_policy spec : img_PullPolicy (SetDefaults_ImageSpec spec) ≠ "".
Proof. unfold SetDefaults_ImageSpec. by case_bool_decide. Qed.

Lemma fmap_image_idemp (o : option ImageSpec) :
  SetDefaults_ImageSpec <$> (SetDefaults_ImageSpec <$> o) = SetDefaults_ImageSpec <$> o.
Proof. destruct o; simpl; [|done]. by rewrite SetDefaults_ImageSpec_idemp. Qed.

(** A property of a defaulted object: every optional field the controllers
    dereference is set. *)
Definition es_defaulted (c : ElasticsearchCluster) : Prop :=
  Forall (λ np, is_Some (enp_Replicas np) ∧ is_Some (enp_NodeSelector np)) (es_NodePools (esc_Spec c)) ∧
  img_PullPolicy (cfg_PilotImage (es_Config (esc_Spec c))) ≠ "".

Definition cass_defaulted (c : CassandraCluster) : Prop :=
  Forall (λ np, is_Some (cnp_Replicas np) ∧ is_Some (cnp_Rack np) ∧ is_Some (cnp_Datacenter np) ∧
                is_Some (cnp_NodeSelector np)) (cs_NodePools (cass_Spec c)) ∧
  img_PullPolicy (cfg_PilotImage (cs_Config (cass_Spec c))) ≠ "".

(** Defaulting fills every field the controllers dereference, keeps the replica counts the
    user set and is idempotent. *)
Theorem defaulting_complete_and_idempotent :
  (∀ c, let d := SetObjectDefaults_ElasticsearchCluster c in
     es_defaulted d ∧ SetObjectDefaults_ElasticsearchCluster d = d ∧
     (∀ i np, es_NodePools (esc_Spec c) !! i = Some np → is_Some (enp_Replicas np) →
        ∃ np', es_NodePools (esc_Spec d) !! i = Some np' ∧ enp_Replicas np' = enp_Replicas np)) ∧
  (∀ c, let d := SetObjectDefaults_CassandraCluster c in
     cass_defaulted d ∧ SetObjectDefaults_CassandraCluster d = d ∧
     (∀ i np, cs_NodePools (cass_Spec c) !! i = Some np → is_Some (cnp_Replicas np) →
        ∃ np', cs_NodePools (cass_Spec d) !! i = Some np' ∧ cnp_Replicas np' = cnp_Replicas np)).
Proof.
  split; intros c d; split_and!.
  - split; [|apply SetDefaults_ImageSpec_policy]. apply Forall_fmap, Forall_forall. intros np _.
    unfold compose. simpl. split; by eexists.
  - unfold d, SetObjectDefaults_ElasticsearchCluster, defaultConfig. simpl. f_equal. f_equal.
    + by rewrite SetDefaults_ImageSpec_idemp.
    + rewrite <-list_fmap_compose. by apply list_fmap_ext.
    + apply fmap_image_idemp.
  - intros i np Hi [n Hn]. exists (SetDefaults_ElasticsearchClusterNodePool np). simpl.
    rewrite list_lookup_fmap, Hi, Hn. done.
  - split; [|apply SetDefaults_ImageSpec_policy]. apply Forall_fmap, Forall_forall. intros np _.
    unfold compose. simpl. split_and!; by eexists.
  - unfold d, SetObjectDefaults_CassandraCluster, defaultConfig. simpl. f_equal. f_equal.
    + by rewrite SetDefaults_ImageSpec_idemp.
    + rewrite <-list_fmap_compose. by apply list_fmap_ext.
    + apply fmap_image_idemp.
  - intros i np Hi [n Hn]. exists (SetDefaults_CassandraClusterNodePool np). simpl.
    rewrite list_lookup_fmap, Hi, Hn. done.
Qed.
