(* ===== verification/Cluster.v ===== *)
(** * The cluster as a controller sees it

    pkg/controllers/executor.go's [State]: listers over the informer caches,
    the clientsets and the event recorder.  The API server is not part of the
    repository: its answer to a call is a parameter ([Clientset]) that may
    depend on everything done before.  Every call and every recorded event is
    appended to the log of the [World]. *)

From S2P Require Import Prelude GoStrings Semver K8s Types.

(** pkg/controllers/common *)
Definition JVMCgroupOpts : string :=
  "-XX:+UnlockExperimentalVMOptions " +:+
  "-XX:+UseCGroupMemoryLimitForHeap " +:+
  "-XX:MaxRAMFraction=1 ".

(** ** Requests and recorded events *)

Inductive APICall :=
| CreateStatefulSet (ns : string) (ss : StatefulSet)
| UpdateStatefulSet (ns : string) (ss : StatefulSet)
| DeleteStatefulSet (ns name : string)
| CreateService (ns : string) (svc : Service)
| CreateServiceAccount (ns : string) (sa : ServiceAccount)
| CreateConfigMap (ns : string) (cm : ConfigMap)
| CreateRole (ns : string) (r : Role)
| UpdateRole (ns : string) (r : Role)
| CreateRoleBinding (ns : string) (rb : RoleBinding)
| UpdateRoleBinding (ns : string) (rb : RoleBinding)
| UpdatePod (ns : string) (p : Pod)
| CreatePilot (ns : string) (p : Pilot)
| UpdatePilotStatus (ns : string) (p : Pilot)
| UpdateElasticsearchClusterStatus (ns : string) (c : ElasticsearchCluster)
| UpdateCassandraClusterStatus (ns : string) (c : CassandraCluster).

(** The arguments of EventRecorder.Eventf; the object is named by its
    namespace and name. *)
Record RecordedEvent := mkEvent {
  ev_Namespace : string;
  ev_Name : string;
  ev_Type : string;
  ev_Reason : string;
  ev_Format : string;
  ev_Args : list Arg;
}.

Inductive Effect :=
| EffCall (c : APICall)
| EffEvent (e : RecordedEvent).

(** The pod cache is part of the world because one controller writes to the
    objects its lister returns. *)
Record World := mkWorld {
  w_log : list Effect;
  w_pods : gmap (string * string) Pod;
}.

Definition calls (es : list Effect) : list APICall :=
  omap (λ e, match e with EffCall c => Some c | EffEvent _ => None end) es.

Lemma calls_app es es' : calls (es ++ es') = calls es ++ calls es'.
Proof. apply omap_app. Qed.

(** ** Listers *)

Record Lister (A : Type) := mkLister {
  lister_Get : string → string → Res A;
  lister_List : string → Selector → Res (list A);
}.
Arguments lister_Get {A} l ns name : rename.
Arguments lister_List {A} l ns sel : rename.

(** What the controllers rely on: a lister returns objects that carry the
    namespace and name asked for, and lists the objects of one namespace whose
    labels match the selector. *)
Class LawfulLister {A} (meta : A → ObjectMeta) (l : Lister A) : Prop := {
  get_sound ns name a :
    lister_Get l ns name = inr a →
    om_Namespace (meta a) = ns ∧ om_Name (meta a) = name;
  list_sound ns sel xs a :
    lister_List l ns sel = inr xs → a ∈ xs →
    om_Namespace (meta a) = ns ∧ Selector_Matches sel (om_Labels (meta a)) = true;
  list_get ns sel xs a :
    lister_List l ns sel = inr xs → a ∈ xs →
    lister_Get l ns (om_Name (meta a)) = inr a;
  list_NoDup ns sel xs :
    lister_List l ns sel = inr xs → NoDup (map (λ a, om_Name (meta a)) xs);
}.

(** The generated listers over an indexer keyed by namespace and name. *)
Section cacheLister.
Context {A : Type} (meta : A → ObjectMeta).

Definition in_selection (ns : string) (sel : Selector) (a : A) : bool :=
  bool_decide (om_Namespace (meta a) = ns) && Selector_Matches sel (om_Labels (meta a)).

Definition cacheLister (cache : gmap (string * string) A) : Lister A :=
  {| lister_Get ns name :=
       match cache !! (ns, name) with
       | Some a => inr a
       | None => inl (NewNotFound name)
       end;
     lister_List ns sel :=
       inr (List.filter (in_selection ns sel) (map snd (map_to_list cache))) |}.

(** The indexer's key function. *)
Definition keyed (cache : gmap (string * string) A) : Prop :=
  map_Forall (λ k a, k = (om_Namespace (meta a), om_Name (meta a))) cache.

Lemma cache_elem cache ns sel xs a :
  lister_List (cacheLister cache) ns sel = inr xs → a ∈ xs →
  in_selection ns sel a = true ∧ ∃ k, cache !! k = Some a.
Proof.
  simpl. intros [= <-] Ha%list_elem_of_In. apply filter_In in Ha as [Ha Hsel].
  split; [done|]. apply in_map_iff in Ha as ([k a'] & Heq & Ha). simpl in Heq. subst a'.
  exists k. by apply elem_of_map_to_list, list_elem_of_In.
Qed.

Lemma cache_NoDup cache ns sel :
  keyed cache →
  NoDup (map (λ a, om_Name (meta a))
    (List.filter (in_selection ns sel) (map snd (map_to_list cache)))).
Proof.
  intros Hk.
  assert (∀ l : list ((string * string) * A), NoDup l.*1 →
    Forall (λ '(k, a), k = (om_Namespace (meta a), om_Name (meta a))) l →
    NoDup (map (λ a, om_Name (meta a)) (List.filter (in_selection ns sel) (map snd l)))) as Hl.
  { induction l as [|[k a] l IH]; simpl; intros Hnd Hall; [constructor|].
    apply NoDup_cons in Hnd as [Hn Hnd]. apply Forall_cons in Hall as [-> Hall].
    specialize (IH Hnd Hall). destruct (in_selection ns sel a) eqn:Ea; [|done].
    simpl. apply NoDup_cons. split; [|done].
    rewrite list_elem_of_In, in_map_iff. intros (b & Hname & Hb).
    apply filter_In in Hb as [Hb Hsel]. apply Hn.
    apply in_map_iff in Hb as ([k' b'] & Heq & Hb). simpl in Heq; subst b'.
    rewrite Forall_forall in Hall. pose proof Hb as Hb'%list_elem_of_In.
    specialize (Hall _ Hb'). simpl in Hall. unfold in_selection in *.
    apply andb_true_iff in Ea as [Ea _]. apply andb_true_iff in Hsel as [Hns _].
    rewrite bool_decide_eq_true in Ea, Hns.
    replace (om_Namespace (meta a), om_Name (meta a)) with k' by congruence.
    by apply (list_elem_of_fmap_2 fst) in Hb'. }
  apply Hl; [apply NoDup_fst_map_to_list|].
  apply Forall_forall. intros [k a] Ha%elem_of_map_to_list. by apply Hk.
Qed.

#[export] Instance cacheLister_lawful cache :
  keyed cache → LawfulLister meta (cacheLister cache).
Proof.
  intros Hk. split.
  - intros ns name a. simpl. destruct (cache !! (ns, name)) as [b|] eqn:E; [|done].
    intros [= <-]. apply Hk in E. by simplify_eq.
  - intros ns sel xs a Hl Ha. destruct (cache_elem _ _ _ _ _ Hl Ha) as [Hs _].
    unfold in_selection in Hs. apply andb_true_iff in Hs as [?%bool_decide_eq_true ?]. done.
  - intros ns sel xs a Hl Ha. destruct (cache_elem _ _ _ _ _ Hl Ha) as [Hs [k Hkey]].
    unfold in_selection in Hs. apply andb_true_iff in Hs as [Hns%bool_decide_eq_true _].
    pose proof (Hk _ _ Hkey) as ->. simpl. subst ns. by rewrite Hkey.
  - intros ns sel xs [= <-]. by apply cache_NoDup.
Qed.
End cacheLister.

(** ** controllers.State *)

Record State := mkState {
  (** The API server's answer to a call, given the log so far. *)
  Clientset : list Effect → APICall → option Err;
  (** time.Now during the sync *)
  Now : Z;
  StatefulSetLister : Lister StatefulSet;
  ConfigMapLister : Lister ConfigMap;
  PodLister : Lister Pod;
  ServiceLister : Lister Service;
  ServiceAccountLister : Lister ServiceAccount;
  RoleBindingLister : Lister RoleBinding;
  RoleLister : Lister Role;
  PilotLister : Lister Pilot;
  CassandraClusterLister : Lister CassandraCluster;
  ElasticsearchClusterLister : Lister ElasticsearchCluster;
}.

(** ** Effects *)

Definition log_effect (e : Effect) (w : World) : World :=
  mkWorld (w_log w ++ [e]) (w_pods w).

Definition api_call (s : State) (c : APICall) : GoM World (option Err) := λ w,
  (Ret (Clientset s (w_log w) c), log_effect (EffCall c) w).

Definition eventf (obj : ObjectMeta) (ty reason format : string) (args : list Arg) : GoM World () :=
  λ w, (Ret (), log_effect (EffEvent (mkEvent (om_Namespace obj) (om_Name obj) ty reason format args)) w).

(** ** Traces

    [did w cs w']: going from [w] to [w'] only appended to the log, and the API
    calls among the additions are [cs] in this order. *)

Definition did (w : World) (cs : list APICall) (w' : World) : Prop :=
  ∃ es, w_log w' = w_log w ++ es ∧ calls es = cs.

Lemma did_refl w : did w [] w.
Proof. exists []. by rewrite app_nil_r. Qed.

Lemma did_trans w1 w2 w3 cs cs' : did w1 cs w2 → did w2 cs' w3 → did w1 (cs ++ cs') w3.
Proof.
  intros (e1 & H1 & <-) (e2 & H2 & <-). exists (e1 ++ e2). by rewrite H2, H1, app_assoc, calls_app.
Qed.

Lemma did_trans_nil w1 w2 w3 cs : did w1 [] w2 → did w2 cs w3 → did w1 cs w3.
Proof. apply did_trans. Qed.

Lemma did_event obj ty reason f args w :
  did w [] (snd (eventf obj ty reason f args w)).
Proof. by eexists. Qed.

Lemma did_log_event w e : did w [] (log_effect (EffEvent e) w).
Proof. by eexists. Qed.

Lemma did_log_call w c : did w [c] (log_effect (EffCall c) w).
Proof. by eexists. Qed.

Lemma did_call_event w c e : did w [c] (log_effect (EffEvent e) (log_effect (EffCall c) w)).
Proof. eapply (did_trans _ _ _ [c] []); [apply did_log_call|apply did_log_event]. Qed.

(** The trace between two worlds is unique. *)
Lemma did_fun w w' cs cs' : did w cs w' → did w cs' w' → cs = cs'.
Proof.
  intros (e1 & H1 & <-) (e2 & H2 & <-). rewrite H1 in H2. by apply app_inv_head in H2 as ->.
Qed.

#[export] Hint Resolve did_refl did_event did_log_event did_log_call did_call_event : navigator.

(** ** Trace specifications

    [triple m Q]: from every world, [m] only appends to the log, and [Q] holds of
    how it ends and of the API calls it makes, in order.  The rules below
    follow the structure of the code. *)

Definition triple {A} (m : GoM World A) (Q : outcome A → list APICall → Prop) : Prop :=
  ∀ w, ∃ o w' cs, m w = (o, w') ∧ did w cs w' ∧ Q o cs.

Lemma triple_weaken {A} (m : GoM World A) (Q Q' : outcome A → list APICall → Prop) :
  triple m Q → (∀ o cs, Q o cs → Q' o cs) → triple m Q'.
Proof. intros H HQ w. destruct (H w) as (o & w' & cs & ? & ? & ?). naive_solver. Qed.

Lemma triple_ret {A} (a : A) (Q : outcome A → list APICall → Prop) : Q (Ret a) [] → triple (mret a) Q.
Proof. intros H w. exists (Ret a), w, []. split_and!; [done|apply did_refl|done]. Qed.

Lemma triple_lift {A} (o : outcome A) (Q : outcome A → list APICall → Prop) : Q o [] → triple (lift o) Q.
Proof. intros H w. exists o, w, []. split_and!; [done|apply did_refl|done]. Qed.

Lemma triple_call s c (Q : outcome (option Err) → list APICall → Prop) :
  (∀ r, Q (Ret r) [c]) → triple (api_call s c) Q.
Proof. intros H w. eexists _, _, [c]. split_and!; [done|apply did_log_call|apply H]. Qed.

Lemma triple_event obj ty reason f args (Q : outcome () → list APICall → Prop) :
  Q (Ret ()) [] → triple (eventf obj ty reason f args) Q.
Proof. intros H w. eexists _, _, []. split_and!; [done|apply did_log_event|done]. Qed.

Lemma triple_bind {A B} (m : GoM World A) (k : A → GoM World B)
    (R : outcome A → list APICall → Prop) (Q : outcome B → list APICall → Prop) :
  triple m R →
  (∀ a cs, R (Ret a) cs → triple (k a) (λ o cs', Q o (cs ++ cs'))) →
  (∀ p cs, R (Panic p) cs → Q (Panic p) cs) →
  triple (m ≫= k) Q.
Proof.
  intros Hm Hk Hp w. destruct (Hm w) as (o & w1 & cs & Hrun & Hd & HR). destruct o as [a|p].
  - destruct (Hk a cs HR w1) as (o & w2 & cs' & Hrun' & Hd' & HQ).
    exists o, w2, (cs ++ cs'). rewrite (gom_bind_ret _ _ _ _ _ Hrun).
    split_and!; [done|by eapply did_trans|done].
  - exists (Panic p), w1, cs. rewrite (gom_bind_panic _ _ _ _ _ Hrun). auto.
Qed.

(** The loop invariant [I pre cs] speaks of the elements done and the calls made. *)
Lemma triple_for_range {A R} (xs : list A) (body : A → GoM World (option R))
    (I : list A → list APICall → Prop) (Q : outcome (option R) → list APICall → Prop) :
  I [] [] →
  (∀ pre x post cs, xs = pre ++ x :: post → I pre cs →
    triple (body x) (λ o cs',
      match o with
      | Ret None => I (pre ++ [x]) (cs ++ cs')
      | _ => Q o (cs ++ cs')
      end)) →
  (∀ cs, I xs cs → Q (Ret None) cs) →
  triple (for_range xs body) Q.
Proof.
  intros H0 Hbody Hend.
  assert (∀ post pre cs, xs = pre ++ post → I pre cs →
            triple (for_range post body) (λ o cs', Q o (cs ++ cs'))) as Hl.
  { induction post as [|x post IH]; intros pre cs Hxs HI.
    - rewrite app_nil_r in Hxs. subst pre. apply triple_ret. rewrite app_nil_r. auto.
    - simpl. eapply triple_bind; [by apply (Hbody pre x post)|..]; simpl; [|auto].
      intros [r|] cs' Hr; [apply triple_ret; by rewrite app_nil_r|].
      eapply triple_weaken; [apply (IH (pre ++ [x]) (cs ++ cs')); [|done]|].
      + by rewrite <-app_assoc.
      + intros o cs''. by rewrite app_assoc. }
  apply (Hl xs [] []); done.
Qed.

Lemma triple_bind_call {B} s c (k : option Err → GoM World B) (Q : outcome B → list APICall → Prop) :
  (∀ r, triple (k r) (λ o cs, Q o (c :: cs))) → triple (api_call s c ≫= k) Q.
Proof.
  intros Hk. eapply (triple_bind _ _ (λ o cs, (∃ r, o = Ret r) ∧ cs = [c])).
  - apply triple_call. eauto.
  - intros r cs [_ ->]. apply Hk.
  - by intros p cs [[? ?] _].
Qed.

Lemma triple_bind_ret {A B} (a : A) (k : A → GoM World B) (Q : outcome B → list APICall → Prop) :
  triple (k a) Q → triple (mret a ≫= k) Q.
Proof. intros Hk w. apply Hk. Qed.

Lemma triple_bind_event {B} obj ty reason f args (k : () → GoM World B)
    (Q : outcome B → list APICall → Prop) :
  triple (k ()) Q → triple (eventf obj ty reason f args ≫= k) Q.
Proof.
  intros Hk. eapply (triple_bind _ _ (λ o cs, o = Ret () ∧ cs = [])).
  - by apply triple_event.
  - by intros [] cs [_ ->].
  - by intros p cs [? _].
Qed.

Lemma triple_bind_lift {A B} (o : outcome A) (k : A → GoM World B) (Q : outcome B → list APICall → Prop) :
  (∀ a, o = Ret a → triple (k a) Q) → (∀ p, o = Panic p → Q (Panic p) []) →
  triple (lift o ≫= k) Q.
Proof.
  intros Hk Hp. eapply (triple_bind _ _ (λ o' cs, o' = o ∧ cs = [])).
  - by apply triple_lift.
  - intros a cs [<- ->]. by apply Hk.
  - intros p cs [<- ->]. by apply Hp.
Qed.

(** ** Writes and the cache *)

(** The stateful set a call writes. *)
Definition writtenSet (call : APICall) : option StatefulSet :=
  match call with
  | CreateStatefulSet _ ss | UpdateStatefulSet _ ss => Some ss
  | _ => None
  end.

(** The cache of [s'] shows a written set in place of what [s] had under its name. *)
Definition reflects (ss : StatefulSet) (s s' : State) : Prop :=
  ∀ ns name, lister_Get (StatefulSetLister s') ns name =
    if bool_decide (ns = ss_Namespace ss ∧ name = ss_Name ss) then inr ss
    else lister_Get (StatefulSetLister s) ns name.

(** ** The pod cache *)

(** The pod cache as it is now. *)
Definition read_pods : GoM World (gmap (string * string) Pod) := λ w, (Ret (w_pods w), w).

(** Replacing a cached pod: a write through a shared map. *)
Definition write_pod (k : string * string) (p : Pod) : GoM World () := λ w,
  (Ret (), mkWorld (w_log w) (<[k := p]> (w_pods w))).

Lemma triple_bind_read_pods {B} (k : gmap (string * string) Pod → GoM World B)
    (Q : outcome B → list APICall → Prop) :
  (∀ pods, triple (k pods) Q) → triple (read_pods ≫= k) Q.
Proof. intros Hk w. apply (Hk (w_pods w) w). Qed.

Lemma triple_bind_write_pod {B} key p (k : () → GoM World B) (Q : outcome B → list APICall → Prop) :
  triple (k ()) Q → triple (write_pod key p ≫= k) Q.
Proof. intros Hk w. apply (Hk (mkWorld (w_log w) (<[key := p]> (w_pods w)))). Qed.

(** A specification read off at one run. *)
Lemma triple_run {A} (m : GoM World A) Q w o w' cs :
  triple m Q → m w = (o, w') → did w cs w' → Q o cs.
Proof.
  intros H Hrun Hd. destruct (H w) as (o1 & w1 & cs1 & Hrun1 & Hd1 & HQ).
  rewrite Hrun in Hrun1. simplify_eq. by rewrite (did_fun _ _ _ _ Hd Hd1).
Qed.

Lemma triple_and {A} (m : GoM World A) (Q Q' : outcome A → list APICall → Prop) :
  triple m Q → triple m Q' → triple m (λ o cs, Q o cs ∧ Q' o cs).
Proof.
  intros H H' w. destruct (H w) as (o & w1 & cs & Hrun & Hd & HQ). exists o, w1, cs.
  split_and!; [done..|]. by eapply triple_run.
Qed.

(** One step of the code under a trace specification; case distinctions of the
    code become cases of the proof. *)
Ltac trace_step :=
  lazymatch goal with
  | |- triple (mret _) _ => apply triple_ret
  | |- triple (lift _) _ => apply triple_lift
  | |- triple (api_call _ _) _ => apply triple_call; intros ?
  | |- triple (eventf _ _ _ _ _) _ => apply triple_event
  | |- triple (api_call _ _ ≫= _) _ => apply triple_bind_call; intros ?
  | |- triple (mret _ ≫= _) _ => apply triple_bind_ret
  | |- triple (eventf _ _ _ _ _ ≫= _) _ => apply triple_bind_event
  | |- triple (read_pods ≫= _) _ => apply triple_bind_read_pods; intros ?
  | |- triple (write_pod _ _ ≫= _) _ => apply triple_bind_write_pod
  | |- triple (lift _ ≫= _) _ => apply triple_bind_lift; intros ? ?
  | |- triple (deref _ ≫= _) _ => unfold deref; apply triple_bind_lift; intros ? ?
  | |- triple (match ?x with _ => _ end) _ => destruct x eqn:?
  end.
Ltac trace := repeat (trace_step; simpl).

(** ** Plans of calls *)

(** A lookup that found nothing. *)
Definition missing {A} (r : Res A) : bool :=
  match r with
  | inl err => IsNotFound (Some err)
  | inr _ => false
  end.

(** A control makes its calls in order, and all of them when it returns nil. *)
Definition follows (plan : list APICall) (o : outcome (option Err)) (cs : list APICall) : Prop :=
  cs `prefix_of` plan ∧ (o = Ret None → cs = plan).

Lemma follows_all plan o : follows plan o plan.
Proof. by split. Qed.

Lemma follows_error plan e : follows plan (Ret (Some e)) [].
Proof. split; [apply prefix_nil|done]. Qed.

Lemma follows_panic plan p : follows plan (Panic p) [].
Proof. split; [apply prefix_nil|done]. Qed.

#[export] Hint Resolve follows_all follows_error follows_panic : navigator.

