(* ===== verification/Fixtures.v ===== *)
(** * Concrete clusters and caches

    A small Elasticsearch cluster, caches built from lists of objects and an
    API server that accepts every call: the inputs at which the theorems of
    the other files are evaluated. *)

From S2P Require Import Prelude GoStrings Semver K8s Types Cluster.

(** ** Caches from lists *)

Section byKey.
Context {A : Type} (meta : A → ObjectMeta).

Definition byKey (xs : list A) : gmap (string * string) A :=
  foldr (λ a m, <[(om_Namespace (meta a), om_Name (meta a)) := a]> m) ∅ xs.

Lemma byKey_keyed xs : keyed meta (byKey xs).
Proof.
  induction xs as [|a xs IH]; simpl; [by apply map_Forall_empty|].
  by apply map_Forall_insert_2.
Qed.

Definition listerOf (xs : list A) : Lister A := cacheLister meta (byKey xs).

Lemma listerOf_lawful xs : LawfulLister meta (listerOf xs).
Proof. apply cacheLister_lawful, byKey_keyed. Qed.

Definition keyOf (a : A) : string * string := (om_Namespace (meta a), om_Name (meta a)).

Lemma byKey_lookup xs a : NoDup (map keyOf xs) → a ∈ xs → byKey xs !! keyOf a = Some a.
Proof.
  induction xs as [|x xs IH]; simpl; intros Hnd Hin; [by apply not_elem_of_nil in Hin|].
  apply NoDup_cons in Hnd as [Hx Hnd]. apply elem_of_cons in Hin as [->|Hin]; [apply lookup_insert_eq|].
  rewrite lookup_insert_ne; [by apply IH|]. intros Heq. apply Hx.
  change (keyOf x = keyOf a) in Heq. rewrite Heq. by apply list_elem_of_fmap_2.
Qed.

Lemma byKey_lookup_None xs k : k ∉ map keyOf xs → byKey xs !! k = None.
Proof.
  induction xs as [|x xs IH]; simpl; intros Hk; [done|].
  rewrite lookup_insert_ne; [apply IH; set_solver|]. intros <-. set_solver.
Qed.

Lemma byKey_in xs k a : byKey xs !! k = Some a → a ∈ xs.
Proof.
  induction xs as [|x xs IH]; simpl; [done|].
  intros [[_ <-]|[_ H]]%lookup_insert_Some; [left|right; by apply IH].
Qed.

Lemma listerOf_Get xs a ns name :
  NoDup (map keyOf xs) → a ∈ xs → keyOf a = (ns, name) → lister_Get (listerOf xs) ns name = inr a.
Proof. intros Hnd Hin Hk. simpl. rewrite <-Hk, byKey_lookup; done. Qed.

Lemma listerOf_Get_None xs ns name :
  (ns, name) ∉ map keyOf xs → lister_Get (listerOf xs) ns name = inl (NewNotFound name).
Proof. intros Hk. simpl. by rewrite byKey_lookup_None. Qed.
End byKey.

(** The lookup of object [a] in such a cache, by evaluation of the keys only. *)
Ltac get_listed a :=
  apply (listerOf_Get _ _ a);
    [decide_closed|rewrite ?elem_of_cons; repeat first [left; reflexivity | right]|reflexivity].

(** ** Metadata *)

Definition metaOf (name uid : string) : ObjectMeta :=
  mkObjectMeta name "default" uid "1" None None [] None.

Definition pilotImage : ImageSpec := mkImageSpec "navigator/pilot" "v1" PullIfNotPresent.

Definition demoConfig (paused : bool) : NavigatorClusterConfig :=
  mkNavigatorClusterConfig pilotImage (mkNavigatorSecurityContext (Some 1000)) paused.

(** ** An Elasticsearch cluster of two pools *)

Definition poolOf (name : string) (replicas : Z) (roles : list string) : ElasticsearchClusterNodePool :=
  mkElasticsearchClusterNodePool name (Some replicas) (Some roles) None
    (mkResourceRequirements None None) None "".

Definition version561 : Version := mkVersion 5 6 1 "" "".
Definition version562 : Version := mkVersion 5 6 2 "" "".

Definition masterPool : ElasticsearchClusterNodePool := poolOf "master" 3 [ElasticsearchRoleMaster].
Definition dataPool : ElasticsearchClusterNodePool :=
  poolOf "data" 2 [ElasticsearchRoleData; ElasticsearchRoleIngest].

Definition demoStatus : ElasticsearchClusterStatus :=
  mkElasticsearchClusterStatus (mkNavigatorClusterStatus []) (Some ∅) (Some ElasticsearchClusterHealthGreen).

Definition demoClusterAt (v : Version) (paused : bool) (pools : list ElasticsearchClusterNodePool)
    : ElasticsearchCluster :=
  mkElasticsearchCluster (metaOf "demo" "uid-demo")
    (mkElasticsearchClusterSpec (demoConfig paused) v [] pools None None) demoStatus.

Definition demoCluster : ElasticsearchCluster := demoClusterAt version561 false [masterPool; dataPool].

(** ** States *)

(** The caches hold the given objects and the API server accepts every call. *)
Definition stateOf (sets : list StatefulSet) (pilots : list Pilot) (sas : list ServiceAccount)
    (svcs : list Service) (roles : list Role) (rbs : list RoleBinding) (cms : list ConfigMap) : State :=
  {| Clientset := λ _ _, None;
     Now := 100;
     StatefulSetLister := listerOf ss_Meta sets;
     ConfigMapLister := listerOf cm_Meta cms;
     PodLister := listerOf pod_Meta [];
     ServiceLister := listerOf svc_Meta svcs;
     ServiceAccountLister := listerOf sa_Meta sas;
     RoleBindingLister := listerOf rb_Meta rbs;
     RoleLister := listerOf role_Meta roles;
     PilotLister := listerOf pil_Meta pilots;
     CassandraClusterLister := listerOf cass_Meta [];
     ElasticsearchClusterLister := listerOf esc_Meta [] |}.

Definition setsAndPilots (sets : list StatefulSet) (pilots : list Pilot) : State :=
  stateOf sets pilots [] [] [] [] [].

Definition emptyWorld : World := mkWorld [] ∅.

(** The stateful set of a pool with the given version annotation, replicas and status. *)
Definition setOf (name pool version : string) (replicas ready updated : Z) (owner : ObjectMeta) : StatefulSet :=
  {| ss_Meta := mkObjectMeta name "default" ("uid-" +:+ name) "1"
       (Some (<[ElasticsearchNodePoolNameLabel := pool]> {[ ElasticsearchClusterNameLabel := om_Name owner ]}))
       (Some {[ ElasticsearchNodePoolVersionAnnotation := version ]})
       [NewControllerRef owner (mkGVK GroupName "v1alpha1" "ElasticsearchCluster")] None;
     ss_Spec := {|
       sss_Replicas := Some replicas;
       sss_Selector := None;
       sss_Template := mkPodTemplateSpec None None
         (mkPodSpec None "" None "" None [] []
            [mkContainer "elasticsearch" "docker.elastic.co/elasticsearch/elasticsearch:5.6.1" PullIfNotPresent
               [] [] [] None None None (mkResourceRequirements None None) [] []]);
       sss_VolumeClaimTemplates := [];
       sss_ServiceName := name;
       sss_PodManagementPolicy := "Parallel";
       sss_UpdateStrategyType := "RollingUpdate";
       sss_RollingUpdate := None |};
     ss_Status := mkStatefulSetStatus ready 0 updated |}.

Definition demoSet (pool version : string) (replicas ready updated : Z) : StatefulSet :=
  setOf ("es-demo-" +:+ pool) pool version replicas ready updated (metaOf "demo" "uid-demo").

(** A pilot that reports its document count and version. *)
Definition pilotOf (pool : string) (index documents : Z) (v : Version) : Pilot :=
  mkPilot
    (mkObjectMeta ("es-demo-" +:+ pool +:+ "-" +:+ itoa index) "default" "" "1"
       (Some (<[ElasticsearchNodePoolNameLabel := pool]> {[ ElasticsearchClusterNameLabel := "demo" ]}))
       None [] None)
    (mkPilotStatus [] (Some (mkElasticsearchPilotStatus (Some documents) (Some v))) None).

Lemma reflects_replaced ss ss' :
  ss_Namespace ss = ss_Namespace ss' → ss_Name ss = ss_Name ss' →
  reflects ss' (setsAndPilots [ss] []) (setsAndPilots [ss'] []).
Proof.
  intros Hns Hname ns name. change (StatefulSetLister (setsAndPilots [ss'] [])) with (listerOf ss_Meta [ss']).
  change (StatefulSetLister (setsAndPilots [ss] [])) with (listerOf ss_Meta [ss]).
  case_bool_decide as H.
  - destruct H as [-> ->]. apply (listerOf_Get ss_Meta [ss'] ss'); [apply NoDup_singleton|set_solver|done].
  - rewrite !listerOf_Get_None; [done|..]; simpl; rewrite list_elem_of_singleton; intros [= -> ->];
      apply H; split; done.
Qed.

(** ** A Cassandra cluster of one pool *)

Definition cassVersion3 : CassVersion := mkCassVersion "3.11.2" (Some (mkHVersion "" "" [3; 11; 2] 3)).

Definition ringPool (replicas : Z) : CassandraClusterNodePool :=
  mkCassandraClusterNodePool "ring" (Some replicas) None None (Some "ring") (Some "dc")
    (mkResourceRequirements None None) "".

Definition demoCassMeta : ObjectMeta := metaOf "demo" "uid-cass".

Definition demoCassandra (replicas : Z) : CassandraCluster :=
  mkCassandraCluster demoCassMeta
    (mkCassandraClusterSpec (demoConfig false) [ringPool replicas] None cassVersion3)
    (mkCassandraClusterStatus (mkNavigatorClusterStatus []) None).

(** The ring's stateful set as the cache has it. *)
Definition ringSet (replicas ready : Z) : StatefulSet :=
  {| ss_Meta := mkObjectMeta "cass-demo-ring" "default" "uid-ring" "1"
       (Some (<[CassandraNodePoolNameLabel := "ring"]> {[ CassandraClusterNameLabel := "demo" ]})) (Some ∅)
       [NewControllerRef demoCassMeta (mkGVK GroupName "v1alpha1" "CassandraCluster")] None;
     ss_Spec := ss_Spec (set_Replicas replicas (demoSet "" "" 0 0 0));
     ss_Status := mkStatefulSetStatus ready ready ready |}.

(** A pod of the ring with the given labels. *)
Definition ringPod (labels : option smap) : Pod :=
  mkPod (mkObjectMeta "cass-demo-ring-0" "default" "uid-pod" "1" labels None [] None)
    (mkPodSpec None "" None "" None [] [] []).

(** The same caches with the clusters themselves. *)
Definition withClusters (casses : list CassandraCluster) (escs : list ElasticsearchCluster) (s : State) : State :=
  mkState (Clientset s) (Now s) (StatefulSetLister s) (ConfigMapLister s) (PodLister s)
    (ServiceLister s) (ServiceAccountLister s) (RoleBindingLister s) (RoleLister s) (PilotLister s)
    (listerOf cass_Meta casses) (listerOf esc_Meta escs).
