(* ===== verification/Handlers.v ===== *)
(** * Event handlers and owner references

    pkg/controllers/util.go and util_api.go: how a change of an object in an
    informer cache reaches the queue of a controller, and how the owner of an
    object is found; with the [handleObject] and [handlePodObject] of the
    Elasticsearch and Cassandra controllers. *)

From S2P Require Import Prelude GoStrings Semver K8s WorkQueue Types CassandraVersion Cluster Fixtures.
From Stdlib Require Import Ascii.

(** ** Keys *)

(** What an informer hands to a handler: an object of some kind, the last
    known state of an object whose deletion was missed, or another value. *)
Inductive EventObj :=
| ObjOf (meta : ObjectMeta)
| DeletedFinalStateUnknown (key : string) (obj : EventObj)
| NotAnObject.

(** [obj.(metav1.Object)] *)
Definition asObject (obj : EventObj) : option ObjectMeta :=
  match obj with
  | ObjOf meta => Some meta
  | _ => None
  end.

Definition MetaNamespaceKeyFunc (obj : EventObj) : Res string :=
  match asObject obj with
  | None => inl (Errorf "object has no meta: %v" [])
  | Some meta =>
      if bool_decide (om_Namespace meta = "") then inr (om_Name meta)
      else inr (om_Namespace meta +:+ "/" +:+ om_Name meta)
  end.

(** cache.DeletionHandlingMetaNamespaceKeyFunc *)
Definition KeyFunc (obj : EventObj) : Res string :=
  match obj with
  | DeletedFinalStateUnknown key _ => inr key
  | _ => MetaNamespaceKeyFunc obj
  end.

(** cache.SplitMetaNamespaceKey *)
Definition SplitMetaNamespaceKey (key : string) : Res (string * string) :=
  match split_all "/"%char key with
  | [name] => inr ("", name)
  | [namespace; name] => inr (namespace, name)
  | _ => inl (Errorf "unexpected key format: %q" [AStr key])
  end.

(** ** QueuingEventHandler and BlockingEventHandler *)

Definition Enqueue (obj : EventObj) (q : Queue) : Queue :=
  match KeyFunc obj with
  | inl _ => q
  | inr key => Add key q
  end.

(** The handlers differ in what they do with the object. *)
Section handler.
Context (work : EventObj → Queue → Queue).

Definition OnAdd (obj : EventObj) (q : Queue) : Queue := work obj q.

(** The type assertions panic on anything but an object. *)
Definition OnUpdate (old new : EventObj) (q : Queue) : outcome Queue :=
  match asObject old, asObject new with
  | Some oldObj, Some newObj =>
      if negb (bool_decide (om_ResourceVersion oldObj = om_ResourceVersion newObj))
      then Ret (work new q) else Ret q
  | _, _ => Panic "interface conversion"
  end.

Definition OnDelete (obj : EventObj) (q : Queue) : Queue :=
  match obj with
  | DeletedFinalStateUnknown _ obj' => work obj' q
  | _ => work obj q
  end.
End handler.

(** ** The handlers of the two cluster controllers *)

(** handleObject: [get] looks the owning cluster up and [enqueue] queues it. *)
Definition handleOwned {A} (kind : string) (l : Lister A) (meta : A → ObjectMeta)
    (enqueue : EventObj → Queue → Queue) (obj : EventObj) (q : Queue) : Queue :=
  match asObject obj with
  | None => q
  | Some object =>
      match GetControllerOf object with
      | None => q
      | Some ownerRef =>
          if negb (bool_decide (or_Kind ownerRef = kind)) then q
          else
            match lister_Get l (om_Namespace object) (or_Name ownerRef) with
            | inl _ => q
            | inr cluster => enqueue (ObjOf (meta cluster)) q
            end
      end
  end.

Definition enqueueElasticsearchCluster (obj : EventObj) (q : Queue) : Queue :=
  match KeyFunc obj with
  | inl _ => q
  | inr key => Add key q
  end.

Definition enqueueCassandraCluster (obj : EventObj) (q : Queue) : Queue :=
  match KeyFunc obj with
  | inl _ => q
  | inr key => AddRateLimited key q
  end.

Definition ES_handleObject (s : State) : EventObj → Queue → Queue :=
  handleOwned "ElasticsearchCluster" (ElasticsearchClusterLister s) esc_Meta enqueueElasticsearchCluster.

Definition Cass_handleObject (s : State) : EventObj → Queue → Queue :=
  handleOwned "CassandraCluster" (CassandraClusterLister s) cass_Meta enqueueCassandraCluster.

(** handlePodObject finds the stateful set of the pod and hands it on. *)
Definition ES_handlePodObject (s : State) : EventObj → Queue → Queue :=
  handleOwned "StatefulSet" (StatefulSetLister s) ss_Meta (ES_handleObject s).

Definition Cass_handlePodObject (s : State) : EventObj → Queue → Queue :=
  handleOwned "StatefulSet" (StatefulSetLister s) ss_Meta (Cass_handleObject s).

(** ** RootControllerRef and PodControlledByCluster *)

(** The walk up the owners.  Each step loads one owner; [None] when [fuel]
    steps do not reach the root.  Objects from a cache have an empty kind,
    which only the error text shows. *)
Fixpoint RootControllerRef (fuel : nat) (s : State) (kind : string) (obj : ObjectMeta)
    : option (Res (option OwnerReference)) :=
  match fuel with
  | O => None
  | S fuel' =>
      match GetControllerOf obj with
      | None => Some (inr None)
      | Some ownerRef =>
          let owner {A} (l : Lister A) (meta : A → ObjectMeta) :=
            match lister_Get l (om_Namespace obj) (or_Name ownerRef) with
            | inl err => Some (inl (Wrapf err "unable to get owner of object %s/%s/%s"
                                 [AStr kind; AStr (om_Namespace obj); AStr (om_Name obj)]))
            | inr objController => RootControllerRef fuel' s "" (meta objController)
            end in
          if bool_decide (or_Kind ownerRef = "ElasticsearchCluster")
             || bool_decide (or_Kind ownerRef = "CassandraCluster") then Some (inr (Some ownerRef))
          else if bool_decide (or_Kind ownerRef = "StatefulSet") then owner (StatefulSetLister s) ss_Meta
          else if bool_decide (or_Kind ownerRef = "Pod") then owner (PodLister s) pod_Meta
          else Some (inl (Errorf "object %s/%s has unsupported owner type: %v"
                            [AStr (om_Namespace obj); AStr (om_Name obj)]))
      end
  end.

Definition PodControlledByCluster (cluster : ObjectMeta) (pod : Pod) (ssLister : Lister StatefulSet) : Res bool :=
  if IsControlledBy (pod_Meta pod) cluster then inr true
  else
    match GetControllerOf (pod_Meta pod) with
    | None => inr false
    | Some ownerRef =>
        if negb (bool_decide (or_Kind ownerRef = "StatefulSet")) then inr false
        else
          match lister_Get ssLister (om_Namespace (pod_Meta pod)) (or_Name ownerRef) with
          | inl err => if IsNotFound (Some err) then inr false else inl err
          | inr set => inr (IsControlledBy (ss_Meta set) cluster)
          end
    end.

(** ** Keys read back *)

(** Names of the API contain no slash, and namespaces are not empty. *)
Definition plainKey (namespace name : string) : Prop :=
  namespace ≠ "" ∧ has_char "/"%char namespace = false ∧ has_char "/"%char name = false.

Lemma Split_KeyFunc meta :
  plainKey (om_Namespace meta) (om_Name meta) →
  ∃ key, KeyFunc (ObjOf meta) = inr key ∧ SplitMetaNamespaceKey key = inr (om_Namespace meta, om_Name meta).
Proof.
  intros (Hne & Hns & Hname). unfold KeyFunc, MetaNamespaceKeyFunc. simpl. rewrite bool_decide_eq_false_2 by done.
  eexists. split; [done|]. unfold SplitMetaNamespaceKey.
  change ("/" +:+ ?x) with (String "/"%char x). by rewrite split_all_app, split_all_single.
Qed.

(** ** From a change to the queue *)

Lemma handleOwned_run {A} kind (l : Lister A) meta enqueue object ref cluster q :
  GetControllerOf object = Some ref → or_Kind ref = kind →
  lister_Get l (om_Namespace object) (or_Name ref) = inr cluster →
  handleOwned kind l meta enqueue (ObjOf object) q = enqueue (ObjOf (meta cluster)) q.
Proof. intros Href <- Hget. unfold handleOwned. simpl. by rewrite Href, bool_decide_eq_true_2, Hget. Qed.

Lemma OnUpdate_run work old new q :
  om_ResourceVersion old ≠ om_ResourceVersion new → OnUpdate work (ObjOf old) (ObjOf new) q = Ret (work (ObjOf new) q).
Proof. intros Hne. unfold OnUpdate. simpl. by rewrite bool_decide_eq_false_2. Qed.

Lemma enqueue_pending (limited : bool) meta q :
  q_shuttingDown q = false → plainKey (om_Namespace meta) (om_Name meta) →
  ∃ key, pending key ((if limited then enqueueCassandraCluster else enqueueElasticsearchCluster) (ObjOf meta) q) ∧
    SplitMetaNamespaceKey key = inr (om_Namespace meta, om_Name meta).
Proof.
  intros Hsd (key & Hkey & Hsplit)%Split_KeyFunc. exists key. split; [|done].
  destruct limited; unfold enqueueCassandraCluster, enqueueElasticsearchCluster; rewrite Hkey.
  - right. simpl. rewrite Hsd. set_solver.
  - by apply Add_pending.
Qed.

(** The pod belongs to a set the cache has, and the set to a cluster of the given kind. *)
Definition podOwnedBy {A} (s : State) (kind : string) (l : Lister A) (pod : ObjectMeta) (cluster : A) : Prop :=
  ∃ set setRef clusterRef,
    GetControllerOf pod = Some setRef ∧ or_Kind setRef = "StatefulSet" ∧
    lister_Get (StatefulSetLister s) (om_Namespace pod) (or_Name setRef) = inr set ∧
    GetControllerOf (ss_Meta set) = Some clusterRef ∧ or_Kind clusterRef = kind ∧
    lister_Get l (ss_Namespace set) (or_Name clusterRef) = inr cluster.

(** A changed pod whose set belongs to a cluster makes the handlers of the controller leave
    a pending key that reads back as the namespace and name of that cluster, for both kinds of
    cluster. *)
Theorem pod_change_requeues_cluster s old new q :
  om_ResourceVersion old ≠ om_ResourceVersion new → q_shuttingDown q = false →
  (∀ c, podOwnedBy s "ElasticsearchCluster" (ElasticsearchClusterLister s) new c →
     plainKey (esc_Namespace c) (esc_Name c) →
     ∃ q' key, OnUpdate (ES_handlePodObject s) (ObjOf old) (ObjOf new) q = Ret q' ∧ pending key q' ∧
       SplitMetaNamespaceKey key = inr (esc_Namespace c, esc_Name c)) ∧
  (∀ c, podOwnedBy s "CassandraCluster" (CassandraClusterLister s) new c →
     plainKey (cass_Namespace c) (cass_Name c) →
     ∃ q' key, OnUpdate (Cass_handlePodObject s) (ObjOf old) (ObjOf new) q = Ret q' ∧ pending key q' ∧
       SplitMetaNamespaceKey key = inr (cass_Namespace c, cass_Name c)).
Proof.
  intros Hrv Hsd. split; intros c (set & sref & cref & H1 & H2 & H3 & H4 & H5 & H6) Hplain;
    rewrite OnUpdate_run by done; unfold ES_handlePodObject, Cass_handlePodObject;
    rewrite (handleOwned_run _ _ _ _ _ _ _ _ H1 H2 H3); unfold ES_handleObject, Cass_handleObject;
    rewrite (handleOwned_run _ _ _ _ _ _ _ _ H4 H5 H6).
  - destruct (enqueue_pending false (esc_Meta c) q Hsd Hplain) as (key & ? & ?). eauto.
  - destruct (enqueue_pending true (cass_Meta c) q Hsd Hplain) as (key & ? & ?). eauto.
Qed.

(** ** The root of the owners *)

(** RootControllerRef of a pilot owned by a pod of a set of a cluster ends within
    three lookups with the owner reference of the cluster. *)
Lemma root_of_pilot_is_cluster s kind pilot pod set podRef setRef clusterRef fuel :
  GetControllerOf pilot = Some podRef → or_Kind podRef = "Pod" →
  lister_Get (PodLister s) (om_Namespace pilot) (or_Name podRef) = inr pod →
  GetControllerOf (pod_Meta pod) = Some setRef → or_Kind setRef = "StatefulSet" →
  lister_Get (StatefulSetLister s) (om_Namespace (pod_Meta pod)) (or_Name setRef) = inr set →
  GetControllerOf (ss_Meta set) = Some clusterRef →
  or_Kind clusterRef = "ElasticsearchCluster" ∨ or_Kind clusterRef = "CassandraCluster" →
  (3 ≤ fuel)%nat →
  RootControllerRef fuel s kind pilot = Some (inr (Some clusterRef)).
Proof.
  intros H1 K1 G1 H2 K2 G2 H3 K3 Hfuel. destruct fuel as [|[|[|fuel]]]; [lia..|].
  simpl. rewrite H1, K1, G1, H2, K2, G2, H3. simpl. by destruct K3 as [-> | ->].
Qed.

(** A cycle of owners is walked forever. *)
Lemma root_of_cycle_diverges s kind pod ref p fuel :
  GetControllerOf pod = Some ref → or_Kind ref = "Pod" →
  lister_Get (PodLister s) (om_Namespace pod) (or_Name ref) = inr p → pod_Meta p = pod →
  RootControllerRef fuel s kind pod = None.
Proof.
  intros H1 K1 G1 <-. revert kind. induction fuel as [|fuel IH]; intros kind; simpl; [done|].
  rewrite H1, K1, G1. simpl. apply IH.
Qed.

(** ** An example *)

(** Pod 0 of the data set. *)
Definition dataPodMeta (resourceVersion : string) : ObjectMeta :=
  mkObjectMeta "es-demo-data-0" "default" "uid-pod" resourceVersion None None
    [NewControllerRef (metaOf "es-demo-data" "uid-es-demo-data") (mkGVK "apps" "v1beta1" "StatefulSet")] None.

Definition handlerState : State :=
  withClusters [] [demoCluster] (setsAndPilots [demoSet "data" "5.6.1" 2 2 2] []).

Lemma pod_change_requeues_cluster_witness :
  ∃ q' key, OnUpdate (ES_handlePodObject handlerState) (ObjOf (dataPodMeta "1")) (ObjOf (dataPodMeta "2")) newQueue
      = Ret q' ∧ pending key q' ∧ SplitMetaNamespaceKey key = inr ("default", "demo").
Proof.
  destruct (pod_change_requeues_cluster handlerState (dataPodMeta "1") (dataPodMeta "2") newQueue) as [Hes _];
    [discriminate|reflexivity|].
  apply (Hes demoCluster).
  - exists (demoSet "data" "5.6.1" 2 2 2). do 2 eexists. split; [reflexivity|]. split; [reflexivity|].
    split; [get_listed (demoSet "data" "5.6.1" 2 2 2)|]. split; [reflexivity|]. split; [reflexivity|].
    get_listed demoCluster.
  - split; [discriminate|]. split; reflexivity.
Defined.

Definition dataPod : Pod := mkPod (dataPodMeta "1") (mkPodSpec None "" None "" None [] [] []).

Definition rootState : State :=
  let s := handlerState in
  mkState (Clientset s) (Now s) (StatefulSetLister s) (ConfigMapLister s) (listerOf pod_Meta [dataPod])
    (ServiceLister s) (ServiceAccountLister s) (RoleBindingLister s) (RoleLister s) (PilotLister s)
    (CassandraClusterLister s) (ElasticsearchClusterLister s).

Lemma root_of_pilot_is_cluster_witness :
  RootControllerRef 3 rootState "Pilot"
    (mkObjectMeta "es-demo-data-0" "default" "" "1" None None
       [NewControllerRef (pod_Meta dataPod) (mkGVK "" "v1" "Pod")] None) =
  Some (inr (Some (NewControllerRef (esc_Meta demoCluster) (mkGVK GroupName "v1alpha1" "ElasticsearchCluster")))).
Proof.
  eapply (root_of_pilot_is_cluster rootState "Pilot" _ dataPod (demoSet "data" "5.6.1" 2 2 2));
    [reflexivity|reflexivity|get_listed dataPod|reflexivity|reflexivity
    |get_listed (demoSet "data" "5.6.1" 2 2 2)|reflexivity|left; reflexivity|lia].
Defined.
