(* ===== verification/PilotController.v ===== *)
(** * The pilot controller

    pkg/controllers/pilotcontroller/pilot.go: one Pilot resource for every
    piloted pod, created when it is missing and owned by the pod. *)

From S2P Require Import Prelude GoStrings Semver K8s WorkQueue Types Cluster Fixtures Handlers.

Definition PilotForPod (pod : Pod) : Pilot :=
  mkPilot
    (newObjectMeta (om_Name (pod_Meta pod)) (om_Namespace (pod_Meta pod)) None None
       [NewControllerRef (pod_Meta pod) (mkGVK "" "v1" "Pod")])
    (mkPilotStatus [] None None).

(** The pods the controller watches: those with the pilot label.  The pod
    informer delivers pods; a missed deletion is not one. *)
Definition piloted (obj : EventObj) : bool :=
  match obj with
  | ObjOf meta => bool_decide (is_Some (map_get (om_Labels meta) PilotLabel))
  | _ => false
  end.

(** The metadata of the pilot the client returns: of the created pilot, or of
    the empty object the generated client leaves when the call fails. *)
Definition createPilot (s : State) (pod : Pod) : GoM World (Res ObjectMeta) :=
  let pilot := PilotForPod pod in
  err ← api_call s (CreatePilot (pil_Namespace pilot) pilot);
  if IsAlreadyExists err then mret (inr (newObjectMeta "" "" None None []))
  else
    match err with
    | Some e => mret (inl (Wrapf e "unable to create pilot" []))
    | None => mret (inr (pil_Meta pilot))
    end.

Definition pilot_sync (s : State) (key : string) : GoM World (option Err) :=
  match SplitMetaNamespaceKey key with
  | inl _ => mret None
  | inr (namespace, name) =>
      match lister_Get (PodLister s) namespace name with
      | inl err => if negb (IsNotFound (Some err)) then mret (Some (Wrapf err "unable to get pod" [])) else mret None
      | inr pod =>
          match om_DeletionTimestamp (pod_Meta pod) with
          | Some _ => mret None
          | None =>
              match lister_Get (PilotLister s) namespace name with
              | inr _ => mret None
              | inl err =>
                  if negb (IsNotFound (Some err)) then mret (Some (Wrapf err "unable to get pilot" []))
                  else
                    r ← createPilot s pod;
                    match r with
                    | inl e => mret (Some e)
                    | inr pilot =>
                        eventf pilot EventTypeNormal "SuccessSync" "Successfully synced pods" [];;
                        mret None
                    end
              end
          end
      end
  end.

(** ** Correctness *)

(** The pod is there, is not being deleted, and has no pilot yet. *)
Definition needsPilot (s : State) (namespace name : string) (pod : Pod) : Prop :=
  lister_Get (PodLister s) namespace name = inr pod ∧ om_DeletionTimestamp (pod_Meta pod) = None ∧
  ∃ e, lister_Get (PilotLister s) namespace name = inl e ∧ IsNotFound (Some e) = true.

Lemma pilot_sync_creates s key ns name pod w :
  SplitMetaNamespaceKey key = inr (ns, name) → needsPilot s ns name pod →
  let create := CreatePilot (om_Namespace (pod_Meta pod)) (PilotForPod pod) in
  let answer := Clientset s (w_log w) create in
  ∃ r w', pilot_sync s key w = (Ret r, w') ∧ did w [create] w' ∧
    (r = None ↔ answer = None ∨ IsAlreadyExists answer = true).
Proof.
  intros Hkey (Hpod & Hdel & e & Hpil & Hnf) create answer. unfold pilot_sync.
  rewrite Hkey, Hpod, Hdel, Hpil, Hnf. change (negb true) with false. cbv beta iota.
  assert (createPilot s pod w = (Ret (if IsAlreadyExists answer then inr (newObjectMeta "" "" None None [])
    else match answer with
         | Some e => inl (Wrapf e "unable to create pilot" [])
         | None => inr (pil_Meta (PilotForPod pod))
         end), log_effect (EffCall create) w)) as Hcreate.
  { unfold createPilot. rewrite (gom_bind_ret _ _ _ answer (log_effect (EffCall create) w)) by done.
    destruct (IsAlreadyExists answer); [done|]. by destruct answer. }
  rewrite (gom_bind_ret _ _ _ _ _ Hcreate). clear Hcreate.
  destruct (IsAlreadyExists answer) eqn:Ea; [|destruct answer as [e'|] eqn:Eans]; simpl;
    (do 2 eexists; split; [reflexivity|]; split; [apply did_call_event || apply did_log_call|]; naive_solver).
Qed.

Lemma pilot_sync_idle s key ns name w :
  SplitMetaNamespaceKey key = inr (ns, name) → (∀ pod, ¬ needsPilot s ns name pod) →
  ∃ r, pilot_sync s key w = (Ret r, w).
Proof.
  intros Hkey Hno. unfold pilot_sync, needsPilot in *. rewrite Hkey.
  destruct (lister_Get (PodLister s) ns name) as [e|pod] eqn:Hpod; [by destruct (negb _); eexists|].
  destruct (om_DeletionTimestamp (pod_Meta pod)) eqn:Hdel; [by eexists|].
  destruct (lister_Get (PilotLister s) ns name) as [e|p] eqn:Hpil; [|by eexists].
  destruct (IsNotFound (Some e)) eqn:Hnf; simpl; [|by eexists].
  exfalso. apply (Hno pod). eauto.
Qed.

Lemma needsPilot_dec s ns name : (∃ pod, needsPilot s ns name pod) ∨ ∀ pod, ¬ needsPilot s ns name pod.
Proof.
  unfold needsPilot. destruct (lister_Get (PodLister s) ns name) as [|pod]; [right; by intros ? [? _]|].
  destruct (om_DeletionTimestamp (pod_Meta pod)) eqn:Hdel.
  { right. intros ? ([= <-] & Hd & _). congruence. }
  destruct (lister_Get (PilotLister s) ns name) as [e|]; [|right; by intros ? (_ & _ & ? & ? & _)].
  destruct (IsNotFound (Some e)) eqn:Hnf; [left; eauto 6|].
  right. intros ? (_ & _ & ? & [= <-] & ?). congruence. 
Qed.

(** The pilot controller creates a pilot exactly for a live pod without one, with the name
    and namespace of the pod and controlled by it; it returns nil when the pilot was created or
    existed, and otherwise does nothing. *)
Theorem pilot_sync_exact s key ns name w :
  LawfulLister pod_Meta (PodLister s) → SplitMetaNamespaceKey key = inr (ns, name) →
  ∃ r w', pilot_sync s key w = (Ret r, w') ∧
    ((∃ pod, let p := PilotForPod pod in
        needsPilot s ns name pod ∧ did w [CreatePilot ns p] w' ∧
        pil_Namespace p = ns ∧ pil_Name p = name ∧ IsControlledBy (pil_Meta p) (pod_Meta pod) = true ∧
        (r = None ↔ Clientset s (w_log w) (CreatePilot ns p) = None ∨
           IsAlreadyExists (Clientset s (w_log w) (CreatePilot ns p)) = true)) ∨
     ((∀ pod, ¬ needsPilot s ns name pod) ∧ w' = w)).
Proof.
  intros Hl Hkey.
  destruct (needsPilot_dec s ns name) as [[pod Hneeds]|Hno].
  - destruct (pilot_sync_creates s key ns name pod w Hkey Hneeds) as (r & w' & Hrun & Hd & Hr).
    pose proof (get_sound _ _ _ (proj1 Hneeds)) as [<- <-]. exists r, w'. split; [done|]. left. exists pod.
    do 4 (split; [done|]). split; [apply IsControlledBy_new|exact Hr].
  - destruct (pilot_sync_idle s key ns name w Hkey Hno) as [r Hrun]. exists r, w. split; [done|]. by right.
Qed.

(** ** Changes of pilots *)

(** A change of a pilot created by the pilot controller never reaches the queue of the
    Elasticsearch controller, since the pilot is controlled by its pod and not by the cluster. *)
Theorem pilot_changes_requeue_nothing s pod old new q :
  om_OwnerReferences new = om_OwnerReferences (pil_Meta (PilotForPod pod)) →
  OnUpdate (ES_handleObject s) (ObjOf old) (ObjOf new) q = Ret q.
Proof.
  intros Howner. unfold OnUpdate. simpl. destruct (negb _); [|done].
  unfold ES_handleObject, handleOwned, GetControllerOf. simpl. by rewrite Howner.
Qed.

(** ** An example *)

Definition podState : State :=
  let s := setsAndPilots [] [] in
  mkState (Clientset s) (Now s) (StatefulSetLister s) (ConfigMapLister s) (listerOf pod_Meta [ringPod None])
    (ServiceLister s) (ServiceAccountLister s) (RoleBindingLister s) (RoleLister s) (PilotLister s)
    (CassandraClusterLister s) (ElasticsearchClusterLister s).

Lemma pilot_sync_exact_witness :
  ∃ r w' pod, pilot_sync podState "default/cass-demo-ring-0" emptyWorld = (Ret r, w') ∧
    did emptyWorld [CreatePilot "default" (PilotForPod pod)] w' ∧ r = None.
Proof.
  destruct (pilot_sync_exact podState "default/cass-demo-ring-0" "default" "cass-demo-ring-0" emptyWorld)
    as (r & w' & Hrun & [(pod & _ & Hd & _ & _ & _ & Hr)|[Hno _]]).
  - apply listerOf_lawful.
  - vm_compute. reflexivity.
  - exists r, w', pod. split; [assumption|]. split; [assumption|]. apply Hr. left. reflexivity.
  - destruct (Hno (ringPod None)). split; [get_listed (ringPod None)|]. split; [reflexivity|].
    eexists. split; [vm_compute; reflexivity|reflexivity].
Defined.

Lemma pilot_changes_requeue_nothing_witness :
  let pilot rv := mkObjectMeta "cass-demo-ring-0" "default" "uid-pilot" rv None None
    (om_OwnerReferences (pil_Meta (PilotForPod (ringPod None)))) None in
  OnUpdate (ES_handleObject handlerState) (ObjOf (pilot "1")) (ObjOf (pilot "2")) newQueue = Ret newQueue.
Proof. intros pilot. apply (pilot_changes_requeue_nothing _ (ringPod None)). reflexivity. Defined.
