(* ===== verification/PilotHooks.v ===== *)
(** * Lifecycle hooks and probes of a pilot

    pkg/pilot/genericpilot/hook/hook.go and probe/check.go.  A hook is a name
    and a function of the implementor; it works on the implementor's state
    [E], may change the Pilot it is given and may fail.  The Go struct Hooks
    holds the hook lists and, per phase, the map of the hooks that have
    succeeded; here the lists ([Hooks]) and the maps ([Executed]) are two
    records, because the lists never change.

    The maps implement something simpler: a counter per phase, from which a
    transition resumes the list.  [Progress] and [abs_Transition] state that,
    and the refinement theorem relates the two over any sequence of
    transitions. *)

From S2P Require Import Prelude GoStrings Semver K8s Types.

(** ** The data *)

(** type Phase string *)
Definition Phase : Type := string.
Definition PreStart : Phase := "PreStart".
Definition PostStart : Phase := "PostStart".
Definition PreStop : Phase := "PreStop".
Definition PostStop : Phase := "PostStop".

(** hook.Interface, as built by hook.New *)
Record Hook (E : Type) := mkHook {
  hook_Name : string;
  hook_Execute : Pilot → GoM E (Pilot * option Err);
}.
Arguments mkHook {E} hook_Name hook_Execute.
Arguments hook_Name {E} h : rename.
Arguments hook_Execute {E} h pilot : rename.

Record Hooks (E : Type) := mkHooks {
  hs_PreStart : list (Hook E);
  hs_PostStart : list (Hook E);
  hs_PreStop : list (Hook E);
  hs_PostStop : list (Hook E);
}.
Arguments mkHooks {E} hs_PreStart hs_PostStart hs_PreStop hs_PostStop.
Arguments hs_PreStart {E} h : rename.
Arguments hs_PostStart {E} h : rename.
Arguments hs_PreStop {E} h : rename.
Arguments hs_PostStop {E} h : rename.

(** The executed maps; [None] is the nil map. *)
Record Executed := mkExecuted {
  executedPreStart : option (gset string);
  executedPostStart : option (gset string);
  executedPreStop : option (gset string);
  executedPostStop : option (gset string);
}.

(** The maps of a new [Hooks]. *)
Definition newExecuted : Executed := mkExecuted None None None None.

(** ** Transition *)

Section transition.
Context {E : Type}.

(** The four cases of the switch: the hooks of the phase and its map, made if
    it is nil. *)
Definition phaseHooks (h : Hooks E) (x : Executed) (p : Phase) : option (list (Hook E) * gset string) :=
  if bool_decide (p = PreStart) then Some (hs_PreStart h, default ∅ (executedPreStart x))
  else if bool_decide (p = PostStart) then Some (hs_PostStart h, default ∅ (executedPostStart x))
  else if bool_decide (p = PreStop) then Some (hs_PreStop h, default ∅ (executedPreStop x))
  else if bool_decide (p = PostStop) then Some (hs_PostStop h, default ∅ (executedPostStop x))
  else None.

(** The map of the phase holds [executed]. *)
Definition setExecuted (p : Phase) (executed : gset string) (x : Executed) : Executed :=
  let '(mkExecuted a b c d) := x in
  if bool_decide (p = PreStart) then mkExecuted (Some executed) b c d
  else if bool_decide (p = PostStart) then mkExecuted a (Some executed) c d
  else if bool_decide (p = PreStop) then mkExecuted a b (Some executed) d
  else if bool_decide (p = PostStop) then mkExecuted a b c (Some executed)
  else x.

Definition hookError (p : Phase) (name : string) (err : Err) : Err :=
  Errorf "error executing %s hook %q: %s" [AStr p; AStr name; AErr err].

(** The loop over the hooks of a phase. *)
Fixpoint runHooks (p : Phase) (hooks : list (Hook E)) (executed : gset string) (pilot : Pilot)
    : GoM E (gset string * Pilot * option Err) :=
  match hooks with
  | [] => mret (executed, pilot, None)
  | hook :: rest =>
      if bool_decide (hook_Name hook ∈ executed) then runHooks p rest executed pilot
      else
        '(pilot, err) ← hook_Execute hook pilot;
        match err with
        | Some err => mret (executed, pilot, Some (hookError p (hook_Name hook) err))
        | None => runHooks p rest ({[hook_Name hook]} ∪ executed) pilot
        end
  end.

(** Hooks.Transition; a nil pilot stays nil. *)
Definition Transition (h : Hooks E) (p : Phase) (pilot : option Pilot) (x : Executed)
    : GoM E (Executed * option Pilot * option Err) :=
  match pilot with
  | None => mret (x, None, Some (Errorf "pilot resource must not be nil" []))
  | Some pilot =>
      match phaseHooks h x p with
      | None => mret (x, Some pilot, Some (Errorf "invalid phase: %q" [AStr p]))
      | Some (hooks, executed) =>
          '(executed, pilot, err) ← runHooks p hooks executed pilot;
          mret (setExecuted p executed x, Some pilot, err)
      end
  end.

End transition.

(** ** The specification: a counter per phase *)

Record Progress := mkProgress {
  pr_PreStart : nat;
  pr_PostStart : nat;
  pr_PreStop : nat;
  pr_PostStop : nat;
}.

Definition newProgress : Progress := mkProgress 0 0 0 0.

Section spec.
Context {E : Type}.

(** Run hooks one after the other up to the first failure; [n] counts the
    successes. *)
Fixpoint resume (p : Phase) (hooks : list (Hook E)) (n : nat) (pilot : Pilot)
    : GoM E (nat * Pilot * option Err) :=
  match hooks with
  | [] => mret (n, pilot, None)
  | hook :: rest =>
      '(pilot, err) ← hook_Execute hook pilot;
      match err with
      | Some err => mret (n, pilot, Some (hookError p (hook_Name hook) err))
      | None => resume p rest (S n) pilot
      end
  end.

Definition phaseProgress (h : Hooks E) (pr : Progress) (p : Phase) : option (list (Hook E) * nat) :=
  if bool_decide (p = PreStart) then Some (hs_PreStart h, pr_PreStart pr)
  else if bool_decide (p = PostStart) then Some (hs_PostStart h, pr_PostStart pr)
  else if bool_decide (p = PreStop) then Some (hs_PreStop h, pr_PreStop pr)
  else if bool_decide (p = PostStop) then Some (hs_PostStop h, pr_PostStop pr)
  else None.

Definition setProgress (p : Phase) (n : nat) (pr : Progress) : Progress :=
  let '(mkProgress a b c d) := pr in
  if bool_decide (p = PreStart) then mkProgress n b c d
  else if bool_decide (p = PostStart) then mkProgress a n c d
  else if bool_decide (p = PreStop) then mkProgress a b n d
  else if bool_decide (p = PostStop) then mkProgress a b c n
  else pr.

(** A transition runs the part of the list that the counter has not passed. *)
Definition abs_Transition (h : Hooks E) (p : Phase) (pilot : option Pilot) (pr : Progress)
    : GoM E (Progress * option Pilot * option Err) :=
  match pilot with
  | None => mret (pr, None, Some (Errorf "pilot resource must not be nil" []))
  | Some pilot =>
      match phaseProgress h pr p with
      | None => mret (pr, Some pilot, Some (Errorf "invalid phase: %q" [AStr p]))
      | Some (hooks, n) =>
          '(n', pilot, err) ← resume p (drop n hooks) n pilot;
          mret (setProgress p n' pr, Some pilot, err)
      end
  end.

(** Any number of transitions, each with its own phase and pilot; the results
    are collected. *)
Fixpoint transitions {X} (T : Phase → option Pilot → X → GoM E (X * option Pilot * option Err))
    (calls : list (Phase * option Pilot)) (x : X) : GoM E (X * list (option Pilot * option Err)) :=
  match calls with
  | [] => mret (x, [])
  | (p, pilot) :: rest =>
      '(x, pilot, err) ← T p pilot x;
      '(x, results) ← transitions T rest x;
      mret (x, (pilot, err) :: results)
  end.

End spec.

(** ** Probes *)

(** probe.CombineChecks *)
Fixpoint CombineChecks {W} (checks : list (GoM W (option Err))) : GoM W (option Err) :=
  match checks with
  | [] => mret None
  | check :: rest =>
      err ← check;
      match err with
      | Some err => mret (Some err)
      | None => CombineChecks rest
      end
  end.

(** ** Refinement *)

Section refinement.
Context {E : Type}.

Definition names (hooks : list (Hook E)) : gset string := list_to_set (map hook_Name hooks).

(** The hooks of every phase have distinct names. *)
Definition distinctNames (h : Hooks E) : Prop :=
  Forall (λ hooks, NoDup (map hook_Name hooks))
    [hs_PreStart h; hs_PostStart h; hs_PreStop h; hs_PostStop h].

(** The maps hold exactly the hooks that the counters have passed. *)
Definition implements (h : Hooks E) (x : Executed) (pr : Progress) : Prop :=
  Forall (λ '(hooks, executed, n), default ∅ executed = names (take n hooks))
    [(hs_PreStart h, executedPreStart x, pr_PreStart pr);
     (hs_PostStart h, executedPostStart x, pr_PostStart pr);
     (hs_PreStop h, executedPreStop x, pr_PreStop pr);
     (hs_PostStop h, executedPostStop x, pr_PostStop pr)].

Lemma elem_of_names hooks name : name ∈ names hooks ↔ name ∈ map hook_Name hooks.
Proof. unfold names. apply elem_of_list_to_set. Qed.

Lemma runHooks_skip p hooks rest executed pilot e :
  names hooks ⊆ executed →
  runHooks p (hooks ++ rest) executed pilot e = runHooks p rest executed pilot e.
Proof.
  induction hooks as [|h hooks IH]; intros Hsub; [done|]. cbn -[mbind union].
  rewrite bool_decide_eq_true_2 by (apply Hsub; rewrite elem_of_names; by left).
  apply IH. intros name Hname. apply Hsub. rewrite elem_of_names in *. by right.
Qed.

(** From a map that holds the hooks before it, the loop runs what is left. *)
Lemma runHooks_resume p pre rest pilot e :
  NoDup (map hook_Name (pre ++ rest)) →
  runHooks p rest (names pre) pilot e =
  ('(n, pilot, err) ← resume p rest (length pre) pilot;
   mret (names (take n (pre ++ rest)), pilot, err)) e.
Proof.
  revert pre pilot e. induction rest as [|h rest IH]; intros pre pilot e Hnd.
  - unfold mbind, gom_bind, mret, gom_ret; simpl. by rewrite app_nil_r, take_ge.
  - assert (hook_Name h ∉ names pre) as Hn.
    { rewrite elem_of_names. rewrite map_app in Hnd.
      apply NoDup_app in Hnd as (_ & Hd & _). intros Hin. apply (Hd _ Hin). simpl. left. }
    cbn -[mbind union]. rewrite bool_decide_eq_false_2 by done.
    unfold mbind at 1 2 3, gom_bind at 1 2 3. destruct (hook_Execute h pilot e) as [[[pl [er|]]|w] e']; [| |done].
    + cbn. by rewrite take_app_length.
    + replace ({[hook_Name h]} ∪ names pre) with (names (pre ++ [h])).
      2:{ apply leibniz_equiv. intros y. rewrite elem_of_union, !elem_of_names, map_app, elem_of_app, elem_of_singleton.
          cbn. rewrite list_elem_of_singleton. tauto. }
      assert (pre ++ h :: rest = (pre ++ [h]) ++ rest) as Happ by (by rewrite <- app_assoc).
      rewrite Happ in *. rewrite IH by done.
      rewrite length_app. cbn [length]. rewrite Nat.add_1_r. done.
Qed.

(** From a map that holds the first [n] hooks. *)
Lemma runHooks_from p hooks n pilot e :
  NoDup (map hook_Name hooks) →
  runHooks p hooks (names (take n hooks)) pilot e =
  ('(n', pilot, err) ← resume p (drop n hooks) n pilot; mret (names (take n' hooks), pilot, err)) e.
Proof.
  intros Hnd. destruct (le_lt_dec n (length hooks)) as [Hle|Hgt].
  - transitivity (runHooks p (take n hooks ++ drop n hooks) (names (take n hooks)) pilot e);
      [by rewrite take_drop|].
    rewrite runHooks_skip, runHooks_resume by (try rewrite take_drop; done).
    by rewrite take_drop, length_take, Nat.min_l.
  - rewrite (drop_ge hooks) by lia.
    transitivity (runHooks p (hooks ++ []) (names (take n hooks)) pilot e); [by rewrite app_nil_r|].
    rewrite runHooks_skip by (by rewrite take_ge by lia). done.
Qed.

Lemma NoDup_phase (h : Hooks E) x p hooks executed :
  distinctNames h → phaseHooks h x p = Some (hooks, executed) → NoDup (map hook_Name hooks).
Proof.
  unfold distinctNames, phaseHooks. rewrite !Forall_cons. intros (? & ? & ? & ? & _) Hp.
  repeat case_bool_decide; simplify_eq; done.
Qed.

(** The two views of a phase agree. *)
Lemma phase_implements (h : Hooks E) x pr p :
  implements h x pr →
  (phaseHooks h x p = None ∧ phaseProgress h pr p = None) ∨
  ∃ hooks n, phaseProgress h pr p = Some (hooks, n) ∧
    phaseHooks h x p = Some (hooks, names (take n hooks)).
Proof.
  unfold implements, phaseHooks, phaseProgress. rewrite !Forall_cons.
  intros (H1 & H2 & H3 & H4 & _). repeat case_bool_decide; [..|by left]; right; do 2 eexists;
    (split; [done|]); do 2 f_equal; done.
Qed.

Lemma set_implements (h : Hooks E) x pr p hooks n n' :
  implements h x pr → phaseProgress h pr p = Some (hooks, n) →
  implements h (setExecuted p (names (take n' hooks)) x) (setProgress p n' pr).
Proof.
  destruct x, pr. unfold implements, phaseProgress, setExecuted, setProgress.
  rewrite !Forall_cons. intros (H1 & H2 & H3 & H4 & _) Hp.
  repeat case_bool_decide; simplify_eq/=; split_and!; done.
Qed.

Lemma implements_new (h : Hooks E) : implements h newExecuted newProgress.
Proof. unfold implements. rewrite !Forall_cons. done. Qed.

(** Two runs with the same results, from related states to related states. *)
Definition agree {A} (h : Hooks E) (run : outcome (Executed * A) * E) (abs : outcome (Progress * A) * E) : Prop :=
  match run, abs with
  | (Ret (x, r), e), (Ret (pr, r'), e') => implements h x pr ∧ r = r' ∧ e = e'
  | (Panic why, e), (Panic why', e') => why = why' ∧ e = e'
  | _, _ => False
  end.

Lemma Transition_simulates (h : Hooks E) p pilot x pr e :
  distinctNames h → implements h x pr →
  match Transition h p pilot x e, abs_Transition h p pilot pr e with
  | (Ret (x, pl, er), e), (Ret (pr, pl', er'), e') => implements h x pr ∧ pl = pl' ∧ er = er' ∧ e = e'
  | (Panic why, e), (Panic why', e') => why = why' ∧ e = e'
  | _, _ => False
  end.
Proof.
  intros Hd Hi. unfold Transition, abs_Transition. destruct pilot as [pilot|]; [|done].
  destruct (phase_implements h x pr p Hi) as [[-> ->]|(hooks & n & Hp & Hx)]; [done|].
  pose proof (NoDup_phase _ _ _ _ _ Hd Hx) as Hnd. rewrite Hp, Hx.
  unfold mbind at 1, gom_bind at 1. rewrite runHooks_from by done. unfold mbind, gom_bind.
  destruct (resume p (drop n hooks) n pilot e) as [[[[n' pl] er]|w] e']; [|done].
  cbn. split_and!; try done. by eapply set_implements.
Qed.

(** C14. Hooks.Transition with its maps of executed hooks implements a counter per phase: over
    any sequence of transitions, for hooks with distinct names in each phase, it returns the same
    results and has the same effects as running the rest of the list from the hook that failed
    last. *)
Theorem hooks_resume_where_they_failed (h : Hooks E) (calls : list (Phase * option Pilot)) (e : E) :
  distinctNames h →
  agree h (transitions (Transition h) calls newExecuted e)
          (transitions (abs_Transition h) calls newProgress e).
Proof.
  intros Hd. generalize (implements_new h). generalize newExecuted newProgress. revert e.
  induction calls as [|[p pilot] calls IH]; intros e x pr Hi; [done|].
  pose proof (Transition_simulates h p pilot x pr e Hd Hi) as Hs.
  cbn -[Transition abs_Transition]. unfold mbind, gom_bind.
  destruct (Transition h p pilot x e) as [[[[x' pl] er]|w] e1], (abs_Transition h p pilot pr e) as [[[[pr' pl'] er']|w'] e2];
    try done.
  destruct Hs as (Hi' & <- & <- & <-). specialize (IH e1 x' pr' Hi').
  destruct (transitions (Transition h) calls x' e1) as [[[x2 rs]|w] e3],
    (transitions (abs_Transition h) calls pr' e1) as [[[pr2 rs']|w'] e4]; try done.
  destruct IH as (? & <- & <-). done.
Qed.
End refinement.

(** A phase whose hooks have all succeeded does nothing more. *)
Lemma Transition_done {E} (h : Hooks E) p pilot x hooks executed e :
  phaseHooks h x p = Some (hooks, executed) → names hooks ⊆ executed →
  Transition h p (Some pilot) x e = (Ret (setExecuted p executed x, Some pilot, None), e).
Proof.
  intros Hp Hsub. unfold Transition. rewrite Hp.
  unfold mbind, gom_bind. rewrite <- (app_nil_r hooks), runHooks_skip by done. done.
Qed.

(** Of two hooks with one name in a phase only the first ever runs. *)
Lemma duplicate_hook_skipped {E} p (a b : Hook E) pilot pilot' e e' :
  hook_Name a = hook_Name b →
  hook_Execute a pilot e = (Ret (pilot', None), e') →
  runHooks p [a; b] ∅ pilot e = (Ret ({[hook_Name a]} ∪ ∅, pilot', None), e').
Proof.
  intros Hab Ha. cbn -[union mbind]. rewrite bool_decide_eq_false_2 by set_solver.
  unfold mbind, gom_bind. rewrite Ha. by rewrite bool_decide_eq_true_2 by set_solver.
Qed.

(** The phase is complete exactly when the loop reports no error. *)
Lemma runHooks_complete {E} p (hooks : list (Hook E)) executed pilot e executed' pilot' err e' :
  runHooks p hooks executed pilot e = (Ret (executed', pilot', err), e') →
  executed ⊆ executed' ∧ executed' ⊆ executed ∪ names hooks ∧
  (err = None → names hooks ⊆ executed').
Proof.
  revert executed pilot e. induction hooks as [|h hooks IH]; intros executed pilot e; cbn -[union mbind].
  - intros [= <- _ <- _]. set_solver.
  - unfold names; cbn -[union]; fold (names hooks). case_bool_decide as Hin.
    + intros (? & ? & Hn)%IH. split_and!; [done|set_solver|]. intros He. specialize (Hn He). set_solver.
    + unfold mbind, gom_bind. destruct (hook_Execute h pilot e) as [[[pl [er|]]|w] e1]; [| |done].
      * intros [= <- _ <- _]. set_solver.
      * intros (? & ? & Hn)%IH. split_and!; [set_solver..|]. intros He. specialize (Hn He). set_solver.
Qed.

(** ** Probes *)

(** A combined check passes exactly when each of its checks passes in the world
    the one before left. *)
Lemma CombineChecks_app {W} (cs ds : list (GoM W (option Err))) w :
  CombineChecks (cs ++ ds) w =
  (err ← CombineChecks cs; match err with Some err => mret (Some err) | None => CombineChecks ds end) w.
Proof.
  revert w. induction cs as [|c cs IH]; intros w; [done|]. simpl.
  unfold mbind, gom_bind in *. destruct (c w) as [[[er|]|why] w']; [done| |done]. apply IH.
Qed.

(** ** Concrete hooks *)

(** The state counts the calls of each hook; [flaky n] fails until it has been
    called more than [n] times. *)
Definition flaky (name : string) (n : nat) : Hook (list string) :=
  mkHook name (λ pilot e,
    let tries := length (List.filter (String.eqb name) e) in
    (Ret (pilot, if decide (tries < n)%nat then Some (Errorf "not ready" []) else None), e ++ [name])).

Definition flakyHooks : Hooks (list string) :=
  mkHooks [flaky "install-plugins" 0; flaky "write-config" 2; flaky "ready" 0] [] [] [].

Definition demoPilot : Pilot :=
  mkPilot (newObjectMeta "demo-0" "default" None None []) (mkPilotStatus [] None None).

Definition flakyRun : outcome (Executed * list (option Pilot * option Err)) * list string :=
  transitions (Transition flakyHooks) (replicate 4 (PreStart, Some demoPilot)) newExecuted [].

Lemma hooks_resume_where_they_failed_witness :
  snd flakyRun = ["install-plugins"; "write-config"; "write-config"; "write-config"; "ready"] ∧
  agree flakyHooks flakyRun
    (transitions (abs_Transition flakyHooks) (replicate 4 (PreStart, Some demoPilot)) newProgress []).
Proof.
  split; [vm_compute; reflexivity|].
  apply (hooks_resume_where_they_failed flakyHooks (replicate 4 (PreStart, Some demoPilot)) []).
  repeat constructor; decide_closed.
Defined.
