(* ===== verification/GenericPilot.v ===== *)
(** * The generic pilot

    pkg/pilot/genericpilot: the supervision of the database process
    (processmanager/process.go), the sync of a Pilot with its deferred parts,
    the shutdown (controller.go, util.go), and Run with what can end it
    (genericpilot.go).

    The implementor supplies hooks, a command, and two sync functions; they
    work on a state [E] of their own and on the [World] of API calls and events
    ([Env E]).  The operating system is not part of the repository: what it
    answers is the record [OS]. *)

From S2P Require Import Prelude GoStrings Semver K8s Types Cluster PilotHooks.
From Stdlib Require Import Ascii.

(** What the functions of an implementor work on. *)
Definition Env (E : Type) : Type := World * E.

(** ** processmanager *)

(** How a process ended: nil for exit status 0. *)
Definition ExitStatus : Type := option Err.

(** os/exec's Cmd: what is run, the process once started ([Pid]), and its state
    once it has been waited for. *)
Record Cmd := mkCmd {
  cmd_Path : string;
  cmd_Args : list string;
  cmd_Env : list string;
  cmd_Process : option Z;
  cmd_ProcessState : option ExitStatus;
}.

(** exec.Command *)
Definition Command (name : string) (args : list string) (env : list string) : Cmd :=
  mkCmd name (name :: args) env None None.

Definition set_Process (pid : Z) (c : Cmd) : Cmd :=
  mkCmd (cmd_Path c) (cmd_Args c) (cmd_Env c) (Some pid) (cmd_ProcessState c).
Definition set_ProcessState (st : ExitStatus) (c : Cmd) : Cmd :=
  mkCmd (cmd_Path c) (cmd_Args c) (cmd_Env c) (cmd_Process c) (Some st).

Record Signals := mkSignals { sig_Stop : option Z }.

(** The adapter of process.go; [ad_doneCh] is true once the channel is closed. *)
Record Process := mkProcess {
  ad_signals : Signals;
  ad_cmd : option Cmd;
  ad_doneCh : bool;
  ad_doneErr : option Err;
}.

(** The operating system: starting a process gives its pid, a signal may fail,
    and waiting gives the status the process ends with. *)
Record OS (W : Type) := mkOS {
  os_start : Cmd → GoM W (Res Z);
  os_signal : Z → option Z → GoM W (option Err);
  os_wait : Z → GoM W ExitStatus;
}.
Arguments mkOS {W} os_start os_signal os_wait.
Arguments os_start {W} o cmd : rename.
Arguments os_signal {W} o pid sig : rename.
Arguments os_wait {W} o pid : rename.

Definition newProcess (cmd : option Cmd) (signals : Signals) : Process :=
  mkProcess signals cmd false None.

Definition set_cmd (c : Cmd) (p : Process) : Process :=
  mkProcess (ad_signals p) (Some c) (ad_doneCh p) (ad_doneErr p).

Definition Process_state (p : Process) : option ExitStatus :=
  match ad_cmd p with
  | None => None
  | Some cmd => cmd_ProcessState cmd
  end.

Definition Running (p : Process) : bool :=
  match ad_cmd p with
  | None => false
  | Some cmd =>
      match cmd_Process cmd with
      | None => false
      | Some pid =>
          if bool_decide (pid = 0) || bool_decide (is_Some (Process_state p)) then false else true
      end
  end.

Definition Process_String (p : Process) : string :=
  if negb (Running p) then "inactive"
  else itoa (default 0 (ad_cmd p ≫= cmd_Process)).

Definition Process_Error (p : Process) : option Err := ad_doneErr p.

(** cmd.Wait returns: the state of the process is known. *)
Definition exited (st : ExitStatus) (p : Process) : Process :=
  match ad_cmd p with
  | None => p
  | Some cmd => set_cmd (set_ProcessState st cmd) p
  end.

(** The rest of startWait: the error is stored and the channel is closed. *)
Definition waitDone (p : Process) : Process :=
  mkProcess (ad_signals p) (ad_cmd p) true (default None (Process_state p)).

Definition startWait (st : ExitStatus) (p : Process) : Process := waitDone (exited st p).

Section process.
Context {W : Type} (os : OS W).

(** os/exec's Cmd.Start: a command is started at most once. *)
Definition Cmd_Start (c : Cmd) : GoM W (Res Cmd) :=
  match cmd_Process c with
  | Some _ => mret (inl (Errorf "exec: already started" []))
  | None =>
      r ← os_start os c;
      match r with
      | inl err => mret (inl err)
      | inr pid => mret (inr (set_Process pid c))
      end
  end.

Definition Process_Start (p : Process) : GoM W (Process * option Err) :=
  cmd ← deref (ad_cmd p);
  r ← Cmd_Start cmd;
  match r with
  | inl err => mret (p, Some (Errorf "error starting process: %s" [AErr err]))
  | inr cmd => mret (set_cmd cmd p, None)
  end.

(** The process is told to stop and waited for; the channel is closed by then. *)
Definition Process_Stop (p : Process) : GoM W (Process * option Err) :=
  if Running p then
    cmd ← deref (ad_cmd p);
    pid ← deref (cmd_Process cmd);
    err ← os_signal os pid (sig_Stop (ad_signals p));
    match err with
    | Some err => mret (p, Some err)
    | None =>
        st ← os_wait os pid;
        let p := startWait st p in
        mret (p, Process_Error p)
    end
  else mret (p, Process_Error p).
End process.

(** ** GenericPilot *)

(** Options, as far as the control loop uses them. *)
Record Options (E : Type) := mkOptions {
  opt_PilotName : string;
  opt_PilotNamespace : string;
  opt_CmdFunc : Pilot → GoM (Env E) (Pilot * Res (option Cmd));
  opt_Signals : Signals;
  opt_Hooks : Hooks (Env E);
  opt_SyncFunc : Pilot → GoM (Env E) (Pilot * option Err);
  opt_LeaderElectedSyncFunc : option (Pilot → GoM (Env E) (Pilot * option Err));
}.
Arguments mkOptions {E}.
Arguments opt_PilotName {E} o : rename.
Arguments opt_PilotNamespace {E} o : rename.
Arguments opt_CmdFunc {E} o : rename.
Arguments opt_Signals {E} o : rename.
Arguments opt_Hooks {E} o : rename.
Arguments opt_SyncFunc {E} o : rename.
Arguments opt_LeaderElectedSyncFunc {E} o : rename.

(** The fields of GenericPilot that change: the executed maps of its hooks, the
    process, the shutdown flag, and the elector's leading flag. *)
Record GenericPilot := mkGenericPilot {
  gp_executed : Executed;
  gp_process : option Process;
  gp_shutdown : bool;
  gp_leading : bool;
}.

Definition newGenericPilot : GenericPilot := mkGenericPilot newExecuted None false false.

Definition set_executed (x : Executed) (g : GenericPilot) : GenericPilot :=
  mkGenericPilot x (gp_process g) (gp_shutdown g) (gp_leading g).
Definition set_process (p : Process) (g : GenericPilot) : GenericPilot :=
  mkGenericPilot (gp_executed g) (Some p) (gp_shutdown g) (gp_leading g).
Definition set_shutdown (g : GenericPilot) : GenericPilot :=
  mkGenericPilot (gp_executed g) (gp_process g) true (gp_leading g).
(** startLeading and stopLeading of the elector *)
Definition set_leading (leading : bool) (g : GenericPilot) : GenericPilot :=
  mkGenericPilot (gp_executed g) (gp_process g) (gp_shutdown g) leading.

Definition IsRunning (g : GenericPilot) : bool :=
  match gp_process g with
  | None => false
  | Some p => if negb (Running p) then false else true
  end.

Definition ErrExecHook : string := "ErrExecHook".
Definition ReasonProcessStarted : string := "ProcessStarted".
Definition MessageErrExecHook : string := "Error executing hook: %s".
Definition MessageProcessStarted : string := "Subprocess %q started".

(** fmt.Sprintf with %q of a text that needs no escapes *)
Definition quoted (s : string) : string := String "034"%char (s +:+ String "034"%char "").

Section generic_pilot.
Context {E : Type} (os : OS (Env E)) (s : State) (opts : Options E).

(** A pilot runs on its own fields and on the environment. *)
Definition PW : Type := GenericPilot * Env E.

Definition in_env {A} (m : GoM (Env E) A) : GoM PW A := λ '(g, env),
  let '(o, env) := m env in (o, (g, env)).
Definition in_world {A} (m : GoM World A) : GoM PW A := λ '(g, (w, e)),
  let '(o, w) := m w in (o, (g, (w, e))).
Definition get_gp : GoM PW GenericPilot := λ pw, (Ret (fst pw), pw).
Definition modify_gp (f : GenericPilot → GenericPilot) : GoM PW () := λ '(g, env), (Ret (), (f g, env)).

Definition isThisPilot (name namespace : string) : bool :=
  bool_decide (name = opt_PilotName opts) && bool_decide (namespace = opt_PilotNamespace opts).
Definition IsThisPilot (pilot : Pilot) : bool := isThisPilot (pil_Name pilot) (pil_Namespace pilot).

(** A transition of the pilot's hooks, with the event that reports a failure. *)
Definition transition (p : Phase) (pilot : Pilot) : GoM PW (Pilot * option Err) :=
  g ← get_gp;
  '(x, pilot', err) ← in_env (Transition (opt_Hooks opts) p (Some pilot) (gp_executed g));
  modify_gp (set_executed x) ;;
  let pilot := default pilot pilot' in
  match err with
  | Some e =>
      in_world (eventf (pil_Meta pilot) EventTypeWarning ErrExecHook MessageErrExecHook [AErr e]) ;;
      mret (pilot, Some e)
  | None => mret (pilot, None)
  end.

Definition constructProcess (pilot : Pilot) : GoM PW (Pilot * option Err) :=
  '(pilot, r) ← in_env (opt_CmdFunc opts pilot);
  match r with
  | inl err => mret (pilot, Some err)
  | inr cmd => modify_gp (set_process (newProcess cmd (opt_Signals opts))) ;; mret (pilot, None)
  end.

(** Starting the process unless it runs or the pilot is shutting down. *)
Definition startProcess (pilot : Pilot) : GoM PW (option Err) :=
  g ← get_gp;
  if negb (IsRunning g) && negb (gp_shutdown g) then
    p ← deref (gp_process g);
    '(p, err) ← in_env (Process_Start os p);
    modify_gp (set_process p) ;;
    match err with
    | Some err => mret (Some err)
    | None =>
        in_world (eventf (pil_Meta pilot) EventTypeNormal ReasonProcessStarted MessageProcessStarted
                    [AStr (Process_String p)]) ;;
        mret None
    end
  else mret None.

(** The body of syncPilot after the deferred calls are set up. *)
Definition syncBody (pilot : Pilot) : GoM PW (Pilot * option Err) :=
  if negb (IsThisPilot pilot) then mret (pilot, None)
  else
    '(pilot, err) ← transition PreStart pilot;
    match err with
    | Some err => mret (pilot, Some err)
    | None =>
        g ← get_gp;
        '(pilot, err) ←
          match gp_process g with
          | None => constructProcess pilot
          | Some _ => mret (pilot, None)
          end;
        match err with
        | Some err => mret (pilot, Some err)
        | None =>
            err ← startProcess pilot;
            match err with
            | Some err => mret (pilot, Some err)
            | None =>
                '(pilot, err) ← transition PostStart pilot;
                match err with
                | Some err => mret (pilot, Some err)
                | None => in_env (opt_SyncFunc opts pilot)
                end
            end
        end
    end.

(** The deferred leader-elected sync, which runs first. *)
Definition leaderSync (pilot : Pilot) (err : option Err) : GoM PW (Pilot * option Err) :=
  g ← get_gp;
  match opt_LeaderElectedSyncFunc opts with
  | Some f =>
      if gp_leading g then
        '(pilot, err') ← in_env (f pilot);
        mret (pilot, NewAggregate [err; err'])
      else mret (pilot, err)
  | None => mret (pilot, err)
  end.

(** The Started condition the pilot reports. *)
Definition startedConditions (g : GenericPilot) (conds : list PilotCondition) : list PilotCondition :=
  if negb (IsRunning g) then
    Pilot_UpdateStatusCondition (Now s) conds PilotConditionStarted ConditionFalse "" ""
  else
    Pilot_UpdateStatusCondition (Now s) conds PilotConditionStarted ConditionTrue ReasonProcessStarted
      ("Subprocess " +:+ quoted (default "" (Process_String <$> gp_process g)) +:+ " started").

Definition set_Conditions (conds : list PilotCondition) (pilot : Pilot) : Pilot :=
  mkPilot (pil_Meta pilot)
    (mkPilotStatus conds (pst_Elasticsearch (pil_Status pilot)) (pst_Cassandra (pil_Status pilot))).

Definition updatePilotStatus (pilot : Pilot) : GoM PW (Pilot * option Err) :=
  g ← get_gp;
  let pilot := set_Conditions (startedConditions g (pst_Conditions (pil_Status pilot))) pilot in
  err ← in_world (api_call s (UpdatePilotStatus (pil_Namespace pilot) pilot));
  mret (pilot, err).

(** The deferred status update, which runs last. *)
Definition statusUpdate (pilot : Pilot) (err : option Err) : GoM PW (Pilot * option Err) :=
  if IsThisPilot pilot then
    '(pilot, err') ← updatePilotStatus pilot;
    mret (pilot, NewAggregate [err; err'])
  else mret (pilot, err).

(** The sync as it runs when nothing else moves; PilotConcurrent has its single steps, of which this
    is the uninterrupted run (run_syncPilotProg). *)
Definition syncPilot (pilot : Pilot) : GoM PW (Pilot * option Err) :=
  '(pilot, err) ← syncBody pilot;
  '(pilot, err) ← leaderSync pilot err;
  statusUpdate pilot err.

(** The same of the shutdown, which does not take the lock of the sync (run_stopProg). *)
Definition stop (pilot : Pilot) : GoM PW (option Err) :=
  modify_gp set_shutdown ;;
  g ← get_gp;
  if negb (IsRunning g) then mret None
  else
    '(pilot, err) ← transition PreStop pilot;
    match err with
    | Some err => mret (Some err)
    | None =>
        g ← get_gp;
        p ← deref (gp_process g);
        '(p, err) ← in_env (Process_Stop os p);
        modify_gp (set_process p) ;;
        match err with
        | Some err => mret (Some err)
        | None =>
            '(pilot, err) ← transition PostStop pilot;
            match err with
            | Some err => mret (Some err)
            | None => mret None
            end
        end
    end.

(** What ends the wait of Run. *)
Inductive RunEvent :=
| StopSignal
| ProcessExited
| ControllerExited (err : option Err)
| ElectorExited (err : option Err).

(** Run, from the event on: [thisPilot] is what the controller's ThisPilot
    returns.  The error that ended the wait is only logged. *)
Definition Run (ev : RunEvent) (thisPilot : Res Pilot) : GoM PW (option Err) :=
  g ← get_gp;
  err ← match ev with
        | StopSignal => mret None
        | ProcessExited => p ← deref (gp_process g); mret (Process_Error p)
        | ControllerExited err => mret err
        | ElectorExited err => mret err
        end;
  match thisPilot with
  | inl err => mret (Some err)
  | inr pilot => stop pilot
  end.
End generic_pilot.
