(* ===== verification/GenericPilotFacts.v ===== *)
(** * What the generic pilot guarantees

    The invariant [pilot_inv] of the pilot's life, the relation [later] between
    its states, the effect of each operation on both, what a sync reports, and
    how Run ends.  PilotConcurrent proves the invariant of the pilot with its
    syncs, its shutdown and its process running at the same time. *)

From S2P Require Import Prelude GoStrings Semver K8s Types CassandraVersion Cluster Fixtures PilotHooks GenericPilot.

(** ** Phases *)

Definition phases : list Phase := [PreStart; PostStart; PreStop; PostStop].

(** The hooks of a phase that have succeeded. *)
Definition executedIn (x : Executed) (p : Phase) : gset string :=
  if bool_decide (p = PreStart) then default ∅ (executedPreStart x)
  else if bool_decide (p = PostStart) then default ∅ (executedPostStart x)
  else if bool_decide (p = PreStop) then default ∅ (executedPreStop x)
  else default ∅ (executedPostStop x).

Lemma phases_cases p : p ∈ phases ↔ p = PreStart ∨ p = PostStart ∨ p = PreStop ∨ p = PostStop.
Proof. unfold phases. rewrite !elem_of_cons, elem_of_nil. tauto. Qed.

Lemma executedIn_set p q s x :
  p ∈ phases → q ∈ phases →
  executedIn (setExecuted p s x) q = if bool_decide (p = q) then s else executedIn x q.
Proof.
  intros Hp%phases_cases Hq%phases_cases. destruct x. unfold executedIn, setExecuted.
  destruct Hp as [->|[->|[->| ->]]], Hq as [->|[->|[->| ->]]]; reflexivity.
Qed.

Lemma phaseHooks_executed {E} (h : Hooks E) x p hooks executed :
  phaseHooks h x p = Some (hooks, executed) → p ∈ phases ∧ executed = executedIn x p.
Proof.
  rewrite phases_cases. unfold phaseHooks, executedIn. intros Hp.
  repeat case_bool_decide; simplify_eq; tauto.
Qed.

(** What a transition does to the executed maps. *)
Lemma Transition_executed {E} (h : Hooks E) p pilot x e x' pilot' err e' hooks executed :
  phaseHooks h x p = Some (hooks, executed) →
  Transition h p (Some pilot) x e = (Ret (x', pilot', err), e') →
  (∀ q, q ∈ phases → q ≠ p → executedIn x' q = executedIn x q) ∧
  executedIn x p ⊆ executedIn x' p ∧ (err = None → names hooks ⊆ executedIn x' p).
Proof.
  intros Hp. unfold Transition. rewrite Hp. intros Hrun.
  apply gom_bind_inv in Hrun as ([[executed' pl] er] & e1 & Hrun & [= <- <- <- <-]).
  apply runHooks_complete in Hrun as (Hle & _ & Hall).
  destruct (phaseHooks_executed _ _ _ _ _ Hp) as [Hin ->]. split_and!.
  - intros q Hq Hne. rewrite executedIn_set by done. by rewrite bool_decide_eq_false_2.
  - rewrite executedIn_set by done. by rewrite bool_decide_eq_true_2.
  - rewrite executedIn_set by done. by rewrite bool_decide_eq_true_2.
Qed.

(** ** Process facts *)

Definition Started (p : Process) : Prop := is_Some (ad_cmd p ≫= cmd_Process).

(** A process that has ended was started; the channel is closed only after the
    end, and carries its error. *)
Definition process_ok (p : Process) : Prop :=
  (is_Some (Process_state p) → Started p) ∧
  (ad_doneCh p = true → is_Some (Process_state p)) ∧
  Process_Error p = if ad_doneCh p then default None (Process_state p) else None.

Lemma Running_spec p :
  Running p = true ↔ ∃ c pid, ad_cmd p = Some c ∧ cmd_Process c = Some pid ∧ pid ≠ 0 ∧ Process_state p = None.
Proof.
  unfold Running. destruct (ad_cmd p) as [c|]; [|naive_solver].
  destruct (cmd_Process c) as [pid|] eqn:Hc; [|naive_solver].
  destruct (Process_state p) as [st|] eqn:Hst.
  - rewrite (bool_decide_eq_true_2 (is_Some _)), orb_true_r by eauto. naive_solver.
  - rewrite (bool_decide_eq_false_2 (is_Some None)), orb_false_r by (by intros [? ?]).
    case_bool_decide; naive_solver.
Qed.

Lemma exited_state st p : Started p → Process_state (exited st p) = Some st.
Proof. unfold Started, exited, Process_state. destruct (ad_cmd p) as [c|]; [done|]. by intros [? ?]. Qed.

Lemma exited_Started st p : Started (exited st p) ↔ Started p.
Proof. unfold Started, exited. destruct (ad_cmd p) as [c|] eqn:Hc; [done|]. by rewrite Hc. Qed.

Lemma Started_running p : Running p = true → Started p.
Proof. rewrite Running_spec. intros (c & pid & Hc & Hp & _). unfold Started. rewrite Hc. simpl. rewrite Hp. eauto. Qed.

Lemma exited_ok st p : process_ok p → Running p = true → process_ok (exited st p).
Proof.
  intros (_ & Hd & He) Hr. pose proof (Started_running _ Hr) as Hs.
  apply Running_spec in Hr as (c & pid & Hc & Hp & Hne & Hst). unfold process_ok.
  rewrite exited_Started, exited_state by done. split_and!; [done|eauto|].
  unfold exited in *. rewrite Hc in *. cbn in *. destruct (ad_doneCh p) eqn:Hdone; [|done].
  rewrite Hst in Hd. by destruct (Hd eq_refl).
Qed.

Lemma waitDone_ok p : process_ok p → is_Some (Process_state p) → process_ok (waitDone p).
Proof. intros (Hs & _ & _) Hst. by split_and!; [apply Hs| |]. Qed.

(** ** The environment *)

Section environment.
Context {E : Type}.

(** The implementor's functions and the API leave the fields alone. *)
Lemma in_env_inv {A} (m : GoM (Env E) A) g env a g' env' :
  in_env m (g, env) = (Ret a, (g', env')) → g' = g ∧ m env = (Ret a, env').
Proof. simpl. destruct (m env) as [o env1]. by intros [= -> -> ->]. Qed.

Lemma in_world_inv {A} (m : GoM World A) g (env : Env E) a g' env' :
  in_world m (g, env) = (Ret a, (g', env')) → g' = g.
Proof. destruct env as [w e]. simpl. destruct (m w) as [o w1]. by intros; simplify_eq. Qed.

End environment.

(** ** The invariant *)

Section invariant.
Context {E : Type} (os : OS (Env E)) (s : State) (opts : Options E).

(** What the pilot relies on: a command is handed over before it is started. *)
Class LawfulOptions : Prop := fresh_command pilot env pilot' cmd env' :
  opt_CmdFunc opts pilot env = (Ret (pilot', inr (Some cmd)), env') →
  cmd_Process cmd = None ∧ cmd_ProcessState cmd = None.

Notation done g p := (executedIn (gp_executed g) p).

Definition has_started (g : GenericPilot) : Prop :=
  ∃ p, gp_process g = Some p ∧ Started p.

Definition ended (g : GenericPilot) : Prop :=
  ∃ p, gp_process g = Some p ∧ Started p ∧ is_Some (Process_state p).

Record pilot_inv (g : GenericPilot) : Prop := {
  (** there is a process only after all PreStart hooks *)
  inv_prestart : is_Some (gp_process g) → names (hs_PreStart (opt_Hooks opts)) ⊆ done g PreStart;
  (** a PostStart hook has run only if the process was started, or during shutdown *)
  inv_poststart : done g PostStart ≠ ∅ → has_started g ∨ gp_shutdown g = true;
  inv_prestop : done g PreStop ≠ ∅ → gp_shutdown g = true ∧ has_started g;
  (** a PostStop hook has run only after all PreStop hooks and the exit of the process *)
  inv_poststop : done g PostStop ≠ ∅ →
    gp_shutdown g = true ∧ ended g ∧ names (hs_PreStop (opt_Hooks opts)) ⊆ done g PreStop;
  inv_process : ∀ p, gp_process g = Some p → process_ok p;
}.

(** Nothing is lost from one state to a later one: hooks stay executed, a
    started process keeps its pid, an exit status stays, and the shutdown is final. *)
Record later (g g' : GenericPilot) : Prop := {
  later_executed p : p ∈ phases → done g p ⊆ done g' p;
  later_pid p pid : gp_process g = Some p → ad_cmd p ≫= cmd_Process = Some pid →
    ∃ p', gp_process g' = Some p' ∧ ad_cmd p' ≫= cmd_Process = Some pid;
  later_state p st : gp_process g = Some p → Process_state p = Some st →
    ∃ p', gp_process g' = Some p' ∧ Process_state p' = Some st;
  later_process : is_Some (gp_process g) → is_Some (gp_process g');
  later_shutdown : gp_shutdown g = true → gp_shutdown g' = true;
}.

#[export] Instance later_preorder : PreOrder later.
Proof.
  split.
  - intros g. split; eauto.
  - intros g1 g2 g3 [He Hp Hst Hi Hs] [He' Hp' Hst' Hi' Hs'].
    split; [intros p Hin; etrans; [by apply He|by apply He']| | |eauto..].
    + intros p pid H1 H2. destruct (Hp _ _ H1 H2) as (p' & H3 & H4). eauto.
    + intros p st H1 H2. destruct (Hst _ _ H1 H2) as (p' & H3 & H4). eauto.
Qed.

Lemma has_started_later g g' : later g g' → has_started g → has_started g'.
Proof.
  intros Hl (p & Hp & [pid Hpid]). destruct (later_pid _ _ Hl p pid Hp Hpid) as (p' & Hp' & Hpid').
  exists p'. split; [done|]. unfold Started. rewrite Hpid'. eauto.
Qed.

Lemma ended_later g g' : later g g' → ended g → ended g'.
Proof.
  intros Hl (p & Hp & Hs & [st Hst]). destruct (has_started_later g g' Hl) as (p' & Hp' & Hs'); [by exists p|].
  destruct (later_state _ _ Hl p st Hp Hst) as (p2 & Hp2 & Hst2). rewrite Hp' in Hp2. injection Hp2 as <-.
  exists p'. split_and!; eauto.
Qed.

Definition hooksOf (p : Phase) : list (Hook (Env E)) :=
  default [] (fst <$> phaseHooks (opt_Hooks opts) newExecuted p).

(** What must hold for the hooks of a phase to run. *)
Definition may_run (p : Phase) (g : GenericPilot) : Prop :=
  (p = PostStart → has_started g ∨ gp_shutdown g = true) ∧
  (p = PreStop → gp_shutdown g = true ∧ has_started g) ∧
  (p = PostStop → gp_shutdown g = true ∧ ended g ∧
                  names (hs_PreStop (opt_Hooks opts)) ⊆ done g PreStop).

(** The maps after a transition of phase [p]. *)
Definition advanced (p : Phase) (g : GenericPilot) (x : Executed) : Prop :=
  (∀ q, q ∈ phases → q ≠ p → executedIn x q = done g q) ∧ done g p ⊆ executedIn x p.

Lemma advanced_mono p g x q : advanced p g x → q ∈ phases → done g q ⊆ executedIn x q.
Proof.
  intros [Ho Hp] Hq. destruct (decide (q = p)) as [->|Hne]; [done|]. by rewrite Ho.
Qed.

Lemma advanced_later p g x : advanced p g x → later g (set_executed x g).
Proof. intros Ha. split; [|by eauto..]. intros q Hq. by eapply advanced_mono. Qed.

Lemma advanced_inv p g x :
  p ∈ phases → advanced p g x → may_run p g → pilot_inv g → pilot_inv (set_executed x g).
Proof.
  intros Hp Ha (Hpost & Hprestop & Hpoststop) [I1 I2 I3 I4 I5].
  assert (∀ q, q ∈ phases → q ≠ p → executedIn x q = done g q) as Ho by apply Ha.
  assert (∀ q, q ∈ phases → done g q ⊆ executedIn x q) as Hm by (intros; by eapply advanced_mono).
  assert (PreStart ∈ phases ∧ PostStart ∈ phases ∧ PreStop ∈ phases ∧ PostStop ∈ phases) as (P1 & P2 & P3 & P4)
    by (split_and!; rewrite phases_cases; auto).
  split; cbn [set_executed gp_process gp_shutdown gp_executed].
  - intros Hs. etrans; [by apply I1|auto].
  - destruct (decide (PostStart = p)) as [<-|]; [intros _; by apply Hpost|]. rewrite Ho; auto.
  - destruct (decide (PreStop = p)) as [<-|]; [intros _; by apply Hprestop|]. rewrite Ho; auto.
  - intros Hne. assert (gp_shutdown g = true ∧ ended g ∧
        names (hs_PreStop (opt_Hooks opts)) ⊆ done g PreStop) as (? & ? & ?).
    { destruct (decide (PostStop = p)) as [<-|]; [by apply Hpoststop|]. rewrite Ho in Hne; auto. }
    split_and!; [done..|]. etrans; [done|auto].
  - done.
Qed.

Lemma phaseHooks_hooksOf x p :
  p ∈ phases → phaseHooks (opt_Hooks opts) x p = Some (hooksOf p, executedIn x p).
Proof. intros Hp%phases_cases. by destruct Hp as [->|[->|[->| ->]]]. Qed.

Lemma transition_inv p pilot g env pilot' err g' env' :
  p ∈ phases → transition opts p pilot (g, env) = (Ret (pilot', err), (g', env')) →
  ∃ x, g' = set_executed x g ∧ advanced p g x ∧ (err = None → names (hooksOf p) ⊆ executedIn x p).
Proof.
  intros Hp Hrun. unfold transition in Hrun.
  apply gom_bind_inv in Hrun as (g1 & w1 & [= <- <-] & Hrun).
  apply gom_bind_inv in Hrun as ([[x pl] er] & [g2 env2] & [-> Ht]%in_env_inv & Hrun).
  destruct (Transition_executed _ _ _ _ _ _ _ _ _ _ _ (phaseHooks_hooksOf _ _ Hp) Ht) as (Ho & Hmono & Hall).
  apply gom_bind_inv in Hrun as ([] & w3 & [= <-] & Hrun). exists x.
  destruct er as [er|]; [|by injection Hrun as _ <- <- _].
  by apply gom_bind_inv in Hrun as ([] & [g4 env4] & ->%in_world_inv & [= _ <- <- _]).
Qed.

(** What a change of the process must keep. *)
Definition process_kept (p0 : option Process) (p : Process) : Prop :=
  ∀ p1, p0 = Some p1 →
    (∀ pid, ad_cmd p1 ≫= cmd_Process = Some pid → ad_cmd p ≫= cmd_Process = Some pid) ∧
    (∀ st, Process_state p1 = Some st → Process_state p = Some st).

Lemma process_kept_later g p : process_kept (gp_process g) p → later g (set_process p g).
Proof.
  intros Hkeep. split; simpl; [done|..|done|done].
  - intros p0 pid H0 Hpid. exists p. split; [done|]. by apply (Hkeep p0).
  - intros p0 st H0 Hst. exists p. split; [done|]. by apply (Hkeep p0).
Qed.

(** A step that only replaces the process. *)
Lemma process_kept_inv g p :
  pilot_inv g → names (hs_PreStart (opt_Hooks opts)) ⊆ done g PreStart → process_ok p → process_kept (gp_process g) p →
  pilot_inv (set_process p g).
Proof.
  intros [I1 I2 I3 I4 I5] Hpre Hok Hkeep%process_kept_later.
  split; cbn [set_process gp_process gp_executed gp_shutdown].
  - done.
  - intros H. destruct (I2 H); eauto using has_started_later.
  - intros H. destruct (I3 H); eauto using has_started_later.
  - intros H. destruct (I4 H) as (? & ? & ?). eauto using ended_later.
  - by intros p' [= <-].
Qed.

Lemma newProcess_ok cmd : (∀ c, cmd = Some c → cmd_Process c = None ∧ cmd_ProcessState c = None) →
  process_ok (newProcess cmd (opt_Signals opts)) ∧ Running (newProcess cmd (opt_Signals opts)) = false.
Proof.
  intros Hc. unfold process_ok, Running, Process_state, newProcess; simpl.
  destruct cmd as [c|]; [|by split_and!; [intros [? ?]| | |]].
  destruct (Hc c eq_refl) as [-> ->]. by split_and!; [intros [? ?]| | |].
Qed.

Lemma new_process_inv `{!LawfulOptions} pilot env pilot' cmd env' g :
  opt_CmdFunc opts pilot env = (Ret (pilot', inr cmd), env') →
  pilot_inv g → names (hs_PreStart (opt_Hooks opts)) ⊆ done g PreStart → gp_process g = None →
  pilot_inv (set_process (newProcess cmd (opt_Signals opts)) g).
Proof.
  intros Hcmd Hi Hpre Hnone. destruct (newProcess_ok cmd) as [Hnew _].
  { intros c ->. by eapply fresh_command. }
  apply process_kept_inv; [done..|]. by rewrite Hnone.
Qed.

Lemma Process_Start_inv p env p' err env' :
  Process_Start os p env = (Ret (p', err), env') →
  (err ≠ None ∧ p' = p) ∨
  (err = None ∧ ∃ c pid, ad_cmd p = Some c ∧ cmd_Process c = None ∧ p' = set_cmd (set_Process pid c) p).
Proof.
  unfold Process_Start. intros Hrun.
  apply gom_bind_inv in Hrun as (c & w1 & Hc & Hrun).
  destruct (ad_cmd p) as [c0|]; [|done]. injection Hc as -> <-.
  apply gom_bind_inv in Hrun as (r & w2 & Hr & Hrun). unfold Cmd_Start in Hr.
  destruct (cmd_Process c) as [pid|] eqn:Hp.
  { injection Hr as <- <-. injection Hrun as <- <- _. by left. }
  apply gom_bind_inv in Hr as ([e|pid] & w3 & Hs & Hr); injection Hr as <- <-; injection Hrun as <- <- _.
  - by left.
  - right. split; [done|]. by exists c, pid.
Qed.

(** Starting keeps what there was, and on success the process is started. *)
Lemma Process_Start_kept p env p' err env' :
  Process_Start os p env = (Ret (p', err), env') → process_ok p →
  process_ok p' ∧ process_kept (Some p) p' ∧ (err = None → Started p').
Proof.
  intros [[Hne ->]|(-> & c & pid & Hc & Hnone & ->)]%Process_Start_inv Hok.
  { split_and!; [done|by intros ? [= <-]|done]. }
  assert (Started (set_cmd (set_Process pid c) p)) as Hst by (unfold Started; simpl; eauto).
  destruct Hok as (_ & H2 & H3). unfold process_ok, process_kept, Process_state in *. rewrite Hc in H2, H3. simpl.
  split_and!; try done. intros p1 [= <-]. rewrite Hc. simpl. by rewrite Hnone.
Qed.

Lemma may_run_PreStart g : may_run PreStart g.
Proof. by split_and!. Qed.

Lemma may_run_PostStart g : has_started g ∨ gp_shutdown g = true → may_run PostStart g.
Proof. intros H. by split_and!. Qed.

Lemma may_run_PreStop g : gp_shutdown g = true → has_started g → may_run PreStop g.
Proof. intros ? ?. by split_and!. Qed.

Lemma may_run_later p g g' : later g g' → may_run p g → may_run p g'.
Proof.
  intros Hl (H1 & H2 & H3). split_and!; intros Hp.
  - destruct (H1 Hp); [left; by eapply has_started_later|right; by eapply later_shutdown].
  - destruct (H2 Hp). split; [by eapply later_shutdown|by eapply has_started_later].
  - destruct (H3 Hp) as (? & ? & ?). split_and!; [by eapply later_shutdown|by eapply ended_later|].
    etrans; [done|]. apply (later_executed _ _ Hl). rewrite phases_cases. auto.
Qed.

Lemma shutdown_later g : later g (set_shutdown g).
Proof. split; simpl; eauto. Qed.

Lemma shutdown_inv g : pilot_inv g → pilot_inv (set_shutdown g).
Proof.
  intros [I1 I2 I3 I4 I5].
  split; simpl; try done; [auto|intros H; by destruct (I3 H)|intros H; by destruct (I4 H) as (_ & ? & ?)].
Qed.

Lemma exited_cmd st p : ad_cmd (exited st p) ≫= cmd_Process = ad_cmd p ≫= cmd_Process.
Proof. unfold exited. by destruct (ad_cmd p) as [c|] eqn:Hc; simpl; rewrite ?Hc. Qed.

(** The process ends, and its wait is over. *)
Lemma exited_kept st p : process_ok p → Running p = true → process_ok (exited st p) ∧ process_kept (Some p) (exited st p).
Proof.
  intros Hok Hr. split; [by apply exited_ok|]. intros p1 [= <-]. split; [by intros pid; rewrite exited_cmd|].
  apply Running_spec in Hr as (? & ? & _ & _ & _ & ?). congruence.
Qed.

Lemma waitDone_kept p : process_ok p → is_Some (Process_state p) → process_ok (waitDone p) ∧ process_kept (Some p) (waitDone p).
Proof. intros Hok Hst. split; [by apply waitDone_ok|]. by intros p1 [= <-]. Qed.

Lemma exited_not_running st p : Running p = true → Running (exited st p) = false.
Proof.
  intros Hr. destruct (Running (exited st p)) eqn:Hr'; [|done]. apply Running_spec in Hr' as (? & ? & _ & _ & _ & Hn).
  rewrite exited_state in Hn; [done|by apply Started_running].
Qed.

Lemma inv_new : pilot_inv newGenericPilot.
Proof. split; try done. by intros [? ?]. Qed.

(** ** What a sync reports *)

(** The pids of started processes are not 0. *)
Class LawfulOS : Prop := started_pid cmd env pid env' :
  os_start os cmd env = (Ret (inr pid), env') → pid ≠ 0.

(** The start of the pilot is complete. *)
Definition up (g : GenericPilot) : Prop :=
  names (hs_PreStart (opt_Hooks opts)) ⊆ done g PreStart ∧
  names (hs_PostStart (opt_Hooks opts)) ⊆ done g PostStart ∧
  (IsRunning g = true ∨ gp_shutdown g = true).

Lemma startProcess_running `{!LawfulOS} pilot g env g' env' :
  (∀ p, gp_process g = Some p → process_ok p) →
  startProcess os pilot (g, env) = (Ret None, (g', env')) →
  gp_executed g' = gp_executed g ∧ (IsRunning g' = true ∨ gp_shutdown g' = true).
Proof.
  intros Hok Hrun. unfold startProcess in Hrun.
  apply gom_bind_inv in Hrun as (g1 & w1 & [= <- <-] & Hrun).
  destruct (IsRunning g) eqn:Hr; simpl in Hrun; [injection Hrun as <- _; auto|].
  destruct (gp_shutdown g) eqn:Hsd; simpl in Hrun; [injection Hrun as <- _; auto|].
  apply gom_bind_inv in Hrun as (p & w2 & Hd & Hrun).
  destruct (gp_process g) as [p0|] eqn:Hp; [|done]. injection Hd as <- <-.
  apply gom_bind_inv in Hrun as ([p2 er] & [g2 env2] & [-> Hst]%in_env_inv & Hrun).
  apply gom_bind_inv in Hrun as ([] & w3 & [= <-] & Hrun).
  destruct er as [er|]; [done|].
  apply gom_bind_inv in Hrun as ([] & [g4 env4] & ->%in_world_inv & [= <- _]). split; [done|]. left.
  destruct (Hok p0 eq_refl) as (Hstate & _ & _).
  unfold Process_Start in Hst. apply gom_bind_inv in Hst as (c & w1 & Hc & Hst).
  destruct (ad_cmd p0) as [c0|] eqn:Hc0; [|done]. injection Hc as -> <-.
  apply gom_bind_inv in Hst as (r & w2 & Hcs & Hst). unfold Cmd_Start in Hcs.
  destruct (cmd_Process c) as [pid|] eqn:Hpid; [by injection Hcs as <- _|].
  apply gom_bind_inv in Hcs as ([e|pid] & w4 & Hos & [= <- _]); [done|]. injection Hst as <- _.
  unfold IsRunning; simpl. replace (Running _) with true; [done|]. symmetry. apply Running_spec.
  exists (set_Process pid c), pid. split_and!; [done..|by eapply started_pid|].
  unfold Process_state in *. rewrite Hc0 in Hstate. simpl. destruct (cmd_ProcessState c) as [st|]; [|done].
  destruct (Hstate ltac:(eauto)) as [? Hx]. rewrite Hc0 in Hx. simpl in Hx. congruence.
Qed.

Lemma syncBody_up `{!LawfulOptions, !LawfulOS} pilot g env pilot' g' env' :
  pilot_inv g → IsThisPilot opts pilot = true →
  syncBody os opts pilot (g, env) = (Ret (pilot', None), (g', env')) → up g'.
Proof.
  intros Hi Hthis Hrun. unfold syncBody in Hrun. rewrite Hthis in Hrun. simpl in Hrun.
  assert (PreStart ∈ phases ∧ PostStart ∈ phases) as [P1 P2] by (rewrite !phases_cases; tauto).
  apply gom_bind_inv in Hrun as ([pl1 [e|]] & [g1 env1] & Ht & Hrun); [done|].
  apply transition_inv in Ht as (x1 & -> & Ha1 & Hall1); [|done]. specialize (Hall1 eq_refl).
  pose proof (advanced_inv _ _ _ P1 Ha1 (may_run_PreStart g) Hi) as Hi1.
  set (g1 := set_executed x1 g) in *.
  apply gom_bind_inv in Hrun as (g1' & w1 & [= <- <-] & Hrun).
  apply gom_bind_inv in Hrun as ([pl2 [e|]] & [g2 env2] & Hc & Hrun); [done|].
  assert (pilot_inv g2 ∧ gp_executed g2 = gp_executed g1) as [Hi2 Hx2].
  { destruct (gp_process g1) eqn:Hp; [by injection Hc as _ <- _|].
    apply gom_bind_inv in Hc as ([pl [e|cmd]] & [g3 env3] & [-> Hcmd]%in_env_inv & Hc); [done|].
    apply gom_bind_inv in Hc as ([] & w & [= <-] & [= _ <- _]). split; [by eapply new_process_inv|done]. }
  apply gom_bind_inv in Hrun as ([e|] & [g3 env3] & Hst & Hrun); [done|].
  apply startProcess_running in Hst as [Hx3 Hr3]; [|apply Hi2].
  apply gom_bind_inv in Hrun as ([pl4 [e|]] & [g4 env4] & Ht & Hrun); [done|].
  apply transition_inv in Ht as (x4 & -> & Ha4 & Hall4); [|done].
  apply in_env_inv in Hrun as [-> _]. split_and!; [|by apply Hall4|done].
  cbn [set_executed gp_executed]. rewrite (proj1 Ha4 PreStart) by done. by rewrite Hx3, Hx2.
Qed.

(** The status of the first Started condition. *)
Definition reportedStarted (conds : list PilotCondition) : option string :=
  pc_Status <$> head (List.filter (λ c, bool_decide (pc_Type c = PilotConditionStarted)) conds).

Lemma replacePilotCondition_reported t new conds :
  pc_Type new = PilotConditionStarted →
  reportedStarted (replacePilotCondition t new conds) =
  (λ _, pc_Status new) <$> reportedStarted conds.
Proof.
  intros Hty. unfold reportedStarted. induction conds as [|c conds IH]; [done|]. simpl. rewrite Hty.
  case_bool_decide as Hc; simpl; rewrite ?Hty.
  - done.
  - by rewrite ?bool_decide_eq_false_2 by done.
Qed.

(** The condition says whether the process runs, unless there are conditions
    but none of this type. *)
Lemma startedConditions_reported g conds :
  reportedStarted (startedConditions s g conds) =
    Some (if IsRunning g then ConditionTrue else ConditionFalse) ∨
  (conds ≠ [] ∧ reportedStarted (startedConditions s g conds) = None).
Proof.
  unfold startedConditions, Pilot_UpdateStatusCondition.
  destruct conds as [|c conds]; [left; by destruct (IsRunning g)|].
  destruct (IsRunning g); cbn [negb]; rewrite replacePilotCondition_reported by done;
    (destruct (reportedStarted (c :: conds)); [by left|by right]).
Qed.

(** A sync of its own pilot that does not panic has as its last effect one status update of
    that pilot, made whatever failed before, and returns an error when that update fails; a
    Started condition in it says whether the process runs, and nil is returned only when all
    start hooks have run and the process runs or the pilot shuts down. *)
Theorem pilot_sync_reports `{!LawfulOptions, !LawfulOS} pilot g w e pilot' err g' w' e' :
  pilot_inv g → IsThisPilot opts pilot = true → IsThisPilot opts pilot' = true →
  syncPilot os s opts pilot (g, (w, e)) = (Ret (pilot', err), (g', (w', e'))) →
  (∃ w0, w' = log_effect (EffCall (UpdatePilotStatus (pil_Namespace pilot') pilot')) w0 ∧
     (Clientset s (w_log w0) (UpdatePilotStatus (pil_Namespace pilot') pilot') ≠ None → err ≠ None)) ∧
  reportedStarted (pst_Conditions (pil_Status pilot')) ∈
    [Some (if IsRunning g' then ConditionTrue else ConditionFalse); None] ∧
  (err = None → up g').
Proof.
  intros Hi Hthis Hthis' Hrun. unfold syncPilot in Hrun.
  apply gom_bind_inv in Hrun as ([pl1 e1] & [g1 env1] & Hbody & Hrun).
  apply gom_bind_inv in Hrun as ([pl2 e2] & [g2 env2] & Hlead & Hrun).
  assert (g2 = g1 ∧ (e2 = None → e1 = None)) as [-> He].
  { unfold leaderSync in Hlead. apply gom_bind_inv in Hlead as (g3 & w3 & [= <- <-] & Hlead).
    destruct (opt_LeaderElectedSyncFunc opts) as [f|]; [|by injection Hlead as _ <- -> _].
    destruct (gp_leading g1); [|by injection Hlead as _ <- -> _].
    apply gom_bind_inv in Hlead as ([pl3 e3] & [g4 env4] & [-> _]%in_env_inv & [= _ <- -> _]).
    split; [done|]. by intros [? _]%NewAggregate_None%Forall_cons. }
  unfold statusUpdate in Hrun.
  assert (pil_Meta pilot' = pil_Meta pl2) as Hmeta.
  { destruct (IsThisPilot opts pl2); [|by injection Hrun as <- _ _ _].
    apply gom_bind_inv in Hrun as ([pl5 e5] & w5 & Hup & [= <- _ _]).
    apply gom_bind_inv in Hup as (g6 & w6 & _ & Hup).
    by apply gom_bind_inv in Hup as (e7 & w7 & _ & [= <- _ _]). }
  assert (IsThisPilot opts pl2 = true) as Hpl2.
  { unfold IsThisPilot, pil_Name, pil_Namespace in *. by rewrite <- Hmeta. }
  rewrite Hpl2 in Hrun.
  apply gom_bind_inv in Hrun as ([pl5 e5] & [g5 env5] & Hup & Hrun).
  injection Hrun as <- <- -> ->. unfold updatePilotStatus in Hup.
  apply gom_bind_inv in Hup as (g6 & w6 & [= <- <-] & Hup).
  apply gom_bind_inv in Hup as (e7 & [g7 env7] & Hcall & [= <- <- <- ->]).
  destruct env2 as [w2 e2']. unfold in_world, api_call in Hcall. injection Hcall as <- <- <- <-.
  split_and!; [exists w2; split; [done|]|..].
  - intros Hne Hagg%NewAggregate_None. apply Forall_cons in Hagg as [_ [Hn _]%Forall_cons]. exact (Hne Hn).
  - rewrite !elem_of_cons. simpl.
    destruct (startedConditions_reported g1 (pst_Conditions (pil_Status pl2))) as [|[_ ?]]; auto.
  - intros Hagg%NewAggregate_None. apply Forall_cons in Hagg as [Hn _]. specialize (He Hn). subst e1. exact (syncBody_up _ _ _ _ _ _ Hi Hthis Hbody).
Qed.

End invariant.

(** ** Shutdown *)

Section shutdown.
Context {E : Type} (os : OS (Env E)) (s : State) (opts : Options E).

(** Run returns nil when the process ended with an error: the error is overwritten
    by the lookup of the pilot. *)
Theorem failed_process_exit_is_lost (pilot : Pilot) (p : Process) (g : GenericPilot) (env : Env E) (e : Err) :
  gp_process g = Some p → Started p → Process_state p = None → ad_doneCh p = false →
  let g' := set_process (startWait (Some e) p) g in
  Process_Error (startWait (Some e) p) = Some e ∧
  Run os opts ProcessExited (inr pilot) (g', env) = (Ret None, (set_shutdown g', env)).
Proof.
  intros Hp Hs Hst Hd g'.
  assert (Process_state (startWait (Some e) p) = Some (Some e)) as Hst' by (by apply exited_state).
  split.
  - unfold Process_Error, startWait, waitDone. simpl. by rewrite exited_state.
  - unfold Run. unfold mbind, gom_bind; simpl. unfold stop, mbind, gom_bind; simpl.
    replace (IsRunning (set_shutdown g')) with false; [done|].
    unfold IsRunning; simpl. destruct (Running (startWait (Some e) p)) eqn:Hr; [|done].
    apply Running_spec in Hr as (? & ? & _ & _ & _ & ?). congruence.
Qed.

(** When the process reports an error at its end, as one that a signal ends
    does, stop returns that error and the PostStop hooks do not run. *)
Lemma failed_stop_skips_poststop pilot p g env st env1 env2 env3 pilot' x e :
  gp_process g = Some p → Running p = true →
  Transition (opt_Hooks opts) PreStop (Some pilot) (gp_executed g) env = (Ret (x, Some pilot', None), env1) →
  (∀ pid sig, os_signal os pid sig env1 = (Ret None, env2)) →
  (∀ pid, os_wait os pid env2 = (Ret st, env3)) → st = Some e →
  stop os opts pilot (g, env) =
  (Ret (Some e), (set_process (startWait st p) (set_executed x (set_shutdown g)), env3)).
Proof.
  intros Hp Hr Ht Hsig Hwait ->. unfold stop, mbind, gom_bind at 1; cbn -[transition].
  unfold gom_bind at 1; cbn -[transition].
  replace (IsRunning (set_shutdown g)) with true by (unfold IsRunning; simpl; by rewrite Hp, Hr).
  cbn -[transition]. unfold gom_bind at 1.
  replace (transition opts PreStop pilot (set_shutdown g, env))
    with ((Ret (pilot', None), (set_executed x (set_shutdown g), env1)) : outcome (Pilot * option Err) * PW).
  2:{ unfold transition, mbind, gom_bind; cbn -[Transition]. by rewrite Ht. }
  cbn. unfold gom_bind; cbn. rewrite Hp. cbn. unfold Process_Stop. rewrite Hr.
  pose proof (Started_running _ Hr) as Hs.
  apply Running_spec in Hr as (c & pid & Hc & Hpid & _). rewrite Hc. unfold mbind, gom_bind, deref, lift; simpl.
  rewrite Hpid. simpl. rewrite Hsig, Hwait. simpl. unfold Process_Error, startWait, waitDone; simpl.
  rewrite exited_state by done. done.
Qed.
End shutdown.

(** ** A concrete pilot *)

(** The hook of this pilot fails at its first call; the state counts calls. *)
Definition demoHook : Hook (Env nat) :=
  mkHook "prepare" (λ pilot '(w, n),
    (Ret (pilot, if decide (n = 0%nat) then Some (Errorf "not ready" []) else None), (w, S n))).

Definition quietHook (name : string) : Hook (Env nat) := mkHook name (λ pilot env, (Ret (pilot, None), env)).

Definition demoOS : OS (Env nat) :=
  mkOS (λ _ env, (Ret (inr 42), env)) (λ _ _ env, (Ret None, env)) (λ _ env, (Ret None, env)).

Definition demoOptions : Options nat :=
  mkOptions "demo-0" "default" (λ pilot env, (Ret (pilot, inr (Some (Command "db" [] []))), env))
    (mkSignals (Some 15)) (mkHooks [demoHook] [quietHook "warm"] [quietHook "drain"] [quietHook "clean"])
    (λ pilot env, (Ret (pilot, None), env)) None.

#[export] Instance demoOptions_lawful : LawfulOptions demoOptions.
Proof. intros pilot env pilot' cmd env' [= <- <- <-]. done. Qed.

#[export] Instance demoOS_lawful : LawfulOS demoOS.
Proof. by intros cmd env pid env' [= <- <-]. Qed.

Definition demoState : State := setsAndPilots [] [].

Definition newDemo : PW (E:=nat) := (newGenericPilot, (emptyWorld, 0%nat)).
(** The first sync fails in the hook, the second starts the process, then the
    pilot is stopped. *)
Definition demo1 : PW := snd (syncPilot demoOS demoState demoOptions demoPilot newDemo).
Definition demo2 : PW := snd (syncPilot demoOS demoState demoOptions demoPilot demo1).
Definition demo3 : PW := snd (stop demoOS demoOptions demoPilot demo2).

Definition demoResult : Pilot * option Err :=
  match fst (syncPilot demoOS demoState demoOptions demoPilot demo1) with
  | Ret r => r
  | Panic _ => (demoPilot, None)
  end.

Lemma pilot_sync_reports_witness :
  reportedStarted (pst_Conditions (pil_Status (fst demoResult))) = Some ConditionTrue ∧
  up demoOptions (fst demo2).
Proof.
  assert (pilot_inv demoOptions (fst demo1)) as Hi.
  { assert (fst demo1 = set_executed (mkExecuted (Some ∅) None None None) newGenericPilot) as -> by (vm_compute; reflexivity).
    split; try done. by intros [? ?]. }
  destruct (pilot_sync_reports demoOS demoState demoOptions demoPilot (fst demo1) (fst (snd demo1)) (snd (snd demo1))
    (fst demoResult) (snd demoResult) (fst demo2) (fst (snd demo2)) (snd (snd demo2)) Hi) as (_ & Hr & Hup);
    [vm_compute; reflexivity..|].
  split; [vm_compute; reflexivity|apply Hup; vm_compute; reflexivity].
Defined.

Lemma failed_process_exit_is_lost_witness :
  ∃ g, fst (Run demoOS demoOptions ProcessExited (inr demoPilot) (g, (emptyWorld, 0%nat))) = Ret None ∧
       (gp_process g ≫= Process_Error) = Some (Errorf "exit status 1" []).
Proof.
  pose (p := newProcess (Some (set_Process 42 (Command "db" [] []))) (mkSignals (Some 15))).
  destruct (failed_process_exit_is_lost demoOS demoOptions demoPilot p (set_process p newGenericPilot)
    (emptyWorld, 0%nat) (Errorf "exit status 1" [])) as [He Hrun]; [reflexivity|by eexists|reflexivity..|].
  exists (set_process (startWait (Some (Errorf "exit status 1" [])) p) (set_process p newGenericPilot)).
  split; [exact (f_equal fst Hrun)|exact He].
Defined.
