(* ===== verification/PilotConcurrent.v ===== *)
(** * The generic pilot with its threads

    A sync (pkg/pilot/genericpilot/controller.go) holds the lock of the pilot,
    the shutdown does not take it, and the process ends when it likes.  Here the
    two functions are programs of single steps, one for every access to what
    they share, and the steps of the sync, of the shutdown and of the rest of the
    system happen in any order.  There is one worker
    (pkg/pilot/genericpilot/controller/genericpilot.go), so at most one sync is
    under way, and Run calls stop once.

    One step is: a read of the process or of a flag, an assignment, the start of
    the process, a signal, a call of the implementor, of the API or of the
    recorder, and a whole Transition, which runs under the lock of the hooks.
    Memory is sequentially consistent. *)

From S2P Require Import Prelude GoStrings Semver K8s Types CassandraVersion Cluster Fixtures PilotHooks GenericPilot GenericPilotFacts.

(** ** Programs *)

Section programs.
Context {E : Type}.

(** A program returns, takes a step that reads and changes the state, or waits for the channel
    that is closed when the process has ended. *)
Inductive prog (A : Type) : Type :=
| PDone (a : A)
| PAct {B : Type} (m : GoM (PW (E:=E)) B) (k : B → prog A)
| PAwait (k : prog A).
#[global] Arguments PDone {A} a.
#[global] Arguments PAct {A B} m k.
#[global] Arguments PAwait {A} k.

Fixpoint prog_bind {A B} (f : A → prog B) (t : prog A) : prog B :=
  match t with
  | PDone a => f a
  | PAct m k => PAct m (λ b, prog_bind f (k b))
  | PAwait k => PAwait (prog_bind f k)
  end.

#[export] Instance prog_mret : MRet prog := λ A a, PDone a.
#[export] Instance prog_mbind : MBind prog := λ A B f t, prog_bind f t.

Definition act {B} (m : GoM (PW (E:=E)) B) : prog B := PAct m PDone.
Definition await : prog () := PAwait (PDone ()).

Context (os : OS (Env E)) (s : State) (opts : Options E).

(** *** syncPilot *)

(** The receiver of a call of g.process *)
Definition theProcess : GoM (PW (E:=E)) Process := g ← get_gp; deref (gp_process g).

(** g.process.Start() *)
Definition start_step : GoM (PW (E:=E)) (option Err) :=
  p ← theProcess;
  '(p, err) ← in_env (Process_Start os p);
  modify_gp (set_process p) ;;
  mret err.

(** The event, with the process as it is by then *)
Definition started_step (pilot : Pilot) : GoM (PW (E:=E)) () :=
  p ← theProcess;
  in_world (eventf (pil_Meta pilot) EventTypeNormal ReasonProcessStarted MessageProcessStarted [AStr (Process_String p)]).

Definition constructProg (pilot : Pilot) : prog (Pilot * option Err) :=
  '(pilot, r) ← act (in_env (opt_CmdFunc opts pilot));
  match r with
  | inl err => mret (pilot, Some err)
  | inr cmd => act (modify_gp (set_process (newProcess cmd (opt_Signals opts)))) ;; mret (pilot, None)
  end.

(** The condition [!g.IsRunning() && !g.shutdown] is two reads. *)
Definition startProg (pilot : Pilot) : prog (option Err) :=
  g ← act get_gp;
  if IsRunning g then mret None
  else
    g ← act get_gp;
    if gp_shutdown g then mret None
    else
      err ← act start_step;
      match err with
      | Some err => mret (Some err)
      | None => act (started_step pilot) ;; mret None
      end.

Definition syncBodyProg (pilot : Pilot) : prog (Pilot * option Err) :=
  if negb (IsThisPilot opts pilot) then mret (pilot, None)
  else
    '(pilot, err) ← act (transition opts PreStart pilot);
    match err with
    | Some err => mret (pilot, Some err)
    | None =>
        g ← act get_gp;
        '(pilot, err) ← match gp_process g with
                        | None => constructProg pilot
                        | Some _ => mret (pilot, None)
                        end;
        match err with
        | Some err => mret (pilot, Some err)
        | None =>
            err ← startProg pilot;
            match err with
            | Some err => mret (pilot, Some err)
            | None =>
                '(pilot, err) ← act (transition opts PostStart pilot);
                match err with
                | Some err => mret (pilot, Some err)
                | None => act (in_env (opt_SyncFunc opts pilot))
                end
            end
        end
    end.

Definition leaderSyncProg (pilot : Pilot) (err : option Err) : prog (Pilot * option Err) :=
  g ← act get_gp;
  match opt_LeaderElectedSyncFunc opts with
  | Some f =>
      if gp_leading g then
        '(pilot, err') ← act (in_env (f pilot));
        mret (pilot, NewAggregate [err; err'])
      else mret (pilot, err)
  | None => mret (pilot, err)
  end.

(** The condition and, when the process runs, its name are two reads. *)
Definition statusUpdateProg (pilot : Pilot) (err : option Err) : prog (Pilot * option Err) :=
  if IsThisPilot opts pilot then
    g ← act get_gp;
    let update := Pilot_UpdateStatusCondition (Now s) (pst_Conditions (pil_Status pilot)) PilotConditionStarted in
    conds ← if negb (IsRunning g) then mret (update ConditionFalse "" "")
            else
              g ← act get_gp;
              mret (update ConditionTrue ReasonProcessStarted
                ("Subprocess " +:+ quoted (default "" (Process_String <$> gp_process g)) +:+ " started"));
    let pilot := set_Conditions conds pilot in
    err' ← act (in_world (api_call s (UpdatePilotStatus (pil_Namespace pilot) pilot)));
    mret (pilot, NewAggregate [err; err'])
  else mret (pilot, err).

Definition syncPilotProg (pilot : Pilot) : prog (Pilot * option Err) :=
  '(pilot, err) ← syncBodyProg pilot;
  '(pilot, err) ← leaderSyncProg pilot err;
  statusUpdateProg pilot err.

(** *** stop *)

Definition signal_step : GoM (PW (E:=E)) (option Err) :=
  p ← theProcess;
  cmd ← deref (ad_cmd p);
  pid ← deref (cmd_Process cmd);
  in_env (os_signal os pid (sig_Stop (ad_signals p))).

Definition error_step : GoM (PW (E:=E)) (option Err) := p ← theProcess; mret (Process_Error p).

(** g.process.Stop() *)
Definition processStopProg : prog (option Err) :=
  p ← act theProcess;
  if Running p then
    err ← act signal_step;
    match err with
    | Some err => mret (Some err)
    | None => await ;; act error_step
    end
  else act error_step.

Definition stopProg (pilot : Pilot) : prog (option Err) :=
  act (modify_gp set_shutdown) ;;
  g ← act get_gp;
  if negb (IsRunning g) then mret None
  else
    '(pilot, err) ← act (transition opts PreStop pilot);
    match err with
    | Some err => mret (Some err)
    | None =>
        err ← processStopProg;
        match err with
        | Some err => mret (Some err)
        | None =>
            '(pilot, err) ← act (transition opts PostStop pilot);
            match err with
            | Some err => mret (Some err)
            | None => mret None
            end
        end
    end.

(** *** Uninterrupted runs *)

(** When nothing else moves, a wait ends with the status that the system's wait gives. *)
Definition wait_step : GoM (PW (E:=E)) () :=
  p ← theProcess;
  cmd ← deref (ad_cmd p);
  pid ← deref (cmd_Process cmd);
  st ← in_env (os_wait os pid);
  modify_gp (set_process (startWait st p)).

Fixpoint run {A} (t : prog A) : GoM (PW (E:=E)) A :=
  match t with
  | PDone a => mret a
  | PAct m k => b ← m; run (k b)
  | PAwait k => wait_step ;; run k
  end.
End programs.

Arguments prog E A : clear implicits.

Section runs.
Context {E : Type} (os : OS (Env E)) (s : State) (opts : Options E).

Lemma run_bind {A B} (t : prog E A) (f : A → prog E B) pw : run os (t ≫= f) pw = (run os t ≫= λ a, run os (f a)) pw.
Proof.
  revert pw. induction t as [a|C m k IH|k IH]; intros pw; [done|..]; unfold mbind, gom_bind in *; simpl.
  - unfold mbind, gom_bind. destruct (m pw) as [[b|p] pw']; [apply IH|done].
  - unfold mbind, gom_bind. destruct (wait_step os pw) as [[b|p] pw']; [apply IH|done].
Qed.

Lemma run_act {B} (m : GoM (PW (E:=E)) B) pw : run os (act m) pw = m pw.
Proof. unfold act. simpl. unfold mbind, gom_bind. by destruct (m pw) as [[b|p] pw']. Qed.

(** Binds of programs agree when their parts do. *)
Lemma run_bind_eq {A B} (t : prog E A) (f : A → prog E B) (m : GoM PW A) (k : A → GoM PW B) :
  (∀ pw, run os t pw = m pw) → (∀ a pw, run os (f a) pw = k a pw) → ∀ pw, run os (t ≫= f) pw = (m ≫= k) pw.
Proof.
  intros Ht Hf pw. rewrite run_bind. unfold mbind, gom_bind. rewrite Ht. by destruct (m pw) as [[a|p] pw'].
Qed.

Lemma run_act_bind {A B} (m : GoM (PW (E:=E)) A) (f : A → prog E B) (k : A → GoM PW B) :
  (∀ a pw, run os (f a) pw = k a pw) → ∀ pw, run os (act m ≫= f) pw = (m ≫= k) pw.
Proof. apply run_bind_eq. apply run_act. Qed.

Lemma gom_bind_at {W A B} (m : GoM W A) (k : A → GoM W B) w :
  (m ≫= k) w = match m w with (Ret a, w') => k a w' | (Panic p, w') => (Panic p, w') end.
Proof. done. Qed.

Lemma set_process_id g p : gp_process g = Some p → set_process p g = g.
Proof. destruct g. simpl. by intros ->. Qed.

Lemma run_constructProg pilot pw : run os (constructProg opts pilot) pw = constructProcess opts pilot pw.
Proof. apply run_act_bind. intros [pl [e|cmd]] pw'; [done|]. by apply run_act_bind. Qed.

Lemma run_startProg pilot pw : run os (startProg os pilot) pw = startProcess os pilot pw.
Proof.
  destruct pw as [g env]. unfold startProg, startProcess. simpl. unfold mbind, gom_bind. simpl.
  destruct (IsRunning g); [done|]. simpl. unfold mbind, gom_bind. simpl.
  destruct (gp_shutdown g); [done|]. simpl. unfold mbind, gom_bind, start_step, theProcess, mbind, gom_bind. simpl.
  destruct (gp_process g) as [p|]; [|done]. simpl. unfold gom_bind, in_env.
  destruct (Process_Start os p env) as [[[p' [e|]]|] env']; done.
Qed.

Lemma run_syncBodyProg pilot pw : run os (syncBodyProg os opts pilot) pw = syncBody os opts pilot pw.
Proof.
  unfold syncBodyProg, syncBody. destruct (negb _); [done|]. revert pw.
  apply run_act_bind. intros [pl [e|]]; [done|]. apply run_act_bind. intros g.
  apply run_bind_eq; [intros pw; destruct (gp_process g); [done|apply run_constructProg]|].
  intros [pl2 [e|]]; [done|]. apply run_bind_eq; [apply run_startProg|]. intros [e|]; [done|].
  apply run_act_bind. intros [pl3 [e|]]; [done|]. apply run_act.
Qed.

(** A sync that nothing interrupts is [syncPilot]. *)
Lemma run_syncPilotProg pilot pw : run os (syncPilotProg os s opts pilot) pw = syncPilot os s opts pilot pw.
Proof.
  revert pw. apply run_bind_eq; [apply run_syncBodyProg|]. intros [pl err]. apply run_bind_eq.
  - apply run_act_bind. intros g. destruct (opt_LeaderElectedSyncFunc opts) as [f|]; [|done].
    destruct (gp_leading g); [|done]. apply run_act_bind. by intros [pl2 e2].
  - intros [pl2 e2] [g [w e]]. unfold statusUpdateProg, statusUpdate, updatePilotStatus, startedConditions.
    destruct (IsThisPilot opts pl2); [|done]. simpl. unfold mbind, gom_bind. simpl.
    destruct (IsRunning g); simpl; unfold mbind, gom_bind; simpl; done.
Qed.

(** A shutdown that nothing interrupts is [stop]. *)
Lemma run_processStopProg p g env :
  gp_process g = Some p →
  run os (processStopProg os) (g, env) =
  ('(p, err) ← in_env (Process_Stop os p); modify_gp (set_process p) ;; mret err) (g, env).
Proof.
  intros Hp. unfold processStopProg. simpl. unfold theProcess, mbind, gom_bind. simpl. rewrite Hp. simpl.
  unfold Process_Stop. destruct (Running p) eqn:Hr.
  - apply Running_spec in Hr as (c & pid & Hc & Hpid & _). unfold signal_step. simpl.
    repeat (unfold mbind, gom_bind, theProcess, wait_step, error_step; simpl; rewrite ?Hp, ?Hc, ?Hpid; simpl).
    destruct (os_signal os pid (sig_Stop (ad_signals p)) env) as [[[e|]|] env1]; simpl; [by rewrite set_process_id| |done].
    repeat (unfold mbind, gom_bind, theProcess, wait_step, error_step; simpl; rewrite ?Hp, ?Hc, ?Hpid; simpl).
    by destruct (os_wait os pid env1) as [[st|] env2].
  - simpl. unfold error_step, theProcess, mbind, gom_bind. simpl. rewrite Hp. simpl. by rewrite set_process_id.
Qed.

Lemma run_stopProg pilot pw : run os (stopProg os opts pilot) pw = stop os opts pilot pw.
Proof.
  revert pw. apply run_act_bind. intros []. apply run_act_bind. intros g. destruct (negb _); [done|].
  apply run_act_bind. intros [pl [e|]]; [done|]. intros [g1 env1]. rewrite run_bind, gom_bind_at.
  destruct (gp_process g1) as [p|] eqn:Hp.
  - rewrite (run_processStopProg p) by done. unfold mbind, gom_bind, in_env. simpl. rewrite Hp. simpl.
    destruct (Process_Stop os p env1) as [[[p' [e|]]|] env2]; simpl; [done| |done].
    unfold mbind, gom_bind. simpl.
    destruct (transition opts PostStop pl (set_process p' g1, env2)) as [[[pl2 [e2|]]|] pw2]; done.
  - unfold processStopProg, mbind, gom_bind. simpl. unfold theProcess, mbind, gom_bind. simpl. by rewrite Hp.
Qed.
End runs.

(** ** The transition system *)

(** Nothing is started. *)
Definition calm (g g' : GenericPilot) : Prop := IsRunning g' = true → IsRunning g = true.

(** What a sync can rely on while it is under way: only syncs construct and start a process. *)
Record undisturbed (g g' : GenericPilot) : Prop := {
  undisturbed_later : later g g';
  undisturbed_none : gp_process g = None → gp_process g' = None;
  undisturbed_calm : calm g g';
}.

#[export] Instance undisturbed_preorder : PreOrder undisturbed.
Proof.
  split; [intros g; split; [reflexivity|done|by intros ?]|].
  intros g1 g2 g3 [L1 N1 C1] [L2 N2 C2]. split; [by etrans|auto|unfold calm in *; auto].
Qed.

(** The channel of the process is closed. *)
Definition waited (g : GenericPilot) : Prop := ∃ p, gp_process g = Some p ∧ ad_doneCh p = true.

Section system.
Context {E : Type} (os : OS (Env E)) (s : State) (opts : Options E).

(** The pilot, the sync under way, and the shutdown once Run has called stop. *)
Record CState := mkC {
  c_pw : PW (E:=E);
  c_sync : option (prog E (Pilot * option Err));
  c_stop : option (prog E (option Err));
}.

Definition c_pilot (cs : CState) : GenericPilot := fst (c_pw cs).

Definition tstep {A} (t : prog E A) (pw : PW) (t' : prog E A) (pw' : PW) : Prop :=
  match t with
  | PDone _ => False
  | PAct m k => ∃ b, m pw = (Ret b, pw') ∧ t' = k b
  | PAwait k => waited (fst pw) ∧ t' = k ∧ pw' = pw
  end.

Inductive cstep : CState → CState → Prop :=
| begin_sync pilot pw st : cstep (mkC pw None st) (mkC pw (Some (syncPilotProg os s opts pilot)) st)
| sync_step t pw t' pw' st : tstep t pw t' pw' → cstep (mkC pw (Some t) st) (mkC pw' (Some t') st)
| end_sync r pw st : cstep (mkC pw (Some (PDone r)) st) (mkC pw None st)
| begin_stop pilot pw sy : cstep (mkC pw sy None) (mkC pw sy (Some (stopProg os opts pilot)))
| stop_step t pw t' pw' sy : tstep t pw t' pw' → cstep (mkC pw sy (Some t)) (mkC pw' sy (Some t'))
| process_exits st p g env sy sp : gp_process g = Some p → Running p = true →
    cstep (mkC (g, env) sy sp) (mkC (set_process (exited st p) g, env) sy sp)
| wait_ends p g env sy sp : gp_process g = Some p → is_Some (Process_state p) →
    cstep (mkC (g, env) sy sp) (mkC (set_process (waitDone p) g, env) sy sp)
| leading_changes b g env sy sp : cstep (mkC (g, env) sy sp) (mkC (set_leading b g, env) sy sp)
| env_changes env' g env sy sp : cstep (mkC (g, env) sy sp) (mkC (g, env') sy sp).

Definition initialC (env : Env E) : CState := mkC (newGenericPilot, env) None None.

Abbreviation done g p := (executedIn (gp_executed g) p).
Abbreviation inv := (pilot_inv opts).

(** ** Programs beside others

    [wp R G t Q g]: from [g], whatever others do within [R] between the steps of
    [t], every step of [t] is within [G] and keeps the invariant, and [Q] holds
    when it returns. *)

Fixpoint wp {A} (R G : GenericPilot → GenericPilot → Prop) (t : prog E A) (Q : A → GenericPilot → Prop)
    (g : GenericPilot) : Prop :=
  match t with
  | PDone a => Q a g
  | PAct m k => ∀ g1 env b g' env', R g g1 → inv g1 → m (g1, env) = (Ret b, (g', env')) →
      G g1 g' ∧ inv g' ∧ wp R G (k b) Q g'
  | PAwait k => ∀ g1, R g g1 → inv g1 → waited g1 → wp R G k Q g1
  end.

Section rules.
Context (R G : GenericPilot → GenericPilot → Prop) {HR : PreOrder R} {HG : Reflexive G}.
Context (Rlater : ∀ g g', R g g' → later g g') (Gexecuted : ∀ p g x, advanced p g x → G g (set_executed x g)).

Lemma wp_bind {A B} (t : prog E A) (f : A → prog E B) Q g : wp R G t (λ a g', wp R G (f a) Q g') g → wp R G (t ≫= f) Q g.
Proof.
  revert g. induction t as [a|C m k IH|k IH]; intros g; [done|..]; simpl.
  - intros Hw g1 env b g' env' H1 H2 H3. destruct (Hw g1 env b g' env' H1 H2 H3) as (? & ? & ?). eauto.
  - intros Hw g1 H1 H2 H3. eauto.
Qed.

(** Others may have moved before the next step. *)
Lemma wp_stable {A} (t : prog E A) g g1 : wp R G t (λ _ _, True) g → R g g1 → wp R G t (λ _ _, True) g1.
Proof.
  intros Hw Hg. destruct t as [a|B m k|k]; [done|..].
  - intros g2 env b g' env' H1 H2 H3. apply (Hw g2 env b g' env'); [by etrans|done..].
  - intros g2 H1 H2 H3. apply Hw; [by etrans|done..].
Qed.

Lemma wp_tstep {A} (t t' : prog E A) g env g' env' :
  wp R G t (λ _ _, True) g → inv g → tstep t (g, env) t' (g', env') → G g g' ∧ inv g' ∧ wp R G t' (λ _ _, True) g'.
Proof.
  intros Hw Hi. destruct t as [a|B m k|k]; [done|..].
  - intros (b & Hm & ->). by apply (Hw g env b g' env').
  - intros (Hwt & -> & [= -> ->]). split_and!; [done..|]. by apply Hw.
Qed.

Lemma wp_act {A B} (m : GoM PW A) (f : A → prog E B) Q g :
  (∀ g1 env b g' env', R g g1 → inv g1 → m (g1, env) = (Ret b, (g', env')) → G g1 g' ∧ inv g' ∧ wp R G (f b) Q g') →
  wp R G (act m ≫= f) Q g.
Proof. done. Qed.

Lemma wp_get {B} (f : GenericPilot → prog E B) Q g :
  (∀ g1, R g g1 → inv g1 → wp R G (f g1) Q g1) → wp R G (act get_gp ≫= f) Q g.
Proof. intros H. apply wp_act. intros g1 env b g' env' H1 H2 [= <- <- <-]. auto. Qed.

Lemma wp_env {A B} (m : GoM (Env E) A) (f : A → prog E B) Q g :
  (∀ g1 env a env', R g g1 → inv g1 → m env = (Ret a, env') → wp R G (f a) Q g1) → wp R G (act (in_env m) ≫= f) Q g.
Proof. intros H. apply wp_act. intros g1 env a g' env' H1 H2 [-> Hm]%in_env_inv. eauto. Qed.

Lemma wp_world {A B} (m : GoM World A) (f : A → prog E B) Q g :
  (∀ g1 a, R g g1 → inv g1 → wp R G (f a) Q g1) → wp R G (act (in_world m) ≫= f) Q g.
Proof. intros H. apply wp_act. intros g1 env a g' env' H1 H2 ->%in_world_inv. eauto. Qed.

(** The hooks of a phase that may run. *)
Lemma wp_transition {B} p pilot (f : Pilot * option Err → prog E B) Q g :
  p ∈ phases → may_run opts p g →
  (∀ g' pilot' err, later g g' → (err = None → names (hooksOf opts p) ⊆ done g' p) → wp R G (f (pilot', err)) Q g') →
  wp R G (act (transition opts p pilot) ≫= f) Q g.
Proof.
  intros Hp Hm Hf. apply wp_act. intros g1 env [pilot' err] g' env' Hg Hi Hrun.
  apply transition_inv in Hrun as (x & -> & Ha & Hall); [|done]. apply Rlater in Hg as Hl. split_and!.
  - by eapply Gexecuted.
  - eapply advanced_inv; eauto using may_run_later.
  - apply Hf; [|done]. etrans; [done|by eapply advanced_later].
Qed.

(** A step that only reads the process. *)
Lemma theProcess_inv g env p g' env' :
  theProcess (E:=E) (g, env) = (Ret p, (g', env')) → gp_process g = Some p ∧ g' = g ∧ env' = env.
Proof. unfold theProcess, mbind, gom_bind. simpl. destruct (gp_process g); [|done]. by intros [= -> <- <-]. Qed.
End rules.

(** ** Syncs *)

Section sync.
Context {HL : LawfulOptions opts}.
(** [late]: the shutdown had begun before the sync. *)
Context (late : bool).

Definition syncGuarantee (g g' : GenericPilot) : Prop := later g g' ∧ (late = true → calm g g').

#[export] Instance syncGuarantee_refl : Reflexive syncGuarantee.
Proof. intros g. split; [reflexivity|by intros ??]. Qed.

Lemma syncGuarantee_executed p g x : advanced p g x → syncGuarantee g (set_executed x g).
Proof. intros Ha. split; [by eapply advanced_later|by intros ??]. Qed.

Abbreviation swp := (wp undisturbed syncGuarantee).
Abbreviation isLate g := (late = true → gp_shutdown g = true).

Lemma isLate_later g g' : later g g' → isLate g → isLate g'.
Proof. intros Hl H ?. by eapply later_shutdown, H. Qed.

Lemma construct_wp pilot Q g :
  names (hs_PreStart (opt_Hooks opts)) ⊆ done g PreStart → gp_process g = None →
  (∀ pilot' err g', later g g' → (err = None → is_Some (gp_process g')) → Q (pilot', err) g') →
  swp (constructProg opts pilot) Q g.
Proof.
  intros Hpre Hnone HQ. apply wp_env; [apply _|]. intros g1 env [pl [e|cmd]] env' [L1 N1 _] Hi1 Hcmd; [by apply HQ|].
  apply wp_act. intros g2 env2 [] g' env'' [L2 N2 _] Hi2 [= <- _].
  assert (later g g2) as L by by etrans. assert (gp_process g2 = None) as Hn by auto.
  assert (process_kept (gp_process g2) (newProcess cmd (opt_Signals opts))) as Hk by by rewrite Hn.
  apply process_kept_later in Hk. split_and!.
  - split; [done|]. intros _. unfold calm, IsRunning at 1. simpl. destruct (newProcess_ok opts cmd) as [_ ->]; [|done].
    intros c ->. by eapply fresh_command.
  - eapply new_process_inv; [exact HL|exact Hcmd|done| |done]. etrans; [done|]. apply (later_executed _ _ L). rewrite phases_cases. auto.
  - apply HQ; [by etrans|]. simpl. eauto.
Qed.

Lemma start_wp pilot Q g :
  isLate g → is_Some (gp_process g) →
  (∀ err g', later g g' → (err = None → has_started g' ∨ gp_shutdown g' = true) → Q err g') →
  swp (startProg os pilot) Q g.
Proof.
  intros Hlate Hp HQ. apply wp_get; [apply _|]. intros g1 [L1 _ _] _. destruct (IsRunning g1) eqn:Hr.
  { apply HQ; [done|]. intros _. left. unfold IsRunning in Hr. destruct (gp_process g1) as [p|] eqn:Hp1; [|done].
    exists p. split; [done|]. apply Started_running. by destruct (Running p). }
  apply wp_get; [apply _|]. intros g2 [L2 _ _] _. assert (later g g2) as L by by etrans.
  destruct (gp_shutdown g2) eqn:Hsd; [apply HQ; auto|].
  assert (late = false) as Hl. { pose proof (isLate_later g g2 L Hlate) as H2. destruct late; [|done]. by rewrite H2 in Hsd. }
  apply wp_act. intros g3 env err g' env' [L3 _ _] Hi3 Hrun.
  apply gom_bind_inv in Hrun as (p & [g4 env4] & (Hp3 & -> & ->)%theProcess_inv & Hrun).
  apply gom_bind_inv in Hrun as ([p' er] & [g5 env5] & [-> Hst]%in_env_inv & Hrun).
  apply gom_bind_inv in Hrun as ([] & w & [= <-] & [= <- <- _]).
  destruct (Process_Start_kept _ _ _ _ _ _ Hst) as (Hok & Hk & Hs); [by apply (inv_process _ _ Hi3)|].
  rewrite <- Hp3 in Hk. assert (later g (set_process p' g3)) as L'.
  { etrans; [|by apply process_kept_later]. by etrans. }
  split_and!; [split; [by apply process_kept_later|by rewrite Hl]| |].
  { apply process_kept_inv; [done| |done..]. apply (inv_prestart _ _ Hi3). eauto. }
  destruct er as [e|]; [by apply HQ|].
  assert (has_started (set_process p' g3)) as Hst' by (exists p'; auto).
  apply wp_act. intros g6 env6 [] g7 env7 [L6 _ _] Hi6 Hrun.
  apply gom_bind_inv in Hrun as (p6 & [g8 env8] & (_ & -> & ->)%theProcess_inv & ->%in_world_inv).
  split_and!; [done..|]. apply HQ; [by etrans|]. intros _. left. by eapply has_started_later.
Qed.

Lemma syncBody_wp pilot Q g :
  isLate g → (∀ r g', Q r g') → swp (syncBodyProg os opts pilot) Q g.
Proof.
  intros Hlate HQ. unfold syncBodyProg. destruct (negb _); [by apply HQ|].
  assert (∀ g g', undisturbed g g' → later g g') as Rl by by intros ? ? [].
  apply wp_transition; [done|apply syncGuarantee_executed|rewrite phases_cases; auto|apply may_run_PreStart|].
  intros g1 pl [e|] L1 Hall; [by apply HQ|]. specialize (Hall eq_refl).
  apply wp_get; [apply _|]. intros g2 [L2 _ _] Hi2. assert (later g g2) as L by by etrans.
  assert (names (hs_PreStart (opt_Hooks opts)) ⊆ done g2 PreStart) as Hpre.
  { etrans; [exact Hall|]. apply (later_executed _ _ L2). rewrite phases_cases. auto. }
  apply wp_bind. assert (∀ pl2 err g3, later g2 g3 → (err = None → is_Some (gp_process g3)) →
    swp (match err with Some err => mret (pl2, Some err) | None =>
           err ← startProg os pl2; match err with Some err => mret (pl2, Some err) | None =>
             '(pilot, err) ← act (transition opts PostStart pl2);
             match err with Some err => mret (pilot, Some err) | None => act (in_env (opt_SyncFunc opts pilot)) end end end) Q g3) as Hrest.
  { intros pl2 [e|] g3 L3 Hp3; [by apply HQ|]. specialize (Hp3 eq_refl). apply wp_bind, start_wp; [|done|].
    { eapply isLate_later; [|exact Hlate]. by etrans. }
    intros [e|] g4 L4 Hs; [by apply HQ|]. specialize (Hs eq_refl).
    apply wp_transition; [done|apply syncGuarantee_executed|rewrite phases_cases; auto|by apply may_run_PostStart|].
    intros g5 pl5 [e|] L5 _; [by apply HQ|]. intros g6 env a g7 env7 _ Hi6 [-> _]%in_env_inv. split_and!; [done..|]. by apply HQ. }
  destruct (gp_process g2) as [p|] eqn:Hp; [apply (Hrest pl None g2); [reflexivity|eauto]|].
  apply construct_wp; [done..|]. intros pl2 err g3 L3 Hp3. by apply Hrest.
Qed.

Lemma sync_wp pilot g : isLate g → swp (syncPilotProg os s opts pilot) (λ _ _, True) g.
Proof.
  intros Hlate. apply wp_bind, syncBody_wp; [done|]. intros [pl err] g1. apply wp_bind. apply wp_get; [apply _|]. intros g2 _ _.
  assert (∀ pl err g, swp (statusUpdateProg s opts pl err) (λ _ _, True) g) as Hst.
  { clear. intros pl err g. unfold statusUpdateProg. destruct (IsThisPilot _ _); [|done].
    apply wp_get; [apply _|]. intros g1 _ _. apply wp_bind. destruct (negb _).
    - apply wp_world; [apply _|]. done.
    - apply wp_get; [apply _|]. intros g2 _ _. apply wp_world; [apply _|]. done. }
  destruct (opt_LeaderElectedSyncFunc opts) as [f|]; [|apply Hst]. destruct (gp_leading g2); [|apply Hst].
  apply wp_env; [apply _|]. intros g3 env [pl3 e3] env3 _ _ _. apply Hst.
Qed.
End sync.

(** ** The shutdown *)

Section stopping.
Abbreviation kwp := (wp later undisturbed).

(** The process has a pid, which keeps. *)
Definition hasPid (g : GenericPilot) : Prop :=
  ∃ p pid, gp_process g = Some p ∧ ad_cmd p ≫= cmd_Process = Some pid ∧ pid ≠ 0.

Lemma hasPid_later g g' : later g g' → hasPid g → hasPid g'.
Proof.
  intros Hl (p & pid & Hp & Hpid & Hne). destruct (later_pid _ _ Hl p pid Hp Hpid) as (p' & ? & ?). by exists p', pid.
Qed.

Lemma hasPid_started g : hasPid g → has_started g.
Proof. intros (p & pid & Hp & Hpid & _). exists p. split; [done|]. unfold Started. rewrite Hpid. eauto. Qed.

Lemma IsRunning_hasPid g : IsRunning g = true → hasPid g.
Proof.
  unfold IsRunning. destruct (gp_process g) as [p|] eqn:Hp; [|done]. destruct (Running p) eqn:Hr; [|done]. intros _.
  apply Running_spec in Hr as (c & pid & Hc & Hpid & Hne & _). exists p, pid. rewrite Hc. done.
Qed.

(** A process with a pid that does not run has ended. *)
Lemma not_running_ended g p : hasPid g → gp_process g = Some p → Running p = false → ended g.
Proof.
  intros (p' & pid & Hp' & Hpid & Hne) Hp Hr. rewrite Hp in Hp'. injection Hp' as <-. exists p.
  destruct (ad_cmd p) as [c|] eqn:Hc; [|done]. simpl in Hpid. split_and!; [done|unfold Started; rewrite Hc; simpl; eauto|].
  unfold Running in Hr. rewrite Hc, Hpid, bool_decide_eq_false_2 in Hr by done. simpl in Hr.
  by case_bool_decide.
Qed.

Lemma waited_ended g : inv g → hasPid g → waited g → ended g.
Proof.
  intros Hi Hpid (p & Hp & Hd). destruct (inv_process _ _ Hi p Hp) as (_ & Hst & _).
  destruct (hasPid_started g Hpid) as (p' & Hp' & Hs). rewrite Hp in Hp'. injection Hp' as <-. exists p. auto.
Qed.

Lemma error_wp Q g : (∀ err g', later g g' → Q err g') → kwp (act error_step) Q g.
Proof.
  intros HQ g1 env b g' env' L1 Hi1 Hrun.
  apply gom_bind_inv in Hrun as (p & [g2 env2] & (_ & -> & ->)%theProcess_inv & [= <- <- _]). split_and!; [done..|]. by apply HQ.
Qed.

Lemma processStop_wp Q g :
  hasPid g → (∀ err g', later g g' → (err = None → ended g') → Q err g') → kwp (processStopProg os) Q g.
Proof.
  intros Hpid HQ. apply wp_act. intros g1 env p g' env' L1 Hi1 (Hp & -> & ->)%theProcess_inv. split_and!; [done..|].
  apply (hasPid_later _ _ L1) in Hpid. destruct (Running p) eqn:Hr.
  - apply wp_act. intros g2 env2 err g' env3 L2 Hi2 Hrun.
    assert (g' = g2) as ->.
    { apply gom_bind_inv in Hrun as (p2 & [g3 env4] & (_ & -> & ->)%theProcess_inv & Hrun).
      apply gom_bind_inv in Hrun as (c & w & Hc & Hrun). destruct (ad_cmd p2); [|done]. injection Hc as <- <-.
      apply gom_bind_inv in Hrun as (pid & w & Hc & Hrun). destruct (cmd_Process _); [|done]. injection Hc as <- <-.
      by apply in_env_inv in Hrun as [-> _]. }
    split_and!; [done..|]. apply (hasPid_later _ _ L2) in Hpid. assert (later g g2) as L by by etrans.
    destruct err as [e|]; [by apply HQ|].
    apply wp_bind. intros g3 L3 Hi3 Hw. apply (hasPid_later _ _ L3) in Hpid.
    apply error_wp. intros err g4 L4. apply HQ; [by repeat (etrans; [done|])|]. intros _.
    eapply ended_later; [done|]. by apply waited_ended.
  - apply error_wp. intros err g2 L2. apply HQ; [by etrans|]. intros _.
    eapply ended_later; [done|]. by eapply not_running_ended.
Qed.

Lemma undisturbed_executed p g x : advanced p g x → undisturbed g (set_executed x g).
Proof. intros Ha. split; [by eapply advanced_later|done|by intros ?]. Qed.

Lemma stop_wp pilot g : kwp (stopProg os opts pilot) (λ _ _, True) g.
Proof.
  apply wp_act. intros g1 env [] g' env' L1 Hi1 [= <- _]. split_and!; [|by apply shutdown_inv|].
  { split; [apply shutdown_later|done|by intros ?]. }
  apply wp_get; [apply _|]. intros g2 L2 Hi2. destruct (IsRunning g2) eqn:Hr; [|done]. cbn [negb].
  assert (gp_shutdown g2 = true) as Hsd by by eapply later_shutdown.
  apply IsRunning_hasPid in Hr as Hpid.
  apply wp_transition; [done|apply undisturbed_executed|rewrite phases_cases; auto|apply may_run_PreStop; [done|by apply hasPid_started]|].
  intros g3 pl [e|] L3 Hall; [done|]. specialize (Hall eq_refl). apply (hasPid_later _ _ L3) in Hpid.
  apply wp_bind, processStop_wp; [done|]. intros [e|] g4 L4 Hend; [done|]. specialize (Hend eq_refl).
  apply wp_transition; [done|apply undisturbed_executed|rewrite phases_cases; auto| |by intros g5 pl5 [e|] _ _].
  split_and!; [done..|]. intros _. split_and!; [|done|].
  - eapply later_shutdown; [exact L4|]. by eapply later_shutdown.
  - etrans; [exact Hall|]. apply (later_executed _ _ L4). rewrite phases_cases. auto.
Qed.
End stopping.

(** ** The invariant of all interleavings *)

Section lifecycle.
Context {HL : LawfulOptions opts}.

Record cinv (late : bool) (cs : CState) : Prop := {
  cinv_pilot : inv (c_pilot cs);
  cinv_late : late = true → gp_shutdown (c_pilot cs) = true;
  cinv_sync t : c_sync cs = Some t → wp undisturbed (syncGuarantee late) t (λ _ _, True) (c_pilot cs);
  cinv_stop t : c_stop cs = Some t → wp later undisturbed t (λ _ _, True) (c_pilot cs);
}.

(** A step of the rest of the system. *)
Lemma cinv_other late g env g' env' sy sp :
  cinv late (mkC (g, env) sy sp) → undisturbed g g' → inv g' →
  cinv late (mkC (g', env') sy sp) ∧ syncGuarantee late g g'.
Proof.
  intros [Hi Hl Hsy Hsp] Hu Hi'. pose proof Hu as [L _ C]. split; [split; simpl in *|by split].
  - done.
  - intros Hlate. by eapply later_shutdown, Hl.
  - intros t Ht. eapply wp_stable; [apply _|by apply Hsy|done].
  - intros t Ht. eapply wp_stable; [apply _|by apply Hsp|done].
Qed.

Lemma process_kept_undisturbed g p p' :
  gp_process g = Some p → process_kept (Some p) p' → (Running p' = true → Running p = true) → undisturbed g (set_process p' g).
Proof.
  intros Hp Hk Hr. split; [apply process_kept_later; by rewrite Hp|by rewrite Hp|].
  unfold calm, IsRunning. simpl. rewrite Hp. destruct (Running p'); [|done]. by rewrite Hr.
Qed.

Lemma cstep_cinv late cs cs' :
  cinv late cs → cstep cs cs' → cinv late cs' ∧ syncGuarantee late (c_pilot cs) (c_pilot cs').
Proof.
  intros Hc Hstep. pose proof Hc as [Hi Hl Hsy Hsp].
  assert (∀ g, syncGuarantee late g g) as Hrefl by (intros g; split; [reflexivity|by intros ??]).
  destruct Hstep as [pilot pw st|t [g env] t' [g' env'] st Ht|r pw st|pilot pw sy|t [g env] t' [g' env'] sy Ht
    |st p g env sy sp Hp Hr|p g env sy sp Hp Hst|b g env sy sp|env' g env sy sp]; simpl in *.
  - split; [split; simpl; try done|done]. intros t [= <-]. by apply sync_wp.
  - destruct (wp_tstep _ _ _ _ _ _ _ _ (Hsy t eq_refl) Hi Ht) as ([L C] & Hi' & Hw).
    split; [split; simpl|by split]; [done|intros Hlate; by eapply later_shutdown, Hl|by intros ? [= <-]|].
    intros t2 Ht2. eapply wp_stable; [apply _|by apply Hsp|done].
  - split; [split; simpl; done|done].
  - split; [split; simpl; try done|done]. intros t [= <-]. apply stop_wp.
  - destruct (wp_tstep _ _ _ _ _ _ _ _ (Hsp t eq_refl) Hi Ht) as (Hu & Hi' & Hw). pose proof Hu as [L _ C].
    split; [split; simpl|by split]; [done|intros Hlate; by eapply later_shutdown, Hl| |by intros ? [= <-]].
    intros t2 Ht2. eapply wp_stable; [apply _|by apply Hsy|done].
  - destruct (exited_kept st p) as [Hok Hk]; [by apply (inv_process _ _ Hi)|done|].
    eapply (cinv_other late g env); [done|eapply process_kept_undisturbed; [done..|]|apply process_kept_inv].
    + by rewrite exited_not_running.
    + done.
    + apply (inv_prestart _ _ Hi). simpl. eauto.
    + done.
    + simpl. by rewrite Hp.
  - destruct (waitDone_kept p) as [Hok Hk]; [by apply (inv_process _ _ Hi)|done|].
    eapply (cinv_other late g env); [done|eapply process_kept_undisturbed; [done..|]|apply process_kept_inv]; try done.
    + apply (inv_prestart _ _ Hi). simpl. eauto.
    + simpl. by rewrite Hp.
  - eapply (cinv_other late g env); [done|split; [split; simpl; eauto|done|by intros ?]|]. destruct Hi. by split.
  - by eapply (cinv_other late g env).
Qed.

Lemma csteps_cinv late cs cs' :
  cinv late cs → rtc cstep cs cs' → cinv late cs' ∧ syncGuarantee late (c_pilot cs) (c_pilot cs').
Proof.
  intros Hc Hsteps. revert Hc. induction Hsteps as [cs|x y z Hxy _ IH]; intros Hc.
  { split; [done|]. split; [reflexivity|by intros ??]. }
  destruct (cstep_cinv _ _ _ Hc Hxy) as [Hy [L1 C1]]. destruct (IH Hy) as [Hz [L2 C2]].
  split; [done|]. split; [by etrans|]. unfold calm in *. auto.
Qed.

Lemma cinv_initial env : cinv false (initialC env).
Proof. split; try done. apply inv_new. Qed.

(** A state with the shutdown begun and no sync under way. *)
Lemma cinv_settled cs : cinv false cs → gp_shutdown (c_pilot cs) = true → c_sync cs = None → cinv true cs.
Proof. intros [Hi _ _ Hsp] Hsd Hsy. split; [done|done| |done]. by rewrite Hsy. Qed.

(** C4. In every state the pilot reaches, with the steps of a sync, of the shutdown, which takes
    no lock, of the process and of the election in any order, there is a process only after every
    PreStart hook has run, PostStart hooks have run only once it was started or the shutdown
    began, PreStop hooks only in the shutdown of a started process, and PostStop hooks only after
    every PreStop hook and the end of the process; in every later state the executed hooks are
    kept, a started process is never replaced by another, and its exit status and the shutdown
    stay. Once the shutdown has begun and no sync is under way, a process that does not run is
    never started; a sync that is under way may still start it (stop_races_with_sync). *)
Theorem pilot_lifecycle env cs cs' :
  rtc cstep (initialC env) cs → rtc cstep cs cs' →
  pilot_inv opts (c_pilot cs) ∧ later (c_pilot cs) (c_pilot cs') ∧
  (gp_shutdown (c_pilot cs) = true → c_sync cs = None → IsRunning (c_pilot cs') = true → IsRunning (c_pilot cs) = true).
Proof.
  intros H1 H2. destruct (csteps_cinv _ _ _ (cinv_initial env) H1) as [Hc _].
  destruct (csteps_cinv _ _ _ Hc H2) as [_ [L _]]. split_and!; [apply Hc|done|].
  intros Hsd Hsy. destruct (csteps_cinv true cs cs') as [_ [_ C]]; [by apply cinv_settled|done|]. by apply C.
Qed.
End lifecycle.
End system.

(** ** Schedules *)

(** Which thread moves next; [Exit] and [Waited] are the process and its goroutine. *)
Inductive Label :=
| BeginSync (pilot : Pilot)
| StepSync
| EndSync
| BeginStop (pilot : Pilot)
| StepStop
| Exit (st : ExitStatus)
| Waited.

Section schedules.
Context {E : Type} (os : OS (Env E)) (s : State) (opts : Options E).

Definition tnext {A} (t : prog E A) (pw : PW) : option (prog E A * PW) :=
  match t with
  | PDone _ => None
  | PAct m k => match m pw with (Ret b, pw') => Some (k b, pw') | (Panic _, _) => None end
  | PAwait k =>
      match gp_process (fst pw) with
      | Some p => if ad_doneCh p then Some (k, pw) else None
      | None => None
      end
  end.

Definition cnext (l : Label) (cs : CState (E:=E)) : option CState :=
  let '(mkC pw sy st) := cs in
  match l, sy, st with
  | BeginSync pilot, None, _ => Some (mkC pw (Some (syncPilotProg os s opts pilot)) st)
  | StepSync, Some t, _ => (λ '(t', pw'), mkC pw' (Some t') st) <$> tnext t pw
  | EndSync, Some (PDone _), _ => Some (mkC pw None st)
  | BeginStop pilot, _, None => Some (mkC pw sy (Some (stopProg os opts pilot)))
  | StepStop, _, Some t => (λ '(t', pw'), mkC pw' sy (Some t')) <$> tnext t pw
  | Exit status, _, _ =>
      match gp_process (fst pw) with
      | Some p => if Running p then Some (mkC (set_process (exited status p) (fst pw), snd pw) sy st) else None
      | None => None
      end
  | Waited, _, _ =>
      match gp_process (fst pw) with
      | Some p => match Process_state p with Some _ => Some (mkC (set_process (waitDone p) (fst pw), snd pw) sy st) | None => None end
      | None => None
      end
  | _, _, _ => None
  end.

Fixpoint crun (ls : list Label) (cs : CState (E:=E)) : option CState :=
  match ls with
  | [] => Some cs
  | l :: ls => match cnext l cs with Some cs => crun ls cs | None => None end
  end.

Lemma tnext_tstep {A} (t : prog E A) pw t' pw' : tnext t pw = Some (t', pw') → tstep t pw t' pw'.
Proof.
  destruct t as [a|B m k|k]; simpl; [done|..].
  - destruct (m pw) as [[b|] pw1]; [|done]. intros [= <- <-]. eauto.
  - unfold waited. destruct (gp_process (fst pw)) as [p|]; [|done]. destruct (ad_doneCh p) eqn:Hd; [|done]. intros [= <- <-]. eauto.
Qed.

Lemma cnext_cstep l cs cs' : cnext l cs = Some cs' → cstep os s opts cs cs'.
Proof.
  destruct cs as [[g env] sy st]. intros Hn. destruct l; simpl in Hn.
  - destruct sy; [done|]. injection Hn as <-. constructor.
  - destruct sy as [t|]; [|done]. destruct (tnext t (g, env)) as [[t' pw']|] eqn:Ht; [|done].
    injection Hn as <-. constructor. by apply tnext_tstep.
  - destruct sy as [[r| |]|]; try done. injection Hn as <-. constructor.
  - destruct st; [by destruct sy|]. destruct sy; injection Hn as <-; constructor.
  - destruct st as [t|]; [|by destruct sy]. assert ((λ '(t', pw'), mkC pw' sy (Some t')) <$> tnext t (g, env) = Some cs') as Hn' by by destruct sy.
    destruct (tnext t (g, env)) as [[t' pw']|] eqn:Ht; [|done]. injection Hn' as <-. constructor. by apply tnext_tstep.
  - assert (match gp_process g with
            | Some p => if Running p then Some (mkC (set_process (exited st0 p) g, env) sy st) else None
            | None => None end = Some cs') as Hn' by by destruct sy as [[]|], st.
    destruct (gp_process g) as [p|] eqn:Hp; [|done]. destruct (Running p) eqn:Hr; [|done]. injection Hn' as <-. by constructor.
  - assert (match gp_process g with
            | Some p => match Process_state p with Some _ => Some (mkC (set_process (waitDone p) g, env) sy st) | None => None end
            | None => None end = Some cs') as Hn' by by destruct sy as [[]|], st.
    destruct (gp_process g) as [p|] eqn:Hp; [|done]. destruct (Process_state p) eqn:Hst; [|done]. injection Hn' as <-.
    constructor; eauto.
Qed.

Lemma crun_steps ls cs cs' : crun ls cs = Some cs' → rtc (cstep os s opts) cs cs'.
Proof.
  revert cs. induction ls as [|l ls IH]; intros cs; simpl; [by intros [= <-]|].
  destruct (cnext l cs) as [cs1|] eqn:Hn; [|done]. intros Hr. eapply rtc_l; [by eapply cnext_cstep|by apply IH].
Qed.
Lemma crun_app ls ls' cs cs' : crun ls cs = Some cs' → crun (ls ++ ls') cs = crun ls' cs'.
Proof.
  revert cs. induction ls as [|l ls IH]; intros cs; simpl; [by intros [= ->]|].
  destruct (cnext l cs) as [cs1|]; [apply IH|done].
Qed.
End schedules.

(** ** A concrete pilot *)

Abbreviation demoRun ls cs := (crun demoOS demoState demoOptions ls cs).

(** Whether the pilot is shutting down and its process runs, the hooks of the last phase, and how
    the shutdown ended *)
Definition summary (cs : CState (E:=nat)) : bool * bool * list string * option (option Err) :=
  (gp_shutdown (c_pilot cs), IsRunning (c_pilot cs), elements (executedIn (gp_executed (c_pilot cs)) PostStop),
   match c_stop cs with Some (PDone r) => Some r | _ => None end).

Definition demoInitial : CState (E:=nat) := initialC (emptyWorld, 0%nat).

(** The first sync fails in its hook, the second starts the process. *)
Definition startup : list Label :=
  BeginSync demoPilot :: replicate 4 StepSync ++ [EndSync] ++ BeginSync demoPilot :: replicate 14 StepSync ++ [EndSync].

(** The process ends after it got the signal. *)
Definition shutdown : list Label :=
  [BeginStop demoPilot; StepStop; StepStop; StepStop; StepStop; StepStop; Exit None; Waited; StepStop; StepStop; StepStop].

(** Runs are compared by what they show. *)
Lemma demoRun_summary ls cs r : summary <$> demoRun ls cs = Some r → ∃ cs', demoRun ls cs = Some cs' ∧ summary cs' = r.
Proof. destruct (demoRun ls cs) as [cs'|]; [|done]. intros [= <-]. eauto. Qed.

Lemma demoRun_then ls ls' r r' :
  summary <$> demoRun ls demoInitial = Some r → summary <$> demoRun (ls ++ ls') demoInitial = Some r' →
  ∃ cs cs', demoRun ls demoInitial = Some cs ∧ demoRun ls' cs = Some cs' ∧ summary cs = r ∧ summary cs' = r'.
Proof.
  intros (cs & H1 & Hr)%demoRun_summary H2. rewrite (crun_app _ _ _ _ _ _ _ H1) in H2.
  apply demoRun_summary in H2 as (cs' & H2 & Hr'). eauto 10.
Qed.

Lemma pilot_lifecycle_witness :
  ∃ cs cs', demoRun startup demoInitial = Some cs ∧ demoRun shutdown cs = Some cs' ∧
    summary cs = (false, true, [], None) ∧ summary cs' = (true, false, ["clean"], Some None) ∧
    pilot_inv demoOptions (c_pilot cs) ∧ later (c_pilot cs) (c_pilot cs').
Proof.
  destruct (demoRun_then startup shutdown (false, true, [], None) (true, false, ["clean"], Some None))
    as (cs & cs' & H1 & H2 & Hs & Hs'); [vm_compute; reflexivity..|].
  destruct (pilot_lifecycle demoOS demoState demoOptions (emptyWorld, 0%nat) cs cs' (crun_steps _ _ _ _ _ _ H1) (crun_steps _ _ _ _ _ _ H2))
    as (Hi & Hl & _).
  exists cs, cs'. split_and!; assumption.
Defined.

(** The second sync has read that the pilot is not shutting down when stop is called: stop finds no
    process running and returns nil, and the sync starts the process. *)
Definition startupAndStop : list Label :=
  BeginSync demoPilot :: replicate 4 StepSync ++ [EndSync] ++ BeginSync demoPilot :: replicate 6 StepSync ++
  [BeginStop demoPilot; StepStop; StepStop].

Lemma stop_races_with_sync :
  ∃ cs cs', rtc (cstep demoOS demoState demoOptions) demoInitial cs ∧ rtc (cstep demoOS demoState demoOptions) cs cs' ∧
    summary cs = (true, false, [], Some None) ∧ summary cs' = (true, true, [], Some None).
Proof.
  destruct (demoRun_then startupAndStop [StepSync] (true, false, [], Some None) (true, true, [], Some None))
    as (cs & cs' & H1 & H2 & Hs & Hs'); [vm_compute; reflexivity..|].
  exists cs, cs'. split_and!; [by eapply crun_steps|by eapply crun_steps|done|done].
Qed.

(** The process fails between the two reads of stop: the error is not stored yet, Stop returns nil
    and the PostStop hooks run. *)
Lemma failed_exit_can_run_poststop :
  ∃ cs, demoRun (startup ++ [BeginStop demoPilot; StepStop; StepStop; StepStop; Exit (Some (Errorf "exit status 1" [])); StepStop; StepStop; StepStop])
      demoInitial = Some cs ∧
    summary cs = (true, false, ["clean"], Some None) ∧
    (gp_process (c_pilot cs) ≫= Process_state) = Some (Some (Errorf "exit status 1" [])).
Proof. eexists. split; [vm_compute; reflexivity|]. split; vm_compute; reflexivity. Qed.
