(* ===== verification/PilotScheduler.v ===== *)
(** * The scheduled work queue of a pilot

    pkg/pilot/genericpilot/controller/scheduler/scheduler.go.  The map [work]
    holds one timer per key.  A timer is an object of its own (time.AfterFunc):
    it is pending, or its function runs on a goroutine of its own, or it is
    over.  The function first calls processFunc and then, deferred, clears the
    timer of its key, so firing is two steps, and the worker's calls can come
    between them. *)

From S2P Require Import Prelude.

Section scheduler.
Context {A : Type}.

Inductive TimerState := Pending | Firing | Over.

#[export] Instance TimerState_eq_dec : EqDecision TimerState.
Proof. solve_decision. Defined.

Record Timer := mkTimer {
  t_key : string;
  t_obj : A;
  t_deadline : Z;
  t_state : TimerState;
}.

(** [sw_timers] are all timers ever made; a timer is named by its index. *)
Record ScheduledWorkQueue := mkScheduledWorkQueue {
  sw_work : gmap string nat;
  sw_timers : list Timer;
}.

Definition NewScheduledWorkQueue : ScheduledWorkQueue := mkScheduledWorkQueue ∅ [].

Definition set_t_state (st : TimerState) (t : Timer) : Timer :=
  mkTimer (t_key t) (t_obj t) (t_deadline t) st.

(** time.Timer.Stop: a pending timer will not fire; a running function goes on. *)
Definition Timer_Stop (t : Timer) : Timer :=
  match t_state t with
  | Pending => set_t_state Over t
  | _ => t
  end.

Definition clearTimer (key : string) (q : ScheduledWorkQueue) : ScheduledWorkQueue :=
  match sw_work q !! key with
  | Some timer => mkScheduledWorkQueue (delete key (sw_work q)) (alter Timer_Stop timer (sw_timers q))
  | None => q
  end.

Definition AddWithKey (key : string) (obj : A) (duration now : Z) (q : ScheduledWorkQueue) : ScheduledWorkQueue :=
  let q := clearTimer key q in
  mkScheduledWorkQueue (<[key := length (sw_timers q)]> (sw_work q))
    (sw_timers q ++ [mkTimer key obj (now + duration) Pending]).

Definition Sched_Forget (key : string) (q : ScheduledWorkQueue) : ScheduledWorkQueue := clearTimer key q.

(** The runtime starts the function of a due timer, which calls processFunc. *)
Definition fire (i : nat) (now : Z) (q : ScheduledWorkQueue) : option (A * ScheduledWorkQueue) :=
  match sw_timers q !! i with
  | Some t =>
      if bool_decide (t_state t = Pending) && bool_decide (t_deadline t ≤ now)
      then Some (t_obj t, mkScheduledWorkQueue (sw_work q) (alter (set_t_state Firing) i (sw_timers q)))
      else None
  | None => None
  end.

(** The function returns: the deferred clearTimer runs. *)
Definition fired (i : nat) (q : ScheduledWorkQueue) : option ScheduledWorkQueue :=
  match sw_timers q !! i with
  | Some t =>
      if bool_decide (t_state t = Firing)
      then Some (clearTimer (t_key t) (mkScheduledWorkQueue (sw_work q) (alter (set_t_state Over) i (sw_timers q))))
      else None
  | None => None
  end.

(** ** The transition system *)

Inductive SLabel :=
| SAdd (key : string) (obj : A) (duration now : Z)
| SForget (key : string)
| SFire (i : nat) (now : Z)
| SFired (i : nat).

Definition sched_step (l : SLabel) (q : ScheduledWorkQueue) : option ScheduledWorkQueue :=
  match l with
  | SAdd key obj duration now => Some (AddWithKey key obj duration now q)
  | SForget key => Some (Sched_Forget key q)
  | SFire i now => snd <$> fire i now q
  | SFired i => fired i q
  end.

Fixpoint sched_run (ls : list SLabel) (q : ScheduledWorkQueue) : option ScheduledWorkQueue :=
  match ls with
  | [] => Some q
  | l :: ls => q ← sched_step l q; sched_run ls q
  end.

(** The timers of a key that are still to fire. *)
Definition pendingFor (key : string) (q : ScheduledWorkQueue) : list Timer :=
  List.filter (λ t, bool_decide (t_key t = key) && bool_decide (t_state t = Pending)) (sw_timers q).

Definition firingFor (key : string) (q : ScheduledWorkQueue) : list Timer :=
  List.filter (λ t, bool_decide (t_key t = key) && bool_decide (t_state t = Firing)) (sw_timers q).

(** Every pending timer is the one its key maps to, and the map points to
    timers of its keys. *)
Definition sched_ok (q : ScheduledWorkQueue) : Prop :=
  (∀ i t, sw_timers q !! i = Some t → t_state t = Pending → sw_work q !! t_key t = Some i) ∧
  (∀ key i, sw_work q !! key = Some i → ∃ t, sw_timers q !! i = Some t ∧ t_key t = key).

Lemma set_t_state_key st t : t_key (set_t_state st t) = t_key t.
Proof. done. Qed.

Lemma Timer_Stop_key t : t_key (Timer_Stop t) = t_key t.
Proof. unfold Timer_Stop. by destruct (t_state t). Qed.

Lemma Timer_Stop_not_pending t : t_state (Timer_Stop t) ≠ Pending.
Proof. unfold Timer_Stop. by destruct (t_state t) eqn:Hs; simpl; rewrite ?Hs. Qed.

(** A timer that is no longer pending does not matter to the invariant. *)
Lemma sched_ok_alter f i work timers :
  (∀ t, t_key (f t) = t_key t) → (∀ t, timers !! i = Some t → t_state (f t) ≠ Pending) →
  sched_ok (mkScheduledWorkQueue work timers) → sched_ok (mkScheduledWorkQueue work (alter f i timers)).
Proof.
  intros Hkey Hnp [H1 H2]. simpl in *. split; simpl.
  - intros j t Hj Hp. destruct (decide (j = i)) as [->|Hne].
    + rewrite list_lookup_alter_eq in Hj. apply fmap_Some in Hj as (t' & Ht' & ->). by destruct (Hnp _ Ht').
    + rewrite list_lookup_alter_ne in Hj by done. by apply H1.
  - intros key j Hj. destruct (H2 _ _ Hj) as (t & Ht & Hk). destruct (decide (j = i)) as [->|Hne].
    + exists (f t). rewrite list_lookup_alter_eq, Ht. by rewrite Hkey.
    + exists t. by rewrite list_lookup_alter_ne.
Qed.

Lemma clearTimer_ok key q : sched_ok q → sched_ok (clearTimer key q).
Proof.
  intros Hok. unfold clearTimer. destruct (sw_work q !! key) as [i|] eqn:Hw; [|done].
  assert (sched_ok (mkScheduledWorkQueue (sw_work q) (alter Timer_Stop i (sw_timers q)))) as [H1 H2].
  { destruct q. apply sched_ok_alter; [apply Timer_Stop_key|intros; apply Timer_Stop_not_pending|done]. }
  destruct Hok as [_ H2']. destruct (H2' _ _ Hw) as (t0 & Ht0 & Hk0). split; simpl in *.
  - intros j t Hj Hp. specialize (H1 _ _ Hj Hp). rewrite lookup_delete_ne; [done|]. intros Heq.
    rewrite <- Heq, Hw in H1. injection H1 as ->. rewrite list_lookup_alter_eq, Ht0 in Hj. injection Hj as <-.
    by apply Timer_Stop_not_pending in Hp.
  - intros key' j Hj. apply lookup_delete_Some in Hj as [_ Hj]. eauto.
Qed.

Lemma clearTimer_work key q : sw_work (clearTimer key q) !! key = None.
Proof. unfold clearTimer. destruct (sw_work q !! key) eqn:Hw; [|done]. apply lookup_delete_eq. Qed.

Lemma AddWithKey_ok key obj d now q : sched_ok q → sched_ok (AddWithKey key obj d now q).
Proof.
  intros Hok%(clearTimer_ok key). pose proof (clearTimer_work key q) as Hw. unfold AddWithKey.
  destruct (clearTimer key q) as [work timers]. destruct Hok as [H1 H2]. simpl in *. split; simpl.
  - intros i t Hi Hp. apply lookup_app_Some in Hi as [Hi|[Hlen Hi]].
    + specialize (H1 _ _ Hi Hp). rewrite lookup_insert_ne; [done|]. congruence.
    + apply list_lookup_singleton_Some in Hi as [Hz <-]. simpl. rewrite lookup_insert_eq. f_equal. lia.
  - intros key' i. destruct (decide (key' = key)) as [->|Hne].
    + rewrite lookup_insert_eq. intros [= <-]. eexists. split; [apply list_lookup_middle; reflexivity|done].
    + rewrite lookup_insert_ne by done. intros Hi. destruct (H2 _ _ Hi) as (t & Ht & Hk).
      exists t. split; [|done]. apply lookup_app_Some. by left.
Qed.

Lemma sched_step_ok l q q' : sched_ok q → sched_step l q = Some q' → sched_ok q'.
Proof.
  intros Hok. destruct l as [key obj d now|key|i now|i]; simpl.
  - intros [= <-]. by apply AddWithKey_ok.
  - intros [= <-]. by apply clearTimer_ok.
  - unfold fire. destruct (sw_timers q !! i) as [t|]; [|done]. destruct (_ && _); [|done]. intros [= <-].
    destruct q. by apply sched_ok_alter.
  - unfold fired. destruct (sw_timers q !! i) as [t|]; [|done]. case_bool_decide; [|done]. intros [= <-].
    apply clearTimer_ok. destruct q. by apply sched_ok_alter.
Qed.

Lemma sched_new_ok : sched_ok NewScheduledWorkQueue.
Proof. by split. Qed.

Lemma sched_run_ok ls q q' : sched_ok q → sched_run ls q = Some q' → sched_ok q'.
Proof.
  revert q. induction ls as [|l ls IH]; intros q Hok; simpl; [by intros [= <-]|].
  destruct (sched_step l q) as [q1|] eqn:Hs; simpl; [|done]. apply IH. by eapply sched_step_ok.
Qed.

(** ** What the queue promises *)

(** Two pending timers of a key are the same timer. *)
Lemma pending_unique q i j t u :
  sched_ok q → sw_timers q !! i = Some t → sw_timers q !! j = Some u →
  t_state t = Pending → t_state u = Pending → t_key t = t_key u → i = j.
Proof.
  intros [H1 _] Hi Hj Hp Hq Hk. pose proof (H1 _ _ Hi Hp) as E1. pose proof (H1 _ _ Hj Hq) as E2.
  rewrite Hk in E1. congruence.
Qed.

(** The calls and firings that concern the timer [i] of [key]. *)
Definition touches (key : string) (i : nat) (l : SLabel) : Prop :=
  match l with
  | SAdd key' _ _ _ => key' = key
  | SForget key' => key' = key
  | SFire j _ => j = i
  | SFired _ => False
  end.

(** The timer [i] of [key] is pending, and no older function of the key runs. *)
Definition waitsAlone (key : string) (i : nat) (t : Timer) (q : ScheduledWorkQueue) : Prop :=
  sched_ok q ∧ sw_timers q !! i = Some t ∧ t_key t = key ∧ t_state t = Pending ∧
  ∀ j u, sw_timers q !! j = Some u → t_key u = key → t_state u ≠ Firing.

Lemma clearTimer_other key key' i t q :
  waitsAlone key i t q → key' ≠ key → waitsAlone key i t (clearTimer key' q).
Proof.
  intros (Hok & Hi & Hk & Hp & Hnf) Hne. split; [by apply clearTimer_ok|].
  unfold clearTimer. destruct (sw_work q !! key') as [j|] eqn:Hw; simpl; [|done].
  destruct (proj2 Hok _ _ Hw) as (t' & Ht' & Hk').
  assert (j ≠ i) as Hji by (intros ->; congruence).
  split_and!; [by rewrite list_lookup_alter_ne|done..|].
  intros k u Hu Hku. destruct (decide (k = j)) as [->|Hkj].
  - rewrite list_lookup_alter_eq, Ht' in Hu. injection Hu as <-. rewrite Timer_Stop_key in Hku. congruence.
  - rewrite list_lookup_alter_ne in Hu by done. eauto.
Qed.

Lemma waitsAlone_step key i t l q q' :
  waitsAlone key i t q → ¬ touches key i l → sched_step l q = Some q' → waitsAlone key i t q'.
Proof.
  intros Hw Hnt Hs. pose proof Hw as (Hok & Hi & Hk & Hp & Hnf).
  pose proof (sched_step_ok _ _ _ Hok Hs) as Hok'.
  destruct l as [key' obj d now|key'|j now|j]; simpl in *.
  - injection Hs as <-. destruct (clearTimer_other key key' i t q Hw Hnt) as (_ & Hi' & _ & _ & Hnf').
    split; [done|]. unfold AddWithKey; simpl. split_and!; [|done..|].
    + apply lookup_app_Some. by left.
    + intros k u [Hu|[_ Hu]]%lookup_app_Some Hku; [eauto|].
      apply list_lookup_singleton_Some in Hu as [_ <-]. done.
  - injection Hs as <-. by apply clearTimer_other.
  - unfold fire in Hs. destruct (sw_timers q !! j) as [u|] eqn:Hj; [|done].
    destruct (bool_decide (t_state u = Pending)) eqn:Hpu; [|done]. apply bool_decide_eq_true in Hpu.
    destruct (bool_decide _); [|done]. injection Hs as <-. split; [done|]. simpl.
    split_and!; [by rewrite list_lookup_alter_ne|done..|].
    intros k v Hv Hkv. destruct (decide (k = j)) as [->|Hkj].
    + rewrite list_lookup_alter_eq, Hj in Hv. injection Hv as <-. rewrite set_t_state_key in Hkv.
      destruct Hnt. eapply (pending_unique q j i u t); congruence.
    + rewrite list_lookup_alter_ne in Hv by done. eauto.
  - unfold fired in Hs. destruct (sw_timers q !! j) as [u|] eqn:Hj; [|done].
    case_bool_decide as Hf; [|done]. injection Hs as <-.
    apply clearTimer_other; [|intros Hku; by apply (Hnf j u)].
    split; [destruct q; by apply sched_ok_alter|]. simpl.
    assert (j ≠ i) as Hji by (intros ->; congruence).
    split_and!; [by rewrite list_lookup_alter_ne|done..|].
    intros k v Hv Hkv. destruct (decide (k = j)) as [->|Hkj].
    + rewrite list_lookup_alter_eq, Hj in Hv. by injection Hv as <-.
    + rewrite list_lookup_alter_ne in Hv by done. eauto.
Qed.

Lemma filter_none {B} (p : B → bool) (l : list B) : (∀ b, b ∈ l → p b = false) → List.filter p l = [].
Proof.
  induction l as [|c l IH]; intros Hl; [done|]. simpl. rewrite (Hl c) by (by left).
  apply IH. intros b Hb. apply Hl. by right.
Qed.

Lemma filter_one {B} (p : B → bool) (l : list B) i b :
  l !! i = Some b → p b = true → (∀ j c, l !! j = Some c → p c = true → j = i) → List.filter p l = [b].
Proof.
  revert i. induction l as [|c l IH]; intros i Hi Hb Hu; [done|]. simpl.
  destruct (p c) eqn:Hc.
  - assert (i = 0%nat) as -> by (symmetry; by apply (Hu 0%nat c)). injection Hi as ->. f_equal.
    apply filter_none. intros d Hd. apply list_elem_of_lookup in Hd as [k Hk].
    destruct (p d) eqn:Hpd; [|done]. by specialize (Hu (S k) d Hk Hpd).
  - destruct i as [|i]; [simpl in Hi; congruence|]. apply (IH i); [done..|].
    intros j d Hj Hd. specialize (Hu (S j) d Hj Hd). lia.
Qed.

Lemma waitsAlone_pendingFor key i t q : waitsAlone key i t q → pendingFor key q = [t].
Proof.
  intros (Hok & Hi & <- & Hp & _). apply (filter_one _ _ i).
  - done.
  - by rewrite Hp, !bool_decide_eq_true_2.
  - intros j u Hj [Hk%bool_decide_eq_true Hpu%bool_decide_eq_true]%andb_true_iff.
    by apply (pending_unique q j i u t).
Qed.

Lemma firingFor_nil key q j u :
  firingFor key q = [] → sw_timers q !! j = Some u → t_key u = key → t_state u ≠ Firing.
Proof.
  unfold firingFor. intros Hn Hj Hk Hf. assert (u ∈ ([] : list Timer)) as Hin; [|by apply not_elem_of_nil in Hin].
  rewrite <- Hn. apply list_elem_of_In, filter_In. split; [by apply list_elem_of_In, (list_elem_of_lookup_2 _ j)|].
  by rewrite Hf, Hk, !bool_decide_eq_true_2.
Qed.

Lemma clearTimer_firing key key' q j u :
  sw_timers (clearTimer key' q) !! j = Some u → t_key u = key → t_state u = Firing →
  ∃ u', sw_timers q !! j = Some u' ∧ t_key u' = key ∧ t_state u' = Firing.
Proof.
  unfold clearTimer. destruct (sw_work q !! key') as [i|]; [simpl|by eauto].
  intros Hj Hk Hf. destruct (decide (j = i)) as [->|Hne].
  - rewrite list_lookup_alter_eq in Hj. apply fmap_Some in Hj as (u' & Hu' & ->). exists u'.
    rewrite Timer_Stop_key in Hk. unfold Timer_Stop in Hf. by destruct (t_state u') eqn:Hs; rewrite ?Hs in Hf.
  - rewrite list_lookup_alter_ne in Hj by done. eauto.
Qed.

Lemma AddWithKey_waits key obj d now q :
  sched_ok q → firingFor key q = [] →
  waitsAlone key (length (sw_timers (clearTimer key q))) (mkTimer key obj (now + d) Pending)
    (AddWithKey key obj d now q).
Proof.
  intros Hok Hnf. split; [by apply AddWithKey_ok|]. unfold AddWithKey; simpl.
  split_and!; [by apply list_lookup_middle|done..|].
  intros j u [Hu|[_ Hu]]%lookup_app_Some Hk Hf.
  - destruct (clearTimer_firing key key q j u Hu Hk Hf) as (u' & Hu' & Hk' & Hf').
    by apply (firingFor_nil key q j u').
  - by apply list_lookup_singleton_Some in Hu as [_ <-].
Qed.

(** Right after the call, the new timer is the only pending one of its key. *)
Lemma AddWithKey_pendingFor key obj d now q :
  sched_ok q → pendingFor key (AddWithKey key obj d now q) = [mkTimer key obj (now + d) Pending].
Proof.
  intros Hok. pose proof (AddWithKey_ok key obj d now q Hok) as Hok'.
  assert (sw_timers (AddWithKey key obj d now q) !! length (sw_timers (clearTimer key q)) =
          Some (mkTimer key obj (now + d) Pending)) as Hi by (unfold AddWithKey; by apply list_lookup_middle).
  apply (filter_one _ _ (length (sw_timers (clearTimer key q)))); [done|by rewrite !bool_decide_eq_true_2|].
  intros j u Hj [Hk%bool_decide_eq_true Hpu%bool_decide_eq_true]%andb_true_iff.
  by apply (pending_unique _ j _ u _ Hok' Hj Hi).
Qed.

Lemma AddWithKey_fires key obj d now now' q :
  now + d ≤ now' →
  ∃ q', fire (length (sw_timers (clearTimer key q))) now' (AddWithKey key obj d now q) = Some (obj, q').
Proof.
  intros Hle. unfold fire, AddWithKey. cbn [sw_timers]. rewrite list_lookup_middle by done. simpl.
  rewrite bool_decide_eq_true_2 by done. eauto.
Qed.

Lemma waitsAlone_run key i t ls q q' :
  waitsAlone key i t q → Forall (λ l, ¬ touches key i l) ls → sched_run ls q = Some q' → waitsAlone key i t q'.
Proof.
  intros Hw Hnt. revert q Hw. induction Hnt as [|l ls Hl _ IH]; intros q Hw; simpl; [by intros [= <-]|].
  destruct (sched_step l q) as [q1|] eqn:Hs; simpl; [|done]. apply IH. by eapply waitsAlone_step.
Qed.

(** A timer added for a key while no function for the key is running stays the only one
    pending for the key for as long as the key is neither added nor forgotten again and the timer
    has not fired, and from its deadline on it can fire, with the object it was added with. *)
Theorem scheduled_timer_waits ls ls' key obj d now q q' :
  sched_run ls NewScheduledWorkQueue = Some q → firingFor key q = [] →
  sched_run ls' (AddWithKey key obj d now q) = Some q' →
  let i := length (sw_timers (clearTimer key q)) in
  Forall (λ l, ¬ touches key i l) ls' →
  pendingFor key q' = [mkTimer key obj (now + d) Pending] ∧
  (∀ now', now + d ≤ now' → ∃ q'', fire i now' q' = Some (obj, q'')).
Proof.
  intros Hrun Hnf Hrun' i Hnt. pose proof (sched_run_ok _ _ _ sched_new_ok Hrun) as Hok.
  assert (waitsAlone key i (mkTimer key obj (now + d) Pending) q') as Hw.
  { eapply waitsAlone_run; [by apply AddWithKey_waits|done..]. }
  split; [by eapply waitsAlone_pendingFor|]. intros now' Hle. destruct Hw as (_ & Hi & _).
  unfold fire. rewrite Hi. simpl. rewrite bool_decide_eq_true_2 by done. eauto.
Qed.

End scheduler.
Arguments Timer : clear implicits.
Arguments ScheduledWorkQueue : clear implicits.
Arguments SLabel : clear implicits.

(** A key added again while the function of its last timer runs is lost: the
    deferred clear of that function stops the new timer. *)
Theorem late_clear_cancels_resync (key : string) (obj obj' : string) (d now now' : Z) :
  now + d ≤ now' →
  ∃ q, sched_run [SAdd key obj d now; SFire 0 now'; SAdd key obj' d now'; SFired 0] NewScheduledWorkQueue = Some q ∧
    pendingFor key q = [] ∧ sw_work q !! key = None.
Proof.
  intros Hle. unfold sched_run, sched_step, AddWithKey, clearTimer. simpl.
  rewrite !lookup_empty. simpl. unfold fire; simpl. rewrite bool_decide_eq_true_2 by done. simpl.
  rewrite lookup_insert_eq. simpl. eexists. split; [done|].
  split; [|apply clearTimer_work]. unfold clearTimer. simpl. rewrite lookup_insert_eq. unfold pendingFor; simpl.
  by rewrite !bool_decide_eq_true_2.
Qed.

(** ** Concrete runs *)

Lemma scheduled_timer_waits_witness :
  ∃ q', sched_run [SAdd "default/other" "other" 10 2; SFire 1 12; SFired 1]
          (AddWithKey "default/demo-0" "demo-0" 10 0 NewScheduledWorkQueue) = Some q' ∧
        pendingFor "default/demo-0" q' = [mkTimer "default/demo-0" "demo-0" 10 Pending].
Proof.
  eexists. split; [vm_compute; reflexivity|].
  eapply (scheduled_timer_waits [] [SAdd "default/other" "other" 10 2; SFire 1 12; SFired 1]
    "default/demo-0" "demo-0" 10 0 NewScheduledWorkQueue); [reflexivity|reflexivity|vm_compute; reflexivity|].
  repeat constructor; vm_compute; intros Hf; (discriminate Hf || destruct Hf).
Defined.

Lemma late_clear_cancels_resync_witness :
  ∃ q, sched_run [SAdd "default/demo-0" "demo-0" 10 0; SFire 0 10; SAdd "default/demo-0" "demo-0" 10 10; SFired 0]
         NewScheduledWorkQueue = Some q ∧ pendingFor "default/demo-0" q = [] ∧ sw_work q !! "default/demo-0" = None.
Proof. apply (late_clear_cancels_resync "default/demo-0" "demo-0" "demo-0" 10 0 10). lia. Defined.
