(* ===== verification/PilotRuntime.v ===== *)
(** * The control loop of a pilot

    pkg/pilot/genericpilot/controller: which Pilots a pilot syncs (itself and
    its peers), the cached copy of its own resource, the sync of one key with
    the resync it schedules, and the queue's worker.

    The sync function of the implementor is a parameter, with a state [X] of
    its own; GenericPilot's syncPilot is such a function. *)

From S2P Require Import Prelude GoStrings Semver K8s WorkQueue Types CassandraVersion Cluster Fixtures Handlers PilotHooks GenericPilot PilotScheduler.

(** The fields of Controller that change. *)
Record Controller := mkController {
  ct_cachedThisPilot : option Pilot;
  ct_scheduledWorkQueue : ScheduledWorkQueue Pilot;
}.

Definition newController : Controller := mkController None NewScheduledWorkQueue.

(** time.Second * 10 *)
Definition resyncPeriod : Z := 10.

Section runtime.
Context {X : Type} (s : State) (pilotName pilotNamespace : string).
Context (syncFunc : Pilot → GoM X (Pilot * option Err)).
(** How many owners RootControllerRef may follow. *)
Context (fuel : nat).

Definition ctl_isThisPilot (name namespace : string) : bool :=
  bool_decide (name = pilotName) && bool_decide (namespace = pilotNamespace).
Definition ctl_IsThisPilot (pilot : Pilot) : bool := ctl_isThisPilot (pil_Name pilot) (pil_Namespace pilot).

Definition ThisPilot (c : Controller) : Res Pilot :=
  match lister_Get (PilotLister s) pilotNamespace pilotName with
  | inl err =>
      if IsNotFound (Some err) then
        match ct_cachedThisPilot c with
        | Some cached => inr cached
        | None => inl err
        end
      else inl err
  | inr thisPilot => inr thisPilot
  end.

(** [None]: the walk up the owners did not end within the fuel. *)
Definition IsPeer (c : Controller) (pilot : Pilot) : option (Res bool) :=
  match ThisPilot c with
  | inl err => Some (inl err)
  | inr thisPilot =>
      match RootControllerRef fuel s "" (pil_Meta thisPilot) with
      | None => None
      | Some (inl err) =>
          Some (inl (Wrapf err "unable to get root controller ref for this pilot %s/%s"
                       [AStr (pil_Namespace pilot); AStr (pil_Name pilot)]))
      | Some (inr None) =>
          Some (inl (Errorf "cannot determine owner of this Pilot resource (%q) as it is nil. this is an invalid state"
                       [AStr pilotName]))
      | Some (inr (Some clusterOwnerRef)) =>
          match RootControllerRef fuel s "" (pil_Meta pilot) with
          | None => None
          | Some (inl err) =>
              Some (inl (Wrapf err "unable to get root controller ref for other pilot %s/%s"
                           [AStr (pil_Namespace pilot); AStr (pil_Name pilot)]))
          | Some (inr None) => Some (inr false)
          | Some (inr (Some pilotOwnerRef)) =>
              Some (inr (bool_decide (or_Name clusterOwnerRef = or_Name pilotOwnerRef) &&
                         bool_decide (or_UID clusterOwnerRef = or_UID pilotOwnerRef) &&
                         bool_decide (or_Kind clusterOwnerRef = or_Kind pilotOwnerRef) &&
                         bool_decide (or_APIVersion clusterOwnerRef = or_APIVersion pilotOwnerRef)))
          end
      end
  end.

(** The pilot a key stands for: from the cache, or the remembered copy of this
    pilot once it is gone.  [None]: there is nothing to sync. *)
Definition pilotForKey (c : Controller) (namespace name : string) : Res (option Pilot) :=
  match lister_Get (PilotLister s) namespace name with
  | inr pilot => inr (Some pilot)
  | inl err =>
      if IsNotFound (Some err) then
        if negb (ctl_isThisPilot name namespace) then inr None
        else
          match ThisPilot c with
          | inl _ => inr None
          | inr thisPilot => inr (Some thisPilot)
          end
      else inl err
  end.

(** Controller.sync at time [now]; the result is [None] when the owners have no
    end. *)
Definition sync (now : Z) (key : string) : GoM (Controller * X) (option (option Err)) := λ '(c, x),
  match SplitMetaNamespaceKey key with
  | inl err => (Ret (Some (Some err)), (c, x))
  | inr (namespace, name) =>
      match pilotForKey c namespace name with
      | inl err => (Ret (Some (Some err)), (c, x))
      | inr None => (Ret (Some None), (c, x))
      | inr (Some pilot) =>
          match IsPeer c pilot with
          | None => (Ret None, (c, x))
          | Some (inl err) => (Ret (Some (Some err)), (c, x))
          | Some (inr false) => (Ret (Some None), (c, x))
          | Some (inr true) =>
              let cached := if ctl_IsThisPilot pilot then Some pilot else ct_cachedThisPilot c in
              match syncFunc pilot x with
              | (Panic why, x) => (Panic why, (mkController cached (ct_scheduledWorkQueue c), x))
              | (Ret (pilot, err), x) =>
                  (Ret (Some err),
                   (mkController cached (AddWithKey key pilot resyncPeriod now (ct_scheduledWorkQueue c)), x))
              end
          end
      end
  end.

(** What a fired timer calls. *)
Definition enqueuePilot (pilot : Pilot) (q : Queue) : Queue :=
  match KeyFunc (ObjOf (pil_Meta pilot)) with
  | inl _ => q
  | inr key => AddRateLimited key q
  end.

(** ** What a sync does *)

(** The pilot and this pilot have the same root. *)
Definition sameCluster (c : Controller) (pilot : Pilot) : Prop :=
  ∃ this rootThis rootOther,
    ThisPilot c = inr this ∧
    RootControllerRef fuel s "" (pil_Meta this) = Some (inr (Some rootThis)) ∧
    RootControllerRef fuel s "" (pil_Meta pilot) = Some (inr (Some rootOther)) ∧
    or_Name rootThis = or_Name rootOther ∧ or_UID rootThis = or_UID rootOther ∧
    or_Kind rootThis = or_Kind rootOther ∧ or_APIVersion rootThis = or_APIVersion rootOther.

Lemma IsPeer_spec c pilot : IsPeer c pilot = Some (inr true) ↔ sameCluster c pilot.
Proof.
  unfold IsPeer, sameCluster. split.
  - destruct (ThisPilot c) as [e|this]; [done|].
    destruct (RootControllerRef fuel s "" (pil_Meta this)) as [[e|[r|]]|] eqn:H1; try done.
    destruct (RootControllerRef fuel s "" (pil_Meta pilot)) as [[e|[r'|]]|]; try done.
    intros [= Hb]. rewrite !andb_true_iff, !bool_decide_eq_true in Hb. naive_solver.
  - intros (this & r & r' & -> & -> & -> & -> & -> & -> & ->). by rewrite !bool_decide_eq_true_2.
Qed.

(** The pilot that is synced for a key, if it is this pilot or a peer. *)
Definition peerForKey (c : Controller) (key : string) (pilot : Pilot) : Prop :=
  ∃ namespace name, SplitMetaNamespaceKey key = inr (namespace, name) ∧
    pilotForKey c namespace name = inr (Some pilot) ∧ sameCluster c pilot.

Lemma sync_peer now key c x pilot :
  peerForKey c key pilot →
  sync now key (c, x) =
  let cached := if ctl_IsThisPilot pilot then Some pilot else ct_cachedThisPilot c in
  match syncFunc pilot x with
  | (Panic why, x) => (Panic why, (mkController cached (ct_scheduledWorkQueue c), x))
  | (Ret (pilot, err), x) =>
      (Ret (Some err), (mkController cached (AddWithKey key pilot resyncPeriod now (ct_scheduledWorkQueue c)), x))
  end.
Proof.
  intros (namespace & name & Hsplit & Hpilot & Hpeer). unfold sync.
  rewrite Hsplit, Hpilot. apply IsPeer_spec in Hpeer. by rewrite Hpeer.
Qed.

Lemma sync_not_peer now key c x :
  (∀ pilot, ¬ peerForKey c key pilot) → ∃ r, sync now key (c, x) = (Ret r, (c, x)).
Proof.
  intros Hno. unfold sync. destruct (SplitMetaNamespaceKey key) as [e|[namespace name]] eqn:Hs; [eauto|].
  destruct (pilotForKey c namespace name) as [e|[pilot|]] eqn:Hp; [eauto| |eauto].
  destruct (IsPeer c pilot) as [[e|[]]|] eqn:Hpeer; eauto.
  apply IsPeer_spec in Hpeer. destruct (Hno pilot). by exists namespace, name.
Qed.

(** The sync of a key runs the sync function exactly when the key names a pilot with the
    same root owner as this pilot, taking the cached copy when its own pilot was deleted, and
    otherwise changes nothing; every such sync, failed or not, leaves the key scheduled again
    after the resync period, as its only pending timer. *)
Theorem pilot_syncs_peers_and_resyncs now key c x :
  sched_ok (ct_scheduledWorkQueue c) →
  (∀ pilot, ¬ peerForKey c key pilot) ∧ (∃ r, sync now key (c, x) = (Ret r, (c, x))) ∨
  (∃ pilot, peerForKey c key pilot ∧
     match syncFunc pilot x with
     | (Panic why, x') => ∃ c', sync now key (c, x) = (Panic why, (c', x'))
     | (Ret (pilot', err), x') => ∃ c',
         sync now key (c, x) = (Ret (Some err), (c', x')) ∧
         (ctl_IsThisPilot pilot = true → ct_cachedThisPilot c' = Some pilot) ∧
         sched_ok (ct_scheduledWorkQueue c') ∧
         pendingFor key (ct_scheduledWorkQueue c') = [mkTimer key pilot' (now + resyncPeriod) Pending]
     end).
Proof.
  intros Hok. destruct (SplitMetaNamespaceKey key) as [e|[namespace name]] eqn:Hs.
  { left. assert (∀ pilot, ¬ peerForKey c key pilot) as Hno by (intros pilot (? & ? & Hx & _); congruence).
    split; [done|by apply sync_not_peer]. }
  destruct (pilotForKey c namespace name) as [e|[pilot|]] eqn:Hp.
  2:{ destruct (IsPeer c pilot) as [[e|[]]|] eqn:Hpeer.
      2:{ apply IsPeer_spec in Hpeer. assert (peerForKey c key pilot) as Hpk by (by exists namespace, name).
          right. exists pilot. split; [done|]. rewrite (sync_peer _ _ _ _ _ Hpk).
          destruct (syncFunc pilot x) as [[[pilot' err]|why] x']; [|eauto].
          eexists. split; [done|]. simpl. split_and!; [by intros ->|by apply AddWithKey_ok|by apply AddWithKey_pendingFor]. }
      all: left; match goal with |- ?P ∧ _ => assert P as Hno end;
        [|split; [done|by apply sync_not_peer]].
      all: intros pilot' (ns & n & Hs' & Hp' & Hpeer'%IsPeer_spec); congruence. }
  all: left; match goal with |- ?P ∧ _ => assert P as Hno end; [|split; [done|by apply sync_not_peer]].
  all: intros pilot' (ns & n & Hs' & Hp' & _); congruence.
Qed.

(** The timer of a resync puts the key of the pilot back on the queue. *)
Lemma resync_requeues key namespace name pilot now now' q w :
  SplitMetaNamespaceKey key = inr (namespace, name) → key = namespace +:+ "/" +:+ name → namespace ≠ "" →
  pil_Namespace pilot = namespace → pil_Name pilot = name → q_shuttingDown q = false →
  now + resyncPeriod ≤ now' →
  ∃ i obj w', fire i now' (AddWithKey key pilot resyncPeriod now w) = Some (obj, w') ∧
    pending key (enqueuePilot obj q).
Proof.
  intros Hs -> Hns Hpns Hpn Hsd Hle.
  destruct (AddWithKey_fires (namespace +:+ "/" +:+ name) pilot resyncPeriod now now' w Hle) as [w' Hf].
  do 3 eexists. split; [done|]. unfold enqueuePilot, KeyFunc, MetaNamespaceKeyFunc. simpl.
  unfold pil_Namespace, pil_Name in *. rewrite Hpns, Hpn, bool_decide_eq_false_2 by done.
  right. unfold AddRateLimited; simpl. rewrite Hsd. set_solver.
Qed.

End runtime.

(** ** A concrete peer *)

Definition dataPilot : Pilot :=
  mkPilot (mkObjectMeta "es-demo-data-0" "default" "" "1" None None
             [NewControllerRef (pod_Meta dataPod) (mkGVK "" "v1" "Pod")] None)
    (mkPilotStatus [] None None).

Definition peerState : State :=
  let s := rootState in
  mkState (Clientset s) (Now s) (StatefulSetLister s) (ConfigMapLister s) (PodLister s)
    (ServiceLister s) (ServiceAccountLister s) (RoleBindingLister s) (RoleLister s)
    (listerOf pil_Meta [dataPilot]) (CassandraClusterLister s) (ElasticsearchClusterLister s).

Lemma dataPilot_root :
  RootControllerRef 3 peerState "" (pil_Meta dataPilot) =
  Some (inr (Some (NewControllerRef (esc_Meta demoCluster) (mkGVK GroupName "v1alpha1" "ElasticsearchCluster")))).
Proof.
  eapply (root_of_pilot_is_cluster peerState "" _ dataPod (demoSet "data" "5.6.1" 2 2 2));
    [reflexivity|reflexivity|get_listed dataPod|reflexivity|reflexivity
    |get_listed (demoSet "data" "5.6.1" 2 2 2)|reflexivity|left; reflexivity|lia].
Qed.

Lemma dataPilot_listed : lister_Get (PilotLister peerState) "default" "es-demo-data-0" = inr dataPilot.
Proof. get_listed dataPilot. Qed.

(** A sync function that always fails. *)
Definition failingSync (pilot : Pilot) : GoM nat (Pilot * option Err) := λ n,
  (Ret (pilot, Some (Errorf "connection refused" [])), S n).

Lemma pilot_syncs_peers_and_resyncs_witness :
  ∃ c', sync peerState "es-demo-data-0" "default" failingSync 3 7 "default/es-demo-data-0" (newController, 0%nat) =
          (Ret (Some (Some (Errorf "connection refused" []))), (c', 1%nat)) ∧
        ct_cachedThisPilot c' = Some dataPilot ∧
        pendingFor "default/es-demo-data-0" (ct_scheduledWorkQueue c') =
          [mkTimer "default/es-demo-data-0" dataPilot 17 Pending].
Proof.
  assert (pilotForKey peerState "es-demo-data-0" "default" newController "default" "es-demo-data-0" = inr (Some dataPilot)) as Hp
    by (unfold pilotForKey; by rewrite dataPilot_listed).
  destruct (pilot_syncs_peers_and_resyncs peerState "es-demo-data-0" "default" failingSync 3 7 "default/es-demo-data-0"
    newController 0%nat sched_new_ok) as [[Hno _]|(pilot & (ns & n & Hs & Hpk & _) & c' & Hsync & Hcache & _ & Htimer)].
  - exfalso. apply (Hno dataPilot). exists "default", "es-demo-data-0". split; [reflexivity|]. split; [exact Hp|].
    do 3 eexists. split; [unfold ThisPilot; rewrite dataPilot_listed; reflexivity|].
    split; [exact dataPilot_root|]. split; [exact dataPilot_root|]. split_and!; reflexivity.
  - injection Hs as <- <-. rewrite Hp in Hpk. injection Hpk as <-.
    exists c'. split; [exact Hsync|]. split; [apply Hcache; reflexivity|exact Htimer].
Defined.
