(* ===== verification/CassUtil.v ===== *)
(** * Cassandra helpers

    pkg/controllers/cassandra/util (names, labels, selectors, owner checks,
    the stateful sets of a cluster) and nodepool/util.go (image). *)

From S2P Require Import Prelude GoStrings Semver K8s Types CassandraVersion Cluster.

Definition typeName : string := "cass".
Definition kindName : string := "CassandraCluster".

Definition Cass_ControllerRef (c : CassandraCluster) : OwnerReference :=
  NewControllerRef (cass_Meta c) (mkGVK GroupName "v1alpha1" kindName).

Definition ResourceBaseName (c : CassandraCluster) : string := typeName +:+ "-" +:+ cass_Name c.

Definition NodePoolResourceName (c : CassandraCluster) (np : CassandraClusterNodePool) : string :=
  ResourceBaseName c +:+ "-" +:+ cnp_Name np.

Definition SeedsServiceName (c : CassandraCluster) : string := ResourceBaseName c +:+ "-seeds".
Definition ServiceAccountName (c : CassandraCluster) : string := ResourceBaseName c.
Definition PilotRBACRoleName (c : CassandraCluster) : string := ResourceBaseName c +:+ "-pilot".

Definition ClusterLabels (c : CassandraCluster) : smap :=
  <["app" := "cassandracluster"]> {[ CassandraClusterNameLabel := cass_Name c ]}.

Definition SelectorForCluster (c : CassandraCluster) : Res Selector :=
  match NewRequirement CassandraClusterNameLabel (cass_Name c) with
  | inl e => inl e
  | inr r => inr [r]
  end.

Definition NodePoolLabels (c : CassandraCluster) (poolName : string) : smap :=
  <[CassandraNodePoolNameLabel := poolName]> (ClusterLabels c).

Definition OwnerCheck (obj owner : ObjectMeta) : option Err :=
  if negb (IsControlledBy obj owner) then
    Some (Errorf "'%s/%s' is foreign owned: it is owned by '%v', not '%s/%s'."
      [AStr (om_Namespace obj); AStr (om_Name obj); AStr (om_Namespace owner); AStr (om_Name owner)])
  else None.

(** The order in which [range] visits a map is not specified: it is some
    order of the entries. *)
Class MapRange := {
  range_map {V} : gmap string V → list (string * V);
  range_map_perm {V} (m : gmap string V) : range_map m ≡ₚ map_to_list m;
}.

#[export] Instance map_to_list_range : MapRange :=
  {| range_map V m := map_to_list m; range_map_perm V m := Permutation_refl _ |}.

(** The loop that keeps the sets the cluster controls, by name. *)
Definition controlledByName (cluster : CassandraCluster) (sets : list StatefulSet) : gmap string StatefulSet :=
  foldl (λ results set,
    match OwnerCheck (ss_Meta set) (cass_Meta cluster) with
    | Some _ => results
    | None => <[ss_Name set := set]> results
    end) ∅ sets.

Definition StatefulSetsForCluster (cluster : CassandraCluster) (l : Lister StatefulSet)
    : Res (gmap string StatefulSet) :=
  match SelectorForCluster cluster with
  | inl err => inl err
  | inr selector =>
      match lister_List l (cass_Namespace cluster) selector with
      | inl err => inl err
      | inr existingSets => inr (controlledByName cluster existingSets)
      end
  end.

(** ** nodepool/util.go *)

Definition defaultCassandraImageRepository : string := "docker.io/cassandra".

(** [v.Semver().String()] dereferences the parsed version. *)
Definition defaultCassandraImageForVersion (v : CassVersion) : outcome ImageSpec :=
  sv ← deref_pure (cv_semver v);
  Ret (mkImageSpec defaultCassandraImageRepository (HVersion_String sv) PullIfNotPresent).

Definition cassImageToUse (spec : CassandraClusterSpec) : outcome ImageSpec :=
  match cs_Image spec with
  | None => defaultCassandraImageForVersion (cs_Version spec)
  | Some img => Ret img
  end.

(** ** Facts *)

(** The controlled sets, each under its name, when the names are distinct. *)
Lemma controlledByName_lookup cluster sets name ss :
  NoDup (map ss_Name sets) →
  controlledByName cluster sets !! name = Some ss ↔
  ss ∈ sets ∧ ss_Name ss = name ∧ IsControlledBy (ss_Meta ss) (cass_Meta cluster) = true.
Proof.
  unfold controlledByName. intros Hnd.
  assert (∀ acc : gmap string StatefulSet, (∀ s, s ∈ sets → acc !! ss_Name s = None) →
    foldl (λ results set, match OwnerCheck (ss_Meta set) (cass_Meta cluster) with
                          | Some _ => results | None => <[ss_Name set := set]> results end) acc sets
      !! name = Some ss ↔
    acc !! name = Some ss ∨
    (ss ∈ sets ∧ ss_Name ss = name ∧ IsControlledBy (ss_Meta ss) (cass_Meta cluster) = true)) as Hgen.
  { induction sets as [|x sets IH]; intros acc Hacc; simpl; [set_solver|].
    apply NoDup_cons in Hnd as [Hx Hnd]. unfold OwnerCheck.
    assert (∀ s, s ∈ sets → ss_Name s ≠ ss_Name x) as Hne.
    { intros s Hs Heq. apply Hx. rewrite <-Heq. by apply list_elem_of_fmap_2. }
    pose proof (Hacc x ltac:(set_solver)) as Hax.
    destruct (IsControlledBy (ss_Meta x) (cass_Meta cluster)) eqn:Ec; simpl; rewrite IH by
      (done || intros s Hs; rewrite ?lookup_insert_ne by (apply not_eq_sym; auto); apply Hacc; set_solver).
    - destruct (decide (name = ss_Name x)) as [->|Hn].
      + rewrite lookup_insert_eq, Hax, elem_of_cons. split; [|naive_solver].
        intros [[= <-]|(? & ? & ?)]; naive_solver.
      + rewrite lookup_insert_ne, elem_of_cons by done. naive_solver.
    - rewrite elem_of_cons. split; [intros [?|(? & ? & ?)]; auto|].
      intros [?|([->|?] & ? & ?)]; [by left|congruence|by right]. }
  rewrite Hgen by (intros; apply lookup_empty). rewrite lookup_empty. naive_solver.
Qed.
