(* ===== verification/CassResources.v ===== *)
(** * Kubernetes resources of a Cassandra cluster

    nodepool/resource.go (stateful set and pod template), service/control.go,
    role, rolebinding and serviceaccount/control.go under
    pkg/controllers/cassandra. *)

From S2P Require Import Prelude GoStrings Semver K8s Types CassandraVersion Cluster Fixtures CassUtil.

Definition sharedVolumeName : string := "shared".
Definition sharedVolumeMountPath : string := "/shared".
Definition cassDataVolumeName : string := "cassandra-data".
Definition cassDataVolumeMountPath : string := "/var/lib/cassandra".
Definition cassSnitch : string := "GossipingPropertyFileSnitch".
Definition jolokiaHost : string := "127.0.0.1".
Definition jolokiaPort : Z := 8778.
Definition jolokiaContext : string := "/jolokia".

(** ptr.DerefString *)
Definition DerefString (s : option string) : string := default "" s.

Definition pilotInstallationContainer (image : ImageSpec) : Container :=
  {| ct_Name := "install-pilot";
     ct_Image := img_Repository image +:+ ":" +:+ img_Tag image;
     ct_ImagePullPolicy := img_PullPolicy image;
     ct_Command := [ "cp"; "/pilot"; "/jolokia.jar"; "/jmx_prometheus_javaagent.jar";
                     "/jmx_prometheus_javaagent.yaml"; "/libcassandra-kubernetes-seed-provider.jar";
                     sharedVolumeMountPath +:+ "/" ];
     ct_Args := [];
     ct_Env := [];
     ct_SecurityContext := None;
     ct_ReadinessProbe := None;
     ct_LivenessProbe := None;
     ct_Resources := mkResourceRequirements
       (Some {[ "cpu" := quantity_10m; "memory" := quantity_50Mi ]})
       (Some {[ "cpu" := quantity_10m; "memory" := quantity_50Mi ]});
     ct_Ports := [];
     ct_VolumeMounts := [mkVolumeMount sharedVolumeName sharedVolumeMountPath false] |}.

Definition cassEnv (cluster : CassandraCluster) (np : CassandraClusterNodePool) : list EnvVar :=
  [ mkEnvVar "MAX_HEAP_SIZE" (EnvLiteral "512M");
    mkEnvVar "HEAP_NEWSIZE" (EnvLiteral "100M");
    mkEnvVar "CASSANDRA_LISTEN_ADDRESS" (EnvLiteral " ");
    mkEnvVar "CASSANDRA_BROADCAST_ADDRESS" (EnvLiteral " ");
    mkEnvVar "CASSANDRA_RPC_ADDRESS" (EnvLiteral " ");
    mkEnvVar "CASSANDRA_SEEDS" (EnvLiteral "black-hole-dns-name");
    mkEnvVar "CASSANDRA_ENDPOINT_SNITCH" (EnvLiteral cassSnitch);
    mkEnvVar "CASSANDRA_SERVICE" (EnvLiteral (SeedsServiceName cluster));
    mkEnvVar "CASSANDRA_CLUSTER_NAME" (EnvLiteral (cass_Name cluster));
    mkEnvVar "CASSANDRA_DC" (EnvLiteral (DerefString (cnp_Datacenter np)));
    mkEnvVar "CASSANDRA_RACK" (EnvLiteral (DerefString (cnp_Rack np)));
    mkEnvVar "JVM_OPTS" (EnvLiteral (
      "-javaagent:" +:+ sharedVolumeMountPath +:+ "/jolokia.jar=host=" +:+ jolokiaHost +:+
      ",port=" +:+ itoa jolokiaPort +:+ ",agentContext=" +:+ jolokiaContext +:+ " " +:+
      "-javaagent:" +:+ sharedVolumeMountPath +:+ "/jmx_prometheus_javaagent.jar=8080:" +:+
      sharedVolumeMountPath +:+ "/jmx_prometheus_javaagent.yaml " +:+ JVMCgroupOpts));
    mkEnvVar "CLASSPATH" (EnvLiteral (sharedVolumeMountPath +:+ "/libcassandra-kubernetes-seed-provider.jar"));
    mkEnvVar "POD_IP" (EnvFieldRef "status.podIP");
    mkEnvVar "POD_NAME" (EnvFieldRef "metadata.name");
    mkEnvVar "POD_NAMESPACE" (EnvFieldRef "metadata.namespace");
    mkEnvVar "LEADER_ELECTION_CONFIG_MAP" (EnvLiteral ("cassandra-" +:+ cass_Name cluster +:+ "-leaderelection")) ].

Definition cassContainer (cluster : CassandraCluster) (np : CassandraClusterNodePool) (image : ImageSpec)
    : Container :=
  {| ct_Name := "cassandra";
     ct_Image := img_Repository image +:+ ":" +:+ img_Tag image;
     ct_ImagePullPolicy := img_PullPolicy image;
     ct_Command := [sharedVolumeMountPath +:+ "/pilot"];
     ct_Args :=
       [ "--v=4";
         "--logtostderr";
         "--pilot-name=$(POD_NAME)";
         "--pilot-namespace=$(POD_NAMESPACE)";
         "--leader-election-config-map=$(LEADER_ELECTION_CONFIG_MAP)";
         "--jolokia-url=http://" +:+ jolokiaHost +:+ ":" +:+ itoa jolokiaPort +:+ jolokiaContext +:+ "/" ];
     ct_Env := cassEnv cluster np;
     ct_SecurityContext :=
       Some (mkSecurityContext (nsc_RunAsUser (cfg_SecurityContext (cs_Config (cass_Spec cluster)))) None);
     ct_ReadinessProbe := Some {|
       probe_Port := 12000; probe_Path := "";
       probe_InitialDelaySeconds := 60; probe_TimeoutSeconds := 10; probe_PeriodSeconds := 15;
       probe_SuccessThreshold := 3; probe_FailureThreshold := 1 |};
     ct_LivenessProbe := Some {|
       probe_Port := 12001; probe_Path := "";
       probe_InitialDelaySeconds := 90; probe_TimeoutSeconds := 10; probe_PeriodSeconds := 30;
       probe_SuccessThreshold := 1; probe_FailureThreshold := 6 |};
     ct_Resources := cnp_Resources np;
     ct_Ports := [ mkContainerPort "intra-node" 7000; mkContainerPort "intra-node-tls" 7001;
                   mkContainerPort "jmx" 7199; mkContainerPort "cql" 9042; mkContainerPort "prometheus" 8080 ];
     ct_VolumeMounts := [ mkVolumeMount sharedVolumeName sharedVolumeMountPath true;
                          mkVolumeMount cassDataVolumeName cassDataVolumeMountPath false ] |}.

Definition cassVolumeClaimTemplates (np : CassandraClusterNodePool) : list PersistentVolumeClaim :=
  match cnp_Persistence np with
  | None => []
  | Some p =>
      [ {| pvc_Name := cassDataVolumeName;
           pvc_Annotations := Some
             match pc_StorageClass p with
             | Some cls => {[ "volume.beta.kubernetes.io/storage-class" := cls ]}
             | None => ∅
             end;
           pvc_AccessModes := ["ReadWriteOnce"];
           pvc_StorageClassName := pc_StorageClass p;
           pvc_StorageRequest := pc_Size p |} ]
  end.

Definition StatefulSetForCluster (cluster : CassandraCluster) (np : CassandraClusterNodePool)
    : outcome StatefulSet :=
  let statefulSetName := NodePoolResourceName cluster np in
  let nodePoolLabels := NodePoolLabels cluster (cnp_Name np) in
  let podLabels := <[PilotLabel := ""]> (NodePoolLabels cluster (cnp_Name np)) in
  image ← cassImageToUse (cass_Spec cluster);
  Ret {| ss_Meta := newObjectMeta statefulSetName (cass_Namespace cluster) (Some nodePoolLabels) (Some ∅)
           [Cass_ControllerRef cluster];
         ss_Spec := {|
           sss_Replicas := Some 0;
           sss_Selector := Some nodePoolLabels;
           sss_Template := {|
             pt_Labels := Some podLabels;
             pt_Annotations := Some (<["prometheus.io/port" := "8080"]> (<["prometheus.io/path" := "/"]>
               {[ "prometheus.io/scrape" := "true" ]}));
             pt_Spec := {|
               ps_TerminationGracePeriodSeconds := None;
               ps_ServiceAccountName := ServiceAccountName cluster;
               ps_NodeSelector := cnp_NodeSelector np;
               ps_SchedulerName := cnp_SchedulerName np;
               ps_FSGroup := nsc_RunAsUser (cfg_SecurityContext (cs_Config (cass_Spec cluster)));
               ps_Volumes := [mkVolume sharedVolumeName EmptyDir] ++
                 match cnp_Persistence np with
                 | Some _ => []
                 | None => [mkVolume cassDataVolumeName EmptyDir]
                 end;
               ps_InitContainers := [pilotInstallationContainer (cfg_PilotImage (cs_Config (cass_Spec cluster)))];
               ps_Containers := [cassContainer cluster np image] |} |};
           sss_VolumeClaimTemplates := cassVolumeClaimTemplates np;
           sss_ServiceName := statefulSetName;
           sss_PodManagementPolicy := "OrderedReady";
           sss_UpdateStrategyType := "RollingUpdate";
           sss_RollingUpdate := None |};
         ss_Status := mkStatefulSetStatus 0 0 0 |}.

(** ** service/control.go *)

Definition SeedLabelKey : string := "navigator.jetstack.io/cassandra-seed".
Definition SeedLabelValue : string := "true".
Definition tolerateUnreadyEndpointsAnnotationKey : string :=
  "service.alpha.kubernetes.io/tolerate-unready-endpoints".

Definition NodesServiceForCluster (cluster : CassandraCluster) : Service :=
  let labels := ClusterLabels cluster in
  {| svc_Meta := newObjectMeta (ResourceBaseName cluster +:+ "-nodes") (cass_Namespace cluster)
       (Some labels) None [Cass_ControllerRef cluster];
     svc_ClusterIP := "None";
     svc_Type := "ClusterIP";
     svc_Selector := Some labels;
     svc_Ports := [mkServicePort "" 65535 None];
     svc_PublishNotReadyAddresses := false |}.

(** Labels and Selector are one map: the seed label written to the selector
    is also among the labels. *)
Definition SeedsServiceForCluster (cluster : CassandraCluster) : Service :=
  let labels := <[SeedLabelKey := SeedLabelValue]> (ClusterLabels cluster) in
  {| svc_Meta := newObjectMeta (SeedsServiceName cluster) (cass_Namespace cluster)
       (Some labels) (Some {[ tolerateUnreadyEndpointsAnnotationKey := "true" ]}) [Cass_ControllerRef cluster];
     svc_ClusterIP := "None";
     svc_Type := "ClusterIP";
     svc_Selector := Some labels;
     svc_Ports := [mkServicePort "" 65535 None];
     svc_PublishNotReadyAddresses := true |}.

(** ** role, rolebinding and serviceaccount/control.go *)

Definition policyRule (groups verbs resources : list string) : PolicyRule :=
  mkPolicyRule (Some verbs) (Some groups) (Some resources) None None.

Definition RoleForCluster (cluster : CassandraCluster) : Role :=
  {| role_Meta := newObjectMeta (PilotRBACRoleName cluster) (cass_Namespace cluster)
       (Some (ClusterLabels cluster)) None [Cass_ControllerRef cluster];
     role_Rules := Some
       [ policyRule [""] ["create"; "update"; "patch"] ["events"];
         policyRule [""] ["create"; "update"; "patch"; "get"; "list"; "watch"] ["configmaps"];
         policyRule [""] ["get"; "list"; "watch"] ["endpoints"; "pods"];
         policyRule ["apps"] ["get"; "list"; "watch"] ["statefulsets"];
         policyRule [GroupName] ["get"; "list"; "watch"] ["pilots"; "cassandraclusters"];
         policyRule [GroupName] ["update"; "patch"] ["pilots/status"] ] |}.

Definition RoleBindingForCluster (cluster : CassandraCluster) : RoleBinding :=
  {| rb_Meta := newObjectMeta (PilotRBACRoleName cluster) (cass_Namespace cluster)
       (Some (ClusterLabels cluster)) None [Cass_ControllerRef cluster];
     rb_Subjects := Some [mkSubject "ServiceAccount" "" (ServiceAccountName cluster) ""];
     rb_RoleRef := mkRoleRef "" "Role" (PilotRBACRoleName cluster) |}.

Definition ServiceAccountForCluster (cluster : CassandraCluster) : ServiceAccount :=
  mkServiceAccount (newObjectMeta (ServiceAccountName cluster) (cass_Namespace cluster)
    (Some (ClusterLabels cluster)) None [Cass_ControllerRef cluster]).
