(* ===== verification/CassControl.v ===== *)
(** * pkg/controllers/cassandra: the cluster control loop

    The sub-controls, the seed labeller, the actions, the choice of the next
    action and [Sync], from cluster_control.go, actions/ and the control.go
    files of the sub-packages. *)

From S2P Require Import Prelude GoStrings Semver K8s WorkQueue Types CassandraVersion Cluster Handlers CassUtil CassResources.
From Stdlib Require Import Ascii.

(** ** Sub-controls that create one object *)

(** The common shape of the service, role, rolebinding and service account
    controls: an existing object must be controlled by the cluster, a missing
    one is created. *)
Definition ensureOwned {A} (l : Lister A) (meta : A → ObjectMeta) (create : APICall) (s : State)
    (cluster : CassandraCluster) (obj : A) : GoM World (option Err) :=
  match lister_Get l (om_Namespace (meta obj)) (om_Name (meta obj)) with
  | inr existing => mret (OwnerCheck (meta existing) (cass_Meta cluster))
  | inl err => if negb (IsNotFound (Some err)) then mret (Some err) else api_call s create
  end.

Definition serviceControl_Sync (serviceFactory : CassandraCluster → Service) (s : State)
    (cluster : CassandraCluster) : GoM World (option Err) :=
  let service := serviceFactory cluster in
  ensureOwned (ServiceLister s) svc_Meta (CreateService (om_Namespace (svc_Meta service)) service) s cluster service.

Definition roleControl_Sync (s : State) (cluster : CassandraCluster) : GoM World (option Err) :=
  let newRole := RoleForCluster cluster in
  ensureOwned (RoleLister s) role_Meta (CreateRole (om_Namespace (role_Meta newRole)) newRole) s cluster newRole.

Definition roleBindingControl_Sync (s : State) (cluster : CassandraCluster) : GoM World (option Err) :=
  let newRoleBinding := RoleBindingForCluster cluster in
  ensureOwned (RoleBindingLister s) rb_Meta
    (CreateRoleBinding (om_Namespace (rb_Meta newRoleBinding)) newRoleBinding) s cluster newRoleBinding.

Definition serviceAccountControl_Sync (s : State) (cluster : CassandraCluster) : GoM World (option Err) :=
  let newAccount := ServiceAccountForCluster cluster in
  ensureOwned (ServiceAccountLister s) sa_Meta
    (CreateServiceAccount (om_Namespace (sa_Meta newAccount)) newAccount) s cluster newAccount.

(** ** nodepool/nodepool.go *)

Definition set_cst_NodePools (nps : gmap string CassandraClusterNodePoolStatus) (c : CassandraCluster)
    : CassandraCluster :=
  mkCassandraCluster (cass_Meta c) (cass_Spec c)
    (mkCassandraClusterStatus (cst_Conditions (cass_Status c)) (Some nps)).

Section ranges.
Context `{MapRange}.

(** The loop over the sets of the cluster, in range order. *)
Definition poolStatuses (sets : gmap string StatefulSet) : gmap string CassandraClusterNodePoolStatus :=
  foldl (λ nps '(_, ss),
    <[map_get0 (om_Labels (ss_Meta ss)) CassandraNodePoolNameLabel :=
        mkCassandraClusterNodePoolStatus (sst_ReadyReplicas (ss_Status ss))]> nps) ∅ (range_map sets).

(** updateStatus: the cluster with its new status, and the error.  The map is
    emptied before the sets are listed. *)
Definition updateStatus (s : State) (cluster : CassandraCluster) : CassandraCluster * option Err :=
  match StatefulSetsForCluster cluster (StatefulSetLister s) with
  | inl err => (set_cst_NodePools ∅ cluster, Some err)
  | inr sets => (set_cst_NodePools (poolStatuses sets) cluster, None)
  end.

(** ** seedlabeller/control.go *)

(** The pod is the object in the informer's cache.  A non-nil label map is
    shared with it: the label is written to the cache before the update, and
    stays there when the update fails.  A nil map is replaced by a new one,
    which the cache does not see. *)
Definition labelSeedNodes (s : State) (cluster : CassandraCluster) (set : StatefulSet)
    : GoM World (option Err) :=
  pods ← read_pods;
  let key := (cass_Namespace cluster, ss_Name set +:+ "-" +:+ itoa 0) in
  match pods !! key with
  | None => mret None
  | Some pod =>
      let labels := om_Labels (pod_Meta pod) in
      if bool_decide (map_get0 labels SeedLabelKey = SeedLabelValue) then mret None
      else
        let labelled := mkPod (set_om_Labels (Some (<[SeedLabelKey := SeedLabelValue]> (default ∅ labels)))
                                 (pod_Meta pod)) (pod_Spec pod) in
        match labels with
        | Some _ => write_pod key labelled
        | None => mret ()
        end;;
        api_call s (UpdatePod (om_Namespace (pod_Meta labelled)) labelled)
  end.

Definition seedLabeller_Sync (s : State) (cluster : CassandraCluster) : GoM World (option Err) :=
  match StatefulSetsForCluster cluster (StatefulSetLister s) with
  | inl err => mret (Some err)
  | inr sets => for_range (range_map sets) (λ '(_, set), labelSeedNodes s cluster set)
  end.

(** ** actions *)

Inductive Action :=
| CreateNodePool (cluster : CassandraCluster) (np : CassandraClusterNodePool)
| ScaleOut (cluster : CassandraCluster) (np : CassandraClusterNodePool).

Definition CreateNodePool_Execute (s : State) (cluster : CassandraCluster) (np : CassandraClusterNodePool)
    : GoM World (option Err) :=
  ss ← lift (StatefulSetForCluster cluster np);
  err ← api_call s (CreateStatefulSet (ss_Namespace ss) ss);
  if IsAlreadyExists err then mret None
  else
    match err with
    | Some e => mret (Some e)
    | None =>
        eventf (cass_Meta cluster) EventTypeNormal "CreateNodePool" "CreateNodePool: Name=%q"
          [AStr (cnp_Name np)];;
        mret None
    end.

Definition ScaleOut_Execute (s : State) (cluster : CassandraCluster) (np : CassandraClusterNodePool)
    : GoM World (option Err) :=
  baseSet ← lift (StatefulSetForCluster cluster np);
  match lister_Get (StatefulSetLister s) (ss_Namespace baseSet) (ss_Name baseSet) with
  | inl err => mret (Some (Wrapf err "unable to find statefulset" []))
  | inr existingSet =>
      cur ← deref (ss_Replicas existingSet);
      desired ← deref (cnp_Replicas np);
      if bool_decide (cur = desired) then mret None
      else if bool_decide (desired < cur) then mret None
      else if negb (bool_decide (sst_ReadyReplicas (ss_Status existingSet) = cur)) then mret None
      else
        let newSet := set_Replicas (int32_add cur 1) existingSet in
        err ← api_call s (UpdateStatefulSet (ss_Namespace newSet) newSet);
        match err with
        | Some e => mret (Some (Wrapf e "unable to update statefulset replica count" []))
        | None =>
            eventf (cass_Meta cluster) EventTypeNormal "ScaleOut"
              "ScaleOut: NodePool=%s/%s/%s, ReplicaCount=%d, TargetReplicaCount=%d"
              [AStr (cass_Namespace cluster); AStr (cass_Name cluster); AStr (cnp_Name np);
               AInt cur; AInt desired];;
            mret None
        end
  end.

Definition Action_Execute (s : State) (a : Action) : GoM World (option Err) :=
  match a with
  | CreateNodePool c np => CreateNodePool_Execute s c np
  | ScaleOut c np => ScaleOut_Execute s c np
  end.

(** The two loops of NextAction. *)
Definition firstMissing (c : CassandraCluster) : option CassandraClusterNodePool :=
  List.find (λ np, negb (bool_decide (is_Some (map_get (cst_NodePools (cass_Status c)) (cnp_Name np)))))
    (cs_NodePools (cass_Spec c)).

Definition readyReplicas (c : CassandraCluster) (np : CassandraClusterNodePool) : Z :=
  match map_get (cst_NodePools (cass_Status c)) (cnp_Name np) with
  | Some nps => cnps_ReadyReplicas nps
  | None => 0
  end.

Fixpoint firstShort (c : CassandraCluster) (pools : list CassandraClusterNodePool)
    : outcome (option CassandraClusterNodePool) :=
  match pools with
  | [] => Ret None
  | np :: rest =>
      n ← deref_pure (cnp_Replicas np);
      if bool_decide (readyReplicas c np < n) then Ret (Some np) else firstShort c rest
  end.

Definition NextAction (c : CassandraCluster) : outcome (option Action) :=
  match firstMissing c with
  | Some np => Ret (Some (CreateNodePool c np))
  | None =>
      short ← firstShort c (cs_NodePools (cass_Spec c));
      Ret match short with
          | Some np => Some (ScaleOut c np)
          | None => None
          end
  end.

(** ** Sync *)

Definition syncPausedConditions (now : Z) (c : CassandraCluster) : CassandraCluster :=
  let st := cass_Status c in
  mkCassandraCluster (cass_Meta c) (cass_Spec c)
    (mkCassandraClusterStatus
      (mkNavigatorClusterStatus
        (pausedConditions now (cfg_Paused (cs_Config (cass_Spec c))) (ncs_Conditions (cst_Conditions st))))
      (cst_NodePools st)).

Definition errEvent (c : CassandraCluster) (format : string) (e : Err) : GoM World () :=
  eventf (cass_Meta c) EventTypeWarning "ErrSync" format [AErr e].

Definition syncStep {A} (c : CassandraCluster) (format : string) (stop : A)
    (m : GoM World (option Err)) (k : GoM World (A * option Err)) : GoM World (A * option Err) :=
  err ← m;
  match err with
  | Some e => errEvent c format e;; mret (stop, Some e)
  | None => k
  end.

(** The action and the final event. *)
Definition syncAction (s : State) (c : CassandraCluster) : GoM World (CassandraCluster * option Err) :=
  a ← lift (NextAction c);
  err ← match a with
        | Some a => Action_Execute s a
        | None => mret None
        end;
  match err with
  | Some e => errEvent c "Error syncing: %s" e;; mret (c, Some e)
  | None =>
      eventf (cass_Meta c) EventTypeNormal "SuccessSync" "Successfully synced CassandraCluster" [];;
      mret (c, None)
  end.

(** Sync mutates the cluster it is given: the result carries it.  The
    controller passes the factories of the node and seed services in the
    order below. *)
Definition Sync (s : State) (c : CassandraCluster) : GoM World (CassandraCluster * option Err) :=
  let c := syncPausedConditions (Now s) c in
  if cfg_Paused (cs_Config (cass_Spec c)) then mret (c, None)
  else
    let '(c', statusErr) := updateStatus s c in
    syncStep c "Error syncing service: %s" c (serviceControl_Sync NodesServiceForCluster s c)
    (syncStep c "Error syncing service: %s" c (serviceControl_Sync SeedsServiceForCluster s c)
    (syncStep c' "Error syncing node pools: %s" c' (mret statusErr)
    (syncStep c' "Error syncing service account: %s" c' (serviceAccountControl_Sync s c')
    (syncStep c' "Error syncing role: %s" c' (roleControl_Sync s c')
    (syncStep c' "Error syncing role binding: %s" c' (roleBindingControl_Sync s c')
    (syncStep c' "Error syncing seed labels: %s" c' (seedLabeller_Sync s c')
    (syncAction s c'))))))).

(** ** cassandra.go: the controller's sync *)

(** The generated DeepCopy: the version is copied by parsing it again. *)
Definition CassandraCluster_DeepCopy (c : CassandraCluster) : outcome CassandraCluster :=
  v ← CassVersion_DeepCopy (cs_Version (cass_Spec c));
  Ret (mkCassandraCluster (cass_Meta c)
         (mkCassandraClusterSpec (cs_Config (cass_Spec c)) (cs_NodePools (cass_Spec c))
            (cs_Image (cass_Spec c)) v)
         (cass_Status c)).

Definition sync (s : State) (key : string) : GoM World (option Err) :=
  match SplitMetaNamespaceKey key with
  | inl err => mret (Some err)
  | inr (namespace, name) =>
      match lister_Get (CassandraClusterLister s) namespace name with
      | inl err => if IsNotFound (Some err) then mret None else mret (Some err)
      | inr cass =>
          cass ← lift (CassandraCluster_DeepCopy cass);
          '(cass', syncErr) ← Sync s cass;
          updateErr ← api_call s (UpdateCassandraClusterStatus (cass_Namespace cass') cass');
          mret (NewAggregate [syncErr; updateErr])
      end
  end.
End ranges.
