(* ===== verification/CassFacts.v ===== *)
(** * Correctness of the Cassandra control loop *)

From S2P Require Import Prelude GoStrings Semver K8s Types CassandraVersion Cluster Fixtures Handlers CassUtil CassResources CassControl.
From Stdlib Require Import Ascii.

(** ** The actions *)

Lemma StatefulSetForCluster_spec c np img :
  cassImageToUse (cass_Spec c) = Ret img →
  ∃ ss, StatefulSetForCluster c np = Ret ss ∧ ss_Namespace ss = cass_Namespace c ∧
    ss_Name ss = NodePoolResourceName c np ∧ ss_Replicas ss = Some 0.
Proof. intros Himg. unfold StatefulSetForCluster. rewrite Himg. by eexists. Qed.

(** The pool's set as the cache has it. *)
Definition setFor (s : State) (c : CassandraCluster) (np : CassandraClusterNodePool) : Res StatefulSet :=
  lister_Get (StatefulSetLister s) (cass_Namespace c) (NodePoolResourceName c np).

Lemma ScaleOut_trace s c np img ss cur n :
  cassImageToUse (cass_Spec c) = Ret img → setFor s c np = inr ss →
  ss_Replicas ss = Some cur → cnp_Replicas np = Some n → - (int32_max + 1) ≤ cur → n ≤ int32_max →
  triple (ScaleOut_Execute s c np) (λ o cs, (∃ r, o = Ret r) ∧
    ((cur < n ∧ sst_ReadyReplicas (ss_Status ss) = cur ∧
      cs = [UpdateStatefulSet (ss_Namespace ss) (set_Replicas (cur + 1) ss)]) ∨
     (¬ (cur < n ∧ sst_ReadyReplicas (ss_Status ss) = cur) ∧ cs = []))).
Proof.
  intros Himg Hget Hcur Hn Hlo Hmax. destruct (StatefulSetForCluster_spec c np img Himg) as (b & Hb & Hns & Hname & _).
  unfold ScaleOut_Execute. rewrite Hb. apply triple_bind_lift; [|done]. intros ? [= <-].
  rewrite Hns, Hname. unfold setFor in Hget. rewrite Hget, Hcur, Hn.
  apply triple_bind_lift; [|done]. intros ? [= <-]. apply triple_bind_lift; [|done]. intros ? [= <-].
  repeat case_bool_decide; simpl; try (apply triple_ret; split; [by eexists|]; right; split; [lia|done]).
  rewrite int32_add_id by int32_lia.
  trace; (split; [by eexists|]); left; (split; [lia|done]).
Qed.

(** C6. ScaleOut.Execute writes the set exactly when the pool is below its target and every
    current replica is ready, and then raises the count by exactly one; it never lowers it and
    makes no other call. *)
Theorem scaleout_one_at_a_time s c np img ss cur n :
  cassImageToUse (cass_Spec c) = Ret img → setFor s c np = inr ss →
  ss_Replicas ss = Some cur → cnp_Replicas np = Some n → 0 ≤ cur → n ≤ int32_max →
  triple (ScaleOut_Execute s c np) (λ o cs, (∃ r, o = Ret r) ∧
    ((cur < n ∧ sst_ReadyReplicas (ss_Status ss) = cur ∧
      cs = [UpdateStatefulSet (ss_Namespace ss) (set_Replicas (cur + 1) ss)]) ∨
     (¬ (cur < n ∧ sst_ReadyReplicas (ss_Status ss) = cur) ∧ cs = []))).
Proof. intros. eapply ScaleOut_trace; eauto. unfold int32_max. lia. Qed.

Lemma scaleout_one_at_a_time_witness :
  let s := setsAndPilots [ringSet 2 2] [] in
  triple (ScaleOut_Execute s (demoCassandra 4) (ringPool 4)) (λ o cs, (∃ r, o = Ret r) ∧
    ((2 < 4 ∧ 2 = 2 ∧ cs = [UpdateStatefulSet "default" (set_Replicas (2 + 1) (ringSet 2 2))]) ∨
     (¬ (2 < 4 ∧ 2 = 2) ∧ cs = []))).
Proof.
  apply (scaleout_one_at_a_time (setsAndPilots [ringSet 2 2] []) (demoCassandra 4) (ringPool 4)
    (mkImageSpec defaultCassandraImageRepository "3.11.2" PullIfNotPresent) (ringSet 2 2) 2 4);
    [vm_compute; reflexivity|get_listed (ringSet 2 2)|reflexivity|reflexivity|lia|unfold int32_max; lia].
Defined.

(** ** NextAction *)

(** The pool has a status and is ready. *)
Definition poolReady (c : CassandraCluster) (np : CassandraClusterNodePool) : Prop :=
  ∃ st n, map_get (cst_NodePools (cass_Status c)) (cnp_Name np) = Some st ∧
    cnp_Replicas np = Some n ∧ n ≤ cnps_ReadyReplicas st.

Definition hasStatus (c : CassandraCluster) (np : CassandraClusterNodePool) : Prop :=
  is_Some (map_get (cst_NodePools (cass_Status c)) (cnp_Name np)).

Lemma find_first {A} (f : A → bool) (xs : list A) :
  match List.find f xs with
  | Some x => ∃ pre post, xs = pre ++ x :: post ∧ f x = true ∧ Forall (λ y, f y = false) pre
  | None => Forall (λ y, f y = false) xs
  end.
Proof.
  induction xs as [|x xs IH]; simpl; [constructor|]. destruct (f x) eqn:E.
  - exists [], xs. split_and!; [done..|constructor].
  - destruct (List.find f xs) as [y|]; [|by constructor].
    destruct IH as (pre & post & -> & ? & ?). exists (x :: pre), post. split_and!; [done..|by constructor].
Qed.

Lemma firstMissing_spec c :
  match firstMissing c with
  | Some np => ∃ pre post, cs_NodePools (cass_Spec c) = pre ++ np :: post ∧ ¬ hasStatus c np ∧
                 Forall (hasStatus c) pre
  | None => Forall (hasStatus c) (cs_NodePools (cass_Spec c))
  end.
Proof.
  unfold firstMissing. pose proof (find_first (λ np, negb (bool_decide (is_Some
    (map_get (cst_NodePools (cass_Status c)) (cnp_Name np))))) (cs_NodePools (cass_Spec c))) as Hf.
  assert (∀ np, negb (bool_decide (is_Some (map_get (cst_NodePools (cass_Status c)) (cnp_Name np)))) = false →
            hasStatus c np) as Hs by (intros np; rewrite negb_false_iff; apply bool_decide_eq_true).
  destruct (List.find _ _) as [np|].
  - destruct Hf as (pre & post & -> & Hnp & Hpre). exists pre, post.
    split_and!; [done| |exact (Forall_impl _ _ _ Hpre Hs)]. apply negb_true_iff in Hnp. by apply bool_decide_eq_false in Hnp.
  - exact (Forall_impl _ _ _ Hf Hs).
Qed.

Lemma firstShort_spec c pools :
  Forall (λ np, hasStatus c np ∧ is_Some (cnp_Replicas np)) pools →
  ∃ r, firstShort c pools = Ret r ∧
    match r with
    | Some np => ∃ pre post, pools = pre ++ np :: post ∧ ¬ poolReady c np ∧ Forall (poolReady c) pre
    | None => Forall (poolReady c) pools
    end.
Proof.
  induction 1 as [|np pools [[st Hst] [n Hn]] _ IH]; simpl; [by exists None|].
  rewrite Hn. unfold readyReplicas. rewrite Hst. unfold mbind, outcome_bind. simpl.
  case_bool_decide as Hlt.
  - exists (Some np). split; [done|]. exists [], pools. split_and!; [done| |constructor].
    intros (st' & n' & ? & ? & ?). simplify_eq. lia.
  - destruct IH as (r & Hr & HP). exists r. split; [done|].
    assert (poolReady c np) by (exists st, n; split_and!; [done..|lia]).
    destruct r as [np'|]; [|by constructor].
    destruct HP as (pre & post & -> & ? & ?). exists (np :: pre), post. split_and!; [done..|by constructor].
Qed.

(** NextAction creates the first pool without a status while there is one, otherwise scales
    out the first pool with fewer ready replicas than wanted, and returns nil exactly when every
    pool is ready. *)
Theorem cassandra_next_action c :
  Forall (λ np, is_Some (cnp_Replicas np)) (cs_NodePools (cass_Spec c)) →
  ∃ r, NextAction c = Ret r ∧
  match r with
  | None => Forall (poolReady c) (cs_NodePools (cass_Spec c))
  | Some (CreateNodePool c' np) => c' = c ∧ ∃ pre post,
      cs_NodePools (cass_Spec c) = pre ++ np :: post ∧ ¬ hasStatus c np ∧ Forall (hasStatus c) pre
  | Some (ScaleOut c' np) => c' = c ∧ Forall (hasStatus c) (cs_NodePools (cass_Spec c)) ∧ ∃ pre post,
      cs_NodePools (cass_Spec c) = pre ++ np :: post ∧ ¬ poolReady c np ∧ Forall (poolReady c) pre
  end.
Proof.
  intros Hrep. unfold NextAction. pose proof (firstMissing_spec c) as Hm.
  destruct (firstMissing c) as [np|]; [by eexists|].
  destruct (firstShort_spec c (cs_NodePools (cass_Spec c))) as (r & Hr & HP).
  { rewrite Forall_forall in *. auto. }
  unfold mbind, outcome_bind. rewrite Hr. destruct r; by eexists.
Qed.

Lemma cassandra_next_action_witness :
  ∃ r, NextAction (demoCassandra 3) = Ret r ∧
  match r with
  | None => Forall (poolReady (demoCassandra 3)) [ringPool 3]
  | Some (CreateNodePool c' np) => c' = demoCassandra 3 ∧ ∃ pre post,
      [ringPool 3] = pre ++ np :: post ∧ ¬ hasStatus (demoCassandra 3) np ∧ Forall (hasStatus (demoCassandra 3)) pre
  | Some (ScaleOut c' np) => c' = demoCassandra 3 ∧ Forall (hasStatus (demoCassandra 3)) [ringPool 3] ∧
      ∃ pre post, [ringPool 3] = pre ++ np :: post ∧ ¬ poolReady (demoCassandra 3) np ∧
        Forall (poolReady (demoCassandra 3)) pre
  end.
Proof. apply (cassandra_next_action (demoCassandra 3)). repeat constructor; by eexists. Defined.

(** ** Progress *)

(** How many set writes a pool still needs: one to create its set and one per
    missing replica. *)
Definition poolDistance (s : State) (c : CassandraCluster) (np : CassandraClusterNodePool) : Z :=
  match setFor s c np, cnp_Replicas np with
  | inl _, Some n => Z.max 0 n + 1
  | inr ss, Some n => Z.max 0 (n - default 0 (ss_Replicas ss))
  | _, None => 0
  end.

Definition distance (s : State) (c : CassandraCluster) : Z :=
  foldr (λ np acc, poolDistance s c np + acc) 0 (cs_NodePools (cass_Spec c)).

Lemma cassPoolName_inj c np np' :
  NodePoolResourceName c np = NodePoolResourceName c np' → cnp_Name np = cnp_Name np'.
Proof. unfold NodePoolResourceName. intros H. apply (inj (String.append _)) in H. by simplify_eq/=. Qed.

Lemma reflects_setFor ss s s' c np :
  reflects ss s s' → ss_Namespace ss = cass_Namespace c → ss_Name ss = NodePoolResourceName c np →
  setFor s' c np = inr ss.
Proof. intros Hr Hns Hname. unfold setFor. rewrite Hr. by rewrite bool_decide_eq_true_2. Qed.

Lemma reflects_setFor_other ss s s' c np np' :
  reflects ss s s' → ss_Name ss = NodePoolResourceName c np → cnp_Name np' ≠ cnp_Name np →
  setFor s' c np' = setFor s c np'.
Proof.
  intros Hr Hname Hne. unfold setFor. rewrite Hr, bool_decide_eq_false_2; [done|].
  intros [_ Heq]. rewrite Hname in Heq. by apply cassPoolName_inj in Heq.
Qed.

(** Only the written pool's distance changes. *)
Lemma distance_step ss s s' c np :
  NoDup (map cnp_Name (cs_NodePools (cass_Spec c))) → np ∈ cs_NodePools (cass_Spec c) →
  reflects ss s s' → ss_Name ss = NodePoolResourceName c np →
  poolDistance s' c np = poolDistance s c np - 1 → distance s' c = distance s c - 1.
Proof.
  unfold distance. intros Hnd Hin Hr Hname Hd. apply list_elem_of_split in Hin as (pre & post & Heq).
  rewrite Heq in *. rewrite map_app in Hnd. simpl in Hnd.
  apply NoDup_app in Hnd as (_ & Hpre & [Hpost _]%NoDup_cons).
  assert (∀ l acc, (∀ x, x ∈ l → cnp_Name x ≠ cnp_Name np) →
    foldr (λ np acc, poolDistance s' c np + acc) acc l = foldr (λ np acc, poolDistance s c np + acc) acc l) as Hsame.
  { induction l as [|x l IH]; intros acc Hl; simpl; [done|]. rewrite IH by set_solver. f_equal.
    unfold poolDistance. rewrite (reflects_setFor_other ss s s' c np x) by (done || apply Hl; set_solver). done. }
  rewrite !foldr_app. simpl. rewrite (Hsame post), Hd.
  - rewrite Hsame.
    + assert (∀ l a, foldr (λ np acc, poolDistance s c np + acc) a l
                = foldr (λ np acc, poolDistance s c np + acc) 0 l + a) as Hsum.
      { induction l as [|x l IH]; intros a; simpl; [lia|]. rewrite IH. lia. }
      rewrite (Hsum pre), (Hsum pre (_ + _)). lia.
    + intros x Hx Hxn. apply (Hpre (cnp_Name x)); [by apply list_elem_of_fmap_2|]. rewrite Hxn. set_solver.
  - intros x Hx Hxn. apply Hpost. rewrite <-Hxn. by apply list_elem_of_fmap_2.
Qed.

(** C24. Every set a Cassandra action writes brings the cluster one write nearer: once the cache
    shows the written set, the number of creations and single scale-outs that remain has fallen
    by one. *)
Theorem cassandra_action_progress s c np img a w r w' cs ss s' :
  LawfulLister ss_Meta (StatefulSetLister s) →
  NoDup (map cnp_Name (cs_NodePools (cass_Spec c))) → np ∈ cs_NodePools (cass_Spec c) →
  (∃ n, cnp_Replicas np = Some n ∧ 0 ≤ n ≤ int32_max) →
  (∀ old, setFor s c np = inr old → ∃ cur, ss_Replicas old = Some cur ∧ 0 ≤ cur) →
  cassImageToUse (cass_Spec c) = Ret img →
  (a = CreateNodePool c np ∧ (∃ e, setFor s c np = inl e)) ∨ a = ScaleOut c np →
  Action_Execute s a w = (Ret r, w') → did w cs w' → omap writtenSet cs = [ss] → reflects ss s s' →
  distance s' c = distance s c - 1.
Proof.
  intros Hl Hnd Hin (n & Hn & Hrange) Hold Himg Ha Hrun Hd Hcs Hr.
  destruct Ha as [[-> [e Hmiss]]| ->]; simpl in Hrun.
  - destruct (StatefulSetForCluster_spec c np img Himg) as (b & Hb & Hns & Hname & Hrep).
    assert (triple (CreateNodePool_Execute s c np) (λ o cs, cs = [CreateStatefulSet (ss_Namespace b) b])) as Ht.
    { unfold CreateNodePool_Execute. rewrite Hb. apply triple_bind_lift; [|done]. intros ? [= <-]. trace; done. }
    pose proof (triple_run _ _ _ _ _ _ Ht Hrun Hd) as ->. simpl in Hcs. simplify_eq.
    apply (distance_step ss _ _ _ np); [done..|]. unfold poolDistance.
    rewrite (reflects_setFor ss s), Hmiss, Hn, Hrep by done. simpl. lia.
  - destruct (setFor s c np) as [e|old] eqn:Hget.
    + assert (triple (ScaleOut_Execute s c np) (λ o cs, cs = [])) as Ht.
      { destruct (StatefulSetForCluster_spec c np img Himg) as (b & Hb & Hns & Hname & _).
        unfold ScaleOut_Execute. rewrite Hb. apply triple_bind_lift; [|done]. intros ? [= <-].
        rewrite Hns, Hname. unfold setFor in Hget. rewrite Hget. by trace. }
      by pose proof (triple_run _ _ _ _ _ _ Ht Hrun Hd) as ->.
    + destruct (Hold old eq_refl) as (cur & Hcur & Hpos). unfold setFor in Hget.
      pose proof (get_sound _ _ _ Hget) as [Hns Hname]. fold (setFor s c np) in Hget.
      eapply (triple_run _ _ _ _ _ _ (ScaleOut_trace s c np img old cur n Himg Hget Hcur Hn
        ltac:(unfold int32_max; lia) ltac:(lia))) in Hrun; [|exact Hd].
      destruct Hrun as [_ [(Hlt & _ & ->)|[_ ->]]]; [|done]. simpl in Hcs. simplify_eq.
      eapply (distance_step _ _ _ _ np); [done|done|exact Hr|exact Hname|]. unfold poolDistance.
      rewrite (reflects_setFor _ s s' c np Hr Hns Hname), Hget, Hn, Hcur. simpl. lia.
Qed.

Lemma cassandra_action_progress_witness :
  distance (setsAndPilots [set_Replicas 3 (ringSet 2 2)] []) (demoCassandra 4) =
  distance (setsAndPilots [ringSet 2 2] []) (demoCassandra 4) - 1.
Proof.
  apply (cassandra_action_progress (setsAndPilots [ringSet 2 2] []) (demoCassandra 4) (ringPool 4)
    (mkImageSpec defaultCassandraImageRepository "3.11.2" PullIfNotPresent) (ScaleOut (demoCassandra 4) (ringPool 4))
    emptyWorld None
    (log_effect (EffEvent (mkEvent "default" "demo" EventTypeNormal "ScaleOut"
       "ScaleOut: NodePool=%s/%s/%s, ReplicaCount=%d, TargetReplicaCount=%d"
       [AStr "default"; AStr "demo"; AStr "ring"; AInt 2; AInt 4]))
      (log_effect (EffCall (UpdateStatefulSet "default" (set_Replicas 3 (ringSet 2 2)))) emptyWorld))
    [UpdateStatefulSet "default" (set_Replicas 3 (ringSet 2 2))] (set_Replicas 3 (ringSet 2 2))).
  - apply listerOf_lawful.
  - decide_closed.
  - left.
  - exists 4. unfold int32_max. split; [reflexivity|lia].
  - intros old Hold. assert (setFor (setsAndPilots [ringSet 2 2] []) (demoCassandra 4) (ringPool 4) = inr (ringSet 2 2))
      as Hset by get_listed (ringSet 2 2). rewrite Hset in Hold. injection Hold as <-. exists 2. split; [reflexivity|lia].
  - vm_compute. reflexivity.
  - by right.
  - vm_compute. reflexivity.
  - apply did_call_event.
  - reflexivity.
  - by apply reflects_replaced.
Defined.

(** ** Seed labels *)

Definition seedKey (c : CassandraCluster) (ss : StatefulSet) : string * string :=
  (cass_Namespace c, ss_Name ss +:+ "-" +:+ itoa 0).

Definition isSeed (p : Pod) : Prop := map_get0 (om_Labels (pod_Meta p)) SeedLabelKey = SeedLabelValue.

(** The pod with the seed label added. *)
Definition withSeed (p : Pod) : Pod :=
  mkPod (set_om_Labels (Some (<[SeedLabelKey := SeedLabelValue]> (default ∅ (om_Labels (pod_Meta p)))))
           (pod_Meta p)) (pod_Spec p).

Lemma withSeed_isSeed p : isSeed (withSeed p).
Proof. unfold isSeed, map_get0. simpl. by rewrite lookup_insert_eq. Qed.

(** One run of labelSeedNodes, with its effect on the cache. *)
Lemma labelSeedNodes_run s c ss w :
  ∃ r w' cs, labelSeedNodes s c ss w = (Ret r, w') ∧ did w cs w' ∧
    (∀ k, k ≠ seedKey c ss → w_pods w' !! k = w_pods w !! k) ∧
    match w_pods w !! seedKey c ss with
    | None => r = None ∧ cs = [] ∧ w' = w
    | Some pod =>
        (isSeed pod ∧ r = None ∧ cs = [] ∧ w' = w) ∨
        (¬ isSeed pod ∧ cs = [UpdatePod (om_Namespace (pod_Meta pod)) (withSeed pod)] ∧
         r = Clientset s (w_log w) (UpdatePod (om_Namespace (pod_Meta pod)) (withSeed pod)) ∧
         w_pods w' !! seedKey c ss =
           Some (match om_Labels (pod_Meta pod) with Some _ => withSeed pod | None => pod end))
    end.
Proof.
  unfold labelSeedNodes, read_pods, mbind, gom_bind. fold (seedKey c ss).
  destruct (w_pods w !! seedKey c ss) as [pod|] eqn:Ep.
  - fold (withSeed pod). case_bool_decide as Hs.
    + do 3 eexists. split; [done|]. split; [apply did_refl|]. split; [done|]. by left.
    + destruct (om_Labels (pod_Meta pod)) as [ls|] eqn:El; simpl; do 3 eexists;
        (split; [reflexivity|]); (split; [by eexists|]); simpl.
      * split; [intros k Hk; by apply lookup_insert_ne|]. right. rewrite lookup_insert_eq.
        split_and!; [|done..]. unfold isSeed. by rewrite El.
      * split; [done|]. right. split_and!; [|done..]. unfold isSeed. by rewrite El.
  - do 3 eexists. split; [done|]. split; [apply did_refl|]. done.
Qed.

(** When the update of a pod with labels fails, the label is already in the informer cache,
    so the next labelSeedNodes succeeds without a call: the update is not retried. *)
Theorem failed_seed_label_is_not_retried s c ss pod ls e w :
  w_pods w !! seedKey c ss = Some pod → om_Labels (pod_Meta pod) = Some ls → ¬ isSeed pod →
  Clientset s (w_log w) (UpdatePod (om_Namespace (pod_Meta pod)) (withSeed pod)) = Some e →
  ∃ w', labelSeedNodes s c ss w = (Ret (Some e), w') ∧
    ∀ s', labelSeedNodes s' c ss w' = (Ret None, w').
Proof.
  intros Hp Hls Hns Hfail. destruct (labelSeedNodes_run s c ss w) as (r & w' & cs & Hrun & _ & _ & Hcase).
  rewrite Hp in Hcase. destruct Hcase as [[? _]|(_ & _ & -> & Hcache)]; [done|].
  rewrite Hls in Hcache. rewrite Hfail in Hrun. exists w'. split; [done|]. intros s'.
  destruct (labelSeedNodes_run s' c ss w') as (r2 & w2 & cs2 & Hrun2 & _ & _ & Hcase2).
  rewrite Hcache in Hcase2. pose proof (withSeed_isSeed pod).
  destruct Hcase2 as [(_ & -> & _ & ->)|[? _]]; done.
Qed.

Definition refusing : State :=
  let s := setsAndPilots [ringSet 1 1] [] in
  mkState (λ _ _, Some (Errorf "conflict" [])) (Now s) (StatefulSetLister s) (ConfigMapLister s) (PodLister s)
    (ServiceLister s) (ServiceAccountLister s) (RoleBindingLister s) (RoleLister s) (PilotLister s)
    (CassandraClusterLister s) (ElasticsearchClusterLister s).

Lemma failed_seed_label_is_not_retried_witness :
  let w := mkWorld [] {[ ("default", "cass-demo-ring-0") := ringPod (Some ∅) ]} in
  ∃ w', labelSeedNodes refusing (demoCassandra 1) (ringSet 1 1) w = (Ret (Some (Errorf "conflict" [])), w') ∧
    ∀ s', labelSeedNodes s' (demoCassandra 1) (ringSet 1 1) w' = (Ret None, w').
Proof.
  apply (failed_seed_label_is_not_retried _ _ _ (ringPod (Some ∅)) ∅); [vm_compute; reflexivity|reflexivity| |reflexivity].
  discriminate.
Defined.

(** The keys of the first pods of sets with different names differ. *)
Lemma seedKey_inj c ss ss' : seedKey c ss = seedKey c ss' → ss_Name ss = ss_Name ss'.
Proof. intros [= H]. by apply (dash_name_inj _ _ "0" "0") in H as [? _]. Qed.

(** The loop over sets with different names. *)
Lemma seedLoop_run s c (sets : list (string * StatefulSet)) w :
  NoDup (map (λ x, ss_Name (snd x)) sets) →
  ∃ r w' cs, for_range sets (λ '(_, set), labelSeedNodes s c set) w = (Ret r, w') ∧ did w cs w' ∧
    (∀ call, call ∈ cs → ∃ n set pod, (n, set) ∈ sets ∧ w_pods w !! seedKey c set = Some pod ∧ ¬ isSeed pod ∧
       call = UpdatePod (om_Namespace (pod_Meta pod)) (withSeed pod)) ∧
    (r = None → ∀ n set pod, (n, set) ∈ sets → w_pods w !! seedKey c set = Some pod → ¬ isSeed pod →
       UpdatePod (om_Namespace (pod_Meta pod)) (withSeed pod) ∈ cs).
Proof.
  revert w. induction sets as [|[n set] sets IH]; intros w Hnd.
  { exists None, w, []. split_and!; [done|apply did_refl|set_solver|set_solver]. }
  simpl in Hnd. apply NoDup_cons in Hnd as [Hn Hnd].
  destruct (labelSeedNodes_run s c set w) as (r1 & w1 & cs1 & Hrun & Hd & Hother & Hcase).
  assert (∀ m set', (m, set') ∈ sets → w_pods w1 !! seedKey c set' = w_pods w !! seedKey c set') as Hsame.
  { intros m set' Hin. apply Hother. intros Heq%seedKey_inj. apply Hn. rewrite <-Heq.
    by apply (list_elem_of_fmap_2 (λ x, ss_Name (snd x)) _ (m, set')). }
  assert ((∀ call, call ∈ cs1 → ∃ pod, w_pods w !! seedKey c set = Some pod ∧ ¬ isSeed pod ∧
             call = UpdatePod (om_Namespace (pod_Meta pod)) (withSeed pod)) ∧
          (∀ pod, w_pods w !! seedKey c set = Some pod → ¬ isSeed pod →
             UpdatePod (om_Namespace (pod_Meta pod)) (withSeed pod) ∈ cs1)) as [Hs1 Hc1].
  { destruct (w_pods w !! seedKey c set) as [pod|].
    - destruct Hcase as [(? & _ & -> & _)|(? & -> & _)].
      + split; [set_solver|]. by intros ? [= <-].
      + split; [intros call ->%list_elem_of_singleton; eauto|]. intros ? [= <-] _. set_solver.
    - destruct Hcase as (_ & -> & _). set_solver. }
  destruct r1 as [e|].
  - exists (Some e), w1, cs1. split_and!; [by apply (for_range_cons_Some (n, set))|done| |done].
    intros call Hcall. destruct (Hs1 call Hcall) as (pod & ? & ? & ->). exists n, set, pod. set_solver.
  - destruct (IH w1 Hnd) as (r & w' & cs & Hrun' & Hd' & Hs & Hc). exists r, w', (cs1 ++ cs).
    split_and!; [by rewrite (for_range_cons_None (n, set) _ _ _ w1)|by eapply did_trans|..].
    + intros call [Hcall|Hcall]%elem_of_app.
      * destruct (Hs1 call Hcall) as (pod & ? & ? & ->). exists n, set, pod. set_solver.
      * destruct (Hs call Hcall) as (m & set' & pod & Hin & Hp & ? & ->). rewrite (Hsame m set' Hin) in Hp.
        exists m, set', pod. set_solver.
    + intros Hr m set' pod [[= -> ->]|Hin]%elem_of_cons Hp Hns; apply elem_of_app; [left; by apply Hc1|right].
      eapply Hc; eauto. by rewrite (Hsame m set' Hin).
Qed.

Section ranged.
Context `{MapRange}.

Lemma range_map_elem {V} (m : gmap string V) n v : (n, v) ∈ range_map m ↔ m !! n = Some v.
Proof. rewrite (range_map_perm m). apply elem_of_map_to_list. Qed.

(** The controlled sets, visited in range order, each once. *)
Lemma range_controlled c existing :
  NoDup (map ss_Name existing) →
  NoDup (map (λ x, ss_Name (snd x)) (range_map (controlledByName c existing))) ∧
  ∀ n set, (n, set) ∈ range_map (controlledByName c existing) ↔
    set ∈ existing ∧ ss_Name set = n ∧ IsControlledBy (ss_Meta set) (cass_Meta c) = true.
Proof.
  intros Hnd. assert (∀ n set, (n, set) ∈ range_map (controlledByName c existing) ↔
    set ∈ existing ∧ ss_Name set = n ∧ IsControlledBy (ss_Meta set) (cass_Meta c) = true) as Hel.
  { intros n set. rewrite range_map_elem. by apply controlledByName_lookup. }
  split; [|done].
  assert (map (λ x, ss_Name (snd x)) (range_map (controlledByName c existing))
    = (range_map (controlledByName c existing)).*1) as ->.
  { apply map_ext_in. intros [n set] Hin%list_elem_of_In. by apply Hel in Hin as (_ & ? & _). }
  rewrite (range_map_perm (controlledByName c existing)). apply NoDup_fst_map_to_list.
Qed.

(** The seed labeller, in whatever order the sets are visited, updates only first pods of
    sets the cluster controls that lack the seed label, adding just that label, and when it
    returns nil it has updated all of them. *)
Theorem seed_labels_exact s c sel existing w :
  LawfulLister ss_Meta (StatefulSetLister s) →
  SelectorForCluster c = inr sel →
  lister_List (StatefulSetLister s) (cass_Namespace c) sel = inr existing →
  let unlabelled set pod := set ∈ existing ∧ IsControlledBy (ss_Meta set) (cass_Meta c) = true ∧
    w_pods w !! seedKey c set = Some pod ∧ ¬ isSeed pod in
  ∃ r w' cs, seedLabeller_Sync s c w = (Ret r, w') ∧ did w cs w' ∧
    (∀ call, call ∈ cs → ∃ set pod, unlabelled set pod ∧
       call = UpdatePod (om_Namespace (pod_Meta pod)) (withSeed pod)) ∧
    (r = None → ∀ set pod, unlabelled set pod →
       UpdatePod (om_Namespace (pod_Meta pod)) (withSeed pod) ∈ cs).
Proof.
  intros Hl Hsel Hlist unlabelled. unfold seedLabeller_Sync, StatefulSetsForCluster. rewrite Hsel, Hlist.
  destruct (range_controlled c existing (list_NoDup _ _ _ Hlist)) as [Hnd Hel].
  destruct (seedLoop_run s c _ w Hnd) as (r & w' & cs & Hrun & Hd & Hs & Hc).
  exists r, w', cs. split_and!; [done..| |].
  - intros call Hcall. destruct (Hs call Hcall) as (n & set & pod & Hin & ? & ? & ->).
    apply Hel in Hin as (? & ? & ?). exists set, pod. done.
  - intros Hr set pod (Hin & Hctl & Hp & Hns). apply (Hc Hr (ss_Name set) set pod); [|done..].
    by apply Hel.
Qed.

(** ** The calls of Sync *)

(** The creation of a supporting object, when the cache lacks it. *)
Definition ownedPlan {A : Type} (l : Lister A) (meta : A → ObjectMeta) (create : string → A → APICall) (obj : A) : list APICall :=
  if missing (lister_Get l (om_Namespace (meta obj)) (om_Name (meta obj)))
  then [create (om_Namespace (meta obj)) obj] else [].

(** The calls for the supporting objects, in the order Sync makes them. *)
Definition supportPlan (s : State) (c : CassandraCluster) : list APICall :=
  ownedPlan (ServiceLister s) svc_Meta CreateService (NodesServiceForCluster c) ++
  ownedPlan (ServiceLister s) svc_Meta CreateService (SeedsServiceForCluster c) ++
  ownedPlan (ServiceAccountLister s) sa_Meta CreateServiceAccount (ServiceAccountForCluster c) ++
  ownedPlan (RoleLister s) role_Meta CreateRole (RoleForCluster c) ++
  ownedPlan (RoleBindingLister s) rb_Meta CreateRoleBinding (RoleBindingForCluster c).

(** The update of the first pod of a set, when the pod is cached without the seed label. *)
Definition seedCall (c : CassandraCluster) (pods : gmap (string * string) Pod) (x : string * StatefulSet)
    : option APICall :=
  match pods !! seedKey c (snd x) with
  | Some pod =>
      if bool_decide (isSeed pod) then None else Some (UpdatePod (om_Namespace (pod_Meta pod)) (withSeed pod))
  | None => None
  end.

(** The label updates, in the order the sets the cluster controls are visited. *)
Definition seedPlan (s : State) (c : CassandraCluster) (pods : gmap (string * string) Pod) : list APICall :=
  match StatefulSetsForCluster c (StatefulSetLister s) with
  | inl _ => []
  | inr sets => omap (seedCall c pods) (range_map sets)
  end.

(** What Sync does for the pools, [c] being the cluster with its new status: nothing, and on
    success then no pool lacks a status; the creation of the set of the first pool without a
    status; or, when all have one, the update of the set of the first pool with too few ready replicas, from a
    count below the target all of which is ready to one more. *)
Definition poolWrite (s : State) (c : CassandraCluster) (ok : Prop) (cs : list APICall) : Prop :=
  (cs = [] ∧ (ok → Forall (hasStatus c) (cs_NodePools (cass_Spec c)))) ∨
  (∃ pre np post ss, cs_NodePools (cass_Spec c) = pre ++ np :: post ∧ Forall (hasStatus c) pre ∧ ¬ hasStatus c np ∧
     StatefulSetForCluster c np = Ret ss ∧ cs = [CreateStatefulSet (cass_Namespace c) ss]) ∨
  (Forall (hasStatus c) (cs_NodePools (cass_Spec c)) ∧
   ∃ pre np post ss cur n, cs_NodePools (cass_Spec c) = pre ++ np :: post ∧ Forall (poolReady c) pre ∧ ¬ poolReady c np ∧
     setFor s c np = inr ss ∧ ss_Replicas ss = Some cur ∧ cnp_Replicas np = Some n ∧ cur < n ∧
     sst_ReadyReplicas (ss_Status ss) = cur ∧
     cs = [UpdateStatefulSet (ss_Namespace ss) (set_Replicas (int32_add cur 1) ss)]).

(** Supporting objects, then pod labels, then the write of one set: each stage runs only when
    the one before it is complete, and a successful sync completes all. *)
Definition cassShape (s : State) (c : CassandraCluster) (plan labelPlan : list APICall) (ok : Prop)
    (cs : list APICall) : Prop :=
  ∃ support labels tail, cs = support ++ labels ++ tail ∧
    support `prefix_of` plan ∧ labels `prefix_of` labelPlan ∧
    (support = plan ∧ labels = labelPlan ∧ poolWrite s c ok tail ∨
     support = plan ∧ tail = [] ∧ ¬ ok ∨
     labels = [] ∧ tail = [] ∧ ¬ ok).

(** Trace specifications from the worlds whose pod cache is [pods]. *)
Definition triple_at {A : Type} (pods : gmap (string * string) Pod) (m : GoM World A)
    (Q : outcome A → list APICall → Prop) : Prop :=
  ∀ w, w_pods w = pods → ∃ o w' cs, m w = (o, w') ∧ did w cs w' ∧ Q o cs.

Lemma triple_at_of {A : Type} pods (m : GoM World A) Q : triple m Q → triple_at pods m Q.
Proof. intros Hm w _. apply Hm. Qed.

(** The objects controls leave the pods alone. *)
Definition keepsPods (m : GoM World (option Err)) (plan : list APICall) : Prop :=
  ∀ w, ∃ r w' cs, m w = (Ret r, w') ∧ did w cs w' ∧ w_pods w' = w_pods w ∧ follows plan (Ret r) cs.

Lemma ensureOwned_keepsPods {A : Type} (l : Lister A) (meta : A → ObjectMeta) (create : string → A → APICall) s c obj :
  keepsPods (ensureOwned l meta (create (om_Namespace (meta obj)) obj) s c obj) (ownedPlan l meta create obj).
Proof.
  intros w. unfold ensureOwned, ownedPlan.
  destruct (lister_Get _ _ _) as [err|old]; simpl; [destruct (IsNotFound _); simpl|];
    do 3 eexists; (split; [done|]); (split; [auto with navigator|]); (split; [done|]); auto with navigator.
Qed.

Lemma ret_keepsPods e : keepsPods (mret e) [].
Proof. intros w. exists e, w, []. split_and!; [done|apply did_refl|done|apply follows_all]. Qed.

(** The sets the cluster controls are visited once each, under their names. *)
Lemma controlledByName_key c existing n set : controlledByName c existing !! n = Some set → ss_Name set = n.
Proof.
  unfold controlledByName. assert (∀ acc : gmap string StatefulSet,
    (∀ n set, acc !! n = Some set → ss_Name set = n) → ∀ n set,
    foldl (λ results set, match OwnerCheck (ss_Meta set) (cass_Meta c) with
      | Some _ => results | None => <[ss_Name set := set]> results end) acc existing !! n = Some set → ss_Name set = n) as Hgen.
  { induction existing as [|x existing IH]; simpl; [done|]. intros acc Hacc. apply IH.
    destruct (OwnerCheck _ _); [done|]. intros m y. rewrite lookup_insert_Some. naive_solver. }
  by apply Hgen.
Qed.

Lemma range_controlled_NoDup c existing :
  NoDup (map (λ x, ss_Name (snd x)) (range_map (controlledByName c existing))).
Proof.
  assert (map (λ x, ss_Name (snd x)) (range_map (controlledByName c existing))
    = (range_map (controlledByName c existing)).*1) as ->.
  { apply map_ext_in. intros [n set] Hin%list_elem_of_In. by eapply controlledByName_key, range_map_elem. }
  rewrite (range_map_perm (controlledByName c existing)). apply NoDup_fst_map_to_list.
Qed.

(** One pod is labelled as planned, and the others are not touched. *)
Lemma labelSeedNodes_plan s c x w :
  ∃ r w', labelSeedNodes s c (snd x) w = (Ret r, w') ∧ did w (omap (seedCall c (w_pods w)) [x]) w' ∧
    (∀ k, k ≠ seedKey c (snd x) → w_pods w' !! k = w_pods w !! k).
Proof.
  destruct (labelSeedNodes_run s c (snd x) w) as (r & w' & cs & Hrun & Hd & Hother & Hcase). exists r, w'.
  split_and!; [done| |done]. simpl. unfold seedCall.
  destruct (w_pods w !! seedKey c (snd x)) as [pod|]; [|by destruct Hcase as (_ & -> & _)].
  by case_bool_decide; destruct Hcase as [(? & _ & -> & _)|(? & -> & _)].
Qed.

Lemma seedLoop_plan s c sets w :
  NoDup (map (λ x, ss_Name (snd x)) sets) →
  ∃ r w' cs, for_range sets (λ '(_, set), labelSeedNodes s c set) w = (Ret r, w') ∧ did w cs w' ∧
    follows (omap (seedCall c (w_pods w)) sets) (Ret r) cs.
Proof.
  revert w. induction sets as [|[n set] sets IH]; intros w Hnd.
  { exists None, w, []. split_and!; [done|apply did_refl|apply follows_all]. }
  simpl in Hnd. apply NoDup_cons in Hnd as [Hn Hnd].
  destruct (labelSeedNodes_plan s c (n, set) w) as (r & w1 & Hrun & Hd & Hother). simpl in Hrun, Hother.
  change (omap (seedCall c (w_pods w)) ((n, set) :: sets)) with
    (omap (seedCall c (w_pods w)) ([(n, set)] ++ sets)). rewrite omap_app.
  destruct r as [e|].
  - exists (Some e), w1. eexists. split; [by apply (for_range_cons_Some (n, set))|]. split; [done|].
    split; [by apply prefix_app_r|done].
  - destruct (IH w1 Hnd) as (r & w2 & cs & Hrun' & Hd' & Hp & Hall).
    assert (omap (seedCall c (w_pods w1)) sets = omap (seedCall c (w_pods w)) sets) as Heq.
    { apply list_omap_ext, Forall_Forall2_diag, Forall_forall. intros [m set'] Hin. unfold seedCall. simpl.
      rewrite Hother; [done|]. intros Hk%seedKey_inj. apply Hn. rewrite <-Hk.
      by apply (list_elem_of_fmap_2 (λ x, ss_Name (snd x)) _ (m, set')). }
    rewrite Heq in Hp, Hall. exists r, w2. eexists.
    split; [by rewrite (for_range_cons_None (n, set) _ _ _ w1)|]. split; [by eapply did_trans|].
    split; [by apply prefix_app|]. intros Hr. by rewrite (Hall Hr).
Qed.

Lemma seedLabeller_plan s c w :
  ∃ r w' cs, seedLabeller_Sync s c w = (Ret r, w') ∧ did w cs w' ∧ follows (seedPlan s c (w_pods w)) (Ret r) cs.
Proof.
  unfold seedLabeller_Sync, seedPlan, StatefulSetsForCluster.
  assert (∀ e, follows [] (Ret (Some e)) []) by auto with navigator.
  destruct (SelectorForCluster c); [do 3 eexists; eauto with navigator|].
  destruct (lister_List _ _ _); [do 3 eexists; eauto with navigator|].
  apply seedLoop_plan, range_controlled_NoDup.
Qed.

Lemma StatefulSetForCluster_name c np ss :
  StatefulSetForCluster c np = Ret ss →
  ss_Namespace ss = cass_Namespace c ∧ ss_Name ss = NodePoolResourceName c np.
Proof.
  unfold StatefulSetForCluster, mbind, outcome_bind. destruct (cassImageToUse _); [|done]. by intros [= <-].
Qed.

Lemma firstShort_first c pools np :
  Forall (hasStatus c) pools → firstShort c pools = Ret (Some np) →
  ∃ pre post, pools = pre ++ np :: post ∧ Forall (poolReady c) pre ∧ ¬ poolReady c np.
Proof.
  induction 1 as [|x pools [st Hst] _ IH]; simpl; [done|]. destruct (cnp_Replicas x) as [n|] eqn:Hn; [|done].
  unfold readyReplicas. rewrite Hst. unfold mbind, outcome_bind. simpl. case_bool_decide as Hlt.
  - intros [= <-]. exists [], pools. split_and!; [done|constructor|]. intros (st' & n' & ? & ? & ?). simplify_eq. lia.
  - intros (pre & post & -> & ? & ?)%IH. exists (x :: pre), post. split_and!; [done|constructor; [|done]|done].
    exists st, n. split_and!; [done..|lia].
Qed.

Lemma cassCreate_trace s c np :
  triple (CreateNodePool_Execute s c np) (λ o cs,
    (cs = [] ∧ o ≠ Ret None) ∨ ∃ ss, StatefulSetForCluster c np = Ret ss ∧ cs = [CreateStatefulSet (cass_Namespace c) ss]).
Proof.
  unfold CreateNodePool_Execute. apply triple_bind_lift; [|by left]. intros ss Hss.
  destruct (StatefulSetForCluster_name _ _ _ Hss) as [-> _]. trace; right; eauto.
Qed.

Lemma cassScaleOut_trace s c np :
  triple (ScaleOut_Execute s c np) (λ o cs, cs = [] ∨
    ∃ ss cur n, setFor s c np = inr ss ∧ ss_Replicas ss = Some cur ∧ cnp_Replicas np = Some n ∧ cur < n ∧
      sst_ReadyReplicas (ss_Status ss) = cur ∧
      cs = [UpdateStatefulSet (ss_Namespace ss) (set_Replicas (int32_add cur 1) ss)]).
Proof.
  unfold ScaleOut_Execute. apply triple_bind_lift; [|by left]. intros ss Hss.
  destruct (StatefulSetForCluster_name _ _ _ Hss) as [-> ->]. fold (setFor s c np).
  destruct (setFor s c np) as [e|old] eqn:Hget; [trace; by left|].
  destruct (ss_Replicas old) as [cur|] eqn:Hcur; (apply triple_bind_lift; [|by left]); [intros ? [= <-]|done].
  destruct (cnp_Replicas np) as [n|] eqn:Hn; (apply triple_bind_lift; [|by left]); [intros ? [= <-]|done].
  repeat case_bool_decide; simpl; try (apply triple_ret; by left).
  trace; right; exists old, cur, n; (split_and!; [done..|lia|done|done]).
Qed.

(** The action and its two outcomes. *)
Lemma syncAction_trace s c :
  triple (syncAction s c) (λ o cs, poolWrite s c (∃ c', o = Ret (c', None)) cs).
Proof.
  unfold syncAction, errEvent.
  assert (∀ (o : outcome (CassandraCluster * option Err)), (∀ c', o ≠ Ret (c', None)) →
    poolWrite s c (∃ c', o = Ret (c', None)) []) as Hstop by (intros o Ho; left; naive_solver).
  apply triple_bind_lift; [|intros p _; by apply Hstop]. intros a Ha. unfold NextAction in Ha.
  pose proof (firstMissing_spec c) as Hm. destruct (firstMissing c) as [np|]; [injection Ha as <-|].
  - destruct Hm as (pre & post & Heq & Hnp & Hpre).
    eapply triple_bind; [apply cassCreate_trace|..]; simpl.
    + intros r cs Hcs. destruct Hcs as [[-> Hr]|(ss & Hss & ->)].
      * destruct r as [e|]; [|done]. trace. apply Hstop. naive_solver.
      * trace; right; left; exists pre, np, post, ss; done.
    + intros p cs [[-> _]|(ss & Hss & ->)]; [by apply Hstop|]. right; left; exists pre, np, post, ss; done.
  - destruct (firstShort c _) as [[np|]|] eqn:Hs; [..|done]; injection Ha as <-.
    + apply firstShort_first in Hs as (pre & post & Heq & Hpre & Hnp); [|done].
      eapply triple_bind; [apply cassScaleOut_trace|..]; simpl.
      * intros r cs [->|(ss & cur & n & ?)]; [trace; by left|].
        trace; right; right; (split; [done|]); exists pre, np, post, ss, cur, n; naive_solver.
      * intros p cs [->|(ss & cur & n & ?)]; [by left|].
        right; right; (split; [done|]); exists pre, np, post, ss, cur, n; naive_solver.
    + trace. by left.
Qed.

Abbreviation synced o := (∃ c', o = Ret (c' : CassandraCluster, None : option Err)).

(** A step of the sync that only creates its object. *)
Lemma cassSyncStep_at s c0 c f stop m k P plan labels pods :
  keepsPods m P → triple_at pods k (λ o cs, cassShape s c plan labels (synced o) cs) →
  triple_at pods (syncStep c0 f stop m k) (λ o cs, cassShape s c (P ++ plan) labels (synced o) cs).
Proof.
  intros Hm Hk w Hw. destruct (Hm w) as (r & w1 & cs & Hrun & Hd & Hpods & Hpre & Hall).
  unfold syncStep, errEvent. rewrite (gom_bind_ret _ _ _ _ _ Hrun). destruct r as [e|].
  - eexists _, _, (cs ++ []). split; [reflexivity|]. split; [eapply did_trans; [exact Hd|apply did_log_event]|].
    exists cs, [], []. split_and!; [done|by apply prefix_app_r|apply prefix_nil|]. right; right. naive_solver.
  - destruct (Hk w1) as (o & w2 & cs' & Hrun' & Hd' & sup & ls & tail & -> & Hsup & Hls & Hcase); [congruence|].
    rewrite (Hall eq_refl) in *. exists o, w2, (P ++ sup ++ ls ++ tail).
    split_and!; [done|by eapply did_trans|]. exists (P ++ sup), ls, tail. rewrite <-app_assoc.
    split_and!; [done|by apply prefix_app|done|]. naive_solver.
Qed.

(** The labels and the action. *)
Lemma labelStep_at s c f pods :
  triple_at pods (syncStep c f c (seedLabeller_Sync s c) (syncAction s c))
    (λ o cs, cassShape s c [] (seedPlan s c pods) (synced o) cs).
Proof.
  intros w <-. destruct (seedLabeller_plan s c w) as (r & w1 & cs & Hrun & Hd & Hpre & Hall).
  unfold syncStep, errEvent. rewrite (gom_bind_ret _ _ _ _ _ Hrun). destruct r as [e|].
  - eexists _, _, (cs ++ []). split; [reflexivity|]. split; [eapply did_trans; [exact Hd|apply did_log_event]|].
    exists [], cs, []. split_and!; [done..|]. right; left. naive_solver.
  - rewrite (Hall eq_refl) in *. destruct (syncAction_trace s c w1) as (o & w2 & cs' & Hrun' & Hd' & Htail).
    exists o, w2, (seedPlan s c (w_pods w) ++ cs'). split_and!; [done|by eapply did_trans|].
    exists [], (seedPlan s c (w_pods w)), cs'. split_and!; [done..|]. by left.
Qed.

(** The cluster with the status Sync computes from the sets. *)
Definition observed (s : State) (c : CassandraCluster) : CassandraCluster :=
  fst (updateStatus s (syncPausedConditions (Now s) c)).

Lemma sync_trace s c pods :
  triple_at pods (Sync s c) (λ o cs,
    if cfg_Paused (cs_Config (cass_Spec c)) then cs = []
    else cassShape s (observed s c) (supportPlan s c) (seedPlan s c pods) (synced o) cs).
Proof.
  unfold Sync, observed. simpl. destruct (cfg_Paused _); [by apply triple_at_of, triple_ret|].
  set (c1 := syncPausedConditions (Now s) c).
  assert (∃ c2 e nps, updateStatus s c1 = (c2, e) ∧ c2 = set_cst_NodePools nps c1) as (c2 & e & nps & -> & ->).
  { unfold updateStatus. destruct (StatefulSetsForCluster _ _); eauto. }
  unfold supportPlan. rewrite <-(app_nil_r (ownedPlan (RoleBindingLister s) _ _ _)).
  do 2 (apply cassSyncStep_at; [apply (ensureOwned_keepsPods (A:=Service))|]).
  apply (cassSyncStep_at _ _ _ _ _ _ _ []); [apply ret_keepsPods|].
  apply cassSyncStep_at; [apply (ensureOwned_keepsPods (A:=ServiceAccount))|].
  apply cassSyncStep_at; [apply (ensureOwned_keepsPods (A:=Role))|].
  apply cassSyncStep_at; [apply (ensureOwned_keepsPods (A:=RoleBinding))|].
  exact (labelStep_at s (set_cst_NodePools nps c1) _ pods).
Qed.

(** C25. The API calls of one Cassandra Sync: none when paused; otherwise, in their fixed order
    and up to the first failure, the creations of the supporting objects that the caches lack;
    then, once these are made, the addition of the seed label to the first pods, as cached, of
    the sets the cluster controls where it is absent; then, once all are labelled, at most one
    write: the creation of the set of the first pool that has no status (always, when the Sync
    succeeds and there is one), or, when all have one, one more replica for the first pool with
    too few ready. *)
Theorem cassandra_sync_call_order s c w :
  ∃ o w' cs, Sync s c w = (o, w') ∧ did w cs w' ∧
    if cfg_Paused (cs_Config (cass_Spec c)) then cs = []
    else cassShape s (observed s c) (supportPlan s c) (seedPlan s c (w_pods w)) (∃ c', o = Ret (c', None)) cs.
Proof. exact (sync_trace s c (w_pods w) w eq_refl). Qed.
End ranged.

Lemma seed_labels_exact_witness :
  let s := setsAndPilots [ringSet 1 1] [] in
  let w := mkWorld [] {[ ("default", "cass-demo-ring-0") := ringPod None ]} in
  ∃ r w' cs, seedLabeller_Sync s (demoCassandra 1) w = (Ret r, w') ∧ did w cs w' ∧
    (r = None → UpdatePod "default" (withSeed (ringPod None)) ∈ cs).
Proof.
  intros s w.
  destruct (seed_labels_exact s (demoCassandra 1) [mkRequirement CassandraClusterNameLabel "demo"]
    [ringSet 1 1] w) as (r & w' & cs & ? & ? & _ & Hall).
  - apply listerOf_lawful.
  - reflexivity.
  - vm_compute. reflexivity.
  - exists r, w', cs. split; [assumption|]. split; [assumption|]. intros Hr.
    apply (Hall Hr (ringSet 1 1) (ringPod None)). split; [left|]. split; [reflexivity|].
    split; [vm_compute; reflexivity|discriminate].
Defined.
