(* ===== verification/CassSync.v ===== *)
(** * The Cassandra controller around the control loop

    Foreign objects, the resources of a cluster, the reported status and the
    controller's [sync] with its status update. *)

From S2P Require Import Prelude GoStrings Semver K8s Types CassandraVersion Cluster Fixtures Handlers CassUtil CassResources CassControl CassFacts.
From Stdlib Require Import Ascii.

(** ** Resources *)

Lemma StatefulSetForCluster_mounts c np ss : StatefulSetForCluster c np = Ret ss → mountsResolved ss.
Proof.
  unfold StatefulSetForCluster, mbind, outcome_bind.
  destruct (cassImageToUse _) as [img|]; [|done]. intros [= <-] ct m. simpl.
  unfold cassVolumeClaimTemplates. rewrite !elem_of_cons, elem_of_nil.
  intros [->|[->|[]]]; simpl; rewrite !elem_of_cons, elem_of_nil;
    destruct (cnp_Persistence np); simpl; intros Hm; destruct_or?; subst; simpl; try done; set_solver.
Qed.

Lemma NodePoolLabels_lookup c pool k :
  NodePoolLabels c pool !! k =
  if bool_decide (k = CassandraNodePoolNameLabel) then Some pool else ClusterLabels c !! k.
Proof.
  unfold NodePoolLabels. case_bool_decide as Hk; [subst; apply lookup_insert_eq|by apply lookup_insert_ne].
Qed.

Lemma ClusterLabels_lookup c k :
  ClusterLabels c !! k =
  if bool_decide (k = "app") then Some "cassandracluster"
  else if bool_decide (k = CassandraClusterNameLabel) then Some (cass_Name c) else None.
Proof.
  unfold ClusterLabels. case_bool_decide as Ha; [subst; apply lookup_insert_eq|].
  rewrite lookup_insert_ne by done. case_bool_decide as Hc; [subst; apply lookup_singleton_eq|].
  by apply lookup_singleton_ne.
Qed.

Lemma ClusterLabels_sub c k v :
  ClusterLabels c !! k = Some v → k ≠ SeedLabelKey ∧ k ≠ PilotLabel ∧ k ≠ CassandraNodePoolNameLabel.
Proof. rewrite ClusterLabels_lookup. repeat case_bool_decide; intros; simplify_eq; done. Qed.

(** The labels a seed's pod has: those of the template and the seed label. *)
Definition podLabelsOf (ss : StatefulSet) (seed : bool) : option smap :=
  let base := default ∅ (pt_Labels (sss_Template (ss_Spec ss))) in
  Some (if seed then <[SeedLabelKey := SeedLabelValue]> base else base).

(** The stateful set of a Cassandra pool selects its own pods, is found by the cluster
    selector, carries its pool name, is controlled by the cluster, its pods are behind the nodes
    service, behind the seeds service exactly when seed-labelled, and every volume mount is
    declared. *)
Theorem cassandra_set_wellformed c np ss sel :
  StatefulSetForCluster c np = Ret ss → SelectorForCluster c = inr sel →
  selects (sss_Selector (ss_Spec ss)) (podLabelsOf ss false) ∧
  Selector_Matches sel (om_Labels (ss_Meta ss)) = true ∧
  map_get0 (om_Labels (ss_Meta ss)) CassandraNodePoolNameLabel = cnp_Name np ∧
  IsControlledBy (ss_Meta ss) (cass_Meta c) = true ∧
  (∀ seed, selects (svc_Selector (NodesServiceForCluster c)) (podLabelsOf ss seed)) ∧
  (∀ seed, selects (svc_Selector (SeedsServiceForCluster c)) (podLabelsOf ss seed) ↔ seed = true) ∧
  mountsResolved ss.
Proof.
  intros Hss Hsel. pose proof (StatefulSetForCluster_mounts _ _ _ Hss) as Hm.
  unfold StatefulSetForCluster, mbind, outcome_bind in Hss.
  destruct (cassImageToUse _) as [img|]; [|done]. injection Hss as <-.
  assert (∀ seed k v, NodePoolLabels c (cnp_Name np) !! k = Some v →
    (if seed : bool then <[SeedLabelKey := SeedLabelValue]> (<[PilotLabel := ""]> (NodePoolLabels c (cnp_Name np)))
     else <[PilotLabel := ""]> (NodePoolLabels c (cnp_Name np)) : smap) !! k = Some v) as Hpod.
  { intros seed k v Hk. assert (k ≠ SeedLabelKey ∧ k ≠ PilotLabel) as [? ?].
    { rewrite NodePoolLabels_lookup in Hk. case_bool_decide; [by subst|].
      by apply (ClusterLabels_sub c) in Hk as (? & ? & _). }
    destruct seed; rewrite !lookup_insert_ne by done; done. }
  assert (∀ k v, ClusterLabels c !! k = Some v → NodePoolLabels c (cnp_Name np) !! k = Some v) as Hcl.
  { intros k v Hk. rewrite NodePoolLabels_lookup. apply (ClusterLabels_sub c) in Hk as Hne.
    by rewrite bool_decide_eq_false_2 by naive_solver. }
  unfold selects, podLabelsOf. simpl. split_and!.
  - intros k v Hk. by apply (Hpod false).
  - unfold SelectorForCluster, NewRequirement in Hsel. destruct (IsValidLabelValue _); simplify_eq.
    apply Selector_Matches_spec. intros r ->%list_elem_of_singleton. simpl. apply Hcl.
    by rewrite ClusterLabels_lookup.
  - unfold map_get0. simpl. rewrite NodePoolLabels_lookup. by rewrite bool_decide_eq_true_2.
  - apply IsControlledBy_new.
  - intros seed k v Hk. by apply Hpod, Hcl.
  - intros seed. split.
    + intros H. specialize (H SeedLabelKey SeedLabelValue (lookup_insert_eq _ _ _)). destruct seed; [done|].
      rewrite lookup_insert_ne in H by done. by vm_compute in H.
    + intros -> k v Hk. destruct (decide (k = SeedLabelKey)) as [->|Hne].
      * rewrite lookup_insert_eq in Hk |- *. done.
      * rewrite lookup_insert_ne in Hk by done. by apply (Hpod true), Hcl.
  - exact Hm.
Qed.

Lemma cassandra_set_wellformed_witness :
  ∃ ss, StatefulSetForCluster (demoCassandra 3) (ringPool 3) = Ret ss ∧
    (∀ seed, selects (svc_Selector (SeedsServiceForCluster (demoCassandra 3))) (podLabelsOf ss seed) ↔ seed = true) ∧
    mountsResolved ss.
Proof.
  eexists. assert (StatefulSetForCluster (demoCassandra 3) (ringPool 3) = Ret _) as Hss by reflexivity.
  split; [exact Hss|].
  destruct (cassandra_set_wellformed (demoCassandra 3) (ringPool 3) _
              [mkRequirement CassandraClusterNameLabel "demo"] Hss) as (_ & _ & _ & _ & _ & ? & ?); [reflexivity|].
  split; assumption.
Defined.

(** ** Objects of another owner *)

Section ranged.
Context `{MapRange}.

(** A nodes service of another owner stops Sync before any call. *)
Lemma foreign_service_blocks_sync s c svc w :
  cfg_Paused (cs_Config (cass_Spec c)) = false →
  lister_Get (ServiceLister s) (cass_Namespace c) (ResourceBaseName c +:+ "-nodes") = inr svc →
  IsControlledBy (svc_Meta svc) (cass_Meta c) = false →
  ∃ c' e w', Sync s c w = (Ret (c', Some e), w') ∧ did w [] w' ∧
    cst_NodePools (cass_Status c') = cst_NodePools (cass_Status c).
Proof.
  intros Hp Hget Hc.
  assert (serviceControl_Sync NodesServiceForCluster s (syncPausedConditions (Now s) c) w =
          (Ret (OwnerCheck (svc_Meta svc) (cass_Meta c)), w)) as Hstep.
  { unfold serviceControl_Sync, ensureOwned.
    change (lister_Get _ _ _)
      with (lister_Get (ServiceLister s) (cass_Namespace c) (ResourceBaseName c +:+ "-nodes")).
    by rewrite Hget. }
  unfold Sync. simpl. rewrite Hp. destruct (updateStatus _ _) as [c2 err].
  unfold syncStep at 1. rewrite (gom_bind_ret _ _ _ _ _ Hstep). unfold OwnerCheck. rewrite Hc. simpl.
  do 3 eexists. split; [reflexivity|]. split; [apply did_log_event|done].
Qed.

(** ** The reported status *)

Lemma foldl_insert_lookup {A V} (key : A → string) (val : A → V) (xs : list A) k v :
  NoDup (map key xs) →
  foldl (λ (m : gmap string V) x, <[key x := val x]> m) ∅ xs !! k = Some v ↔ ∃ x, x ∈ xs ∧ key x = k ∧ v = val x.
Proof.
  intros Hnd.
  assert (∀ m : gmap string V, (∀ x, x ∈ xs → m !! key x = None) →
    foldl (λ m x, <[key x := val x]> m) m xs !! k = Some v ↔
    m !! k = Some v ∨ ∃ x, x ∈ xs ∧ key x = k ∧ v = val x) as Hgen.
  { induction xs as [|x xs IH]; intros m Hm; simpl; [set_solver|].
    apply NoDup_cons in Hnd as [Hx Hnd]. rewrite IH; [|done|].
    - destruct (decide (k = key x)) as [->|Hne].
      + rewrite lookup_insert_eq, (Hm x) by set_solver. split.
        * intros [[= <-]|(y & Hy & Heq & ->)]; right; [exists x|exists y]; set_solver.
        * intros [?|(y & [->|Hy]%elem_of_cons & Heq & ->)]; [done|by left|].
          exfalso. apply Hx. rewrite <-Heq. by apply list_elem_of_fmap_2.
      + rewrite lookup_insert_ne by done. split.
        * intros [?|(y & Hy & Heq & ->)]; [by left|right; exists y; set_solver].
        * intros [?|(y & [->|Hy]%elem_of_cons & Heq & ->)]; [by left|done|right; eauto].
    - intros y Hy. rewrite lookup_insert_ne; [apply Hm; set_solver|].
      intros Heq. apply Hx. rewrite Heq. by apply list_elem_of_fmap_2. }
  rewrite Hgen by (intros; apply lookup_empty). rewrite lookup_empty. naive_solver.
Qed.

Lemma foldl_same {A B} (f g : A → B → A) xs a :
  (∀ a x, f a x = g a x) → foldl f a xs = foldl g a xs.
Proof. intros Hfg. revert a. induction xs as [|x xs IH]; intros a; simpl; [done|]. by rewrite Hfg. Qed.

(** The sets visited, up to the order. *)
Lemma range_controlled_perm c existing :
  NoDup (map ss_Name existing) →
  (range_map (controlledByName c existing)).*2 ≡ₚ
  List.filter (λ ss, IsControlledBy (ss_Meta ss) (cass_Meta c)) existing.
Proof.
  intros Hnd. destruct (range_controlled c existing Hnd) as [Hnd' Hel]. apply NoDup_Permutation.
  - apply (NoDup_fmap_1 ss_Name). rewrite <-list_fmap_compose. exact Hnd'.
  - apply base.NoDup_ListNoDup, List.NoDup_filter, base.NoDup_ListNoDup. by apply (NoDup_fmap_1 ss_Name).
  - intros ss. rewrite list_elem_of_fmap, list_elem_of_In, filter_In, <-list_elem_of_In. split.
    + intros ([n ss'] & -> & (? & _ & ?)%Hel). done.
    + intros [Hin Hc]. exists (ss_Name ss, ss). split; [done|]. by apply Hel.
Qed.

(** After updateStatus the reported node pools are exactly the stateful sets the cluster
    controls, by their pool label, with their ready replicas. *)
Theorem cassandra_status_reports_sets s c sel existing :
  LawfulLister ss_Meta (StatefulSetLister s) →
  SelectorForCluster c = inr sel →
  lister_List (StatefulSetLister s) (cass_Namespace c) sel = inr existing →
  NoDup (map (λ ss, map_get0 (om_Labels (ss_Meta ss)) CassandraNodePoolNameLabel)
    (List.filter (λ ss, IsControlledBy (ss_Meta ss) (cass_Meta c)) existing)) →
  ∃ nps, updateStatus s c = (set_cst_NodePools nps c, None) ∧
    ∀ name st, nps !! name = Some st ↔ ∃ ss, ss ∈ existing ∧
      IsControlledBy (ss_Meta ss) (cass_Meta c) = true ∧
      map_get0 (om_Labels (ss_Meta ss)) CassandraNodePoolNameLabel = name ∧
      st = mkCassandraClusterNodePoolStatus (sst_ReadyReplicas (ss_Status ss)).
Proof.
  intros Hl Hsel Hlist Hnd. unfold updateStatus, StatefulSetsForCluster. rewrite Hsel, Hlist.
  eexists. split; [done|]. intros name st.
  pose proof (list_NoDup _ _ _ Hlist) as Hnames.
  pose proof (range_controlled_perm c existing Hnames) as Hperm.
  destruct (range_controlled c existing Hnames) as [_ Hel]. unfold poolStatuses.
  set (key := λ x : string * StatefulSet, map_get0 (om_Labels (ss_Meta (snd x))) CassandraNodePoolNameLabel).
  set (val := λ x : string * StatefulSet,
    mkCassandraClusterNodePoolStatus (sst_ReadyReplicas (ss_Status (snd x)))).
  rewrite (foldl_same _ (λ (m : gmap string CassandraClusterNodePoolStatus) x, <[key x := val x]> m)) by (by intros ? []).
  rewrite (foldl_insert_lookup key val).
  - split.
    + intros ([n ss] & (? & ? & ?)%Hel & ? & ->). exists ss. done.
    + intros (ss & Hin & Hc & Hk & ->). exists (ss_Name ss, ss). split; [by apply Hel|done].
  - rewrite <-Hperm in Hnd. unfold key. by rewrite <-list_fmap_compose in Hnd.
Qed.

(** ** The controller's sync *)

Definition statusUpdate (call : APICall) : Prop := ∃ ns c, call = UpdateCassandraClusterStatus ns c.

Lemma cass_no_status_prefix plan cs :
  cs `prefix_of` plan → Forall (λ call, ¬ statusUpdate call) plan → Forall (λ call, ¬ statusUpdate call) cs.
Proof. intros [post ->]. by rewrite Forall_app; intros []. Qed.

Lemma cass_supportPlan_no_status s c : Forall (λ call, ¬ statusUpdate call) (supportPlan s c).
Proof.
  unfold supportPlan, ownedPlan. rewrite !Forall_app.
  split_and!; case_match; repeat constructor; by intros (? & ? & ?).
Qed.

Lemma seedPlan_no_status s c pods : Forall (λ call, ¬ statusUpdate call) (seedPlan s c pods).
Proof.
  unfold seedPlan. destruct (StatefulSetsForCluster _ _); [constructor|]. apply Forall_forall.
  intros call (x & _ & Hx)%list_elem_of_omap. unfold seedCall in Hx. repeat case_match; simplify_eq. by intros (? & ? & ?).
Qed.

Lemma cassShape_no_status s c0 c pods ok cs :
  cassShape s c0 (supportPlan s c) (seedPlan s c pods) ok cs → Forall (λ call, ¬ statusUpdate call) cs.
Proof.
  intros (sup & labels & tail & -> & Hsup & Hl & Ht). rewrite !Forall_app. split_and!.
  - eapply cass_no_status_prefix; [exact Hsup|apply cass_supportPlan_no_status].
  - eapply cass_no_status_prefix; [exact Hl|apply seedPlan_no_status].
  - destruct Ht as [(_ & _ & Ht)|[(_ & -> & _)|(_ & -> & _)]]; [|constructor..].
    destruct Ht as [[-> _]|[(? & ? & ? & ? & _ & _ & _ & _ & ->)|(_ & ? & ? & ? & ? & ? & ? & _ & _ & _ & _ & _ & _ & _ & _ & ->)]];
      repeat constructor; by intros (? & ? & ?).
Qed.

Lemma syncStep_result {A} c f (stop : A) m k (P : A → Prop) :
  triple m (λ _ _, True) → P stop → triple k (λ o _, ∀ a e, o = Ret (a, e) → P a) →
  triple (syncStep c f stop m k) (λ o _, ∀ a e, o = Ret (a, e) → P a).
Proof.
  intros Hm Hstop Hk. unfold syncStep, errEvent. eapply triple_bind; [exact Hm|..]; [|done].
  intros [e|] cs _; [|exact Hk]. trace. by intros ? ? [= <- <-].
Qed.

Lemma triple_any {A} (m : GoM World A) Q : triple m Q → triple m (λ _ _, True).
Proof. intros Hm. by eapply triple_weaken. Qed.

Lemma keepsPods_any m plan : keepsPods m plan → triple m (λ _ _, True).
Proof. intros Hm w. destruct (Hm w) as (r & w' & cs & ? & ? & _). by exists (Ret r), w', cs. Qed.

Lemma seedLabeller_any s c : triple (seedLabeller_Sync s c) (λ _ _, True).
Proof. intros w. destruct (seedLabeller_plan s c w) as (r & w' & cs & ? & ? & _). by exists (Ret r), w', cs. Qed.

(** Sync itself never writes the status. *)
Lemma cass_Sync_no_status s c : triple (Sync s c) (λ _ cs, Forall (λ call, ¬ statusUpdate call) cs).
Proof.
  intros w. destruct (sync_trace s c (w_pods w) w eq_refl) as (o & w' & cs & Hrun & Hd & Hcs).
  exists o, w', cs. split_and!; [done..|].
  destruct (cfg_Paused _); [subst; constructor|by eapply cassShape_no_status].
Qed.

(** Sync changes only the status. *)
Lemma Sync_keeps s c :
  triple (Sync s c) (λ o _, ∀ c' e, o = Ret (c', e) → cass_Meta c' = cass_Meta c ∧ cass_Spec c' = cass_Spec c).
Proof.
  unfold Sync. simpl. destruct (cfg_Paused _); [apply triple_ret; by intros ? ? [= <- <-]|].
  destruct (updateStatus s _) as [c2 e2] eqn:E.
  assert (cass_Meta c2 = cass_Meta c ∧ cass_Spec c2 = cass_Spec c) as H2.
  { unfold updateStatus in E. destruct (StatefulSetsForCluster _ _); by simplify_eq/=. }
  repeat (apply (syncStep_result _ _ _ _ _ (λ c', cass_Meta c' = cass_Meta c ∧ cass_Spec c' = cass_Spec c));
    [first [exact (keepsPods_any _ _ (ensureOwned_keepsPods _ _ _ _ _ _)) | by apply triple_ret
           | apply seedLabeller_any]|done|]).
  unfold syncAction, errEvent. apply triple_bind_lift; [|done]. intros a Ha. eapply (triple_bind _ _ (λ _ _, True)).
  - destruct a as [[c' np|c' np]|]; [..|by apply triple_ret]; eapply triple_any; [apply cassCreate_trace|apply cassScaleOut_trace].
  - intros [e|] cs _; trace; by intros ? ? [= <- <-].
  - done.
Qed.

(** The controller sync of an existing cluster that does not panic ends with exactly one
    status update, of an object that differs from the cached cluster only in its status. *)
Theorem cassandra_controller_sync s key ns name c :
  SplitMetaNamespaceKey key = inr (ns, name) →
  lister_Get (CassandraClusterLister s) ns name = inr c → wf_CassVersion (cs_Version (cass_Spec c)) →
  triple (sync s key) (λ o cs, ∀ r, o = Ret r → ∃ c' cs',
    cs = cs' ++ [UpdateCassandraClusterStatus (cass_Namespace c) c'] ∧
    Forall (λ call, ¬ statusUpdate call) cs' ∧
    cass_Meta c' = cass_Meta c ∧ cass_Spec c' = cass_Spec c).
Proof.
  intros Hkey Hget Hwf. unfold sync. rewrite Hkey, Hget. unfold CassandraCluster_DeepCopy.
  rewrite CassVersion_DeepCopy_id by done. apply triple_bind_lift; [|done].
  assert (mkCassandraCluster (cass_Meta c) (mkCassandraClusterSpec (cs_Config (cass_Spec c))
    (cs_NodePools (cass_Spec c)) (cs_Image (cass_Spec c)) (cs_Version (cass_Spec c))) (cass_Status c) = c) as Hid.
  { by destruct c as [? [] ?]. }
  intros c0 [= <-]. rewrite Hid.
  eapply triple_bind; [apply (triple_and _ _ _ (cass_Sync_no_status s c) (Sync_keeps s c))|..]; [|done].
  intros [c' e] cs [Hcs Hkeep]. destruct (Hkeep c' e eq_refl) as [Hmeta Hspec].
  trace. intros ? _. exists c', cs. unfold cass_Namespace. rewrite Hmeta. done.
Qed.
End ranged.

Lemma demo_ring_listed :
  lister_List (StatefulSetLister (setsAndPilots [ringSet 2 1] [])) "default"
    [mkRequirement CassandraClusterNameLabel "demo"] = inr [ringSet 2 1].
Proof. vm_compute. reflexivity. Qed.

Lemma foreign_service_blocks_demo :
  let svc := mkService (metaOf "cass-demo-nodes" "uid-other") "None" "" None [] false in
  let s := stateOf [] [] [] [svc] [] [] [] in
  ∃ c' e w', Sync s (demoCassandra 1) emptyWorld = (Ret (c', Some e), w') ∧ did emptyWorld [] w' ∧
    cst_NodePools (cass_Status c') = None.
Proof.
  intros svc s. apply (foreign_service_blocks_sync s (demoCassandra 1) svc); [reflexivity|get_listed svc|reflexivity].
Defined.

Lemma cassandra_status_reports_sets_witness :
  ∃ nps, updateStatus (setsAndPilots [ringSet 2 1] []) (demoCassandra 2) =
           (set_cst_NodePools nps (demoCassandra 2), None) ∧
    nps !! "ring" = Some (mkCassandraClusterNodePoolStatus 1).
Proof.
  destruct (cassandra_status_reports_sets (setsAndPilots [ringSet 2 1] []) (demoCassandra 2)
    [mkRequirement CassandraClusterNameLabel "demo"] [ringSet 2 1]) as (nps & ? & Hnps).
  - apply listerOf_lawful.
  - reflexivity.
  - exact demo_ring_listed.
  - decide_closed.
  - exists nps. split; [assumption|]. apply Hnps. exists (ringSet 2 1).
    split; [left|]. split; [reflexivity|]. split; reflexivity.
Defined.

Lemma cassandra_controller_sync_witness :
  let s := withClusters [demoCassandra 1] [] (setsAndPilots [] []) in
  triple (sync s "default/demo") (λ o cs, ∀ r, o = Ret r → ∃ c' cs',
    cs = cs' ++ [UpdateCassandraClusterStatus "default" c'] ∧
    Forall (λ call, ¬ statusUpdate call) cs' ∧
    cass_Meta c' = demoCassMeta ∧ cass_Spec c' = cass_Spec (demoCassandra 1)).
Proof.
  intros s. apply (cassandra_controller_sync s "default/demo" "default" "demo" (demoCassandra 1)).
  - vm_compute. reflexivity.
  - get_listed (demoCassandra 1).
  - eexists. split; [reflexivity|]. vm_compute. reflexivity.
Defined.
