(* ===== verification/ESPilot.v ===== *)
(** * The Elasticsearch pilot

    pkg/pilot/elasticsearch/v5: the hooks, the command, the sync function that
    reports the documents and the version of the local node, the leader's sync
    that reports the health of the cluster, and the probes.

    The local Elasticsearch API, the processes that are run and the file system
    are parameters. *)

From S2P Require Import Prelude GoStrings Semver K8s WorkQueue Types CassandraVersion Cluster Fixtures Handlers PilotHooks GenericPilot GenericPilotFacts PilotRuntime CassUtil.
From Stdlib Require Import Ascii.

(** ** The environment of the process *)

(** ElasticsearchOptions, as far as it is used *)
Record ElasticsearchOptions := mkElasticsearchOptions {
  eo_MasterURL : string;
  eo_Binary : string;
  eo_PluginBinary : string;
  eo_ConfigDir : string;
  eo_Roles : list string;
  eo_Plugins : list string;
}.

Record esEnv := mkEsEnv {
  ee_nodeData : bool;
  ee_nodeIngest : bool;
  ee_nodeMaster : bool;
}.

(** The loop of env over the roles. *)
Fixpoint envOf (roles : list string) (e : esEnv) : esEnv :=
  match roles with
  | [] => e
  | role :: rest =>
      envOf rest
        (if bool_decide (role = ElasticsearchRoleData) then mkEsEnv true (ee_nodeIngest e) (ee_nodeMaster e)
         else if bool_decide (role = ElasticsearchRoleIngest) then mkEsEnv (ee_nodeData e) true (ee_nodeMaster e)
         else if bool_decide (role = ElasticsearchRoleMaster) then mkEsEnv (ee_nodeData e) (ee_nodeIngest e) true
         else e)
  end.
Definition pilot_env (o : ElasticsearchOptions) : esEnv := envOf (eo_Roles o) (mkEsEnv false false false).

(** %v of a bool *)
Definition format_bool (b : bool) : string := if b then "true" else "false".

Definition esEnv_Strings (environ : list string) (e : esEnv) : list string :=
  environ ++ ["NODE_DATA=" +:+ format_bool (ee_nodeData e);
              "NODE_INGEST=" +:+ format_bool (ee_nodeIngest e);
              "NODE_MASTER=" +:+ format_bool (ee_nodeMaster e)].

(** ** Health *)

Definition parseHealth (s : string) : option string :=
  let l := ToLower s in
  if bool_decide (l = "green") then Some ElasticsearchClusterHealthGreen
  else if bool_decide (l = "yellow") then Some ElasticsearchClusterHealthYellow
  else if bool_decide (l = "red") then Some ElasticsearchClusterHealthRed
  else None.

(** ** The local API *)

(** The counts of a node's statistics, behind pointers that may be nil. *)
Record NodesStatsNode := mkNodesStatsNode { sn_Indices : option (option Z) }.

(** NodesStats and NodesInfo for one node id, ClusterHealth (local or not). *)
Record ESClient (W : Type) := mkESClient {
  esc_NodesStats : string → GoM W (Res (gmap string NodesStatsNode));
  esc_NodesInfo : string → GoM W (Res (gmap string string));
  esc_ClusterHealth : bool → GoM W (Res string);
}.
Arguments mkESClient {W}.
Arguments esc_NodesStats {W} c node : rename.
Arguments esc_NodesInfo {W} c node : rename.
Arguments esc_ClusterHealth {W} c local : rename.

(** The file system and the execution of commands (with their output). *)
Record Files (W : Type) := mkFiles {
  fs_ReadDir : string → GoM W (Res (list string));
  fs_EvalSymlinks : string → GoM W (Res string);
  fs_Stat : string → GoM W (Res (string * bool));
  fs_Open : string → GoM W (option Err);
  fs_Create : string → GoM W (option Err);
  fs_Copy : string → string → GoM W (option Err);
  fs_Sync : string → GoM W (option Err);
  fs_Close : string → GoM W (option Err);
}.
Arguments fs_ReadDir {W} f path : rename.
Arguments fs_EvalSymlinks {W} f path : rename.
Arguments fs_Stat {W} f path : rename.
Arguments fs_Open {W} f path : rename.
Arguments fs_Create {W} f path : rename.
Arguments fs_Copy {W} f src dst : rename.
Arguments fs_Sync {W} f path : rename.
Arguments fs_Close {W} f path : rename.

Definition set_Elasticsearch (st : ElasticsearchPilotStatus) (pilot : Pilot) : Pilot :=
  mkPilot (pil_Meta pilot)
    (mkPilotStatus (pst_Conditions (pil_Status pilot)) (Some st) (pst_Cassandra (pil_Status pilot))).

(** pilot.Status.Elasticsearch, made if it is nil *)
Definition ensureElasticsearch (pilot : Pilot) : Pilot :=
  match pst_Elasticsearch (pil_Status pilot) with
  | None => set_Elasticsearch (mkElasticsearchPilotStatus None None) pilot
  | Some _ => pilot
  end.

Definition es_status (pilot : Pilot) : ElasticsearchPilotStatus :=
  default (mkElasticsearchPilotStatus None None) (pst_Elasticsearch (pil_Status pilot)).

Definition set_Documents (docs : option Z) (pilot : Pilot) : Pilot :=
  set_Elasticsearch (mkElasticsearchPilotStatus docs (eps_Version (es_status pilot))) pilot.
Definition set_Version (v : option Version) (pilot : Pilot) : Pilot :=
  set_Elasticsearch (mkElasticsearchPilotStatus (eps_Documents (es_status pilot)) v) pilot.

Definition nodeStatsUpdateFrequency : Z := 10.

Definition set_Health (h : option string) (c : ElasticsearchCluster) : ElasticsearchCluster :=
  mkElasticsearchCluster (esc_Meta c) (esc_Spec c)
    (mkElasticsearchClusterStatus (est_Conditions (esc_Status c)) (est_NodePools (esc_Status c)) h).

Section pilot.
Context {E : Type} `{MapRange} (s : State) (o : ElasticsearchOptions) (pilotName configDir : string).
(** The client, once it could be made. *)
Context (localESClient : option (ESClient (Env E))).
Context (files : Files (Env E)) (run : Cmd → GoM (Env E) (Res string)) (environ : list string).
(** The clock, and the time of the last update, which nothing sets. *)
Context (now lastNodeStatsUpdate : Z) (fuel : nat).

(** *** Hooks *)

Definition copyFileContents (src dst : string) : GoM (Env E) (option Err) :=
  err ← fs_Open files src;
  match err with
  | Some err => mret (Some err)
  | None =>
      err ← fs_Create files dst;
      match err with
      | Some err => fs_Close files src ;; mret (Some err)
      | None =>
          err ← fs_Copy files src dst;
          err ← match err with
                | Some err => mret (Some err)
                | None => fs_Sync files dst
                end;
          cerr ← fs_Close files dst;
          fs_Close files src ;;
          mret (match err with Some err => Some err | None => cerr end)
      end
  end.

(** filepath.Join of a directory and a file name *)
Definition Join (dir name : string) : string := dir +:+ "/" +:+ name.

Definition WriteConfig (pilot : Pilot) : GoM (Env E) (Pilot * option Err) :=
  let esConfigPath := configDir +:+ "/" +:+ "elasticsearch/config" in
  r ← fs_ReadDir files esConfigPath;
  match r with
  | inl err => mret (pilot, Some (Errorf "error listing provided config files: %s" [AErr err]))
  | inr names =>
      err ← for_range names (λ name,
        r ← fs_EvalSymlinks files (Join esConfigPath name);
        match r with
        | inl err => mret (Some (Errorf "error evaluating symlinks in path %q: %s" [AStr ""; AErr err]))
        | inr path =>
            r ← fs_Stat files path;
            match r with
            | inl err => mret (Some (Errorf "error getting info for path %q: %s" [AStr path; AErr err]))
            | inr (base, isDir) =>
                if (isDir : bool) then mret None
                else copyFileContents path (eo_ConfigDir o +:+ "/" +:+ base)
            end
        end);
      mret (pilot, err)
  end.

Definition pluginCmd (args : list string) : Cmd :=
  Command (eo_PluginBinary o) args (esEnv_Strings environ (pilot_env o)).

Definition getInstalledPlugins : GoM (Env E) (Res (gset string)) :=
  r ← run (pluginCmd ["list"]);
  match r with
  | inl err => mret (inl err)
  | inr out => mret (inr (list_to_set (split_all "010"%char out)))
  end.

Definition installPlugin (plugin : string) : GoM (Env E) (option Err) :=
  r ← run (pluginCmd ["install"; plugin]);
  mret (res_err r).

Definition InstallPlugins (pilot : Pilot) : GoM (Env E) (Pilot * option Err) :=
  r ← getInstalledPlugins;
  match r with
  | inl err => mret (pilot, Some (Errorf "error listing installed plugins: %s" [AErr err]))
  | inr installed =>
      err ← for_range (eo_Plugins o) (λ plugin,
        if bool_decide (plugin ∈ installed) then mret None else installPlugin plugin);
      mret (pilot, err)
  end.

Definition es_Hooks : Hooks (Env E) :=
  mkHooks [mkHook "WriteConfig" WriteConfig; mkHook "InstallPlugins" InstallPlugins] [] [] [].

Definition es_CmdFunc (pilot : Pilot) : GoM (Env E) (Pilot * Res (option Cmd)) :=
  mret (pilot, inr (Some (Command "elasticsearch" [] (esEnv_Strings environ (pilot_env o))))).

(** *** Sync of the local node *)

Definition noClient : Err := Errorf "local elasticsearch client not available" [].

Definition updateNodeStats (pilot : Pilot) : GoM (Env E) (Pilot * option Err) :=
  let pilot := set_Documents None (ensureElasticsearch pilot) in
  match localESClient with
  | None => mret (pilot, Some noClient)
  | Some client =>
      r ← esc_NodesStats client pilotName;
      match r with
      | inl err => mret (pilot, Some err)
      | inr nodes =>
          docs ← foldl (λ m '(_, stats),
                   m ;; indices ← deref (sn_Indices stats); docs ← deref indices; mret (Some docs))
                 (mret None) (range_map nodes);
          mret (match docs with Some docs => set_Documents (Some docs) pilot | None => pilot end, None)
      end
  end.

(** The loop of updateNodeInfo (the text of a parse error is not kept); the first version that does not parse ends it. *)
Fixpoint applyInfo (nodes : list (string * string)) (pilot : Pilot) : Pilot * option Err :=
  match nodes with
  | [] => (pilot, None)
  | (_, version) :: rest =>
      match NewVersion version with
      | None => (pilot, Some (Errorf "invalid version: %s" [AStr version]))
      | Some ver => applyInfo rest (set_Version (Some ver) pilot)
      end
  end.

Definition updateNodeInfo (pilot : Pilot) : GoM (Env E) (Pilot * option Err) :=
  let pilot := ensureElasticsearch pilot in
  match localESClient with
  | None => mret (pilot, Some noClient)
  | Some client =>
      r ← esc_NodesInfo client pilotName;
      match r with
      | inl err => mret (pilot, Some err)
      | inr nodes => mret (applyInfo (range_map nodes) pilot)
      end
  end.

Definition es_syncFunc (pilot : Pilot) : GoM (Env E) (Pilot * option Err) :=
  let pilot := ensureElasticsearch pilot in
  if bool_decide (now < lastNodeStatsUpdate + nodeStatsUpdateFrequency) then mret (pilot, None)
  else
    '(pilot, err) ← updateNodeStats pilot;
    match err with
    | Some err => mret (pilot, Some err)
    | None => updateNodeInfo pilot
    end.

(** *** The leader's sync *)

(** [None]: the walk up the owners did not end. *)
Definition getOwningCluster (pilot : Pilot) : option (Res ElasticsearchCluster) :=
  match RootControllerRef fuel s "" (pil_Meta pilot) with
  | None => None
  | Some (inl err) => Some (inl (Wrapf err "unable to get root controller reference" []))
  | Some (inr None) => Some (inl (Errorf "could not determine controller of Pilot %q" [AStr (pil_Name pilot)]))
  | Some (inr (Some ownerRef)) =>
      if negb (bool_decide (or_Kind ownerRef = "ElasticsearchCluster")) then
        Some (inl (Errorf "could not determine controller of Pilot %q" [AStr (pil_Name pilot)]))
      else Some (lister_Get (ElasticsearchClusterLister s) (pil_Namespace pilot) (or_Name ownerRef))
  end.

Definition updateElasticsearchClusterStatus (esc : ElasticsearchCluster) : GoM (Env E) (option Err) :=
  match localESClient with
  | None => mret (Some noClient)
  | Some client =>
      r ← esc_ClusterHealth client false;
      match r with
      | inl err => mret (Some err)
      | inr status =>
          let escCopy := set_Health (parseHealth status) esc in
          λ '(w, e), let '(r, w) := api_call s (UpdateElasticsearchClusterStatus (esc_Namespace escCopy) escCopy) w in
                     (r, (w, e))
      end
  end.

(** A walk that does not end is shown as a panic: the call never returns. *)
Definition es_leaderElectedSyncFunc (pilot : Pilot) : GoM (Env E) (Pilot * option Err) :=
  match getOwningCluster pilot with
  | None => go_panic "the owners of the pilot form a cycle"
  | Some (inl err) => mret (pilot, Some err)
  | Some (inr esc) =>
      err ← updateElasticsearchClusterStatus esc;
      match err with
      | Some err =>
          mret (pilot, Some (Errorf "error updating elasticsearchcluster %q status: %s" [AStr (esc_Name esc); AErr err]))
      | None => mret (pilot, None)
      end
  end.

(** *** Probes *)

Definition localNodeHealth : GoM (Env E) (option Err) :=
  client ← deref localESClient;
  r ← esc_ClusterHealth client true;
  mret (res_err r).

Definition es_ReadinessCheck : GoM (Env E) (option Err) := CombineChecks [localNodeHealth].
Definition es_LivenessCheck : GoM (Env E) (option Err) := CombineChecks [mret None].

(** What Complete hands to the generic pilot. *)
Definition es_Options (namespace : string) (signals : Signals) : Options E :=
  mkOptions pilotName namespace es_CmdFunc signals es_Hooks es_syncFunc (Some es_leaderElectedSyncFunc).

#[export] Instance es_lawful namespace signals : LawfulOptions (es_Options namespace signals).
Proof. by intros pilot env pilot' cmd env' [= <- <- <-]. Qed.

(** ** What the pilot reports *)

Lemma es_status_set_Documents docs pilot : eps_Documents (es_status (set_Documents docs pilot)) = docs.
Proof. done. Qed.

Lemma applyInfo_documents nodes pilot pilot' err :
  applyInfo nodes pilot = (pilot', err) →
  eps_Documents (es_status pilot') = eps_Documents (es_status pilot) ∧ pil_Meta pilot' = pil_Meta pilot.
Proof.
  revert pilot. induction nodes as [|[k v] nodes IH]; intros pilot; simpl; [by intros [= <- _]|].
  destruct (NewVersion v); [|by intros [= <- _]]. intros [Hd Hm]%IH. by rewrite Hd, Hm.
Qed.

Lemma ensure_documents pilot :
  eps_Documents (es_status (ensureElasticsearch pilot)) = eps_Documents (es_status pilot) ∧
  pil_Meta (ensureElasticsearch pilot) = pil_Meta pilot.
Proof. unfold ensureElasticsearch, es_status. by destruct (pst_Elasticsearch (pil_Status pilot)) as [st|] eqn:Hst; rewrite ?Hst. Qed.

Lemma updateNodeInfo_documents pilot env pilot' err env' :
  updateNodeInfo pilot env = (Ret (pilot', err), env') →
  eps_Documents (es_status pilot') = eps_Documents (es_status pilot) ∧ pil_Meta pilot' = pil_Meta pilot.
Proof.
  destruct (ensure_documents pilot) as [Hd Hm]. unfold updateNodeInfo.
  destruct localESClient as [client|]; [|intros [= <- _ _]; done]. intros Hrun.
  apply gom_bind_inv in Hrun as ([e|nodes] & env1 & _ & Hrun); [injection Hrun as <- _ _; done|].
  injection Hrun as Ha _. apply applyInfo_documents in Ha as [Hd' Hm']. by rewrite Hd', Hm'.
Qed.

(** The count that the loop over the statistics leaves is one of theirs. *)
Definition statsStep (m : GoM (Env E) (option Z)) (entry : string * NodesStatsNode) : GoM (Env E) (option Z) :=
  let '(_, stats) := entry in
  m ;; indices ← deref (sn_Indices stats); docs ← deref indices; mret (Some docs).

Lemma stats_loop nodes env d env' :
  foldl statsStep (mret None) nodes env = (Ret d, env') →
  env' = env ∧ (nodes = [] → d = None) ∧
  (∀ n, d = Some n → ∃ host stats, (host, stats) ∈ nodes ∧ sn_Indices stats = Some (Some n)) ∧
  (nodes ≠ [] → is_Some d).
Proof.
  revert d env'. induction nodes as [|[h st] nodes IH] using rev_ind; intros d env'.
  { intros [= <- <-]. done. }
  rewrite foldl_app. cbn [foldl]. intros Hrun.
  apply gom_bind_inv in Hrun as (d0 & env0 & H0 & Hrun). apply IH in H0 as (-> & _).
  apply gom_bind_inv in Hrun as (i & w1 & Hi & Hrun).
  destruct (sn_Indices st) as [i0|] eqn:Hst; [|done]. injection Hi as -> <-.
  apply gom_bind_inv in Hrun as (docs & w2 & Hdocs & Hrun). destruct i as [docs0|]; [|done].
  injection Hdocs as -> <-. injection Hrun as <- <-.
  split_and!; [done|by destruct nodes| |by eauto].
  intros n [= <-]. exists h, st. split; [|done]. apply elem_of_app. right. by left.
Qed.

(** C30. After a sync of the Elasticsearch pilot that is due, the reported document count is one
    the local node gave during this sync, or none when its statistics could not be read or were
    empty: a count from an earlier sync never remains. *)
Theorem es_documents_are_fresh pilot env pilot' err env' :
  lastNodeStatsUpdate + nodeStatsUpdateFrequency ≤ now →
  es_syncFunc pilot env = (Ret (pilot', err), env') →
  pil_Meta pilot' = pil_Meta pilot ∧
  match eps_Documents (es_status pilot') with
  | Some n => ∃ client nodes env1 host stats,
      localESClient = Some client ∧ esc_NodesStats client pilotName env = (Ret (inr nodes), env1) ∧
      nodes !! host = Some stats ∧ sn_Indices stats = Some (Some n)
  | None => ∀ client nodes env1,
      localESClient = Some client → esc_NodesStats client pilotName env = (Ret (inr nodes), env1) → nodes = ∅
  end.
Proof.
  intros Hdue Hrun. unfold es_syncFunc in Hrun. rewrite bool_decide_eq_false_2 in Hrun by lia.
  apply gom_bind_inv in Hrun as ([pl er] & env2 & Hstats & Hrun).
  assert (eps_Documents (es_status pilot') = eps_Documents (es_status pl) ∧ pil_Meta pilot' = pil_Meta pl) as [-> ->].
  { destruct er as [er|]; [by injection Hrun as <- _ _|]. by eapply updateNodeInfo_documents. }
  clear Hrun. destruct (ensure_documents pilot) as [_ Hm].
  destruct (ensure_documents (ensureElasticsearch pilot)) as [_ Hm2]. rewrite Hm in Hm2.
  unfold updateNodeStats in Hstats. destruct localESClient as [client|] eqn:Hc.
  2:{ injection Hstats as <- <- <-. split; [done|]. simpl. naive_solver. }
  apply gom_bind_inv in Hstats as (r & env3 & Hcall & Hstats). destruct r as [e|nodes].
  { injection Hstats as <- <- <-. split; [done|]. simpl. intros c nodes env1 [= <-] Hcall'. congruence. }
  apply gom_bind_inv in Hstats as (d & env4 & Hloop & [= <- _ _]).
  apply stats_loop in Hloop as (_ & _ & Hsome & Hne). destruct d as [n|].
  - split; [done|]. simpl. destruct (Hsome n eq_refl) as (host & stats & Hin & Hst).
    rewrite range_map_perm in Hin. apply elem_of_map_to_list in Hin. naive_solver.
  - split; [done|]. simpl. intros c nodes' env1 [= <-] Hcall'. rewrite Hcall in Hcall'.
    injection Hcall' as <- _. apply map_to_list_empty_iff. destruct (map_to_list nodes) as [|x xs] eqn:Hl; [done|].
    destruct Hne as [? ?]; [|done]. intros Hn. pose proof (range_map_perm nodes) as Hp. rewrite Hn, Hl in Hp.
    by apply Permutation_nil in Hp.
Qed.

(** Asking the local API leaves the log of API calls alone. *)
Definition quietClient : Prop :=
  ∀ client local env r env', localESClient = Some client → esc_ClusterHealth client local env = (r, env') →
    fst env' = fst env.

(** The leader's sync makes at most one call, a status update of the owning cluster
    in which only the health differs from the cached cluster. *)
Theorem es_leader_writes_only_health pilot w e pilot' err w' e' :
  quietClient →
  es_leaderElectedSyncFunc pilot (w, e) = (Ret (pilot', err), (w', e')) →
  pilot' = pilot ∧
  ((err ≠ None ∧ w' = w) ∨
   ∃ ref esc status, let c := set_Health (parseHealth status) esc in
     RootControllerRef fuel s "" (pil_Meta pilot) = Some (inr (Some ref)) ∧ or_Kind ref = "ElasticsearchCluster" ∧
     lister_Get (ElasticsearchClusterLister s) (pil_Namespace pilot) (or_Name ref) = inr esc ∧
     w' = log_effect (EffCall (UpdateElasticsearchClusterStatus (esc_Namespace c) c)) w ∧
     (err = None ↔ Clientset s (w_log w) (UpdateElasticsearchClusterStatus (esc_Namespace c) c) = None)).
Proof.
  intros Hquiet. unfold es_leaderElectedSyncFunc, getOwningCluster.
  destruct (RootControllerRef fuel s "" (pil_Meta pilot)) as [[er|[ref|]]|] eqn:Href; try done.
  { intros [= <- <- <- <-]. split; [done|]. by left. }
  2:{ intros [= <- <- <- <-]. split; [done|]. by left. }
  case_bool_decide as Hkind; simpl; [|intros [= <- <- <- <-]; split; [done|]; by left].
  destruct (lister_Get _ _ _) as [er|esc] eqn:Hget.
  { intros [= <- <- <- <-]. split; [done|]. by left. }
  unfold updateElasticsearchClusterStatus. destruct localESClient as [client|] eqn:Hc.
  2:{ intros [= <- <- <- <-]. split; [done|]. by left. }
  intros Hrun. apply gom_bind_inv in Hrun as (er & env1 & Hupd & Hrun).
  apply gom_bind_inv in Hupd as ([er'|status] & [w1 e1] & Hhealth & Hupd);
    pose proof (Hquiet _ _ _ _ _ Hc Hhealth) as Hw; simpl in Hw; subst w1.
  { injection Hupd as <- <-. injection Hrun as <- <- <- <-. split; [done|]. by left. }
  injection Hupd as <- <-.
  destruct (Clientset s (w_log w) _) as [er'|] eqn:Hapi; injection Hrun as <- <- <- <-; (split; [done|]);
    right; exists ref, esc, status; cbn zeta; rewrite Hapi; split_and!; done.
Qed.

(** A probe before the client exists dereferences nil. *)
Lemma readiness_without_client_panics env :
  localESClient = None → ∃ why, es_ReadinessCheck env = (Panic why, env).
Proof. intros Hc. unfold es_ReadinessCheck, localNodeHealth. rewrite Hc. by eexists. Qed.

End pilot.

(** *** Roles and health *)

Lemma envOf_spec roles e :
  envOf roles e =
  mkEsEnv (ee_nodeData e || bool_decide (ElasticsearchRoleData ∈ roles))
    (ee_nodeIngest e || bool_decide (ElasticsearchRoleIngest ∈ roles))
    (ee_nodeMaster e || bool_decide (ElasticsearchRoleMaster ∈ roles)).
Proof.
  revert e. induction roles as [|r roles IH]; intros e; simpl.
  { destruct e as [a b c]. simpl. by rewrite !orb_false_r. }
  assert (∀ x, bool_decide (x ∈ r :: roles) = bool_decide (x = r) || bool_decide (x ∈ roles)) as Hcons.
  { intros x. apply Bool.eq_iff_eq_true. rewrite orb_true_iff, !bool_decide_eq_true. apply elem_of_cons. }
  rewrite IH, !Hcons. destruct e as [a b c]; simpl.
  repeat case_bool_decide; simplify_eq/=; rewrite ?orb_true_r, ?orb_false_r, ?orb_assoc; try done.
Qed.

(** The cases of the unit test of parseHealth. *)
Example parseHealth_cases :
  map parseHealth ["grEeN"; "reD"; "YELLOW"; "abcdefgh"; "ABCdef"] =
  [Some ElasticsearchClusterHealthGreen; Some ElasticsearchClusterHealthRed;
   Some ElasticsearchClusterHealthYellow; None; None].
Proof. reflexivity. Qed.

(** *** Plugins *)

Lemma for_range_skip {W A R} (p : A → bool) (f : A → GoM W (option R)) xs w :
  for_range xs (λ x, if p x then mret None else f x) w = for_range (List.filter (λ x, negb (p x)) xs) f w.
Proof.
  revert w. induction xs as [|x xs IH]; intros w; [done|]. simpl. destruct (p x); simpl; [apply IH|].
  unfold mbind, gom_bind. destruct (f x w) as [[[r|]|why] w']; [done|apply IH|done].
Qed.

(** Only the plugins that are not listed are installed, in their order and up
    to the first failure. *)
Lemma InstallPlugins_missing {E} (o : ElasticsearchOptions) (run : Cmd → GoM (Env E) (Res string)) environ pilot env out env1 :
  run (pluginCmd o environ ["list"]) env = (Ret (inr out), env1) →
  InstallPlugins o run environ pilot env =
  (err ← for_range (List.filter (λ p, negb (bool_decide (p ∈ split_all "010"%char out))) (eo_Plugins o))
           (installPlugin o run environ); mret (pilot, err)) env1.
Proof.
  intros Hlist. unfold InstallPlugins, getInstalledPlugins. unfold mbind, gom_bind. rewrite Hlist. cbn.
  rewrite for_range_skip. erewrite List.filter_ext; [done|]. intros p. simpl. f_equal.
  apply bool_decide_ext. apply elem_of_list_to_set.
Qed.

(** ** A concrete node *)

Definition demoClient : ESClient (Env nat) :=
  mkESClient (λ _ env, (Ret (inr {["n1" := mkNodesStatsNode (Some (Some 12))]}), env))
    (λ _ env, (Ret (inr {["n1" := "5.6.1"]}), env)) (λ _ env, (Ret (inr "GREEN"), env)).

Lemma es_documents_are_fresh_witness :
  ∃ pilot', es_syncFunc "es-demo-data-0" (Some demoClient) 100 0 dataPilot (emptyWorld, 0%nat) =
              (Ret (pilot', None), (emptyWorld, 0%nat)) ∧
            eps_Documents (es_status pilot') = Some 12 ∧ pil_Meta pilot' = pil_Meta dataPilot.
Proof.
  eexists. split; [reflexivity|].
  destruct (es_documents_are_fresh "es-demo-data-0" (Some demoClient) 100 0 dataPilot (emptyWorld, 0%nat)
    _ None (emptyWorld, 0%nat) ltac:(vm_compute; discriminate) eq_refl) as [Hmeta _].
  split; [reflexivity|exact Hmeta].
Defined.

Lemma demoClient_quiet : quietClient (Some demoClient).
Proof. intros client local env r env' [= <-] [= _ <-]. done. Qed.

Lemma es_leader_writes_only_health_witness :
  ∃ w', es_leaderElectedSyncFunc peerState (Some demoClient) 3 dataPilot (emptyWorld, 0%nat) =
          (Ret (dataPilot, None), (w', 0%nat)) ∧
        w' = log_effect (EffCall (UpdateElasticsearchClusterStatus "default"
               (set_Health (Some ElasticsearchClusterHealthGreen) demoCluster))) emptyWorld.
Proof.
  assert (getOwningCluster peerState 3 dataPilot = Some (inr demoCluster)) as Howner.
  { unfold getOwningCluster. rewrite dataPilot_root. cbn [negb bool_decide or_Kind NewControllerRef].
    change (Some (lister_Get (ElasticsearchClusterLister peerState) "default" "demo") = Some (inr demoCluster)).
    f_equal. }
  assert (es_leaderElectedSyncFunc peerState (Some demoClient) 3 dataPilot (emptyWorld, 0%nat) =
    (Ret (dataPilot, None), (log_effect (EffCall (UpdateElasticsearchClusterStatus "default"
               (set_Health (Some ElasticsearchClusterHealthGreen) demoCluster))) emptyWorld, 0%nat))) as Hrun.
  { unfold es_leaderElectedSyncFunc. rewrite Howner. reflexivity. }
  destruct (es_leader_writes_only_health peerState (Some demoClient) 3 dataPilot emptyWorld 0%nat _ _ _ _
    demoClient_quiet Hrun) as [_ _].
  eexists. split; [exact Hrun|reflexivity].
Defined.
