(* ===== verification/Nodetool.v ===== *)
(** * nodetool

    pkg/cassandra/nodetool: the client of the Jolokia endpoint of a Cassandra
    node (client/client.go) and the status and version read from it
    (nodetool.go).  HTTP and JSON are parameters: the request's answer and the
    decoding of a body. *)

From S2P Require Import Prelude GoStrings Semver K8s Types CassUtil.
From Stdlib Require Import Ascii.

(** ** uuid.UUID *)

(** github.com/pborman/uuid: bytes; only 16 of them are a valid uuid. *)
Definition UUID : Type := list Z.

Definition hex_digit (z : Z) : ascii :=
  ascii_of_nat (Z.to_nat (if decide (z < 10) then z + 48 else z + 87)).

(** encoding/hex *)
Fixpoint hex_Encode (bs : list Z) : string :=
  match bs with
  | [] => ""
  | b :: bs => String (hex_digit (Z.shiftr b 4)) (String (hex_digit (Z.land b 15)) (hex_Encode bs))
  end.

Definition UUID_String (u : UUID) : string :=
  if negb (bool_decide (length u = 16%nat)) then ""
  else hex_Encode (take 4 u) +:+ "-" +:+ hex_Encode (take 2 (drop 4 u)) +:+ "-" +:+
       hex_Encode (take 2 (drop 6 u)) +:+ "-" +:+ hex_Encode (take 2 (drop 8 u)) +:+ "-" +:+ hex_Encode (drop 10 u).

(** ** client *)

Record StorageService := mkStorageService {
  ssi_HostIdMap : option (gmap string UUID);
  ssi_LiveNodes : list string;
  ssi_UnreachableNodes : list string;
  ssi_LeavingNodes : list string;
  ssi_JoiningNodes : list string;
  ssi_MovingNodes : list string;
  ssi_LocalHostId : UUID;
  ssi_ReleaseVersion : option CassVersion;
}.

Record HTTPResponse := mkHTTPResponse {
  resp_StatusCode : Z;
  resp_Body : Res string;
}.

Definition StatusOK : Z := 200.

Section client.
Context {W : Type}.
(** http.NewRequest's error, http.Client.Do, and json.Unmarshal into a
    JolokiaResponse, of which the value is kept. *)
Context (newRequest : option Err) (do : GoM W (Res HTTPResponse)) (unmarshal : string → Res (option StorageService)).

Definition client_StorageService (url : string) : GoM W (Res StorageService) :=
  match newRequest with
  | Some err => mret (inl (Errorf "failed to instantiate HTTP request: %v" [AErr err]))
  | None =>
      response ← do;
      match response with
      | inl err => mret (inl (Errorf "failed to send HTTP request: %v" [AErr err]))
      | inr response =>
          if negb (bool_decide (resp_StatusCode response = StatusOK)) then
            mret (inl (Errorf "unexpected server response code for request %s. Expected %d. Got %d."
                         [AStr url; AInt StatusOK; AInt (resp_StatusCode response)]))
          else
            match resp_Body response with
            | inl err => mret (inl (Errorf "failed to read response body: %v" [AErr err]))
            | inr body =>
                match unmarshal body with
                | inl err => mret (inl (Errorf "failed to unmarshal JSON response: %v" [AErr err]))
                | inr None => mret (inl (Errorf "the response had an empty Jolokia value" []))
                | inr (Some value) => mret (inr value)
                end
            end
      end
  end.
End client.

(** ** nodetool *)

Definition NodeStateUnknown : string := "Unknown".
Definition NodeStateNormal : string := "Normal".
Definition NodeStateLeaving : string := "Leaving".
Definition NodeStateJoining : string := "Joining".
Definition NodeStateMoving : string := "Moving".

Definition NodeStatusUnknown : string := "Unknown".
Definition NodeStatusUp : string := "Up".
Definition NodeStatusDown : string := "Down".

Record Node := mkNode {
  n_Host : string;
  n_ID : UUID;
  n_State : string;
  n_Status : string;
  n_Local : bool;
}.

Definition NodeMap : Type := gmap string Node.

(** The loop of LocalNode over the nodes in some order. *)
Fixpoint firstLocal (nodes : list (string * Node)) : option Node :=
  match nodes with
  | [] => None
  | (_, node) :: rest => if n_Local node then Some node else firstLocal rest
  end.

Definition LocalNode `{MapRange} (nm : NodeMap) : option Node := firstLocal (range_map nm).

(** The loop of setsIntersect: the union so far and the sum of the sizes. *)
Fixpoint unionAndLength (setsToCheck : list (gset string)) (all : gset string) (totalLength : nat)
    : gset string * nat :=
  match setsToCheck with
  | [] => (all, totalLength)
  | s :: rest => unionAndLength rest (all ∪ s) (totalLength + size s)
  end.

Definition setsIntersect (setsToCheck : list (gset string)) : bool :=
  let '(all, totalLength) := unionAndLength setsToCheck ∅ 0 in
  negb (bool_decide (size all = totalLength)).

(** sets.NewString *)
Definition NewString (items : list string) : gset string := list_to_set items.

(** Status, from the answer of the client. *)
Definition statusOf (ssInfo : StorageService) : Res NodeMap :=
  let liveNodes := NewString (ssi_LiveNodes ssInfo) in
  let unreachableNodes := NewString (ssi_UnreachableNodes ssInfo) in
  if setsIntersect [liveNodes; unreachableNodes] then
    inl (Errorf "unexpected state: some nodes were reported in more than one status. Live: %v, Unreachable: %v" [])
  else
    let leavingNodes := NewString (ssi_LeavingNodes ssInfo) in
    let joiningNodes := NewString (ssi_JoiningNodes ssInfo) in
    let movingNodes := NewString (ssi_MovingNodes ssInfo) in
    if setsIntersect [leavingNodes; joiningNodes; movingNodes] then
      inl (Errorf "unexpected state: some nodes were reported in more than one state. Leaving: %v, Joining: %v, Moving: %v" [])
    else
      inr (map_imap (λ host id, Some (
        mkNode host id
          (if bool_decide (host ∈ leavingNodes) then NodeStateLeaving
           else if bool_decide (host ∈ joiningNodes) then NodeStateJoining
           else if bool_decide (host ∈ movingNodes) then NodeStateMoving
           else NodeStateNormal)
          (if bool_decide (host ∈ liveNodes) then NodeStatusUp
           else if bool_decide (host ∈ unreachableNodes) then NodeStatusDown
           else NodeStatusUnknown)
          (bool_decide (UUID_String (ssi_LocalHostId ssInfo) = UUID_String id))))
        (default ∅ (ssi_HostIdMap ssInfo))).

Section tool.
Context {W : Type} (StorageService_call : GoM W (Res StorageService)).

Definition tool_Status : GoM W (Res NodeMap) :=
  r ← StorageService_call;
  match r with
  | inl err => mret (inl err)
  | inr ssInfo => mret (statusOf ssInfo)
  end.

Definition tool_Version : GoM W (Res (option CassVersion)) :=
  r ← StorageService_call;
  match r with
  | inl err => mret (inl err)
  | inr ssInfo => mret (inr (ssi_ReleaseVersion ssInfo))
  end.
End tool.

(** ** setsIntersect *)

Lemma size_union_le (a b : gset string) : (size (a ∪ b) ≤ size a + size b)%nat.
Proof. rewrite size_union_alt. pose proof (subseteq_size (b ∖ a) b ltac:(set_solver)). lia. Qed.

Lemma size_union_eq (a b : gset string) : size (a ∪ b) = (size a + size b)%nat ↔ a ## b.
Proof.
  split; [|apply size_union]. rewrite size_union_alt. intros Hs x Ha Hb.
  assert (size (b ∖ a) < size b)%nat; [|lia]. apply subset_size. split; [set_solver|].
  intros Hsub. specialize (Hsub x Hb). set_solver.
Qed.

Lemma unionAndLength_spec ss all n :
  (size all ≤ n)%nat →
  let '(u, m) := unionAndLength ss all n in
  (size u ≤ m)%nat ∧
  (size u = m ↔ size all = n ∧ Forall (λ s, all ## s) ss ∧ ForallOrdPairs (λ s t, s ## t) ss).
Proof.
  revert all n. induction ss as [|s ss IH]; intros all n Hle; cbn [unionAndLength].
  - split; [done|]. split; [|tauto]. intros ->. split_and!; [done|constructor|constructor].
  - pose proof (size_union_le all s) as Hu. specialize (IH (all ∪ s) (n + size s)%nat ltac:(lia)).
    destruct (unionAndLength ss (all ∪ s) (n + size s)) as [u m]. destruct IH as [IH1 IH2]. split; [done|].
    rewrite IH2, Forall_cons. pose proof (size_union_eq all s) as Heq. split.
    + intros (Hs & Hf & Hp). assert (size all = n) by lia.
      assert (all ## s) by (apply Heq; lia). split_and!; [done..| |constructor; [|done]];
        eapply Forall_impl; [done| |done|]; set_solver.
    + intros (<- & [Hs Hf] & Hp). inversion_clear Hp as [|? ? Hf' Hp']. split_and!; [by apply Heq| |done].
      apply Forall_forall. intros t Ht. rewrite Forall_forall in Hf, Hf'. specialize (Hf t Ht). specialize (Hf' t Ht).
      set_solver.
Qed.

(** No two of the sets share an element. *)
Lemma setsIntersect_spec ss : setsIntersect ss = false ↔ ForallOrdPairs (λ s t, s ## t) ss.
Proof.
  unfold setsIntersect. pose proof (unionAndLength_spec ss ∅ 0 ltac:(by rewrite size_empty)) as Hs.
  destruct (unionAndLength ss ∅ 0) as [u m]. destruct Hs as [_ Hs].
  rewrite negb_false_iff, bool_decide_eq_true, Hs, size_empty. split; [tauto|]. intros Hp.
  split_and!; [done| |done]. apply Forall_forall. set_solver.
Qed.

(** ** Status *)

(** What a node may be in at most one of. *)
Definition consistent (ssInfo : StorageService) : Prop :=
  NewString (ssi_LiveNodes ssInfo) ## NewString (ssi_UnreachableNodes ssInfo) ∧
  NewString (ssi_LeavingNodes ssInfo) ## NewString (ssi_JoiningNodes ssInfo) ∧
  NewString (ssi_LeavingNodes ssInfo) ## NewString (ssi_MovingNodes ssInfo) ∧
  NewString (ssi_JoiningNodes ssInfo) ## NewString (ssi_MovingNodes ssInfo).

Lemma ordPairs2 (a b : gset string) : ForallOrdPairs (λ s t, s ## t) [a; b] ↔ a ## b.
Proof.
  split.
  - intros Hp. inversion_clear Hp as [|? ? Hf _]. by inversion_clear Hf.
  - intros ?. repeat constructor. done.
Qed.

Lemma ordPairs3 (a b c : gset string) :
  ForallOrdPairs (λ s t, s ## t) [a; b; c] ↔ a ## b ∧ a ## c ∧ b ## c.
Proof.
  split.
  - intros Hp. inversion_clear Hp as [|? ? Hf Hp']. apply ordPairs2 in Hp'.
    apply Forall_cons in Hf as [? Hf]. by apply Forall_cons in Hf as [? _].
  - intros (? & ? & ?). constructor; [by repeat constructor|by apply ordPairs2].
Qed.

(** The status a host has. *)
Definition hostStatus (ssInfo : StorageService) (host status : string) : Prop :=
  (status = NodeStatusUp ∧ host ∈ ssi_LiveNodes ssInfo) ∨
  (status = NodeStatusDown ∧ host ∈ ssi_UnreachableNodes ssInfo) ∨
  (status = NodeStatusUnknown ∧ host ∉ ssi_LiveNodes ssInfo ∧ host ∉ ssi_UnreachableNodes ssInfo).

Definition hostState (ssInfo : StorageService) (host state : string) : Prop :=
  (state = NodeStateLeaving ∧ host ∈ ssi_LeavingNodes ssInfo) ∨
  (state = NodeStateJoining ∧ host ∈ ssi_JoiningNodes ssInfo) ∨
  (state = NodeStateMoving ∧ host ∈ ssi_MovingNodes ssInfo) ∨
  (state = NodeStateNormal ∧ host ∉ ssi_LeavingNodes ssInfo ∧ host ∉ ssi_JoiningNodes ssInfo ∧
   host ∉ ssi_MovingNodes ssInfo).

(** The node that is reported for a host. *)
Definition nodeFor (ssInfo : StorageService) (host : string) (n : Node) : Prop :=
  n_Host n = host ∧ (default ∅ (ssi_HostIdMap ssInfo) : gmap string UUID) !! host = Some (n_ID n) ∧
  hostStatus ssInfo host (n_Status n) ∧ hostState ssInfo host (n_State n) ∧
  (n_Local n = true ↔ UUID_String (ssi_LocalHostId ssInfo) = UUID_String (n_ID n)).

Lemma elem_of_NewString x l : x ∈ NewString l ↔ x ∈ l.
Proof. apply elem_of_list_to_set. Qed.

Lemma statusOf_error ssInfo : (∃ e, statusOf ssInfo = inl e) ↔ ¬ consistent ssInfo.
Proof.
  unfold statusOf, consistent.
  destruct (setsIntersect [NewString (ssi_LiveNodes ssInfo); _]) eqn:H1.
  { split; [intros _|eauto]. intros (Hd & _). apply ordPairs2, setsIntersect_spec in Hd. congruence. }
  apply setsIntersect_spec, ordPairs2 in H1.
  destruct (setsIntersect [_; _; _]) eqn:H2.
  { split; [intros _|eauto]. intros (_ & Hd). apply ordPairs3, setsIntersect_spec in Hd. congruence. }
  apply setsIntersect_spec, ordPairs3 in H2. split; [by intros [? ?]|]. intros Hn. destruct Hn. done.
Qed.

(** The switches of Status compute the status and the state of a host. *)
Lemma hostStatus_spec ssInfo host status :
  consistent ssInfo →
  hostStatus ssInfo host status ↔
  status = (if bool_decide (host ∈ NewString (ssi_LiveNodes ssInfo)) then NodeStatusUp
            else if bool_decide (host ∈ NewString (ssi_UnreachableNodes ssInfo)) then NodeStatusDown
            else NodeStatusUnknown).
Proof.
  intros (Hd & _). unfold hostStatus. rewrite <- !elem_of_NewString. specialize (Hd host).
  repeat case_bool_decide; naive_solver.
Qed.

Lemma hostState_spec ssInfo host state :
  consistent ssInfo →
  hostState ssInfo host state ↔
  state = (if bool_decide (host ∈ NewString (ssi_LeavingNodes ssInfo)) then NodeStateLeaving
           else if bool_decide (host ∈ NewString (ssi_JoiningNodes ssInfo)) then NodeStateJoining
           else if bool_decide (host ∈ NewString (ssi_MovingNodes ssInfo)) then NodeStateMoving
           else NodeStateNormal).
Proof.
  intros (_ & H1 & H2 & H3). unfold hostState. rewrite <- !elem_of_NewString.
  specialize (H1 host). specialize (H2 host). specialize (H3 host).
  repeat case_bool_decide; naive_solver.
Qed.

Lemma statusOf_consistent ssInfo nodes : statusOf ssInfo = inr nodes → consistent ssInfo.
Proof. intros Hst. apply dec_stable. rewrite <- statusOf_error, Hst. by intros [? ?]. Qed.

Lemma statusOf_nodes ssInfo nodes :
  statusOf ssInfo = inr nodes → ∀ host n, nodes !! host = Some n ↔ nodeFor ssInfo host n.
Proof.
  intros Hst host n. pose proof (statusOf_consistent _ _ Hst) as Hc. unfold statusOf in Hst.
  destruct (setsIntersect _); [done|]. destruct (setsIntersect _); [done|]. injection Hst as <-.
  unfold NodeMap. rewrite (map_lookup_imap (M:=gmap string)). unfold nodeFor. destruct n as [h id st stat loc]; simpl.
  rewrite hostStatus_spec, hostState_spec by done. rewrite bind_Some. split.
  - intros (id' & Hid & [= -> -> -> -> <-]). by rewrite bool_decide_eq_true.
  - intros (-> & Hid & -> & -> & Hl). exists id. split; [done|]. do 2 f_equal.
    destruct loc; [rewrite bool_decide_eq_true; tauto|rewrite bool_decide_eq_false].
    intros Heq. apply Hl in Heq. done.
Qed.

(** C31. Status succeeds exactly when the sets of live and unreachable nodes and those of
    leaving, joining and moving nodes are disjoint, and then has one node per host of the id map,
    with the status and state of the set the host is in, local exactly when its id is the local
    one. *)
Theorem nodetool_status_exact ssInfo :
  match statusOf ssInfo with
  | inl _ => ¬ consistent ssInfo
  | inr nodes => consistent ssInfo ∧ ∀ host n, nodes !! host = Some n ↔ nodeFor ssInfo host n
  end.
Proof.
  destruct (statusOf ssInfo) as [e|nodes] eqn:Hst; [apply statusOf_error; eauto|].
  split; [by eapply statusOf_consistent|by apply statusOf_nodes].
Qed.

(** ** The local node *)

Lemma firstLocal_spec nodes n :
  firstLocal nodes = Some n → n_Local n = true ∧ ∃ h, (h, n) ∈ nodes.
Proof.
  induction nodes as [|[h m] nodes IH]; simpl; [done|]. destruct (n_Local m) eqn:Hm.
  - intros [= ->]. split; [done|]. exists h. by left.
  - intros Hn. destruct (IH Hn) as [? [h' ?]]. split; [done|]. exists h'. by right.
Qed.

Lemma firstLocal_None nodes : firstLocal nodes = None ↔ ∀ h n, (h, n) ∈ nodes → n_Local n = false.
Proof.
  induction nodes as [|[h m] nodes IH]; simpl; [by split; [intros _ ? ? ?%not_elem_of_nil|]|].
  destruct (n_Local m) eqn:Hm.
  - split; [done|]. intros Hall. specialize (Hall h m ltac:(by left)). congruence.
  - rewrite IH. split; intros Hall h' n Hin.
    + apply elem_of_cons in Hin as [[= -> ->]|Hin]; eauto.
    + apply (Hall h'). by right.
Qed.

(** The hosts of the map have different ids. *)
Definition distinctIds (ssInfo : StorageService) : Prop :=
  ∀ h h' u u', (default ∅ (ssi_HostIdMap ssInfo) : gmap string UUID) !! h = Some u →
    (default ∅ (ssi_HostIdMap ssInfo) : gmap string UUID) !! h' = Some u' →
    UUID_String u = UUID_String u' → h = h'.
