(* ===== verification/CassPilot.v ===== *)
(** * The Cassandra pilot

    pkg/pilot/cassandra/v3: the command, the sync function and the probes that
    the generic pilot runs for a Cassandra node, and the edit of the
    configuration file at start-up.  The Jolokia endpoint is the parameter
    [StorageService_call]. *)

From S2P Require Import Prelude GoStrings Semver K8s Types CassandraVersion Cluster Fixtures PilotHooks GenericPilot GenericPilotFacts CassUtil Nodetool.

(** ** Start-up *)

(** strings.Replace(s, old, new, -1) for a non-empty [old]: [skip] characters
    belong to the occurrence just replaced. *)
Fixpoint replace_from (old new : string) (skip : nat) (s : string) : string :=
  match s with
  | EmptyString => ""
  | String c s' =>
      match skip with
      | S skip => replace_from old new skip s'
      | O => if String.prefix old s then new +:+ replace_from old new (String.length old - 1) s'
             else String c (replace_from old new 0 s')
      end
  end.
Definition replace_all (s old new : string) : string := replace_from old new 0 s.

Definition simpleSeedProvider : string := "org.apache.cassandra.locator.SimpleSeedProvider".
Definition kubernetesSeedProvider : string := "io.jetstack.cassandra.KubernetesSeedProvider".

(** The part of NewPilot that reads and writes cassandra.yaml. *)
Definition rewriteConfig {W} (ReadFile : string → GoM W (Res string)) (WriteFile : string → string → GoM W (option Err))
    : GoM W (option Err) :=
  let cfgPath := "/etc/cassandra/cassandra.yaml" in
  read ← ReadFile cfgPath;
  match read with
  | inl err => mret (Some err)
  | inr read => WriteFile cfgPath (replace_all read simpleSeedProvider kubernetesSeedProvider)
  end.

(** Without the old text nothing is changed. *)
Lemma replace_from_absent old new s :
  (∀ a b, s = a +:+ b → b ≠ "" → String.prefix old b = false) → replace_from old new 0 s = s.
Proof.
  induction s as [|c s IH]; intros Habs; [done|]. cbn [replace_from].
  rewrite (Habs "" (String c s)) by done. f_equal. apply IH.
  intros a b -> Hb. by apply (Habs (String c a)).
Qed.

(** ** Functions of the pilot *)

Definition set_Cassandra (st : CassandraPilotStatus) (pilot : Pilot) : Pilot :=
  mkPilot (pil_Meta pilot)
    (mkPilotStatus (pst_Conditions (pil_Status pilot)) (pst_Elasticsearch (pil_Status pilot)) (Some st)).

Section pilot.
Context {E : Type} `{MapRange} (StorageService_call : GoM (Env E) (Res StorageService)).

Definition cass_Hooks : Hooks (Env E) := mkHooks [] [] [] [].

Definition cass_CmdFunc (pilot : Pilot) : GoM (Env E) (Pilot * Res (option Cmd)) :=
  mret (pilot, inr (Some (Command "/docker-entrypoint.sh" [] []))).

(** The version that the node reports, or nil when it cannot be asked. *)
Definition cass_syncFunc (pilot : Pilot) : GoM (Env E) (Pilot * option Err) :=
  let pilot :=
    match pst_Cassandra (pil_Status pilot) with
    | None => set_Cassandra (mkCassandraPilotStatus None) pilot
    | Some _ => pilot
    end in
  r ← tool_Version StorageService_call;
  match r with
  | inl _ => mret (set_Cassandra (mkCassandraPilotStatus None) pilot, None)
  | inr version => mret (set_Cassandra (mkCassandraPilotStatus version) pilot, None)
  end.

Definition localNodeUpAndNormal (status : GoM (Env E) (Res NodeMap)) : GoM (Env E) (option Err) :=
  r ← status;
  match r with
  | inl err => mret (Some err)
  | inr nodes =>
      match LocalNode nodes with
      | None => mret (Some (Errorf "Local node not found: %v" []))
      | Some localNode =>
          if negb (bool_decide (n_Status localNode = NodeStatusUp)) then
            mret (Some (Errorf "Unexpected local node status: %v" [AStr (n_Status localNode)]))
          else if negb (bool_decide (n_State localNode = NodeStateNormal)) then
            mret (Some (Errorf "Unexpected local node state: %v" [AStr (n_State localNode)]))
          else mret None
      end
  end.

Definition cass_ReadinessCheck : GoM (Env E) (option Err) :=
  localNodeUpAndNormal (tool_Status StorageService_call).

Definition cass_LivenessCheck : GoM (Env E) (option Err) :=
  r ← tool_Status StorageService_call;
  mret (res_err r).

(** What Complete hands to the generic pilot. *)
Definition cass_Options (name namespace : string) (signals : Signals) : Options E :=
  mkOptions name namespace cass_CmdFunc signals cass_Hooks cass_syncFunc None.

#[export] Instance cass_lawful name namespace signals : LawfulOptions (cass_Options name namespace signals).
Proof. by intros pilot env pilot' cmd env' [= <- <- <-]. Qed.

(** ** Probes *)

(** The local node is live and does not leave, join or move. *)
Definition upAndNormal (ssInfo : StorageService) : Prop :=
  ∃ host u, (default ∅ (ssi_HostIdMap ssInfo) : gmap string UUID) !! host = Some u ∧
    UUID_String (ssi_LocalHostId ssInfo) = UUID_String u ∧ host ∈ ssi_LiveNodes ssInfo ∧
    host ∉ ssi_LeavingNodes ssInfo ∧ host ∉ ssi_JoiningNodes ssInfo ∧ host ∉ ssi_MovingNodes ssInfo.

Lemma LocalNode_in (nodes : NodeMap) n : LocalNode nodes = Some n → n_Local n = true ∧ ∃ h, nodes !! h = Some n.
Proof.
  intros (Hl & h & Hin)%firstLocal_spec. split; [done|]. exists h.
  rewrite range_map_perm in Hin. by apply elem_of_map_to_list in Hin.
Qed.

Lemma LocalNode_None (nodes : NodeMap) h n : LocalNode nodes = None → nodes !! h = Some n → n_Local n = false.
Proof.
  intros Hn Hh. unfold LocalNode in Hn. rewrite firstLocal_None in Hn. apply (Hn h).
  rewrite range_map_perm. by apply elem_of_map_to_list.
Qed.

(** With distinct ids there is one local node, whatever the order of the map. *)
Lemma LocalNode_unique ssInfo nodes n h n' :
  statusOf ssInfo = inr nodes → distinctIds ssInfo → LocalNode nodes = Some n →
  nodes !! h = Some n' → n_Local n' = true → n = n'.
Proof.
  intros Hst Hd [Hl [h' Hh']]%LocalNode_in Hh Hl'.
  pose proof (proj1 (statusOf_nodes _ _ Hst _ _) Hh) as (_ & Hid & _ & _ & Hloc).
  pose proof (proj1 (statusOf_nodes _ _ Hst _ _) Hh') as (_ & Hid' & _ & _ & Hloc').
  assert (h' = h) as ->; [|congruence]. apply (Hd _ _ _ _ Hid' Hid).
  rewrite <- (proj1 Hloc' Hl). by apply Hloc.
Qed.

Lemma up_node ssInfo host n :
  consistent ssInfo → nodeFor ssInfo host n →
  n_Status n = NodeStatusUp ∧ n_State n = NodeStateNormal ↔
  host ∈ ssi_LiveNodes ssInfo ∧
  host ∉ ssi_LeavingNodes ssInfo ∧ host ∉ ssi_JoiningNodes ssInfo ∧ host ∉ ssi_MovingNodes ssInfo.
Proof.
  intros Hc (_ & _ & Hs & Ht & _). rewrite hostStatus_spec in Hs by done. rewrite hostState_spec in Ht by done.
  rewrite Hs, Ht, <- !elem_of_NewString. repeat case_bool_decide; naive_solver.
Qed.

(** C32. With distinct host ids the readiness check of the Cassandra pilot passes exactly when
    the answer of the node is consistent and the local node is live and neither leaves, joins nor
    moves, and the liveness check passes exactly when the answer is consistent. *)
Theorem cassandra_ready_iff_up_and_normal env ssInfo env' :
  StorageService_call env = (Ret (inr ssInfo), env') → distinctIds ssInfo →
  (cass_ReadinessCheck env = (Ret None, env') ↔ consistent ssInfo ∧ upAndNormal ssInfo) ∧
  (cass_LivenessCheck env = (Ret None, env') ↔ consistent ssInfo).
Proof.
  intros Hcall Hd. unfold cass_ReadinessCheck, cass_LivenessCheck, localNodeUpAndNormal, tool_Status.
  unfold mbind, gom_bind. rewrite Hcall. cbn. destruct (statusOf ssInfo) as [e|nodes] eqn:Hst.
  { assert (¬ consistent ssInfo) as Hn by (apply statusOf_error; eauto). cbn. split; split; naive_solver. }
  pose proof (statusOf_consistent _ _ Hst) as Hc. pose proof (statusOf_nodes _ _ Hst) as Hnodes.
  split; [|by split]. destruct (LocalNode nodes) as [n|] eqn:Hl.
  - destruct (LocalNode_in _ _ Hl) as [Hloc [h Hh]]. pose proof (proj1 (Hnodes _ _) Hh) as Hn.
    pose proof (up_node _ _ _ Hc Hn) as Hup. pose proof Hn as (_ & Hid & _ & _ & Hlid).
    assert (upAndNormal ssInfo ↔ n_Status n = NodeStatusUp ∧ n_State n = NodeStateNormal) as Heq.
    { rewrite Hup. split; [|intros ?; exists h, (n_ID n); split_and!; [done|by apply Hlid|tauto..]].
      intros (h' & u & Hu & Hlu & Hrest). apply proj1 in Hlid. specialize (Hlid Hloc).
      assert (h = h') as ->; [|done]. apply (Hd _ _ _ _ Hid Hu). congruence. }
    rewrite Heq. repeat case_bool_decide; simpl; (split; [by intros [= ]|by intros [_ [? ?]]]).
  - split; [done|]. intros [_ (h & u & Hu & Hlu & _)]. exfalso.
    pose (nodes !! h) as o. destruct (nodes !! h) as [n|] eqn:Hh.
    + pose proof (proj1 (Hnodes _ _) Hh) as (_ & Hid & _ & _ & Hlid).
      pose proof (LocalNode_None _ _ _ Hl Hh) as Hf. rewrite Hu in Hid. injection Hid as ->.
      apply Hlid in Hlu. congruence.
    + unfold statusOf in Hst. destruct (setsIntersect _); [done|]. destruct (setsIntersect _); [done|].
      injection Hst as <-. unfold NodeMap in Hh. rewrite (map_lookup_imap (M:=gmap string)), Hu in Hh. done.
Qed.

(** A sync never fails, and leaves the reported version or none. *)
Lemma cass_syncFunc_spec pilot env :
  match StorageService_call env with
  | (Panic why, env') => cass_syncFunc pilot env = (Panic why, env')
  | (Ret r, env') => ∃ pilot', cass_syncFunc pilot env = (Ret (pilot', None), env') ∧
      pil_Meta pilot' = pil_Meta pilot ∧
      pst_Cassandra (pil_Status pilot') =
        Some (mkCassandraPilotStatus (match r with inl _ => None | inr ssInfo => ssi_ReleaseVersion ssInfo end))
  end.
Proof.
  unfold cass_syncFunc, tool_Version, mbind, gom_bind.
  destruct (StorageService_call env) as [[[e|ssInfo]|why] env']; cbn; [..|done];
    eexists; (split; [done|]); by destruct (pst_Cassandra (pil_Status pilot)).
Qed.

End pilot.

(** ** A concrete node *)

Definition idOf (b : Z) : UUID := replicate 16 b.

Definition twoNodes (leaving : list string) : StorageService :=
  mkStorageService (Some (<["10.0.0.1" := idOf 17]> {["10.0.0.2" := idOf 34]}))
    ["10.0.0.1"; "10.0.0.2"] [] leaving [] [] (idOf 34) (Some cassVersion3).

Definition answer (ssInfo : StorageService) : GoM (Env nat) (Res StorageService) := λ env, (Ret (inr ssInfo), env).

Lemma twoNodes_distinct leaving : distinctIds (twoNodes leaving).
Proof.
  intros h h' u u' Hu Hu' Heq. simpl in Hu, Hu'.
  apply lookup_insert_Some in Hu as [[<- <-]|[_ [<- <-]%lookup_singleton_Some]];
    apply lookup_insert_Some in Hu' as [[<- <-]|[_ [<- <-]%lookup_singleton_Some]]; try done;
    vm_compute in Heq; discriminate Heq.
Qed.

Lemma twoNodes_up : upAndNormal (twoNodes []).
Proof. exists "10.0.0.2", (idOf 34). split_and!; [vm_compute; reflexivity|reflexivity|decide_closed..]. Qed.

Lemma twoNodes_leaving : ¬ upAndNormal (twoNodes ["10.0.0.2"]).
Proof.
  intros (h & u & Hu & Hid & _ & Hnl & _). simpl in Hu.
  apply lookup_insert_Some in Hu as [[<- <-]|[_ [<- <-]%lookup_singleton_Some]];
    [vm_compute in Hid; discriminate Hid|]. apply Hnl. left.
Qed.

Lemma cassandra_ready_iff_up_and_normal_witness :
  cass_ReadinessCheck (answer (twoNodes [])) (emptyWorld, 0%nat) = (Ret None, (emptyWorld, 0%nat)) ∧
  cass_ReadinessCheck (answer (twoNodes ["10.0.0.2"])) (emptyWorld, 0%nat) ≠ (Ret None, (emptyWorld, 0%nat)).
Proof.
  split.
  - destruct (cassandra_ready_iff_up_and_normal (answer (twoNodes [])) (emptyWorld, 0%nat) (twoNodes [])
      (emptyWorld, 0%nat)) as [[_ Hr] _]; [reflexivity|apply twoNodes_distinct|].
    apply Hr. split; [decide_closed|apply twoNodes_up].
  - destruct (cassandra_ready_iff_up_and_normal (answer (twoNodes ["10.0.0.2"])) (emptyWorld, 0%nat)
      (twoNodes ["10.0.0.2"]) (emptyWorld, 0%nat)) as [[Hr _] _]; [reflexivity|apply twoNodes_distinct|].
    intros Hready. destruct (Hr Hready) as [_ Hup]. exact (twoNodes_leaving Hup).
Defined.
