(* ===== verification/ESUtil.v ===== *)
(** * Elasticsearch helpers

    pkg/util (quorum), pkg/util/api (roles, master count),
    pkg/controllers/elasticsearch/util (names, labels, selectors, owner
    references) and pkg/controllers/elasticsearch/actions/util.go (image). *)

From S2P Require Import Prelude GoStrings Semver K8s Types Cluster.

(** ** Quorum *)

Definition CalculateQuorum (num : Z) : Z :=
  if bool_decide (num = 0) then 0
  else if bool_decide (num = 1) then 1
  else int32_add (int32_quot num 2) 1.

Definition ContainsElasticsearchRole (set : list string) (role : string) : bool :=
  existsb (λ s, bool_decide (s = role)) set.

Fixpoint countMasters (masters : Z) (pools : list ElasticsearchClusterNodePool) : outcome Z :=
  match pools with
  | [] => Ret masters
  | pool :: rest =>
      if ContainsElasticsearchRole (enp_roles pool) ElasticsearchRoleMaster then
        n ← deref_pure (enp_Replicas pool);
        countMasters (int32_add masters n) rest
      else countMasters masters rest
  end.

Definition CountElasticsearchMasters (pools : list ElasticsearchClusterNodePool) : outcome Z :=
  countMasters 0 pools.

(** ** Names, labels, owner references *)

Definition typeName : string := "es".
Definition kindName : string := "ElasticsearchCluster".

Definition ES_ControllerRef (c : ElasticsearchCluster) : OwnerReference :=
  NewControllerRef (esc_Meta c) (mkGVK GroupName "v1alpha1" kindName).

Definition ResourceBaseName (c : ElasticsearchCluster) : string :=
  typeName +:+ "-" +:+ esc_Name c.

Definition NodePoolResourceName (c : ElasticsearchCluster) (np : ElasticsearchClusterNodePool) : string :=
  ResourceBaseName c +:+ "-" +:+ enp_Name np.

Definition ConfigMapName (c : ElasticsearchCluster) (np : ElasticsearchClusterNodePool) : string :=
  NodePoolResourceName c np.
Definition RBACRoleName (c : ElasticsearchCluster) : string := ResourceBaseName c.
Definition DiscoveryServiceName (c : ElasticsearchCluster) : string := ResourceBaseName c +:+ "-discovery".
Definition ClientServiceName (c : ElasticsearchCluster) : string := ResourceBaseName c.
Definition ServiceAccountName (c : ElasticsearchCluster) : string := ResourceBaseName c.

Definition ClusterLabels (c : ElasticsearchCluster) : smap :=
  {[ ElasticsearchClusterNameLabel := esc_Name c ]}.

Definition RoleLabel (role : string) : string := ElasticsearchRoleLabelPrefix +:+ role.

Definition NodePoolLabels (c : ElasticsearchCluster) (poolName : string) (roles : list string) : smap :=
  let labels := ClusterLabels c in
  let labels := if bool_decide (poolName = "") then labels
                else <[ElasticsearchNodePoolNameLabel := poolName]> labels in
  foldl (λ m role, <[RoleLabel role := "true"]> m) labels roles.

Definition SelectorForCluster (clusterName : string) : Res Selector :=
  match NewRequirement ElasticsearchClusterNameLabel clusterName with
  | inl e => inl e
  | inr r => inr [r]
  end.

(** [Selector.Add] also sorts by key, which [Matches] cannot observe. *)
Definition SelectorForNodePool (clusterName poolName : string) : Res Selector :=
  match NewRequirement ElasticsearchNodePoolNameLabel poolName with
  | inl e => inl e
  | inr nodePoolNameReq =>
      match SelectorForCluster clusterName with
      | inl e => inl e
      | inr clusterSelector => inr (clusterSelector ++ [nodePoolNameReq])
      end
  end.

(** ** Image *)

Definition defaultElasticsearchImageRepository : string :=
  "docker.elastic.co/elasticsearch/elasticsearch".

Definition defaultElasticsearchImageForVersion (v : Version) : Res ImageSpec :=
  if bool_decide (v_Major v = 0) && bool_decide (v_Minor v = 0) && bool_decide (v_Patch v = 0)
  then inl (Errorf "version must be specified" [])
  else inr (mkImageSpec defaultElasticsearchImageRepository (Version_String v) PullIfNotPresent).

Definition esImageToUse (spec : ElasticsearchClusterSpec) : Res ImageSpec :=
  match es_Image spec with
  | None => defaultElasticsearchImageForVersion (es_Version spec)
  | Some img => inr img
  end.

(** ** Quorum facts *)

Lemma CalculateQuorum_nonneg n :
  0 ≤ n ≤ int32_max → CalculateQuorum n = if bool_decide (n = 0) then 0 else n / 2 + 1.
Proof.
  intros Hn. unfold CalculateQuorum. case_bool_decide; [done|]. case_bool_decide; [by subst|].
  unfold int32_quot. rewrite (int32_wrap_id (Z.quot n 2)).
  - rewrite Z.quot_div_nonneg by lia. apply int32_add_id.
    pose proof (Z.div_le_upper_bound n 2 n). pose proof (Z.div_pos n 2).
    pose proof (Z_div_lt n 2). int32_lia.
  - rewrite Z.quot_div_nonneg by lia. pose proof (Z.div_pos n 2).
    pose proof (Z_div_lt n 2). int32_lia.
Qed.

(** A quorum is a strict majority, and no larger than the whole. *)
Lemma CalculateQuorum_majority n :
  1 ≤ n ≤ int32_max → n < 2 * CalculateQuorum n ∧ CalculateQuorum n ≤ n.
Proof.
  intros Hn. rewrite CalculateQuorum_nonneg by lia. rewrite bool_decide_eq_false_2 by lia.
  pose proof (Z.div_mod n 2 ltac:(lia)). pose proof (Z.mod_pos_bound n 2 ltac:(lia)). lia.
Qed.

(** ** Counting master-eligible nodes *)

Definition is_master (np : ElasticsearchClusterNodePool) : bool :=
  ContainsElasticsearchRole (enp_roles np) ElasticsearchRoleMaster.

(** The total number of master-eligible replicas, in unbounded arithmetic. *)
Definition masters_total (pools : list ElasticsearchClusterNodePool) : Z :=
  foldr (λ np acc, (if is_master np then default 0 (enp_Replicas np) else 0) + acc) 0 pools.

Definition replicas_set (pools : list ElasticsearchClusterNodePool) : Prop :=
  Forall (λ np, is_Some (enp_Replicas np)) pools.

Lemma countMasters_spec masters pools :
  replicas_set pools →
  countMasters (int32_wrap masters) pools = Ret (int32_wrap (masters + masters_total pools)).
Proof.
  intros Hset. revert masters. induction Hset as [|np pools [n Hn] _ IH]; intros m; simpl.
  - by rewrite Z.add_0_r.
  - fold (is_master np). destruct (is_master np); [|by rewrite Z.add_0_l, IH].
    rewrite Hn. simpl. unfold mbind, outcome_bind. simpl. unfold int32_add.
    rewrite int32_wrap_add_l, IH. do 2 f_equal. lia.
Qed.

Lemma CountElasticsearchMasters_spec pools :
  replicas_set pools → CountElasticsearchMasters pools = Ret (int32_wrap (masters_total pools)).
Proof. intros H. apply (countMasters_spec 0 pools H). Qed.
