(* ===== verification/Validation.v ===== *)
(** * pkg/apis/navigator/validation

    Validation of the internal types: one function per function of
    generic.go, elasticsearch.go, cassandra.go and util.go.  A field error
    keeps its type, field path and detail.  ValidateObjectMeta, a function of
    the vendored apimachinery, is a parameter. *)

From S2P Require Import Prelude GoStrings Semver K8s Types CassandraVersion ESUtil Internal.
From Stdlib Require Import Ascii.

(** ** field.Path and field.Error *)

Inductive PathElem :=
| PChild (name : string)
| PIndex (i : nat).

Abbreviation Path := (list PathElem).

Definition Child (p : Path) (name : string) : Path := p ++ [PChild name].
Definition Index (p : Path) (i : nat) : Path := p ++ [PIndex i].

Inductive ErrorType := ErrorTypeRequired | ErrorTypeDuplicate | ErrorTypeInvalid
                     | ErrorTypeNotSupported | ErrorTypeForbidden.

Record FieldError := mkFieldError { fe_Type : ErrorType; fe_Field : Path; fe_Detail : string }.

Definition Required (p : Path) (detail : string) : FieldError := mkFieldError ErrorTypeRequired p detail.
Definition Duplicate (p : Path) : FieldError := mkFieldError ErrorTypeDuplicate p "".
Definition Invalid (p : Path) (detail : string) : FieldError := mkFieldError ErrorTypeInvalid p detail.
Definition Forbidden (p : Path) (detail : string) : FieldError := mkFieldError ErrorTypeForbidden p detail.
Definition NotSupported (p : Path) (validValues : list string) : FieldError :=
  let quote s := String (ascii_of_nat 34) (s +:+ String (ascii_of_nat 34) "") in
  mkFieldError ErrorTypeNotSupported p ("supported values: " +:+ join ", " (quote <$> validValues)).

(** ** util.go and the vendored DNS-1123 rules *)

Definition is_dns_char (c : ascii) : bool :=
  let n := nat_of_ascii c in ((48 <=? n) && (n <=? 57) || (97 <=? n) && (n <=? 122))%nat.

(** [a-z0-9]([-a-z0-9]*[a-z0-9])? *)
Definition is_dns1123_label (s : string) : bool :=
  match string_chars s with
  | [] => false
  | c :: cs => is_dns_char c && forallb (λ x, is_dns_char x || bool_decide (x = "-"%char)) cs
               && is_dns_char (List.last cs c)
  end.

Definition DNS1123SubdomainMaxLength : nat := 253.

Definition IsDNS1123Subdomain (value : string) : list string :=
  (if (DNS1123SubdomainMaxLength <? String.length value)%nat
   then ["must be no more than 253 characters"] else []) ++
  (if forallb is_dns1123_label (split_all "."%char value) then []
   else ["a DNS-1123 subdomain must consist of lower case alphanumeric characters, '-' or '.', and must start and end with an alphanumeric character"]).

Definition ValidateDNS1123Subdomain (value : string) (fldPath : Path) : list FieldError :=
  (λ msg, Invalid fldPath msg) <$> IsDNS1123Subdomain value.

(** ** generic.go *)

Definition supportedPullPolicies : list string := [PullNever; PullIfNotPresent; PullAlways].

Definition ValidateImageSpec (img : ImageSpec) (fldPath : Path) : list FieldError :=
  (if bool_decide (nimg_Tag img = "") then [Required (Child fldPath "tag") ""] else []) ++
  (if bool_decide (nimg_Repository img = "") then [Required (Child fldPath "repository") ""] else []) ++
  (if negb (bool_decide (nimg_PullPolicy img = PullNever))
      && negb (bool_decide (nimg_PullPolicy img = PullIfNotPresent))
      && negb (bool_decide (nimg_PullPolicy img = PullAlways))
   then [NotSupported (Child fldPath "pullPolicy") supportedPullPolicies] else []).

Definition ValidateNavigatorSecurityContext (ctx : NavigatorSecurityContext) (fldPath : Path) : list FieldError :=
  match nnsc_RunAsUser ctx with
  | Some u => if bool_decide (u < 0) then [Invalid (Child fldPath "runAsUser") "must be non-negative"] else []
  | None => []
  end.

Definition ValidateNavigatorClusterConfig (cfg : NavigatorClusterConfig) (fldPath : Path) : list FieldError :=
  ValidateImageSpec (ncfg_PilotImage cfg) (Child fldPath "pilotImage") ++
  ValidateNavigatorSecurityContext (ncfg_SecurityContext cfg) (Child fldPath "securityContext").

Definition ValidatePersistenceConfig (cfg : PersistenceConfig) (fldPath : Path) : list FieldError :=
  (if Quantity_IsZero (npc_Size cfg) then [Required (Child fldPath "size") ""] else []) ++
  (if bool_decide (Quantity_Sign (npc_Size cfg) = -1)
   then [Invalid (Child fldPath "size") "must be greater than zero"] else []).

(** ** elasticsearch.go *)

Definition supportedESClusterRoles : list string :=
  [ElasticsearchRoleData; ElasticsearchRoleIngest; ElasticsearchRoleMaster].

Definition ValidateElasticsearchClusterRole (r : string) (fldPath : Path) : list FieldError :=
  if bool_decide (r = ElasticsearchRoleData) || bool_decide (r = ElasticsearchRoleIngest)
     || bool_decide (r = ElasticsearchRoleMaster) then []
  else [NotSupported fldPath supportedESClusterRoles].

Definition nenp_roles (np : ElasticsearchClusterNodePool) : list string := default [] (nenp_Roles np).

Definition ValidateElasticsearchClusterNodePool (np : ElasticsearchClusterNodePool) (fldPath : Path)
    : list FieldError :=
  let rolesPath := Child fldPath "roles" in
  ValidateDNS1123Subdomain (nenp_Name np) (Child fldPath "name") ++
  match nenp_Persistence np with
  | Some p => ValidatePersistenceConfig p (Child fldPath "persistence")
  | None => []
  end ++
  (if bool_decide (length (nenp_roles np) = 0%nat)
   then [Required rolesPath "at least one role must be specified"] else []) ++
  concat (imap (λ i r, ValidateElasticsearchClusterRole r (Index rolesPath i)) (nenp_roles np)) ++
  match nenp_Replicas np with
  | Some n => if bool_decide (n < 0) then [Invalid (Child fldPath "replicas") "must be greater than zero"] else []
  | None => []
  end.

Definition containsElasticsearchRole (set : list string) (role : string) : bool :=
  existsb (λ s, bool_decide (s = role)) set.

Fixpoint countElasticsearchMastersFrom (masters : Z) (pools : list ElasticsearchClusterNodePool) : outcome Z :=
  match pools with
  | [] => Ret masters
  | pool :: rest =>
      if containsElasticsearchRole (nenp_roles pool) ElasticsearchRoleMaster then
        n ← deref_pure (nenp_Replicas pool);
        countElasticsearchMastersFrom (int32_add masters n) rest
      else countElasticsearchMastersFrom masters rest
  end.

Definition countElasticsearchMasters (pools : list ElasticsearchClusterNodePool) : outcome Z :=
  countElasticsearchMastersFrom 0 pools.

(** The loop over named node pools, shared by the two kinds of cluster: a
    repeated name is an error, and each pool is validated. *)
Fixpoint validatePools {P} (name : P → string) (validate : P → Path → list FieldError)
    (npPath : Path) (i : nat) (allNames : gset string) (pools : list P) : list FieldError :=
  match pools with
  | [] => []
  | np :: rest =>
      let idxPath := Index npPath i in
      (if bool_decide (name np ∈ allNames) then [Duplicate (Child idxPath "name")] else []) ++
      validate np idxPath ++
      validatePools name validate npPath (S i) ({[name np]} ∪ allNames) rest
  end.

Definition validateMinimumMasters (minimum : option Z) (numMasters : Z) (fldPath npPath : Path)
    : list FieldError :=
  let quorum := CalculateQuorum numMasters in
  if bool_decide (numMasters = 0) then [Invalid npPath "must be at least one master node"]
  else
    match minimum with
    | None => []
    | Some m =>
        if bool_decide (m = 0) then [Invalid (Child fldPath "minimumMasters") "cannot be zero"]
        else if bool_decide (m < quorum) then
          [Invalid (Child fldPath "minimumMasters")
             ("must be a minimum of " +:+ itoa quorum +:+ " to avoid a split brain scenario")]
        else if bool_decide (numMasters < m) then
          [Invalid (Child fldPath "minimumMasters") "cannot be greater than the total number of master nodes"]
        else []
    end.

Definition ValidateElasticsearchClusterSpec (spec : ElasticsearchClusterSpec) (fldPath : Path)
    : outcome (list FieldError) :=
  let npPath := Child fldPath "nodePools" in
  let allErrs :=
    ValidateNavigatorClusterConfig (nes_Config spec) fldPath ++
    match nes_Image spec with
    | Some img => ValidateImageSpec img (Child fldPath "image")
    | None => []
    end ++
    validatePools nenp_Name ValidateElasticsearchClusterNodePool npPath 0 ∅ (nes_NodePools spec) in
  numMasters ← countElasticsearchMasters (nes_NodePools spec);
  Ret (allErrs ++
       validateMinimumMasters (nes_MinimumMasters spec) numMasters fldPath npPath ++
       if Version_Equal (nes_Version spec) emptyVersion
       then [Required (Child fldPath "version") "must be a semver version"] else []).

(** The body of the update checks for one pool of the new object: the first
    pool of the old object with the same name, if there is one. *)
Definition validatePoolUpdate {P} `{EqDecision P} (name : P → string)
    (persistence : P → option PersistenceConfig) (unify : P → P → P)
    (oldPools : list P) (idxPath : Path) (newNp : P) : list FieldError :=
  match List.find (λ oldNp, bool_decide (name newNp = name oldNp)) oldPools with
  | None => []
  | Some oldNp =>
      (if negb (bool_decide (persistence newNp = persistence oldNp))
          && bool_decide (is_Some (persistence oldNp))
       then [Forbidden (Child idxPath "persistence") "cannot modify persistence configuration once enabled"]
       else []) ++
      (if negb (bool_decide (unify oldNp newNp = oldNp))
       then [Forbidden [PChild "spec"]
               "updates to nodepool for fields other than 'replicas' and 'persistence' are forbidden."]
       else [])
  end.

(** [newNp.Replicas = oldNp.Replicas; newNp.Persistence = oldNp.Persistence] *)
Definition unifyESPool (oldNp newNp : ElasticsearchClusterNodePool) : ElasticsearchClusterNodePool :=
  {| nenp_Name := nenp_Name newNp; nenp_Replicas := nenp_Replicas oldNp; nenp_Roles := nenp_Roles newNp;
     nenp_NodeSelector := nenp_NodeSelector newNp; nenp_Resources := nenp_Resources newNp;
     nenp_Persistence := nenp_Persistence oldNp; nenp_SchedulerName := nenp_SchedulerName newNp |}.

Definition unifyCassPool (oldNp newNp : CassandraClusterNodePool) : CassandraClusterNodePool :=
  {| ncnp_Name := ncnp_Name newNp; ncnp_Replicas := ncnp_Replicas oldNp;
     ncnp_Persistence := ncnp_Persistence oldNp; ncnp_NodeSelector := ncnp_NodeSelector newNp;
     ncnp_Rack := ncnp_Rack newNp; ncnp_Datacenter := ncnp_Datacenter newNp;
     ncnp_Resources := ncnp_Resources newNp; ncnp_SchedulerName := ncnp_SchedulerName newNp |}.

(** ** cassandra.go *)

(** The errors of the persistence configuration are collected in [el], but an
    empty list is returned. *)
Definition ValidateCassandraClusterNodePool (np : CassandraClusterNodePool) (fldPath : Path)
    : list FieldError :=
  let el := match ncnp_Persistence np with
            | Some p => ValidatePersistenceConfig p (Child fldPath "persistence")
            | None => []
            end in
  [].

Definition ValidateCassandraClusterSpec (spec : CassandraClusterSpec) (fldPath : Path)
    : outcome (list FieldError) :=
  let npPath := Child fldPath "nodePools" in
  semver ← deref_pure (cv_semver (ncs_Version spec));
  Ret (ValidateNavigatorClusterConfig (ncs_Config spec) fldPath ++
       (if negb (Constraints_Check supportedCassandraVersions semver)
        then [Forbidden (Child fldPath "version")
                (CassVersion_String (ncs_Version spec) +:+ " is not supported. Supported versions are: >= 3, < 4")]
        else []) ++
       validatePools ncnp_Name ValidateCassandraClusterNodePool npPath 0 ∅ (ncs_NodePools spec) ++
       match ncs_Image spec with
       | Some img => ValidateImageSpec img (Child fldPath "image")
       | None => []
       end).

Section objects.
Context (ValidateObjectMeta : ObjectMeta → Path → list FieldError).

Definition ValidateElasticsearchCluster (esc : ElasticsearchCluster) : outcome (list FieldError) :=
  errs ← ValidateElasticsearchClusterSpec (nesc_Spec esc) [PChild "spec"];
  Ret (ValidateObjectMeta (nesc_Meta esc) [PChild "metadata"] ++ errs).

Definition ValidateElasticsearchClusterUpdate (old new : ElasticsearchCluster) : outcome (list FieldError) :=
  allErrs ← ValidateElasticsearchCluster new;
  Ret (allErrs ++ concat (imap (λ i newNp,
    validatePoolUpdate nenp_Name nenp_Persistence unifyESPool (nes_NodePools (nesc_Spec old))
      (Index [PChild "spec"; PChild "nodePools"] i) newNp) (nes_NodePools (nesc_Spec new)))).

Definition ValidateCassandraCluster (c : CassandraCluster) : outcome (list FieldError) :=
  errs ← ValidateCassandraClusterSpec (ncass_Spec c) [PChild "spec"];
  Ret (ValidateObjectMeta (ncass_Meta c) [PChild "metadata"] ++ errs).

Definition ValidateCassandraClusterUpdate (old new : CassandraCluster) : outcome (list FieldError) :=
  allErrs ← ValidateCassandraCluster new;
  same ← CassVersion_Equal (ncs_Version (ncass_Spec new)) (ncs_Version (ncass_Spec old));
  Ret (allErrs ++
       (if negb same
        then [Forbidden [PChild "spec"; PChild "version"]
                ("cannot change the version of an existing cluster. old version: " +:+
                 CassVersion_String (ncs_Version (ncass_Spec old)) +:+ ", new version: " +:+
                 CassVersion_String (ncs_Version (ncass_Spec new)))]
        else []) ++
       concat (imap (λ i newNp,
         validatePoolUpdate ncnp_Name ncnp_Persistence unifyCassPool (ncs_NodePools (ncass_Spec old))
           (Index [PChild "spec"; PChild "nodePools"] i) newNp) (ncs_NodePools (ncass_Spec new)))).

End objects.
