(* ===== verification/ESResources.v ===== *)
(** * Kubernetes resources of an Elasticsearch cluster

    actions/create_nodepool.go (stateful set and pod template) and the
    resources.go files of the service, configmap, role, rolebinding and
    serviceaccount packages under pkg/controllers/elasticsearch. *)

From S2P Require Import Prelude GoStrings Semver K8s Types Cluster ESUtil.

(** ** create_nodepool.go *)

Definition sharedVolumeName : string := "shared".
Definition sharedVolumeMountPath : string := "/shared".
Definition esDataVolumeName : string := "elasticsearch-data".
Definition esDataVolumeMountPath : string := "/usr/share/elasticsearch/data".
Definition esConfigVolumeName : string := "config".
Definition esConfigVolumeMountPath : string := "/etc/pilot/elasticsearch/config".

Definition noResources : ResourceRequirements := mkResourceRequirements None None.

Definition buildInitContainers (c : ElasticsearchCluster) : list Container :=
  let image := cfg_PilotImage (es_Config (esc_Spec c)) in
  [ {| ct_Name := "install-pilot";
       ct_Image := img_Repository image +:+ ":" +:+ img_Tag image;
       ct_ImagePullPolicy := img_PullPolicy image;
       ct_Command := ["cp"; "/pilot"; sharedVolumeMountPath +:+ "/pilot"];
       ct_Args := [];
       ct_Env := [];
       ct_SecurityContext := None;
       ct_ReadinessProbe := None;
       ct_LivenessProbe := None;
       ct_Resources := mkResourceRequirements
         (Some {[ "cpu" := quantity_10m; "memory" := quantity_50Mi ]})
         (Some {[ "cpu" := quantity_10m; "memory" := quantity_50Mi ]});
       ct_Ports := [];
       ct_VolumeMounts := [mkVolumeMount sharedVolumeName sharedVolumeMountPath false] |} ].

Definition esVolumes (c : ElasticsearchCluster) (np : ElasticsearchClusterNodePool) : list Volume :=
  [ mkVolume sharedVolumeName EmptyDir;
    mkVolume esConfigVolumeName (ConfigMapSource (ConfigMapName c np)) ] ++
  match enp_Persistence np with
  | None => [mkVolume esDataVolumeName EmptyDir]
  | Some _ => []
  end.

Definition esEnv (c : ElasticsearchCluster) (np : ElasticsearchClusterNodePool) : list EnvVar :=
  let roles := join "," (enp_roles np) in
  let plugins := join "," (es_Plugins (esc_Spec c)) in
  [ mkEnvVar "DISCOVERY_URL" (EnvLiteral (DiscoveryServiceName c));
    mkEnvVar "ROLES" (EnvLiteral roles);
    mkEnvVar "PLUGINS" (EnvLiteral plugins);
    mkEnvVar "ES_JAVA_OPTS" (EnvLiteral JVMCgroupOpts);
    mkEnvVar "LEADER_ELECTION_CONFIG_MAP" (EnvLiteral ("elastic-" +:+ esc_Name c +:+ "-leaderelection"));
    mkEnvVar "CLUSTER_URL" (EnvLiteral ("http://" +:+ ClientServiceName c +:+ ":9200"));
    mkEnvVar "POD_NAME" (EnvFieldRef "metadata.name");
    mkEnvVar "POD_NAMESPACE" (EnvFieldRef "metadata.namespace") ].

Definition esContainer (c : ElasticsearchCluster) (np : ElasticsearchClusterNodePool)
    (esImage : ImageSpec) : Container :=
  let runAsUser := nsc_RunAsUser (cfg_SecurityContext (es_Config (esc_Spec c))) in
  {| ct_Name := "elasticsearch";
     ct_Image := img_Repository esImage +:+ ":" +:+ img_Tag esImage;
     ct_ImagePullPolicy := img_PullPolicy esImage;
     ct_Command := [sharedVolumeMountPath +:+ "/pilot"];
     ct_Args :=
       [ "--v=4";
         "--logtostderr";
         "--pilot-name=$(POD_NAME)";
         "--pilot-namespace=$(POD_NAMESPACE)";
         "--elasticsearch-master-url=$(CLUSTER_URL)";
         "--elasticsearch-roles=$(ROLES)";
         "--elasticsearch-plugins=$(PLUGINS)";
         "--leader-election-config-map=$(LEADER_ELECTION_CONFIG_MAP)" ];
     ct_Env := esEnv c np;
     ct_SecurityContext := Some (mkSecurityContext runAsUser (Some ["IPC_LOCK"]));
     ct_ReadinessProbe := Some {|
       probe_Port := 12001; probe_Path := "/";
       probe_InitialDelaySeconds := 30; probe_TimeoutSeconds := 3; probe_PeriodSeconds := 10;
       probe_SuccessThreshold := 0; probe_FailureThreshold := 0 |};
     ct_LivenessProbe := Some {|
       probe_Port := 12000; probe_Path := "/";
       probe_InitialDelaySeconds := 240; probe_TimeoutSeconds := 5; probe_PeriodSeconds := 10;
       probe_SuccessThreshold := 0; probe_FailureThreshold := 5 |};
     ct_Resources := enp_Resources np;
     ct_Ports := [mkContainerPort "transport" 9300; mkContainerPort "http" 9200];
     ct_VolumeMounts :=
       [ mkVolumeMount esDataVolumeName esDataVolumeMountPath false;
         mkVolumeMount sharedVolumeName sharedVolumeMountPath true;
         mkVolumeMount esConfigVolumeName esConfigVolumeMountPath false ] |}.

Definition elasticsearchPodTemplateSpec (c : ElasticsearchCluster) (np : ElasticsearchClusterNodePool)
    : Res PodTemplateSpec :=
  let podLabels := <[PilotLabel := ""]> (NodePoolLabels c (enp_Name np) (enp_roles np)) in
  match esImageToUse (esc_Spec c) with
  | inl err => inl err
  | inr esImage =>
      inr {| pt_Labels := Some podLabels;
             pt_Annotations := Some ∅;
             pt_Spec := {|
               ps_TerminationGracePeriodSeconds := Some 1800;
               ps_ServiceAccountName := ServiceAccountName c;
               ps_NodeSelector := enp_NodeSelector np;
               ps_SchedulerName := enp_SchedulerName np;
               ps_FSGroup := nsc_RunAsUser (cfg_SecurityContext (es_Config (esc_Spec c)));
               ps_Volumes := esVolumes c np;
               ps_InitContainers := buildInitContainers c;
               ps_Containers := [esContainer c np esImage] |} |}
  end.

Definition volumeClaimTemplates (np : ElasticsearchClusterNodePool) : list PersistentVolumeClaim :=
  match enp_Persistence np with
  | None => []
  | Some p =>
      [ {| pvc_Name := "elasticsearch-data";
           pvc_Annotations := Some
             match pc_StorageClass p with
             | Some cls => {[ "volume.beta.kubernetes.io/storage-class" := cls ]}
             | None => ∅
             end;
           pvc_AccessModes := ["ReadWriteOnce"];
           pvc_StorageClassName := pc_StorageClass p;
           pvc_StorageRequest := pc_Size p |} ]
  end.

Definition nodePoolStatefulSet (c : ElasticsearchCluster) (np : ElasticsearchClusterNodePool)
    : Res StatefulSet :=
  let statefulSetName := NodePoolResourceName c np in
  match elasticsearchPodTemplateSpec c np with
  | inl err => inl (Errorf "error building elasticsearch container: %s" [AErr err])
  | inr template =>
      inr {| ss_Meta := newObjectMeta statefulSetName (esc_Namespace c) (pt_Labels template)
               (Some {[ ElasticsearchNodePoolVersionAnnotation := Version_String (es_Version (esc_Spec c)) ]})
               [ES_ControllerRef c];
             ss_Spec := {|
               sss_Replicas := enp_Replicas np;
               sss_Selector := Some (NodePoolLabels c (enp_Name np) []);
               sss_Template := template;
               sss_VolumeClaimTemplates := volumeClaimTemplates np;
               sss_ServiceName := statefulSetName;
               sss_PodManagementPolicy := "Parallel";
               sss_UpdateStrategyType := "RollingUpdate";
               sss_RollingUpdate := None |};
             ss_Status := mkStatefulSetStatus 0 0 0 |}
  end.

(** ** service/resources.go *)

Definition buildService (c : ElasticsearchCluster) (name : string) (http : bool)
    (annotations selector : smap) : Service :=
  {| svc_Meta := newObjectMeta name (esc_Namespace c) (Some (ClusterLabels c)) (Some annotations)
       [ES_ControllerRef c];
     svc_ClusterIP := "";
     svc_Type := "ClusterIP";
     svc_Selector := Some selector;
     svc_Ports := [mkServicePort "transport" 9300 (Some 9300)] ++
       (if http then [mkServicePort "http" 9200 (Some 9200)] else []);
     svc_PublishNotReadyAddresses := false |}.

(** The discovery service adds one annotation to the empty map buildService
    makes. *)
Definition discoveryService (c : ElasticsearchCluster) : Service :=
  buildService c (DiscoveryServiceName c) false
    (<["service.alpha.kubernetes.io/tolerate-unready-endpoints" := "true"]> ∅)
    (NodePoolLabels c "" []).

Definition clientService (c : ElasticsearchCluster) : Service :=
  buildService c (ClientServiceName c) true ∅ (NodePoolLabels c "" [ElasticsearchRoleIngest]).

(** ** configmap/resources.go *)

Definition configTemplatePrefix : string := "
node.data: ${NODE_DATA}
node.master: ${NODE_MASTER}
node.ingest: ${NODE_INGEST}
node.name: ${POD_NAME}

network.host: 0.0.0.0

discovery:
  zen:
    ping.unicast.hosts: ${DISCOVERY_URL}
    minimum_master_nodes: ".

Definition configTemplateSuffix : string := "

xpack.security.enabled: false
".

(** fmt.Sprintf(configTemplate, n) *)
Definition sprintfConfigTemplate (n : Z) : string :=
  configTemplatePrefix +:+ itoa n +:+ configTemplateSuffix.

(** The value the configuration gives minimum_master_nodes. *)
Definition configMinimumMasters (c : ElasticsearchCluster) : outcome Z :=
  match es_MinimumMasters (esc_Spec c) with
  | Some m => Ret m
  | None =>
      totalMasters ← CountElasticsearchMasters (es_NodePools (esc_Spec c));
      Ret (CalculateQuorum totalMasters)
  end.

Definition generateConfig (c : ElasticsearchCluster) : outcome string :=
  minimumMasters ← configMinimumMasters c;
  Ret (sprintfConfigTemplate minimumMasters).

Definition esConfigConfigMap (c : ElasticsearchCluster) (np : ElasticsearchClusterNodePool)
    : outcome ConfigMap :=
  config ← generateConfig c;
  Ret {| cm_Meta := newObjectMeta (ConfigMapName c np) (esc_Namespace c) (Some (ClusterLabels c)) None
           [ES_ControllerRef c];
         cm_Data := Some {[ "elasticsearch.yml" := config ]} |}.

(** ** role, rolebinding and serviceaccount/resources.go *)

Definition rule (groups verbs resources : list string) : PolicyRule :=
  mkPolicyRule (Some verbs) (Some groups) (Some resources) None None.

Definition roleForCluster (c : ElasticsearchCluster) : Role :=
  {| role_Meta := newObjectMeta (RBACRoleName c) (esc_Namespace c) (Some (ClusterLabels c)) None
       [ES_ControllerRef c];
     role_Rules := Some
       [ rule [""] ["create"; "update"; "patch"] ["events"];
         rule [""] ["create"; "update"; "patch"; "get"; "list"; "watch"] ["configmaps"];
         rule [""] ["get"; "list"; "watch"] ["pods"];
         rule ["apps"] ["get"; "list"; "watch"] ["statefulsets"];
         rule [GroupName] ["get"; "list"; "watch"] ["pilots"; "elasticsearchclusters"];
         rule [GroupName] ["update"; "patch"] ["pilots/status"; "elasticsearchclusters/status"] ] |}.

Definition roleBindingForCluster (c : ElasticsearchCluster) : RoleBinding :=
  {| rb_Meta := newObjectMeta (RBACRoleName c) (esc_Namespace c) (Some (ClusterLabels c)) None
       [ES_ControllerRef c];
     rb_Subjects := Some [mkSubject "ServiceAccount" "" (ServiceAccountName c) ""];
     rb_RoleRef := mkRoleRef "" "Role" (RBACRoleName c) |}.

Definition clusterServiceAccount (c : ElasticsearchCluster) : ServiceAccount :=
  mkServiceAccount (newObjectMeta (ServiceAccountName c) (esc_Namespace c) (Some (ClusterLabels c)) None
    [ES_ControllerRef c]).
