(* ===== verification/ValidationFacts.v ===== *)
(** * What validation accepts

    The validation functions return no error exactly for well-formed objects,
    and an accepted Elasticsearch cluster gets a safe minimum_master_nodes. *)

From S2P Require Import Prelude GoStrings Semver K8s Types CassandraVersion Conversion Defaults Cluster Fixtures ESUtil ESResources Internal Validation.
From Stdlib Require Import Ascii.

(** ** Well-formed objects *)

Definition validImage (img : ImageSpec) : Prop :=
  nimg_Tag img ≠ "" ∧ nimg_Repository img ≠ "" ∧ nimg_PullPolicy img ∈ supportedPullPolicies.

Definition validConfig (cfg : NavigatorClusterConfig) : Prop :=
  validImage (ncfg_PilotImage cfg) ∧
  ∀ u, nnsc_RunAsUser (ncfg_SecurityContext cfg) = Some u → 0 ≤ u.

Definition validSubdomain (s : string) : Prop :=
  (String.length s ≤ DNS1123SubdomainMaxLength)%nat ∧
  Forall (λ label, is_dns1123_label label = true) (split_all "."%char s).

Definition validESPool (np : ElasticsearchClusterNodePool) : Prop :=
  validSubdomain (nenp_Name np) ∧
  (∀ p, nenp_Persistence np = Some p → 0 < q_value (npc_Size p)) ∧
  nenp_roles np ≠ [] ∧ Forall (λ r, r ∈ supportedESClusterRoles) (nenp_roles np) ∧
  (∀ n, nenp_Replicas np = Some n → 0 ≤ n).

(** The number of master-eligible replicas, in unbounded arithmetic. *)
Definition nmasters_total (pools : list ElasticsearchClusterNodePool) : Z :=
  foldr (λ np acc,
    (if containsElasticsearchRole (nenp_roles np) ElasticsearchRoleMaster
     then default 0 (nenp_Replicas np) else 0) + acc) 0 pools.

Definition nreplicas_set (pools : list ElasticsearchClusterNodePool) : Prop :=
  Forall (λ np, is_Some (nenp_Replicas np)) pools.

(** The counts are those of int32 arithmetic. *)
Definition validESSpec (spec : ElasticsearchClusterSpec) : Prop :=
  let n := int32_wrap (nmasters_total (nes_NodePools spec)) in
  validConfig (nes_Config spec) ∧
  (∀ img, nes_Image spec = Some img → validImage img) ∧
  NoDup (map nenp_Name (nes_NodePools spec)) ∧
  Forall validESPool (nes_NodePools spec) ∧
  n ≠ 0 ∧
  (∀ m, nes_MinimumMasters spec = Some m → m ≠ 0 ∧ CalculateQuorum n ≤ m ≤ n) ∧
  Version_Equal (nes_Version spec) emptyVersion = false.

(** ** Each validation function *)

Lemma app_nil_iff {A} (xs ys : list A) : xs ++ ys = [] ↔ xs = [] ∧ ys = [].
Proof. split; [apply app_nil|]. by intros [-> ->]. Qed.

Lemma if_nil_iff {A} (b : bool) (x : A) : (if b then [x] else []) = [] ↔ b = false.
Proof. by destruct b. Qed.

Lemma fmap_nil_iff {A B} (f : A → B) (xs : list A) : f <$> xs = [] ↔ xs = [].
Proof. by destruct xs. Qed.

Lemma Ret_eq_iff {A} (a b : A) : Ret a = Ret b ↔ a = b.
Proof. split; [by intros [= ->]|by intros ->]. Qed.

Lemma ValidateImageSpec_nil img p : ValidateImageSpec img p = [] ↔ validImage img.
Proof.
  unfold ValidateImageSpec, validImage, supportedPullPolicies.
  rewrite !app_nil_iff, !if_nil_iff, !bool_decide_eq_false, !elem_of_cons, elem_of_nil.
  repeat case_bool_decide; simpl; naive_solver.
Qed.

Lemma ValidateNavigatorClusterConfig_nil cfg p : ValidateNavigatorClusterConfig cfg p = [] ↔ validConfig cfg.
Proof.
  unfold ValidateNavigatorClusterConfig, ValidateNavigatorSecurityContext, validConfig.
  rewrite app_nil_iff, ValidateImageSpec_nil.
  destruct (nnsc_RunAsUser _) as [u|]; [|naive_solver]. rewrite if_nil_iff, bool_decide_eq_false.
  split; intros [? H]; (split; [done|]); [intros ? [= <-]; lia|]. specialize (H u eq_refl). lia.
Qed.

Lemma ValidatePersistenceConfig_nil cfg p : ValidatePersistenceConfig cfg p = [] ↔ 0 < q_value (npc_Size cfg).
Proof.
  unfold ValidatePersistenceConfig, Quantity_IsZero, Quantity_Sign.
  rewrite app_nil_iff, !if_nil_iff, !bool_decide_eq_false. lia.
Qed.

Lemma ValidateDNS1123Subdomain_nil s p : ValidateDNS1123Subdomain s p = [] ↔ validSubdomain s.
Proof.
  unfold ValidateDNS1123Subdomain, IsDNS1123Subdomain, validSubdomain.
  rewrite fmap_nil_iff, app_nil_iff, if_nil_iff, Nat.ltb_ge. apply and_iff_compat_l.
  rewrite Forall_forall. setoid_rewrite list_elem_of_In. rewrite <-forallb_forall.
  by destruct (forallb _ _).
Qed.

Lemma concat_imap_nil {A B} (f : nat → A → list B) (xs : list A) (P : A → Prop) :
  (∀ i x, f i x = [] ↔ P x) → concat (imap f xs) = [] ↔ Forall P xs.
Proof.
  revert f. induction xs as [|x xs IH]; intros f Hf; simpl; [split; auto|].
  rewrite app_nil_iff, Forall_cons, Hf. apply and_iff_compat_l. apply (IH (f ∘ S)).
  intros i y. apply Hf.
Qed.

Lemma ValidateElasticsearchClusterRole_nil r p :
  ValidateElasticsearchClusterRole r p = [] ↔ r ∈ supportedESClusterRoles.
Proof.
  unfold ValidateElasticsearchClusterRole, supportedESClusterRoles.
  rewrite !elem_of_cons, elem_of_nil. repeat case_bool_decide; simpl; naive_solver.
Qed.

Lemma ValidateElasticsearchClusterNodePool_nil np p :
  ValidateElasticsearchClusterNodePool np p = [] ↔ validESPool np.
Proof.
  unfold ValidateElasticsearchClusterNodePool, validESPool.
  rewrite !app_nil_iff, ValidateDNS1123Subdomain_nil, if_nil_iff, bool_decide_eq_false, length_zero_iff_nil.
  rewrite (concat_imap_nil (λ i r, ValidateElasticsearchClusterRole r (Index (Child p "roles") i)) _
             (λ r, r ∈ supportedESClusterRoles)) by (intros; apply ValidateElasticsearchClusterRole_nil).
  assert (match nenp_Persistence np with
          | Some c => ValidatePersistenceConfig c (Child p "persistence") | None => [] end = [] ↔
          ∀ c, nenp_Persistence np = Some c → 0 < q_value (npc_Size c)) as ->.
  { destruct (nenp_Persistence np); [rewrite ValidatePersistenceConfig_nil|]; naive_solver. }
  assert (match nenp_Replicas np with
          | Some n => if bool_decide (n < 0) then [Invalid (Child p "replicas") "must be greater than zero"] else []
          | None => [] end = [] ↔ ∀ n, nenp_Replicas np = Some n → 0 ≤ n) as ->.
  { destruct (nenp_Replicas np) as [n|]; [rewrite if_nil_iff, bool_decide_eq_false|naive_solver].
    split; [intros ? ? [= <-]; lia|]. intros H. specialize (H n eq_refl). lia. }
  done.
Qed.

Lemma validatePools_nil {P} (name : P → string) validate (ok : P → Prop) npPath i (seen : gset string) pools :
  (∀ np p, validate np p = [] ↔ ok np) →
  validatePools name validate npPath i seen pools = [] ↔
  NoDup (map name pools) ∧ (∀ np, np ∈ pools → name np ∉ seen) ∧ Forall ok pools.
Proof.
  intros Hok. revert i seen. induction pools as [|np pools IH]; intros i seen; simpl.
  - split; [|done]. intros _. split_and!; [constructor|by intros ? ?%not_elem_of_nil|constructor].
  - rewrite !app_nil_iff, if_nil_iff, bool_decide_eq_false, Hok, IH, NoDup_cons, Forall_cons.
    setoid_rewrite elem_of_cons. setoid_rewrite elem_of_union. setoid_rewrite elem_of_singleton.
    assert (name np ∉ map name pools ↔ ∀ np', np' ∈ pools → name np' ≠ name np) as ->.
    { rewrite list_elem_of_fmap. naive_solver. }
    naive_solver.
Qed.

Lemma countElasticsearchMasters_spec pools :
  nreplicas_set pools → countElasticsearchMasters pools = Ret (int32_wrap (nmasters_total pools)).
Proof.
  intros Hset.
  assert (∀ m, countElasticsearchMastersFrom (int32_wrap m) pools = Ret (int32_wrap (m + nmasters_total pools)))
    as H; [|apply (H 0)].
  induction Hset as [|np pools [n Hn] _ IH]; intros m; simpl; [by rewrite Z.add_0_r|].
  destruct (containsElasticsearchRole _ _); [|by rewrite Z.add_0_l, IH].
  rewrite Hn. simpl. unfold mbind, outcome_bind. simpl. unfold int32_add.
  rewrite int32_wrap_add_l, IH. do 2 f_equal. lia.
Qed.

Lemma validateMinimumMasters_nil minimum n p q :
  validateMinimumMasters minimum n p q = [] ↔
  n ≠ 0 ∧ ∀ m, minimum = Some m → m ≠ 0 ∧ CalculateQuorum n ≤ m ≤ n.
Proof.
  unfold validateMinimumMasters. case_bool_decide as Hn; [naive_solver|].
  destruct minimum as [m|]; [|naive_solver].
  repeat case_bool_decide; (split; [try done|intros [_ H']; specialize (H' m eq_refl); try done; lia]).
  intros _. split; [done|]. intros ? [= <-]. lia.
Qed.

Lemma ValidateElasticsearchClusterSpec_nil spec path :
  nreplicas_set (nes_NodePools spec) →
  ValidateElasticsearchClusterSpec spec path = Ret [] ↔ validESSpec spec.
Proof.
  intros Hset. unfold ValidateElasticsearchClusterSpec, validESSpec.
  rewrite countElasticsearchMasters_spec by done. unfold mbind, outcome_bind.
  set (n := int32_wrap _). rewrite Ret_eq_iff.
  rewrite !app_nil_iff, ValidateNavigatorClusterConfig_nil, validateMinimumMasters_nil, if_nil_iff.
  rewrite (validatePools_nil _ _ validESPool) by (intros; apply ValidateElasticsearchClusterNodePool_nil).
  assert (match nes_Image spec with
          | Some img => ValidateImageSpec img (Child path "image") | None => [] end = [] ↔
          ∀ img, nes_Image spec = Some img → validImage img) as ->.
  { destruct (nes_Image spec); [rewrite ValidateImageSpec_nil|]; naive_solver. }
  set_solver.
Qed.

(** C35. Validation of an Elasticsearch specification whose pools all have a replica count, as
    defaulting leaves them, reports no error exactly when the declarative validity predicate
    holds: valid images, security context, pools with distinct names that are DNS-1123 subdomains
    (not only labels, as the types say), a master, a quorum between bounds and a version. *)
Theorem es_spec_accepted_iff_valid spec path :
  nreplicas_set (nes_NodePools spec) →
  ValidateElasticsearchClusterSpec spec path = Ret [] ↔ validESSpec spec.
Proof. apply ValidateElasticsearchClusterSpec_nil. Qed.

Lemma es_spec_accepted_iff_valid_witness :
  let spec := nesc_Spec (autoConvert_v1alpha1_ElasticsearchCluster_To_navigator_ElasticsearchCluster demoCluster) in
  ValidateElasticsearchClusterSpec spec [PChild "spec"] = Ret [] ↔ validESSpec spec.
Proof. apply es_spec_accepted_iff_valid. repeat constructor; by eexists. Defined.

(** A pool name with a dot, which is no DNS label, is accepted. *)
Lemma dotted_pool_names_accepted path :
  ValidateElasticsearchClusterNodePool
    (mkElasticsearchClusterNodePool "a.b" (Some 1) (Some [ElasticsearchRoleMaster]) None
       (mkResourceRequirements None None) None "") path = [].
Proof. reflexivity. Qed.

(** ** From an accepted specification to a safe quorum *)

Notation toInternal := autoConvert_v1alpha1_ElasticsearchCluster_To_navigator_ElasticsearchCluster.

(** What the API server stores: the defaulted object. *)
Notation defaulted := SetObjectDefaults_ElasticsearchCluster.

Lemma nmasters_total_convert pools :
  nmasters_total (Convert_v1alpha1_ElasticsearchClusterNodePool_To_navigator_ElasticsearchClusterNodePool <$> pools)
  = masters_total pools.
Proof. induction pools as [|np pools IH]; [done|]. rewrite fmap_cons. simpl. by rewrite IH. Qed.

Lemma defaulted_replicas_set c : replicas_set (es_NodePools (esc_Spec (defaulted c))).
Proof. apply Forall_fmap, Forall_forall. intros np _. by eexists. Qed.

Lemma nreplicas_set_convert pools :
  replicas_set pools →
  nreplicas_set (Convert_v1alpha1_ElasticsearchClusterNodePool_To_navigator_ElasticsearchClusterNodePool <$> pools).
Proof. intros H. by apply Forall_fmap. Qed.

Lemma masters_total_nonneg pools :
  Forall validESPool
    (Convert_v1alpha1_ElasticsearchClusterNodePool_To_navigator_ElasticsearchClusterNodePool <$> pools) →
  0 ≤ masters_total pools.
Proof.
  induction pools as [|np pools IH]; [done|]. rewrite fmap_cons, Forall_cons.
  intros [(_ & _ & _ & _ & Hrep) Hpools]. simpl. specialize (IH Hpools). simpl in Hrep.
  destruct (is_master np), (enp_Replicas np) as [n|]; simpl; try lia. specialize (Hrep n eq_refl). lia.
Qed.

Section accepted.
Context (vom : ObjectMeta → Path → list FieldError).

Lemma accepted_spec (c : Types.ElasticsearchCluster) :
  ValidateElasticsearchCluster vom (toInternal (defaulted c)) = Ret [] →
  validESSpec (nesc_Spec (toInternal (defaulted c))).
Proof.
  unfold ValidateElasticsearchCluster, mbind, outcome_bind.
  destruct (ValidateElasticsearchClusterSpec _ _) as [errs|] eqn:E; [|done].
  intros [= [_ ->]%app_nil]. apply ValidateElasticsearchClusterSpec_nil in E; [done|].
  apply nreplicas_set_convert, defaulted_replicas_set.
Qed.

(** C5. End to end: when a defaulted and converted Elasticsearch cluster passes validation and
    its master count fits an int32, the configuration the controller generates requires a strict
    majority of the masters and no more than there are. *)
Theorem accepted_cluster_quorum (c : Types.ElasticsearchCluster) :
  let d := defaulted c in
  let total := masters_total (es_NodePools (esc_Spec d)) in
  ValidateElasticsearchCluster vom (toInternal d) = Ret [] → total ≤ int32_max →
  ∃ q, generateConfig d = Ret (sprintfConfigTemplate q) ∧ total < 2 * q ∧ q ≤ total.
Proof.
  intros d total Hok%accepted_spec Hmax.
  destruct Hok as (_ & _ & _ & Hpools & Hn & Hmin & _). simpl in Hpools, Hn, Hmin.
  rewrite nmasters_total_convert in Hn, Hmin. apply masters_total_nonneg in Hpools.
  change (masters_total (SetDefaults_ElasticsearchClusterNodePool <$> es_NodePools (esc_Spec c)))
    with total in Hn, Hmin, Hpools.
  rewrite int32_wrap_id in Hn, Hmin by int32_lia.
  destruct (CalculateQuorum_majority total) as [Hq1 Hq2]; [lia|].
  unfold generateConfig, configMinimumMasters. simpl.
  destruct (es_MinimumMasters (esc_Spec c)) as [m|].
  - exists m. destruct (Hmin m eq_refl) as [? ?]. split; [done|]. lia.
  - exists (CalculateQuorum total).
    pose proof (CountElasticsearchMasters_spec _ (defaulted_replicas_set c)) as Hcount. simpl in Hcount.
    change (masters_total (SetDefaults_ElasticsearchClusterNodePool <$> es_NodePools (esc_Spec c)))
      with total in Hcount.
    rewrite Hcount. rewrite int32_wrap_id by int32_lia. done.
Qed.
End accepted.

Lemma accepted_cluster_quorum_witness :
  ∃ q, generateConfig (defaulted demoCluster) = Ret (sprintfConfigTemplate q) ∧ 3 < 2 * q ∧ q ≤ 3.
Proof.
  apply (accepted_cluster_quorum (λ _ _, []) demoCluster); [vm_compute; reflexivity|vm_compute; discriminate].
Defined.

(** The int32 count of masters overflows: a cluster of two master pools of 2147483647
    replicas is accepted and its generated configuration has minimum_master_nodes 0. *)
Theorem overflowing_masters_accepted :
  let pools := [poolOf "a" int32_max [ElasticsearchRoleMaster]; poolOf "b" int32_max [ElasticsearchRoleMaster]] in
  let c := demoClusterAt version561 false pools in
  ValidateElasticsearchCluster (λ _ _, []) (toInternal (defaulted c)) = Ret [] ∧
  generateConfig (defaulted c) = Ret (sprintfConfigTemplate 0).
Proof. split; vm_compute; reflexivity. Qed.

(** ** Updates *)

(** The old pool a new pool is compared with. *)
Definition samePool {P} (name : P → string) (oldPools : list P) (newNp oldNp : P) : Prop :=
  ∃ pre post, oldPools = pre ++ oldNp :: post ∧ name newNp = name oldNp ∧
    Forall (λ np, name np ≠ name newNp) pre.

Lemma find_samePool {P} (name : P → string) (oldPools : list P) (newNp : P) :
  match List.find (λ oldNp, bool_decide (name newNp = name oldNp)) oldPools with
  | Some oldNp => samePool name oldPools newNp oldNp
  | None => ∀ oldNp, ¬ samePool name oldPools newNp oldNp
  end.
Proof.
  induction oldPools as [|np pools IH]; simpl.
  - intros oldNp (pre & post & Heq & _). by destruct pre.
  - case_bool_decide as Hn.
    + exists [], pools. split_and!; [done|done|constructor].
    + destruct (List.find _ pools) as [oldNp|].
      * destruct IH as (pre & post & -> & Heq & Hpre). exists (np :: pre), post.
        split_and!; [done|done|constructor; [congruence|done]].
      * intros oldNp (pre & post & Heq & Hname & Hpre). destruct pre as [|x pre]; simplify_eq/=.
        apply Forall_cons in Hpre as [_ Hpre]. apply (IH oldNp). by exists pre, post.
Qed.

Lemma samePool_fun {P} (name : P → string) oldPools newNp a b :
  samePool name oldPools newNp a → samePool name oldPools newNp b → a = b.
Proof.
  intros (pre & post & -> & Ha & Hpre) (pre' & post' & Heq & Hb & Hpre'). revert pre' Heq Hpre'.
  induction Hpre as [|x pre Hx Hpre IH]; intros pre' Heq Hpre'; destruct Hpre' as [|y pre' Hy Hpre'];
    simplify_eq/=; try congruence. by eapply IH.
Qed.

Lemma validatePoolUpdate_nil {P} `{EqDecision P} name (persistence : P → option PersistenceConfig) unify
    (oldPools : list P) p newNp :
  validatePoolUpdate name persistence unify oldPools p newNp = [] ↔
  ∀ oldNp, samePool name oldPools newNp oldNp →
    (persistence oldNp = None ∨ persistence newNp = persistence oldNp) ∧ unify oldNp newNp = oldNp.
Proof.
  unfold validatePoolUpdate. pose proof (find_samePool name oldPools newNp) as Hf.
  destruct (List.find _ oldPools) as [oldNp|]; [|naive_solver].
  rewrite app_nil_iff, !if_nil_iff, andb_false_iff, !negb_false_iff, !bool_decide_eq_true, bool_decide_eq_false.
  rewrite <-eq_None_not_Some. split.
  - intros [Hp Hu] old' Hs. rewrite (samePool_fun _ _ _ _ _ Hs Hf). naive_solver.
  - intros H. specialize (H oldNp Hf). naive_solver.
Qed.

(** An update of an Elasticsearch cluster is accepted exactly when the new object is valid
    and every pool that keeps its name changes only its replicas, or its persistence if it had
    none. *)
Theorem es_update_accepted_iff vom old new :
  ValidateElasticsearchClusterUpdate vom old new = Ret [] ↔
  ValidateElasticsearchCluster vom new = Ret [] ∧
  ∀ newNp oldNp, newNp ∈ nes_NodePools (nesc_Spec new) →
    samePool nenp_Name (nes_NodePools (nesc_Spec old)) newNp oldNp →
    (nenp_Persistence oldNp = None ∨ nenp_Persistence newNp = nenp_Persistence oldNp) ∧
    nenp_Roles newNp = nenp_Roles oldNp ∧ nenp_NodeSelector newNp = nenp_NodeSelector oldNp ∧
    nenp_Resources newNp = nenp_Resources oldNp ∧ nenp_SchedulerName newNp = nenp_SchedulerName oldNp.
Proof.
  unfold ValidateElasticsearchClusterUpdate, mbind, outcome_bind.
  destruct (ValidateElasticsearchCluster vom new) as [errs|]; [|naive_solver].
  rewrite !Ret_eq_iff, app_nil_iff. apply and_iff_compat_l.
  rewrite (concat_imap_nil _ _ (λ newNp, ∀ oldNp, samePool nenp_Name (nes_NodePools (nesc_Spec old)) newNp oldNp →
    (nenp_Persistence oldNp = None ∨ nenp_Persistence newNp = nenp_Persistence oldNp) ∧
    unifyESPool oldNp newNp = oldNp)) by (intros; apply validatePoolUpdate_nil).
  rewrite Forall_forall. split.
  - intros H newNp oldNp Hin Hs. destruct (H newNp Hin oldNp Hs) as [Hp Hu]. split; [done|].
    destruct newNp, oldNp. unfold unifyESPool in Hu. simpl in *.
    injection Hu as -> -> -> -> ->. done.
  - intros H newNp Hin oldNp Hs. destruct (H newNp oldNp Hin Hs) as [Hp Hu]. split; [done|].
    destruct Hs as (_ & _ & _ & Hname & _), newNp, oldNp. unfold unifyESPool. simpl in *.
    destruct Hu as (-> & -> & -> & ->). by subst.
Qed.

(** ** Cassandra *)

Definition validCassSpec (spec : CassandraClusterSpec) (v : HVersion) : Prop :=
  validConfig (ncs_Config spec) ∧ hv_pre v = "" ∧ List.hd 0 (hv_segments v) = 3 ∧
  NoDup (map ncnp_Name (ncs_NodePools spec)) ∧
  (∀ img, ncs_Image spec = Some img → validImage img).

(** Validation of a Cassandra specification with a parsed version reports no error exactly
    when the images and security context are valid, the pool names are distinct and the version
    is a release of major version 3. *)
Theorem cassandra_spec_accepted_iff spec path v s :
  cv_semver (ncs_Version spec) = Some v → HVersion_NewVersion s = Some v →
  ValidateCassandraClusterSpec spec path = Ret [] ↔ validCassSpec spec v.
Proof.
  intros Hv Hs. unfold ValidateCassandraClusterSpec, validCassSpec. rewrite Hv.
  unfold mbind, outcome_bind. simpl. rewrite Ret_eq_iff.
  rewrite !app_nil_iff, ValidateNavigatorClusterConfig_nil, if_nil_iff, negb_false_iff, (supported_check v s Hs).
  rewrite (validatePools_nil _ _ (λ _, True)) by done.
  assert (match ncs_Image spec with
          | Some img => ValidateImageSpec img (Child path "image") | None => [] end = [] ↔
          ∀ img, ncs_Image spec = Some img → validImage img) as ->.
  { destruct (ncs_Image spec); [rewrite ValidateImageSpec_nil|]; naive_solver. }
  assert (Forall (λ _, True) (ncs_NodePools spec)) by (by apply Forall_forall). set_solver.
Qed.

Definition demoCassSpec (v : CassVersion) : CassandraClusterSpec :=
  mkCassandraClusterSpec
    (mkNavigatorClusterConfig (mkImageSpec "navigator/pilot" "v1" PullAlways)
       (mkNavigatorSecurityContext None) false)
    [mkCassandraClusterNodePool "ring" (Some 3)
       (Some (mkPersistenceConfig (mkQuantity (-5) 0 "DecimalSI" "-5") None)) None None None
       (mkResourceRequirements None None) ""] v None.

Lemma cassandra_spec_accepted_iff_witness :
  ValidateCassandraClusterSpec (demoCassSpec (mkCassVersion "3.11" (Some (mkHVersion "" "" [3; 11; 0] 2))))
    [PChild "spec"] = Ret [] ↔
  validCassSpec (demoCassSpec (mkCassVersion "3.11" (Some (mkHVersion "" "" [3; 11; 0] 2))))
    (mkHVersion "" "" [3; 11; 0] 2).
Proof.
  apply (cassandra_spec_accepted_iff _ _ _ "3.11"); [reflexivity|vm_compute; reflexivity].
Defined.

(** The pool with another persistence configuration. *)
Definition withPersistence (p : option PersistenceConfig) (np : CassandraClusterNodePool) : CassandraClusterNodePool :=
  mkCassandraClusterNodePool (ncnp_Name np) (ncnp_Replicas np) p (ncnp_NodeSelector np) (ncnp_Rack np)
    (ncnp_Datacenter np) (ncnp_Resources np) (ncnp_SchedulerName np).

Definition withPools (pools : list CassandraClusterNodePool) (spec : CassandraClusterSpec) : CassandraClusterSpec :=
  mkCassandraClusterSpec (ncs_Config spec) pools (ncs_Version spec) (ncs_Image spec).

Lemma validatePools_map {P} (name : P → string) validate (f : P → P) npPath i (seen : gset string) pools :
  (∀ np, name (f np) = name np) → (∀ np p, validate (f np) p = validate np p) →
  validatePools name validate npPath i seen (f <$> pools) = validatePools name validate npPath i seen pools.
Proof.
  intros Hn Hv. revert i seen. induction pools as [|np pools IH]; intros i seen; simpl; [done|].
  by rewrite Hn, Hv, IH.
Qed.

(** Cassandra validation ignores persistence: replacing the persistence configuration of the
    pools by any other does not change its result. *)
Theorem cassandra_pool_persistence_unchecked spec path (f : CassandraClusterNodePool → option PersistenceConfig) :
  ValidateCassandraClusterSpec
    (withPools ((λ np, withPersistence (f np) np) <$> ncs_NodePools spec) spec) path =
  ValidateCassandraClusterSpec spec path.
Proof. unfold ValidateCassandraClusterSpec. simpl. by rewrite validatePools_map. Qed.

(** Validation of a Cassandra specification panics exactly when its version has not been
    parsed, as when the field is omitted. *)
Theorem cassandra_missing_version_panics spec path :
  (∃ p, ValidateCassandraClusterSpec spec path = Panic p) ↔ cv_semver (ncs_Version spec) = None.
Proof.
  unfold ValidateCassandraClusterSpec. destruct (cv_semver (ncs_Version spec)); simpl.
  - split; [by intros [? ?]|done].
  - split; [done|by eexists].
Qed.
