(* ===== verification/ESResourcesFacts.v ===== *)
(** * The Elasticsearch resources fit together

    The stateful set of a pool selects its own pods, mounts only volumes it
    declares and is found by the selectors and services of the cluster; the
    generated configuration asks for a majority of the master-eligible
    nodes. *)

From S2P Require Import Prelude GoStrings Semver K8s Types Cluster Fixtures ESUtil ESResources.

(** ** Labels *)

#[local] Arguments String.append !s1 s2 : simpl nomatch.

Definition reservedLabels : list string :=
  [ElasticsearchClusterNameLabel; ElasticsearchNodePoolNameLabel; PilotLabel].

Lemma RoleLabel_reserved role : RoleLabel role ∉ reservedLabels.
Proof.
  unfold reservedLabels, RoleLabel, ElasticsearchRoleLabelPrefix, ElasticsearchClusterNameLabel,
    ElasticsearchNodePoolNameLabel, PilotLabel.
  rewrite !elem_of_cons, elem_of_nil. simpl. intros [H|[H|[H|[]]]]; by inversion H.
Qed.

Lemma RoleLabel_inj role role' : RoleLabel role = RoleLabel role' → role = role'.
Proof. by intros ?%(inj (String.append _)). Qed.

Lemma foldl_roles_lookup (roles : list string) (m : smap) k :
  (foldl (λ m role, <[RoleLabel role := "true"]> m) m roles) !! k =
  if bool_decide (k ∈ RoleLabel <$> roles) then Some "true" else m !! k.
Proof.
  revert m. induction roles as [|r roles IH]; intros m; [done|].
  cbn [foldl]. rewrite IH, fmap_cons. destruct (decide (k ∈ RoleLabel <$> roles)) as [Hin|Hnin].
  - rewrite !bool_decide_eq_true_2 by set_solver. done.
  - rewrite (bool_decide_eq_false_2 (k ∈ RoleLabel <$> roles)) by done.
    destruct (decide (k = RoleLabel r)) as [->|Hne].
    + rewrite bool_decide_eq_true_2 by set_solver. apply lookup_insert_eq.
    + rewrite bool_decide_eq_false_2 by set_solver. by apply lookup_insert_ne.
Qed.

Lemma NodePoolLabels_roles c pool roles k :
  NodePoolLabels c pool roles !! k =
  if bool_decide (k ∈ RoleLabel <$> roles) then Some "true" else NodePoolLabels c pool [] !! k.
Proof. apply foldl_roles_lookup. Qed.

Lemma NodePoolLabels_base c pool k :
  NodePoolLabels c pool [] !! k =
  if bool_decide (k = ElasticsearchNodePoolNameLabel ∧ pool ≠ "") then Some pool
  else if bool_decide (k = ElasticsearchClusterNameLabel) then Some (esc_Name c) else None.
Proof.
  unfold NodePoolLabels, ClusterLabels. simpl. repeat case_bool_decide; destruct_and?; subst; try done.
  all: try (rewrite lookup_insert_eq; done).
  all: try (rewrite lookup_insert_ne by naive_solver).
  all: try (rewrite lookup_singleton_eq; done).
  all: try (apply lookup_singleton_ne; naive_solver).
  all: naive_solver.
Qed.

(** The labels of a pool's pods. *)
Lemma podLabels_lookup c np k :
  k ≠ PilotLabel →
  (<[PilotLabel := ""]> (NodePoolLabels c (enp_Name np) (enp_roles np)) : smap) !! k =
  if bool_decide (k ∈ RoleLabel <$> enp_roles np) then Some "true"
  else NodePoolLabels c (enp_Name np) [] !! k.
Proof. intros Hk. rewrite lookup_insert_ne by done. apply NodePoolLabels_roles. Qed.

Lemma reserved_not_role (k : string) (roles : list string) :
  k ∈ reservedLabels → bool_decide (k ∈ RoleLabel <$> roles) = false.
Proof.
  intros Hk. apply bool_decide_eq_false_2. intros (r & -> & _)%list_elem_of_fmap.
  by apply RoleLabel_reserved in Hk.
Qed.

Lemma podLabels_cluster c np :
  (<[PilotLabel := ""]> (NodePoolLabels c (enp_Name np) (enp_roles np)) : smap)
    !! ElasticsearchClusterNameLabel = Some (esc_Name c).
Proof.
  rewrite podLabels_lookup by done. rewrite reserved_not_role by (unfold reservedLabels; set_solver).
  rewrite NodePoolLabels_base. by rewrite bool_decide_eq_false_2, bool_decide_eq_true_2 by naive_solver.
Qed.

Lemma podLabels_pool c np :
  enp_Name np ≠ "" →
  (<[PilotLabel := ""]> (NodePoolLabels c (enp_Name np) (enp_roles np)) : smap)
    !! ElasticsearchNodePoolNameLabel = Some (enp_Name np).
Proof.
  intros Hn. rewrite podLabels_lookup by done.
  rewrite reserved_not_role by (unfold reservedLabels; set_solver).
  rewrite NodePoolLabels_base. by rewrite bool_decide_eq_true_2.
Qed.

(** ** The stateful set *)

Lemma nodePoolStatefulSet_mounts c np ss : nodePoolStatefulSet c np = inr ss → mountsResolved ss.
Proof.
  unfold nodePoolStatefulSet, elasticsearchPodTemplateSpec.
  destruct (esImageToUse (esc_Spec c)) as [|img]; [done|]. intros [= <-] ct m. simpl.
  unfold esVolumes, volumeClaimTemplates, buildInitContainers.
  rewrite !elem_of_cons, elem_of_nil.
  intros [->|[->|[]]]; simpl; rewrite !elem_of_cons, elem_of_nil;
    destruct (enp_Persistence np); simpl; intros Hm; destruct_or?; subst; simpl; try done; set_solver.
Qed.

(** C33. The stateful set of a pool is well formed: it selects its own pods, is found by the pool
    selector, its pods are behind the discovery service, and behind the client service exactly
    when they have the ingest role, it is controlled by the cluster and every volume mount names
    a declared volume or claim. *)
Theorem nodepool_set_wellformed c np ss sel :
  nodePoolStatefulSet c np = inr ss → enp_Name np ≠ "" →
  SelectorForNodePool (esc_Name c) (enp_Name np) = inr sel →
  let podLabels := pt_Labels (sss_Template (ss_Spec ss)) in
  selects (sss_Selector (ss_Spec ss)) podLabels ∧
  Selector_Matches sel (om_Labels (ss_Meta ss)) = true ∧
  selects (svc_Selector (discoveryService c)) podLabels ∧
  (selects (svc_Selector (clientService c)) podLabels ↔ ElasticsearchRoleIngest ∈ enp_roles np) ∧
  IsControlledBy (ss_Meta ss) (esc_Meta c) = true ∧
  mountsResolved ss.
Proof.
  intros Hss Hn Hsel podLabels. pose proof (nodePoolStatefulSet_mounts _ _ _ Hss) as Hm.
  assert (podLabels = Some (<[PilotLabel := ""]> (NodePoolLabels c (enp_Name np) (enp_roles np)))
    ∧ om_Labels (ss_Meta ss) = podLabels ∧ sss_Selector (ss_Spec ss) = Some (NodePoolLabels c (enp_Name np) [])
    ∧ IsControlledBy (ss_Meta ss) (esc_Meta c) = true) as (Hpod & -> & -> & Hc).
  { unfold podLabels. clear Hm podLabels. revert Hss. unfold nodePoolStatefulSet, elasticsearchPodTemplateSpec.
    destruct (esImageToUse (esc_Spec c)) as [|img]; [done|]. intros [= <-].
    split_and!; [done..|]. apply IsControlledBy_new. }
  clear Hss. rewrite Hpod. unfold selects. simpl. split_and!; [..|done|done].
  - intros k v Hk. rewrite NodePoolLabels_base in Hk. repeat case_bool_decide; destruct_and?; simplify_eq.
    + by apply podLabels_pool.
    + apply podLabels_cluster.
  - unfold SelectorForNodePool, SelectorForCluster, NewRequirement in Hsel.
    destruct (IsValidLabelValue (enp_Name np)), (IsValidLabelValue (esc_Name c)); simplify_eq.
    apply Selector_Matches_spec. intros r. simpl. rewrite !elem_of_cons, elem_of_nil. intros [->|[->|[]]]; simpl.
    + apply podLabels_cluster.
    + by apply podLabels_pool.
  - intros k v Hk. rewrite NodePoolLabels_base in Hk. repeat case_bool_decide; destruct_and?; simplify_eq.
    apply podLabels_cluster.
  - split.
    + intros H. specialize (H (RoleLabel ElasticsearchRoleIngest) "true").
      rewrite NodePoolLabels_roles, bool_decide_eq_true_2 in H by set_solver.
      specialize (H eq_refl). rewrite podLabels_lookup in H by done.
      case_bool_decide as Hin; [apply list_elem_of_fmap in Hin as (r & Heq%RoleLabel_inj & ?); by subst|].
      rewrite NodePoolLabels_base in H. repeat case_bool_decide; destruct_and?; simplify_eq.
    + intros Hi k v Hk. rewrite NodePoolLabels_roles in Hk. case_bool_decide as Hin.
      * simplify_eq. apply list_elem_of_fmap in Hin as (r & -> & Hr%list_elem_of_singleton). subst r.
        rewrite podLabels_lookup by done. rewrite bool_decide_eq_true_2; [done|]. by apply list_elem_of_fmap_2.
      * rewrite NodePoolLabels_base in Hk. repeat case_bool_decide; destruct_and?; simplify_eq.
        apply podLabels_cluster.
Qed.

Lemma nodepool_set_wellformed_witness :
  ∃ ss, nodePoolStatefulSet demoCluster dataPool = inr ss ∧
    (selects (svc_Selector (clientService demoCluster)) (pt_Labels (sss_Template (ss_Spec ss))) ↔
     ElasticsearchRoleIngest ∈ enp_roles dataPool) ∧
    mountsResolved ss.
Proof.
  eexists. assert (nodePoolStatefulSet demoCluster dataPool = inr _) as Hss by reflexivity.
  split; [exact Hss|].
  destruct (nodepool_set_wellformed demoCluster dataPool _
              [mkRequirement ElasticsearchClusterNameLabel "demo";
               mkRequirement ElasticsearchNodePoolNameLabel "data"] Hss) as (_ & _ & _ & ? & _ & ?);
    [discriminate|reflexivity|]. split; assumption.
Defined.

(** ** The generated configuration *)

(** Without an explicit minimumMasters the generated configuration sets minimum_master_nodes
    to a strict majority of the master-eligible replicas, and to no more than there are. *)
Theorem generated_config_quorum c :
  es_MinimumMasters (esc_Spec c) = None → replicas_set (es_NodePools (esc_Spec c)) →
  1 ≤ masters_total (es_NodePools (esc_Spec c)) ≤ int32_max →
  ∃ q, generateConfig c = Ret (sprintfConfigTemplate q) ∧
    masters_total (es_NodePools (esc_Spec c)) < 2 * q ∧ q ≤ masters_total (es_NodePools (esc_Spec c)).
Proof.
  intros Hm Hset Hr. unfold generateConfig, configMinimumMasters. rewrite Hm.
  rewrite CountElasticsearchMasters_spec by done. unfold mbind, outcome_bind. simpl.
  rewrite int32_wrap_id by int32_lia. eexists. split; [done|]. by apply CalculateQuorum_majority.
Qed.

Lemma generated_config_quorum_witness :
  ∃ q, generateConfig demoCluster = Ret (sprintfConfigTemplate q) ∧
    masters_total [masterPool; dataPool] < 2 * q ∧ q ≤ masters_total [masterPool; dataPool].
Proof.
  apply (generated_config_quorum demoCluster);
    [reflexivity|repeat constructor; by eexists|vm_compute; split; discriminate].
Defined.
