(* ===== verification/ESScale.v ===== *)
(** * actions/scale.go: scaling an Elasticsearch node pool

    [Scale.Execute] with its guards, the pilots a scale-down would remove, and
    the safety of scaling down a data pool. *)

From S2P Require Import Prelude GoStrings Semver K8s Types Cluster Fixtures ESUtil.

Record Scale := mkScale {
  sc_Cluster : option ElasticsearchCluster;
  sc_NodePool : option ElasticsearchClusterNodePool;
  sc_Replicas : Z;
}.

Definition pilotNameForStatefulSetReplica (setName : string) (replica : Z) : string :=
  setName +:+ "-" +:+ itoa replica.

(** The first pilot of the list with the given name. *)
Definition findPilot (name : string) (pilots : list Pilot) : option Pilot :=
  List.find (λ p, bool_decide (pil_Name p = name)) pilots.

(** [for i := int32(0); i < replicas; i++]: the pilots found, in replica
    order, and one error per replica without a pilot. *)
Fixpoint collectPilots (setName : string) (pilots : list Pilot) (idx : list Z)
    : list Pilot * list Err :=
  match idx with
  | [] => ([], [])
  | i :: idx' =>
      let '(output, errs) := collectPilots setName pilots idx' in
      let pilotName := pilotNameForStatefulSetReplica setName i in
      match findPilot pilotName pilots with
      | Some p => (p :: output, errs)
      | None => (output, Errorf "pilot %q not found" [AStr pilotName] :: errs)
      end
  end.

Definition pilotsForStatefulSet (s : State) (cluster : ElasticsearchCluster)
    (nodePool : ElasticsearchClusterNodePool) (statefulSet : StatefulSet) : Res (list Pilot) :=
  match ss_Replicas statefulSet with
  | None => inl (Errorf "statefulset.spec.replicas cannot be nil" [])
  | Some replicas =>
      match SelectorForNodePool (esc_Name cluster) (enp_Name nodePool) with
      | inl err => inl err
      | inr selector =>
          match lister_List (PilotLister s) (esc_Namespace cluster) selector with
          | inl err => inl err
          | inr pilots =>
              let '(output, errs) := collectPilots (ss_Name statefulSet) pilots (seqZ 0 replicas) in
              match errs with
              | [] => inr output
              | _ => inl (StatusError StatusReasonNotFound "" errs)
              end
          end
      end
  end.

(** [for i := current-1; i >= desired; i--]; pilots that are not in the list
    are skipped. *)
Definition pilotsBetween (statefulSet : StatefulSet) (allPilots : list Pilot) (desired current : Z)
    : list Pilot :=
  omap (λ i, List.find
    (λ p, bool_decide (pilotNameForStatefulSetReplica (ss_Name statefulSet) i = pil_Name p)
          && bool_decide (ss_Namespace statefulSet = pil_Namespace p)) allPilots)
    (reverse (seqZ desired (current - desired))).

Definition determinePilotsToBeRemoved (allPilots : list Pilot) (statefulSet : StatefulSet)
    (replicaDiff : Z) : Res (list Pilot) :=
  if bool_decide (0 ≤ replicaDiff) then inr []
  else
    match ss_Replicas statefulSet with
    | None => inl (Errorf "current replicas of statefulset cannot be nil" [])
    | Some currentReplicas =>
        let desiredReplicas := int32_add currentReplicas replicaDiff in
        inr (pilotsBetween statefulSet allPilots desiredReplicas currentReplicas)
    end.

(** The body of the loop over the pilots to remove: [Some false] is its early
    return. *)
Definition checkPilotDrained (cluster : ElasticsearchCluster) (p : Pilot) : GoM World (option bool) :=
  match pst_Elasticsearch (pil_Status p) ≫= eps_Documents with
  | None =>
      eventf (esc_Meta cluster) EventTypeWarning "ErrScale"
        "Could not determine document count for pilot %q" [AStr (pil_Name p)];;
      mret (Some false)
  | Some documentCount =>
      if bool_decide (0 < documentCount) then
        eventf (esc_Meta cluster) EventTypeNormal "ErrScale"
          "Pilot %q still contains %d documents. Will not scale down until empty."
          [AStr (pil_Name p); AInt documentCount];;
        mret (Some false)
      else mret None
  end.

Definition checkDrained (cluster : ElasticsearchCluster) (toRemove : list Pilot)
    : GoM World (option bool) :=
  for_range toRemove (checkPilotDrained cluster).

Definition canScaleNodePool (s : State) (cluster : ElasticsearchCluster)
    (nodePool : ElasticsearchClusterNodePool) (statefulSet : StatefulSet) (replicaDiff : Z)
    : GoM World (Res bool) :=
  if bool_decide (0 ≤ replicaDiff) then mret (inr true)
  else if negb (ContainsElasticsearchRole (enp_roles nodePool) ElasticsearchRoleData)
  then mret (inr true)
  else
    match pilotsForStatefulSet s cluster nodePool statefulSet with
    | inl err =>
        if IsNotFound (Some err) then
          eventf (esc_Meta cluster) EventTypeWarning "ErrScale"
            "Could not get all pilots for statefulset %q: %v" [AStr (ss_Name statefulSet); AErr err];;
          mret (inr false)
        else mret (inl err)
    | inr allPilots =>
        match determinePilotsToBeRemoved allPilots statefulSet replicaDiff with
        | inl err => mret (inl err)
        | inr toRemove =>
            r ← checkDrained cluster toRemove;
            mret (inr (default true r))
        end
    end.

Definition Scale_Execute (s : State) (a : Scale) : GoM World (option Err) :=
  match sc_Cluster a, sc_NodePool a with
  | Some cluster, Some nodePool =>
      let statefulSetName := NodePoolResourceName cluster nodePool in
      match lister_Get (StatefulSetLister s) (esc_Namespace cluster) statefulSetName with
      | inl err =>
          if IsNotFound (Some err) then
            eventf (esc_Meta cluster) EventTypeWarning "ErrScale"
              "Cannot get statefulset %q for node pool %q: %v"
              [AStr statefulSetName; AStr (enp_Name nodePool); AErr err];;
            mret None
          else mret (Some err)
      | inr statefulSet =>
          match ss_Replicas statefulSet with
          | None => mret (Some (Errorf "current number of replicas on statefulset cannot be nil" []))
          | Some currentReplicas =>
              let replicaDiff := int32_sub (sc_Replicas a) currentReplicas in
              if bool_decide (replicaDiff = 0) then mret None
              else
                canScale ← canScaleNodePool s cluster nodePool statefulSet replicaDiff;
                match canScale with
                | inl err => mret (Some err)
                | inr false => mret None
                | inr true =>
                    let ssCopy := set_Replicas (sc_Replicas a) statefulSet in
                    err ← api_call s (UpdateStatefulSet (ss_Namespace ssCopy) ssCopy);
                    match err with
                    | Some e => mret (Some e)
                    | None =>
                        eventf (esc_Meta cluster) EventTypeNormal "Scale"
                          "Scaled node pool %q to %d replicas"
                          [AStr (enp_Name nodePool); APtr (enp_Replicas nodePool)];;
                        mret None
                    end
                end
          end
      end
  | _, _ => mret (Some (Errorf "internal error: nodepool and cluster must be set" []))
  end.

(** ** Names of replicas *)

Lemma pilotName_inj n1 n2 i j :
  0 ≤ i → 0 ≤ j →
  pilotNameForStatefulSetReplica n1 i = pilotNameForStatefulSetReplica n2 j → n1 = n2 ∧ i = j.
Proof.
  intros Hi Hj H. apply dash_name_inj in H as [-> H]; [|by apply itoa_has_char..].
  split; [done|]. by apply (inj pretty) in H.
Qed.

(** ** The pilots of a stateful set *)

Lemma findPilot_Some name pilots p :
  findPilot name pilots = Some p → p ∈ pilots ∧ pil_Name p = name.
Proof.
  unfold findPilot. intros [Hin Hn]%find_some. rewrite bool_decide_eq_true in Hn.
  by rewrite list_elem_of_In.
Qed.

Lemma collectPilots_spec setName pilots idx output :
  collectPilots setName pilots idx = (output, []) ↔
  Forall2 (λ i p, findPilot (pilotNameForStatefulSetReplica setName i) pilots = Some p) idx output.
Proof.
  revert output. induction idx as [|i idx IH]; intros output; simpl.
  - split; [by intros [= <-]|]. by inversion 1.
  - destruct (collectPilots setName pilots idx) as [out errs] eqn:E.
    destruct (findPilot _ _) as [p|] eqn:Ef; split.
    + intros [= <- ->]. constructor; [done|]. by apply IH.
    + inversion 1 as [|? p' ? out' Hp Hrest]; subst. simplify_eq.
      apply IH in Hrest. by simplify_eq.
    + done.
    + inversion 1; congruence.
Qed.

Lemma pilotsForStatefulSet_spec s cluster np ss out :
  pilotsForStatefulSet s cluster np ss = inr out ↔
  ∃ cur sel pilots,
    ss_Replicas ss = Some cur ∧
    SelectorForNodePool (esc_Name cluster) (enp_Name np) = inr sel ∧
    lister_List (PilotLister s) (esc_Namespace cluster) sel = inr pilots ∧
    Forall2 (λ i p, findPilot (pilotNameForStatefulSetReplica (ss_Name ss) i) pilots = Some p)
      (seqZ 0 cur) out.
Proof.
  unfold pilotsForStatefulSet. split.
  - intros H. destruct (ss_Replicas ss) as [cur|]; [|done].
    destruct (SelectorForNodePool _ _) as [|sel]; [done|].
    destruct (lister_List _ _ _) as [|pilots] eqn:El; [done|].
    destruct (collectPilots _ _ _) as [out' [|]] eqn:E; [|done].
    simplify_eq. exists cur, sel, pilots. by rewrite <-collectPilots_spec.
  - intros (cur & sel & pilots & -> & -> & -> & H). apply collectPilots_spec in H. by rewrite H.
Qed.

(** When a listing lacks one of the replicas' pilots, the error is a NotFound
    status error. *)
Lemma pilotsForStatefulSet_missing s cluster np ss cur sel pilots i :
  ss_Replicas ss = Some cur →
  SelectorForNodePool (esc_Name cluster) (enp_Name np) = inr sel →
  lister_List (PilotLister s) (esc_Namespace cluster) sel = inr pilots →
  0 ≤ i < cur → findPilot (pilotNameForStatefulSetReplica (ss_Name ss) i) pilots = None →
  ∃ err, pilotsForStatefulSet s cluster np ss = inl err ∧ IsNotFound (Some err) = true.
Proof.
  intros Hr Hsel Hl Hi Hf.
  destruct (pilotsForStatefulSet s cluster np ss) as [err|out] eqn:E.
  - exists err. split; [done|]. unfold pilotsForStatefulSet in E. rewrite Hr, Hsel, Hl in E.
    destruct (collectPilots _ _ _) as [? []]; simplify_eq; by apply bool_decide_eq_true.
  - exfalso. apply pilotsForStatefulSet_spec in E as (cur' & sel' & pilots' & ? & ? & ? & HF).
    simplify_eq. destruct (Forall2_lookup_l _ _ _ (Z.to_nat i) i HF) as (p & _ & Hp); [|congruence].
    rewrite lookup_seqZ. lia.
Qed.

(** ** Scaling down *)

(** The pilot of replica [i] as the lister reports it. *)
Definition pilotAt (s : State) (cluster : ElasticsearchCluster) (np : ElasticsearchClusterNodePool)
    (ss : StatefulSet) (i : Z) (p : Pilot) : Prop :=
  ∃ sel pilots,
    SelectorForNodePool (esc_Name cluster) (enp_Name np) = inr sel ∧
    lister_List (PilotLister s) (esc_Namespace cluster) sel = inr pilots ∧
    findPilot (pilotNameForStatefulSetReplica (ss_Name ss) i) pilots = Some p.

(** The pilot reports a document count, and the node holds no document. *)
Definition drained (p : Pilot) : Prop :=
  ∃ d, pst_Elasticsearch (pil_Status p) ≫= eps_Documents = Some d ∧ d ≤ 0.

#[export] Instance drained_dec p : Decision (drained p).
Proof.
  unfold drained. destruct (pst_Elasticsearch _ ≫= eps_Documents) as [d|].
  - destruct (decide (d ≤ 0)); [left; eauto|right; naive_solver].
  - right; naive_solver.
Defined.

(** A data pool may shrink from [cur] to [n] replicas: every current replica
    has its pilot, and every replica that goes away is drained. *)
Definition readyToScaleDown (s : State) (cluster : ElasticsearchCluster)
    (np : ElasticsearchClusterNodePool) (ss : StatefulSet) (n cur : Z) : Prop :=
  (∀ i, 0 ≤ i < cur → ∃ p, pilotAt s cluster np ss i p) ∧
  (∀ i p, n ≤ i < cur → pilotAt s cluster np ss i p → drained p).

Lemma pilotAt_fun s cluster np ss i p q :
  pilotAt s cluster np ss i p → pilotAt s cluster np ss i q → p = q.
Proof.
  intros (sel & pilots & Hs & Hl & Hp) (sel' & pilots' & Hs' & Hl' & Hp'). by res_eq.
Qed.

Lemma checkPilotDrained_spec cluster p w :
  ∃ w', did w [] w' ∧
    checkPilotDrained cluster p w = (Ret (if decide (drained p) then None else Some false), w') ∧
    (drained p → w' = w).
Proof.
  unfold checkPilotDrained.
  destruct (pst_Elasticsearch (pil_Status p) ≫= eps_Documents) as [d|] eqn:Ed.
  - case_bool_decide as Hd.
    + assert (¬ drained p) by (intros (d' & ? & ?); simplify_eq; lia).
      rewrite decide_False by done. eexists. split; [apply did_log_event|done].
    + rewrite decide_True by (exists d; split; [done|lia]).
      exists w. split; [apply did_refl|done].
  - assert (¬ drained p) by (intros (d' & ? & ?); by simplify_eq).
    rewrite decide_False by done. eexists. split; [apply did_log_event|done].
Qed.

Lemma checkDrained_spec cluster ps w :
  ∃ w', did w [] w' ∧
    checkDrained cluster ps w = (Ret (if decide (Forall drained ps) then None else Some false), w').
Proof.
  unfold checkDrained. induction ps as [|p ps IH].
  - exists w. split; [apply did_refl|done].
  - destruct (checkPilotDrained_spec cluster p w) as (w1 & Hdid & Hp & Hw).
    destruct (decide (drained p)) as [Hd|Hd].
    + rewrite (for_range_cons_None _ _ _ _ _ Hp), Hw by done.
      destruct IH as (w' & ? & ->). exists w'. split; [done|]. do 2 f_equal.
      apply decide_ext. rewrite Forall_cons. naive_solver.
    + rewrite (for_range_cons_Some _ _ _ _ _ _ Hp). exists w1. split; [done|].
      rewrite decide_False; [done|]. by intros [? _]%Forall_cons.
Qed.

Section scale_down.
Context (s : State) `{!LawfulLister pil_Meta (PilotLister s)}.
Context (cluster : ElasticsearchCluster) (np : ElasticsearchClusterNodePool) (ss : StatefulSet).
Context (Hns : ss_Namespace ss = esc_Namespace cluster).

(** Among the pilots of the set, the search by name and namespace finds the
    pilot of replica [i]. *)
Lemma find_replica cur out i :
  ss_Replicas ss = Some cur → pilotsForStatefulSet s cluster np ss = inr out → 0 ≤ i < cur →
  ∃ p, pilotAt s cluster np ss i p ∧
    List.find (λ p, bool_decide (pilotNameForStatefulSetReplica (ss_Name ss) i = pil_Name p)
      && bool_decide (ss_Namespace ss = pil_Namespace p)) out = Some p.
Proof.
  intros Hcur Hout Hi.
  apply pilotsForStatefulSet_spec in Hout as (cur' & sel & pilots & ? & Hsel & Hl & HF).
  simplify_eq. destruct (Forall2_lookup_l _ _ _ (Z.to_nat i) i HF) as (p & Hp & Hfp).
  { rewrite lookup_seqZ. lia. }
  exists p. split; [by exists sel, pilots|].
  destruct (findPilot_Some _ _ _ Hfp) as [Hin Hname].
  assert (bool_decide (pilotNameForStatefulSetReplica (ss_Name ss) i = pil_Name p)
    && bool_decide (ss_Namespace ss = pil_Namespace p) = true) as Hsat.
  { rewrite !bool_decide_eq_true_2; [done|..|done].
    unfold pil_Namespace. rewrite Hns. symmetry. by eapply list_sound. }
  destruct (List.find _ out) as [q|] eqn:Eq.
  - apply find_some in Eq as [Hq Hqsat]. apply andb_true_iff in Hqsat as [Hqn _].
    rewrite bool_decide_eq_true in Hqn. apply list_elem_of_In, list_elem_of_lookup in Hq as [j Hj].
    destruct (Forall2_lookup_r _ _ _ _ _ HF Hj) as (k & Hk & Hfq).
    apply lookup_seqZ in Hk as [Hk ?]. destruct (findPilot_Some _ _ _ Hfq) as [_ Hqn'].
    rewrite <-Hqn in Hqn'. apply pilotName_inj in Hqn' as [_ ->]; [|lia..].
    congruence.
  - eapply find_none in Eq; [by rewrite Hsat in Eq|]. apply list_elem_of_In.
    by eapply list_elem_of_lookup_2.
Qed.

Lemma pilotsBetween_spec cur out n p :
  ss_Replicas ss = Some cur → pilotsForStatefulSet s cluster np ss = inr out → 0 ≤ n →
  p ∈ pilotsBetween ss out n cur ↔ ∃ i, n ≤ i < cur ∧ pilotAt s cluster np ss i p.
Proof.
  intros Hcur Hout Hn. unfold pilotsBetween. rewrite list_elem_of_omap.
  setoid_rewrite elem_of_reverse. setoid_rewrite elem_of_seqZ. split.
  - intros (i & Hi & Hf). destruct (find_replica cur out i) as (q & Hq & Hf'); [done..|lia|].
    rewrite Hf in Hf'. simplify_eq. exists i. split; [lia|done].
  - intros (i & Hi & Hp). destruct (find_replica cur out i) as (q & Hq & Hf'); [done..|lia|].
    rewrite (pilotAt_fun _ _ _ _ _ _ _ Hp Hq). exists i. split; [lia|done].
Qed.

(** A shrinking data pool may scale exactly when it is ready. *)
Lemma canScale_data n cur w :
  ss_Replicas ss = Some cur → 0 ≤ n < cur → cur ≤ int32_max →
  ContainsElasticsearchRole (enp_roles np) ElasticsearchRoleData = true →
  ∃ r w', canScaleNodePool s cluster np ss (int32_sub n cur) w = (Ret r, w') ∧ did w [] w' ∧
    (r = inr true ↔ readyToScaleDown s cluster np ss n cur).
Proof.
  intros Hcur Hn Hmax Hdata. unfold canScaleNodePool.
  assert (int32_sub n cur = n - cur) as -> by (apply int32_sub_id; int32_lia).
  rewrite bool_decide_eq_false_2, Hdata by lia. simpl.
  destruct (pilotsForStatefulSet s cluster np ss) as [err|out] eqn:Eout.
  - assert (¬ readyToScaleDown s cluster np ss n cur) as Hnot.
    { intros [Hall _]. destruct (Hall 0) as (p & sel & pilots & Hsel & Hl & _); [lia|].
      enough (∃ out, pilotsForStatefulSet s cluster np ss = inr out) as [? ?] by congruence.
      assert (∃ out, Forall2 (λ i p,
        findPilot (pilotNameForStatefulSetReplica (ss_Name ss) i) pilots = Some p) (seqZ 0 cur) out)
        as [out Ho].
      { apply Forall_choose, Forall_forall. intros i Hi%elem_of_seqZ.
        destruct (Hall i) as (q & ? & ? & ? & ? & ?); [lia|]. res_eq. eauto. }
      exists out. apply pilotsForStatefulSet_spec. eauto 10. }
    destruct (IsNotFound (Some err)); do 2 eexists; (split; [done|]);
      (split; [eauto with navigator|]); split; done.
  - unfold determinePilotsToBeRemoved. rewrite bool_decide_eq_false_2, Hcur by lia.
    assert (int32_add cur (n - cur) = n) as -> by (rewrite int32_add_id; int32_lia).
    destruct (checkDrained_spec cluster (pilotsBetween ss out n cur) w) as (w' & Hdid & Hck).
    unfold mbind, gom_bind. rewrite Hck. do 2 eexists. split; [done|]. split; [done|].
    assert (Forall drained (pilotsBetween ss out n cur) ↔ readyToScaleDown s cluster np ss n cur)
      as <-.
    { rewrite Forall_forall. unfold readyToScaleDown. split.
      - intros H. split.
        + intros i Hi. destruct (find_replica cur out i) as (p & ? & _); eauto.
        + intros i p Hi Hp. apply H. apply pilotsBetween_spec; eauto. lia.
      - intros [_ H] p Hp. apply pilotsBetween_spec in Hp as (i & ? & ?); eauto. lia. }
    case_decide; simpl; naive_solver.
Qed.
End scale_down.

(** ** Scale.Execute *)

(** When a scale to [n] replicas goes ahead. *)
Definition scaleAllowed (s : State) (cluster : ElasticsearchCluster)
    (np : ElasticsearchClusterNodePool) (ss : StatefulSet) (n cur : Z) : Prop :=
  n ≠ cur ∧
  (cur < n ∨
   ContainsElasticsearchRole (enp_roles np) ElasticsearchRoleData = false ∨
   readyToScaleDown s cluster np ss n cur).

Lemma canScaleNodePool_spec s cluster np ss n cur w :
  LawfulLister pil_Meta (PilotLister s) → ss_Namespace ss = esc_Namespace cluster →
  ss_Replicas ss = Some cur → 0 ≤ n ≤ int32_max → 0 ≤ cur ≤ int32_max → n ≠ cur →
  ∃ r w', canScaleNodePool s cluster np ss (int32_sub n cur) w = (Ret r, w') ∧ did w [] w' ∧
    (r = inr true ↔ scaleAllowed s cluster np ss n cur).
Proof.
  intros Hl Hns Hcur Hn Hc Hne. unfold scaleAllowed.
  assert (int32_sub n cur = n - cur) as Hsub by (apply int32_sub_id; int32_lia).
  destruct (decide (cur < n)) as [Hup|Hup].
  { exists (inr true), w. unfold canScaleNodePool. rewrite Hsub, bool_decide_eq_true_2 by lia.
    split; [done|]. split; [apply did_refl|]. naive_solver. }
  destruct (ContainsElasticsearchRole (enp_roles np) ElasticsearchRoleData) eqn:Hdata.
  - destruct (canScale_data s cluster np ss Hns n cur w) as (r & w' & Hrun & Hdid & Hr);
      [done|lia|lia|done|]. exists r, w'. naive_solver.
  - exists (inr true), w. unfold canScaleNodePool. rewrite Hsub, bool_decide_eq_false_2, Hdata by lia.
    split; [done|]. split; [apply did_refl|]. naive_solver.
Qed.

Section execute.
Context (s : State).
Context `{!LawfulLister pil_Meta (PilotLister s), !LawfulLister ss_Meta (StatefulSetLister s)}.

(** C1. Scale.Execute writes the stateful set exactly when the scale is allowed: the size changes
    and either the pool grows, or it holds no data, or every replica has a pilot and every pilot
    to be removed reports zero documents; the only call is the update of the replica count to the
    wanted number. *)
Theorem scale_execute_exact cluster np ss n cur w :
  lister_Get (StatefulSetLister s) (esc_Namespace cluster) (NodePoolResourceName cluster np) = inr ss →
  ss_Replicas ss = Some cur → 0 ≤ n ≤ int32_max → 0 ≤ cur ≤ int32_max →
  ∃ r w' cs, Scale_Execute s (mkScale (Some cluster) (Some np) n) w = (Ret r, w') ∧ did w cs w' ∧
    ((scaleAllowed s cluster np ss n cur ∧
      cs = [UpdateStatefulSet (esc_Namespace cluster) (set_Replicas n ss)]) ∨
     (¬ scaleAllowed s cluster np ss n cur ∧ cs = [])).
Proof.
  intros Hget Hcur Hn Hc. unfold Scale_Execute. simpl. rewrite Hget, Hcur.
  destruct (get_sound _ _ _ Hget) as [Hns _]. fold (ss_Namespace ss) in Hns.
  destruct (decide (n = cur)) as [->|Hne].
  { assert (int32_sub cur cur = 0) as -> by (rewrite int32_sub_id; int32_lia).
    rewrite bool_decide_eq_true_2 by done. do 3 eexists. split; [done|]. split; [apply did_refl|].
    right. split; [|done]. by intros [? _]. }
  assert (int32_sub n cur ≠ 0) as Hdiff by (rewrite int32_sub_id; int32_lia).
  rewrite bool_decide_eq_false_2 by done.
  destruct (canScaleNodePool_spec s cluster np ss n cur w) as (r & w1 & Hrun & Hdid & Hr); try done.
  rewrite (gom_bind_ret _ _ _ _ _ Hrun).
  destruct r as [err|[]].
  - do 3 eexists. split; [done|]. split; [done|]. right. split; [|done]. intros ?%Hr. done.
  - change (ss_Namespace (set_Replicas n ss)) with (ss_Namespace ss). rewrite Hns.
    unfold mbind, gom_bind. simpl.
    destruct (Clientset _ _ _) as [err|]; simpl; do 3 eexists; (split; [done|]);
      (split; [eapply did_trans_nil; eauto with navigator|]); left; (split; [by apply Hr|done]).
  - do 3 eexists. split; [done|]. split; [done|]. right. split; [|done]. intros ?%Hr. done.
Qed.
End execute.

(** Two empty data nodes; the pool shrinks to one. *)
Definition demoDrained : State :=
  setsAndPilots [demoSet "data" "5.6.1" 2 2 2] [pilotOf "data" 0 7 version561; pilotOf "data" 1 0 version561].

Lemma scale_execute_exact_witness :
  let ss := demoSet "data" "5.6.1" 2 2 2 in
  ∃ r w' cs,
    Scale_Execute demoDrained (mkScale (Some demoCluster) (Some dataPool) 1) emptyWorld = (Ret r, w') ∧
    did emptyWorld cs w' ∧
    ((scaleAllowed demoDrained demoCluster dataPool ss 1 2 ∧
      cs = [UpdateStatefulSet "default" (set_Replicas 1 ss)]) ∨
     (¬ scaleAllowed demoDrained demoCluster dataPool ss 1 2 ∧ cs = [])).
Proof.
  apply (scale_execute_exact demoDrained (LawfulLister0 := listerOf_lawful _ _) (LawfulLister1 := listerOf_lawful _ _)
           demoCluster dataPool (demoSet "data" "5.6.1" 2 2 2) 1 2 emptyWorld);
    [vm_compute; reflexivity|reflexivity|unfold int32_max; lia|unfold int32_max; lia].
Defined.
