(* ===== verification/ESUpdateVersion.v ===== *)
(** * actions/update_version.go: rolling an Elasticsearch node pool to a new version

    [UpdateVersion.Execute] drives the rollout with the partition of the
    stateful set's rolling update and records the version in an annotation
    when every pilot reports it. *)

From S2P Require Import Prelude GoStrings Semver K8s Types Cluster Fixtures ESUtil ESScale.

Record UpdateVersion := mkUpdateVersion {
  uv_Cluster : option ElasticsearchCluster;
  uv_NodePool : option ElasticsearchClusterNodePool;
}.

Definition pilotVersionUpToDate (c : ElasticsearchClusterSpec) (p : PilotStatus) : bool :=
  match pst_Elasticsearch p with
  | None => false
  | Some es =>
      match eps_Version es with
      | None => false
      | Some v => Version_Equal v (es_Version c)
      end
  end.

Definition pilotsUpToDate (s : State) (cluster : ElasticsearchCluster)
    (np : ElasticsearchClusterNodePool) (ss : StatefulSet) : option Err :=
  match pilotsForStatefulSet s cluster np ss with
  | inl err => Some err
  | inr pilots =>
      match List.find (λ p, negb (pilotVersionUpToDate (esc_Spec cluster) (pil_Status p))) pilots with
      | Some p => Some (Errorf "Pilot %q is not up to date" [AStr (pil_Name p)])
      | None => None
      end
  end.

(** The partition of the rolling update, 0 when unset. *)
Definition currentPartition (ss : StatefulSet) : Z :=
  default 0 (sss_RollingUpdate (ss_Spec ss) ≫= ru_Partition).

Definition nextPartitionToUse (desiredReplicas updatedReplicas : Z) : Z :=
  let next := int32_sub (int32_sub desiredReplicas updatedReplicas) 1 in
  if bool_decide (next = -1) then 0 else next.

Definition setFirstImage (image : string) (cs : list Container) : list Container :=
  match cs with
  | [] => []
  | c :: cs' => set_Image image c :: cs'
  end.

(** The guard before the partition moves: the replica updated last must have
    finished.  [inl err] returns the error, [inr false] returns nil. *)
Definition lastPilotUpdated (s : State) (cluster : ElasticsearchCluster) (ss : StatefulSet)
    (desiredReplicas nextPartition : Z) : GoM World (Res bool) :=
  let lastReplicaUpdated := int32_add nextPartition 1 in
  if bool_decide (lastReplicaUpdated < desiredReplicas) then
    match lister_Get (PilotLister s) (esc_Namespace cluster)
            (pilotNameForStatefulSetReplica (ss_Name ss) lastReplicaUpdated) with
    | inl err => mret (inl err)
    | inr p =>
        if pilotVersionUpToDate (esc_Spec cluster) (pil_Status p) then mret (inr true)
        else
          eventf (esc_Meta cluster) EventTypeWarning "ErrUpdateVersion"
            "Pilot %q has not finished updating to version %q"
            [AStr (pil_Name p); AStr (Version_String (es_Version (esc_Spec cluster)))];;
          mret (inr false)
    end
  else mret (inr true).

(** The final update call and its event. *)
Definition performUpdate (s : State) (cluster : ElasticsearchCluster) (ssCopy : StatefulSet)
    (updateMsg : string) (args : list Arg) : GoM World (option Err) :=
  err ← api_call s (UpdateStatefulSet (ss_Namespace ssCopy) ssCopy);
  match err with
  | Some e => mret (Some e)
  | None => eventf (esc_Meta cluster) EventTypeNormal "UpdateVersion" updateMsg args;; mret None
  end.

(** The switch of Execute, once every guard has passed. *)
Definition updateSwitch (s : State) (cluster : ElasticsearchCluster)
    (np : ElasticsearchClusterNodePool) (ss : StatefulSet) (annotations : smap)
    (newImage existingImage : string) (desiredReplicas nextPartition : Z)
    : GoM World (option Err) :=
  let version := Version_String (es_Version (esc_Spec cluster)) in
  match pilotsUpToDate s cluster np ss with
  | None =>
      performUpdate s cluster (set_Annotation ElasticsearchNodePoolVersionAnnotation version annotations ss)
        "Updated node pool %q to version %q" [AStr (enp_Name np); AStr version]
  | Some _ =>
      if negb (bool_decide (currentPartition ss = nextPartition))
         || negb (bool_decide (existingImage = newImage)) then
        go ← lastPilotUpdated s cluster ss desiredReplicas nextPartition;
        match go with
        | inl err => mret (Some err)
        | inr false => mret None
        | inr true =>
            let ssCopy := set_Containers (setFirstImage newImage (ss_Containers ss))
                            (set_Partition nextPartition ss) in
            performUpdate s cluster ssCopy "Updating replica %s to version %s"
              [AStr (pilotNameForStatefulSetReplica (ss_Name ss) nextPartition); AStr version]
        end
      else mret None
  end.

Definition UpdateVersion_Execute (s : State) (a : UpdateVersion) : GoM World (option Err) :=
  match uv_Cluster a, uv_NodePool a with
  | Some cluster, Some np =>
      let warn fmt args := eventf (esc_Meta cluster) EventTypeWarning "ErrUpdateVersion" fmt args in
      match lister_Get (StatefulSetLister s) (esc_Namespace cluster) (NodePoolResourceName cluster np) with
      | inl err => mret (Some err)
      | inr ss =>
          match est_Health (esc_Status cluster) with
          | None =>
              mret (Some (Errorf "Could not determine current health of Elasticsearch cluster" []))
          | Some health =>
              if bool_decide (health = ElasticsearchClusterHealthRed) then
                warn "Cluster is in a red state, refusing to upgrade node pool %q" [AStr (enp_Name np)];;
                mret None
              else
                match om_Annotations (ss_Meta ss) ≫= λ an,
                        (λ v, (an, v)) <$> an !! ElasticsearchNodePoolVersionAnnotation with
                | None =>
                    warn "StatefulSet %q does not have an Elasticsearch version annotation"
                      [AStr (ss_Name ss)];;
                    mret None
                | Some (annotations, currentVersionStr) =>
                    match NewVersion currentVersionStr with
                    | None =>
                        warn "Invalid version string %q on statefulset %q: %v"
                          [AStr currentVersionStr; AStr (ss_Name ss)];;
                        mret None
                    | Some currentVersion =>
                        if Version_Equal (es_Version (esc_Spec cluster)) currentVersion then mret None
                        else
                          match esImageToUse (esc_Spec cluster) with
                          | inl err =>
                              warn "Cannot determine Elasticsearch image to use for cluster: %v" [AErr err];;
                              mret None
                          | inr newImageSpec =>
                              desiredReplicas ← deref (ss_Replicas ss);
                              let updatedReplicas := sst_UpdatedReplicas (ss_Status ss) in
                              let nextPartition := nextPartitionToUse desiredReplicas updatedReplicas in
                              if negb (bool_decide (desiredReplicas = sst_ReadyReplicas (ss_Status ss)))
                              then mret None
                              else
                                match ss_Containers ss with
                                | [] =>
                                    warn "No containers specified on statefulset %q pod template"
                                      [AStr (ss_Name ss)];;
                                    mret None
                                | c0 :: _ =>
                                    updateSwitch s cluster np ss annotations
                                      (img_Repository newImageSpec +:+ ":" +:+ img_Tag newImageSpec)
                                      (ct_Image c0) desiredReplicas nextPartition
                                end
                          end
                    end
                end
          end
      end
  | _, _ => mret (Some (Errorf "internal error: nodepool and cluster must be set" []))
  end.

(** ** Partition arithmetic *)

Lemma nextPartitionToUse_spec d u :
  0 ≤ u ≤ d → d ≤ int32_max → nextPartitionToUse d u = Z.max (d - u - 1) 0.
Proof.
  intros Hu Hd. unfold nextPartitionToUse.
  rewrite (int32_sub_id d u) by int32_lia. rewrite int32_sub_id by int32_lia.
  case_bool_decide; lia.
Qed.

(** ** Which pilots have finished *)

Lemma pilotsUpToDate_None s cluster np ss d :
  ss_Replicas ss = Some d →
  pilotsUpToDate s cluster np ss = None →
  ∀ i, 0 ≤ i < d → ∃ p, pilotAt s cluster np ss i p ∧
    pilotVersionUpToDate (esc_Spec cluster) (pil_Status p) = true.
Proof.
  intros Hd Hup i Hi. unfold pilotsUpToDate in Hup.
  destruct (pilotsForStatefulSet s cluster np ss) as [|out] eqn:Eout; [done|].
  destruct (List.find _ out) eqn:Ef; [done|].
  apply pilotsForStatefulSet_spec in Eout as (d' & sel & pilots & ? & Hsel & Hl & HF). simplify_eq.
  destruct (Forall2_lookup_l _ _ _ (Z.to_nat i) i HF) as (p & Hp & Hfp); [rewrite lookup_seqZ; lia|].
  exists p. split; [by exists sel, pilots|].
  eapply find_none in Ef; [|by apply list_elem_of_In; eapply list_elem_of_lookup_2].
  by destruct (pilotVersionUpToDate _ _).
Qed.

(** ** What a run of the action may do *)

(** The rollout is complete: only the version annotation changes, and every
    replica's pilot reports the wanted version. *)
Definition completesRollout (s : State) (cluster : ElasticsearchCluster)
    (np : ElasticsearchClusterNodePool) (ss : StatefulSet) (d : Z) (cs : list APICall) : Prop :=
  (∃ an, om_Annotations (ss_Meta ss) = Some an ∧
    cs = [UpdateStatefulSet (ss_Namespace ss)
            (set_Annotation ElasticsearchNodePoolVersionAnnotation
              (Version_String (es_Version (esc_Spec cluster))) an ss)]) ∧
  ∀ i, 0 ≤ i < d → ∃ p, pilotAt s cluster np ss i p ∧
    pilotVersionUpToDate (esc_Spec cluster) (pil_Status p) = true.

(** The rollout advances to partition [next]: image and partition change, and
    the replica above the partition, if there is one, reports the version. *)
Definition advancesRollout (s : State) (cluster : ElasticsearchCluster) (ss : StatefulSet)
    (d next : Z) (cs : list APICall) : Prop :=
  (∃ image, cs = [UpdateStatefulSet (ss_Namespace ss)
     (set_Containers (setFirstImage image (ss_Containers ss)) (set_Partition next ss))]) ∧
  (int32_add next 1 < d → ∃ p,
     lister_Get (PilotLister s) (esc_Namespace cluster)
       (pilotNameForStatefulSetReplica (ss_Name ss) (int32_add next 1)) = inr p ∧
     pilotVersionUpToDate (esc_Spec cluster) (pil_Status p) = true).

Lemma performUpdate_spec s cluster ss msg args w :
  ∃ r w', performUpdate s cluster ss msg args w = (Ret r, w') ∧
    did w [UpdateStatefulSet (ss_Namespace ss) ss] w'.
Proof.
  unfold performUpdate, mbind, gom_bind. simpl.
  destruct (Clientset _ _ _); do 2 eexists; (split; [done|]); eauto with navigator.
Qed.

Lemma lastPilotUpdated_spec s cluster ss d next w :
  ∃ r w', lastPilotUpdated s cluster ss d next w = (Ret r, w') ∧ did w [] w' ∧
    (r = inr true → int32_add next 1 < d → ∃ p,
       lister_Get (PilotLister s) (esc_Namespace cluster)
         (pilotNameForStatefulSetReplica (ss_Name ss) (int32_add next 1)) = inr p ∧
       pilotVersionUpToDate (esc_Spec cluster) (pil_Status p) = true).
Proof.
  unfold lastPilotUpdated. case_bool_decide.
  - destruct (lister_Get _ _ _) as [err|p]; [|destruct (pilotVersionUpToDate _ _) eqn:Hp];
      do 2 eexists; (split; [done|]); (split; [eauto with navigator|]); naive_solver.
  - do 2 eexists. split; [done|]. split; [apply did_refl|done].
Qed.

Lemma updateSwitch_spec s cluster np ss an image existing d next w :
  om_Annotations (ss_Meta ss) = Some an → ss_Replicas ss = Some d →
  ∃ r w' cs, updateSwitch s cluster np ss an image existing d next w = (Ret r, w') ∧ did w cs w' ∧
    (cs = [] ∨ completesRollout s cluster np ss d cs ∨ advancesRollout s cluster ss d next cs).
Proof.
  intros Han Hd. unfold updateSwitch. destruct (pilotsUpToDate s cluster np ss) as [e|] eqn:Eup.
  - destruct (_ || _); [|by do 3 eexists; eauto with navigator].
    destruct (lastPilotUpdated_spec s cluster ss d next w) as (r & w1 & Hrun & Hdid & Hlast).
    rewrite (gom_bind_ret _ _ _ _ _ Hrun).
    destruct r as [err|[]]; [by do 3 eexists; eauto| |by do 3 eexists; eauto].
    edestruct performUpdate_spec as (r & w2 & Hrun2 & Hdid2). rewrite Hrun2.
    do 3 eexists. split; [done|]. split; [by eapply did_trans_nil|].
    right; right. split; [by eexists|by apply Hlast].
  - edestruct performUpdate_spec as (r & w2 & Hrun2 & Hdid2). rewrite Hrun2.
    do 3 eexists. split; [done|]. split; [done|]. right; left.
    split; [by exists an|]. by apply pilotsUpToDate_None.
Qed.

(** A run of the action: the guards under which it touches the stateful set. *)
Definition rolloutGuards (s : State) (cluster : ElasticsearchCluster)
    (np : ElasticsearchClusterNodePool) (ss : StatefulSet) (d : Z) : Prop :=
  lister_Get (StatefulSetLister s) (esc_Namespace cluster) (NodePoolResourceName cluster np) = inr ss ∧
  (∃ health, est_Health (esc_Status cluster) = Some health ∧ health ≠ ElasticsearchClusterHealthRed) ∧
  ss_Replicas ss = Some d ∧
  sst_ReadyReplicas (ss_Status ss) = d.

(** C2. UpdateVersion.Execute touches the stateful set only when the cluster is not red and every
    replica is ready, and then with one update: either it records the version after every pilot
    reports it, or it moves the partition so that at most one more replica than those already
    updated is released, after the replica updated last reports the version. *)
Theorem update_version_safe s cluster np w :
  (∀ ss, lister_Get (StatefulSetLister s) (esc_Namespace cluster)
           (NodePoolResourceName cluster np) = inr ss → is_Some (ss_Replicas ss)) →
  ∃ r w' cs,
    UpdateVersion_Execute s (mkUpdateVersion (Some cluster) (Some np)) w = (Ret r, w') ∧ did w cs w' ∧
    (cs = [] ∨
     ∃ ss d, rolloutGuards s cluster np ss d ∧
       (completesRollout s cluster np ss d cs ∨
        ∃ next, advancesRollout s cluster ss d next cs ∧
          let u := sst_UpdatedReplicas (ss_Status ss) in
          (0 ≤ u ≤ d → d ≤ int32_max → d - next = if bool_decide (d = 0) then 0 else Z.min (u + 1) d))).
Proof.
  intros Hset. unfold UpdateVersion_Execute. simpl.
  destruct (lister_Get _ _ _) as [err|ss] eqn:Eget; [by do 3 eexists; eauto with navigator|].
  destruct (Hset ss eq_refl) as [d Hd].
  destruct (est_Health _) as [health|] eqn:Eh; [|by do 3 eexists; eauto with navigator].
  case_bool_decide as Hred; [by do 3 eexists; eauto with navigator|].
  destruct (om_Annotations (ss_Meta ss)) as [an|] eqn:Ean; [|by do 3 eexists; eauto with navigator].
  simpl. destruct (an !! _) as [cur|]; simpl; [|by do 3 eexists; eauto with navigator].
  destruct (NewVersion cur) as [v|]; [|by do 3 eexists; eauto with navigator].
  destruct (Version_Equal _ _); [by do 3 eexists; eauto with navigator|].
  destruct (esImageToUse _) as [err|img]; [by do 3 eexists; eauto with navigator|].
  rewrite Hd. unfold deref, lift, mbind, gom_bind. simpl.
  case_bool_decide as Hready; simpl; [|by do 3 eexists; eauto with navigator].
  destruct (ss_Containers ss) as [|c0 rest] eqn:Ect; [by do 3 eexists; eauto with navigator|].
  edestruct updateSwitch_spec as (r & w' & cs & Hrun & Hdid & Hcs); [exact Ean|exact Hd|].
  rewrite Hrun. do 3 eexists. split; [done|]. split; [done|].
  destruct Hcs as [Hcs|Hcs]; [by left|]. right. exists ss, d.
  split; [unfold rolloutGuards; rewrite Hd; eauto 10|].
  destruct Hcs as [Hcs|Hcs]; [by left|]. right. eexists. split; [done|].
  intros Hu Hmax. rewrite nextPartitionToUse_spec by done. case_bool_decide; lia.
Qed.

(** A data pool at 5.6.1 whose cluster asks for 5.6.2: no replica is updated yet. *)
Definition updatingSet : StatefulSet := demoSet "data" "5.6.1" 2 2 0.
Definition updatingCluster : ElasticsearchCluster := demoClusterAt version562 false [dataPool].
Definition updatingState : State :=
  setsAndPilots [updatingSet] [pilotOf "data" 0 7 version561; pilotOf "data" 1 0 version561].

Lemma update_version_safe_witness :
  ∃ r w' cs,
    UpdateVersion_Execute updatingState (mkUpdateVersion (Some updatingCluster) (Some dataPool)) emptyWorld
      = (Ret r, w') ∧ did emptyWorld cs w' ∧
    (cs = [] ∨
     ∃ ss d, rolloutGuards updatingState updatingCluster dataPool ss d ∧
       (completesRollout updatingState updatingCluster dataPool ss d cs ∨
        ∃ next, advancesRollout updatingState updatingCluster ss d next cs ∧
          let u := sst_UpdatedReplicas (ss_Status ss) in
          (0 ≤ u ≤ d → d ≤ int32_max → d - next = if bool_decide (d = 0) then 0 else Z.min (u + 1) d))).
Proof.
  apply (update_version_safe updatingState updatingCluster dataPool emptyWorld).
  intros ss Hget. assert (lister_Get (StatefulSetLister updatingState) (esc_Namespace updatingCluster)
    (NodePoolResourceName updatingCluster dataPool) = inr updatingSet) as Hset by get_listed updatingSet.
  rewrite Hset in Hget. injection Hget as <-. by eexists.
Defined.

(** The first step of that rollout: partition 1, the new image. *)
Example update_version_first_step :
  calls (w_log (snd (UpdateVersion_Execute updatingState
    (mkUpdateVersion (Some updatingCluster) (Some dataPool)) emptyWorld))) =
  [UpdateStatefulSet "default"
     (set_Containers
        (setFirstImage "docker.elastic.co/elasticsearch/elasticsearch:5.6.2" (ss_Containers updatingSet))
        (set_Partition 1 updatingSet))].
Proof. vm_compute. reflexivity. Qed.
