(* ===== verification/ESControl.v ===== *)
(** * pkg/controllers/elasticsearch: the cluster control loop

    The sub-controls (serviceaccount, service, role, rolebinding, configmap),
    the choice of the next action, the clean-up of stale node pools, the
    status update and [Sync], from cluster_control.go and the controller.go
    files of the sub-packages. *)

From S2P Require Import Prelude GoStrings Semver K8s Types Cluster ESUtil ESResources ESScale ESUpdateVersion.

(** ** serviceaccount/controller.go *)

Definition serviceAccountControl_Sync (s : State) (c : ElasticsearchCluster) : GoM World (option Err) :=
  match SelectorForCluster (esc_Name c) with
  | inl err =>
      mret (Some (Errorf "error creating label selector for cluster '%s': %s" [AStr (esc_Name c); AErr err]))
  | inr sel =>
      match lister_List (ServiceAccountLister s) (esc_Namespace c) sel with
      | inl err => mret (Some err)
      | inr svcAccts =>
          match svcAccts with
          | [] => api_call s (CreateServiceAccount (esc_Namespace c) (clusterServiceAccount c))
          | [_] => mret None
          | _ => mret (Some (Errorf "multiple service accounts match label selector (%s)" []))
          end
      end
  end.

(** ** service/controller.go *)

Definition ensureService (s : State) (svc : Service) : GoM World (option Err) :=
  match lister_Get (ServiceLister s) (om_Namespace (svc_Meta svc)) (om_Name (svc_Meta svc)) with
  | inr _ => mret None
  | inl err =>
      if IsNotFound (Some err) then api_call s (CreateService (om_Namespace (svc_Meta svc)) svc)
      else mret (Some err)
  end.

Definition serviceControl_Sync (s : State) (c : ElasticsearchCluster) : GoM World (option Err) :=
  err ← ensureService s (discoveryService c);
  match err with
  | Some e => mret (Some (Errorf "error ensuring discovery service: %s" [AErr e]))
  | None =>
      err ← ensureService s (clientService c);
      match err with
      | Some e => mret (Some (Errorf "error ensuring client service: %s" [AErr e]))
      | None => mret None
      end
  end.

(** ** role/controller.go and rolebinding/controller.go *)

Definition ownerCheck (obj : ObjectMeta) (cluster : ElasticsearchCluster) : option Err :=
  if negb (IsControlledBy obj (esc_Meta cluster)) then
    Some (Errorf "foreign owned Role: A Role with name '%s/%s' already exists, but it is controlled by '%v', not '%s/%s'"
      [AStr (om_Namespace obj); AStr (om_Name obj); AStr (esc_Namespace cluster); AStr (esc_Name cluster)])
  else None.

Definition roleControl_Sync (s : State) (c : ElasticsearchCluster) : GoM World (option Err) :=
  let desiredRole := roleForCluster c in
  let ns := om_Namespace (role_Meta desiredRole) in
  match lister_Get (RoleLister s) ns (om_Name (role_Meta desiredRole)) with
  | inl err =>
      if IsNotFound (Some err) then api_call s (CreateRole ns desiredRole) else mret (Some err)
  | inr existingRole =>
      match ownerCheck (role_Meta existingRole) c with
      | Some e => mret (Some e)
      | None =>
          if negb (bool_decide (role_Rules desiredRole = role_Rules existingRole))
          then api_call s (UpdateRole ns desiredRole)
          else mret None
      end
  end.

Definition roleBindingControl_Sync (s : State) (c : ElasticsearchCluster) : GoM World (option Err) :=
  let desired := roleBindingForCluster c in
  let ns := om_Namespace (rb_Meta desired) in
  match lister_Get (RoleBindingLister s) ns (om_Name (rb_Meta desired)) with
  | inl err =>
      if IsNotFound (Some err) then api_call s (CreateRoleBinding ns desired) else mret (Some err)
  | inr existing =>
      match ownerCheck (rb_Meta existing) c with
      | Some e => mret (Some e)
      | None =>
          if negb (bool_decide (rb_RoleRef desired = rb_RoleRef existing))
             || negb (bool_decide (rb_Subjects desired = rb_Subjects existing))
          then api_call s (UpdateRoleBinding ns desired)
          else mret None
      end
  end.

(** ** configmap/controller.go *)

Definition ensureConfigMap (s : State) (cm : ConfigMap) : GoM World (option Err) :=
  match lister_Get (ConfigMapLister s) (om_Namespace (cm_Meta cm)) (om_Name (cm_Meta cm)) with
  | inr _ => mret None
  | inl err =>
      if IsNotFound (Some err) then api_call s (CreateConfigMap (om_Namespace (cm_Meta cm)) cm)
      else mret (Some err)
  end.

Definition configMapControl_Sync (s : State) (c : ElasticsearchCluster) : GoM World (option Err) :=
  for_range (es_NodePools (esc_Spec c)) (λ np,
    cm ← lift (esConfigConfigMap c np);
    err ← ensureConfigMap s cm;
    match err with
    | Some e => mret (Some (Errorf "error ensuring %q/%q nodepool configmap: %s"
                              [AStr (esc_Name c); AStr (enp_Name np); AErr e]))
    | None => mret None
    end).

(** ** Actions *)

Inductive Action :=
| ActCreateNodePool (cluster : ElasticsearchCluster) (np : ElasticsearchClusterNodePool)
| ActUpdateVersion (a : UpdateVersion)
| ActScale (a : Scale).

Definition Action_Name (a : Action) : string :=
  match a with
  | ActCreateNodePool _ _ => "CreateNodePool"
  | ActUpdateVersion _ => "UpdateVersion"
  | ActScale _ => "Scale"
  end.

Definition CreateNodePool_Execute (s : State) (c : ElasticsearchCluster)
    (np : ElasticsearchClusterNodePool) : GoM World (option Err) :=
  match nodePoolStatefulSet c np with
  | inl err => mret (Some err)
  | inr toCreate =>
      err ← api_call s (CreateStatefulSet (ss_Namespace toCreate) toCreate);
      match err with
      | Some e => mret (Some e)
      | None =>
          eventf (esc_Meta c) EventTypeNormal "CreateNodePool" "Created node pool %q" [AStr (enp_Name np)];;
          mret None
      end
  end.

Definition Action_Execute (s : State) (a : Action) : GoM World (option Err) :=
  match a with
  | ActCreateNodePool c np => CreateNodePool_Execute s c np
  | ActUpdateVersion uv => UpdateVersion_Execute s uv
  | ActScale sc => Scale_Execute s sc
  end.

Definition nextActionForNodePool (s : State) (c : ElasticsearchCluster)
    (np : ElasticsearchClusterNodePool) : outcome (Res (option Action)) :=
  match lister_Get (StatefulSetLister s) (esc_Namespace c) (NodePoolResourceName c np) with
  | inl err =>
      if IsNotFound (Some err) then Ret (inr (Some (ActCreateNodePool c np)))
      else Ret (inl err)
  | inr statefulSet =>
      match map_get (om_Annotations (ss_Meta statefulSet)) ElasticsearchNodePoolVersionAnnotation with
      | None =>
          Ret (inl (Errorf "cannot determine existing Elasticsearch version of statefulset %q"
                      [AStr (ss_Name statefulSet)]))
      | Some currentVersionStr =>
          if negb (bool_decide (Version_String (es_Version (esc_Spec c)) = currentVersionStr))
          then Ret (inr (Some (ActUpdateVersion (mkUpdateVersion (Some c) (Some np)))))
          else
            match ss_Replicas statefulSet with
            | None => Ret (inl (Errorf "current number of replicas on statefulset cannot be nil" []))
            | Some currentDesiredReplicas =>
                n ← deref_pure (enp_Replicas np);
                if negb (bool_decide (currentDesiredReplicas = n))
                then Ret (inr (Some (ActScale (mkScale (Some c) (Some np) n))))
                else Ret (inr None)
            end
      end
  end.

Fixpoint nextActionLoop (s : State) (c : ElasticsearchCluster)
    (pools : list ElasticsearchClusterNodePool) : outcome (Res (option Action)) :=
  match pools with
  | [] => Ret (inr None)
  | np :: rest =>
      r ← nextActionForNodePool s c np;
      match r with
      | inl err => Ret (inl err)
      | inr (Some action) => Ret (inr (Some action))
      | inr None => nextActionLoop s c rest
      end
  end.

Definition nextAction (s : State) (c : ElasticsearchCluster) : outcome (Res (option Action)) :=
  nextActionLoop s c (es_NodePools (esc_Spec c)).

(** ** Stale node pools *)

Definition labelledForPool (poolName : string) (ss : StatefulSet) : bool :=
  match om_Labels (ss_Meta ss) with
  | None => false
  | Some ls => bool_decide (map_get0 (Some ls) ElasticsearchNodePoolNameLabel = poolName)
  end.

(** The inner loop: drop the first set labelled for the pool, then break. *)
Fixpoint dropFirst (poolName : string) (sets : list StatefulSet) : list StatefulSet :=
  match sets with
  | [] => []
  | ss :: rest => if labelledForPool poolName ss then rest else ss :: dropFirst poolName rest
  end.

Definition staleSets (pools : list ElasticsearchClusterNodePool) (sets : list StatefulSet)
    : list StatefulSet :=
  foldl (λ sets np, dropFirst (enp_Name np) sets) sets pools.

Definition deleteIfControlled (s : State) (c : ElasticsearchCluster) (ss : StatefulSet)
    : GoM World (option Err) :=
  if negb (IsControlledBy (ss_Meta ss) (esc_Meta c)) then mret None
  else api_call s (DeleteStatefulSet (ss_Namespace ss) (ss_Name ss)).

Definition reconcileNodePools (s : State) (c : ElasticsearchCluster) : GoM World (option Err) :=
  match SelectorForCluster (esc_Name c) with
  | inl err =>
      mret (Some (Errorf "error creating label selector for cluster '%s': %s" [AStr (esc_Name c); AErr err]))
  | inr sel =>
      match lister_List (StatefulSetLister s) (esc_Namespace c) sel with
      | inl err => mret (Some err)
      | inr sets => for_range (staleSets (es_NodePools (esc_Spec c)) sets) (deleteIfControlled s c)
      end
  end.

(** ** Status *)

Definition set_est_Conditions (conds : list ClusterCondition) (st : ElasticsearchClusterStatus)
    : ElasticsearchClusterStatus :=
  mkElasticsearchClusterStatus (mkNavigatorClusterStatus conds) (est_NodePools st) (est_Health st).

Definition set_est_NodePools (nps : option (gmap string ElasticsearchClusterNodePoolStatus))
    (st : ElasticsearchClusterStatus) : ElasticsearchClusterStatus :=
  mkElasticsearchClusterStatus (est_Conditions st) nps (est_Health st).

Definition syncPausedConditions (now : Z) (c : ElasticsearchCluster) : ElasticsearchCluster :=
  mkElasticsearchCluster (esc_Meta c) (esc_Spec c)
    (set_est_Conditions
      (pausedConditions now (cfg_Paused (es_Config (esc_Spec c)))
         (ncs_Conditions (est_Conditions (esc_Status c))))
      (esc_Status c)).

(** The loop of updateClusterStatus over the status map; an error other than
    NotFound stops it with the map as it is. *)
Fixpoint updatePoolStatuses (s : State) (c : ElasticsearchCluster)
    (pools : list ElasticsearchClusterNodePool) (m : gmap string ElasticsearchClusterNodePoolStatus)
    : gmap string ElasticsearchClusterNodePoolStatus * option Err :=
  match pools with
  | [] => (m, None)
  | pool :: rest =>
      match lister_Get (StatefulSetLister s) (esc_Namespace c) (NodePoolResourceName c pool) with
      | inl err => if IsNotFound (Some err) then updatePoolStatuses s c rest m else (m, Some err)
      | inr ss =>
          updatePoolStatuses s c rest
            (<[enp_Name pool :=
                 mkElasticsearchClusterNodePoolStatus (sst_ReadyReplicas (ss_Status ss))]> m)
      end
  end.

(** updateClusterStatus: the map behind c.Status.NodePools afterwards (a nil
    field is given a new map first) and the error. *)
Definition updateClusterStatus (s : State) (c : ElasticsearchCluster)
    : gmap string ElasticsearchClusterNodePoolStatus * option Err :=
  updatePoolStatuses s c (es_NodePools (esc_Spec c)) (default ∅ (est_NodePools (esc_Status c))).

(** ** Sync *)

Definition errEvent (c : ElasticsearchCluster) (reason format : string) (e : Err) : GoM World () :=
  eventf (esc_Meta c) EventTypeWarning reason format [AErr e].

(** One step of Sync: run a sub-control, on error record the event and
    return the error. *)
Definition syncStep (c : ElasticsearchCluster) (format : string) (m : GoM World (option Err))
    (k : GoM World (option Err)) : GoM World (option Err) :=
  err ← m;
  match err with
  | Some e => errEvent c "ErrSync" format e;; mret (Some e)
  | None => k
  end.

(** The part of Sync after the node pools' resources exist. *)
Definition syncNodePools (s : State) (c : ElasticsearchCluster) : GoM World (option Err) :=
  next ← lift (nextAction s c);
  match next with
  | inl e => errEvent c "ErrSync" "Error syncing node pools: %s" e;; mret (Some e)
  | inr None => reconcileNodePools s c
  | inr (Some a) =>
      err ← Action_Execute s a;
      match err with
      | Some e => errEvent c ("Err" +:+ Action_Name a) "Error syncing node pools: %s" e;; mret (Some e)
      | None => mret None
      end
  end.

(** The body of Sync: the error value of the return statement reached. *)
Definition syncBody (s : State) (c : ElasticsearchCluster) : GoM World (option Err) :=
  syncStep c "Error syncing service account: %s" (serviceAccountControl_Sync s c)
  (syncStep c "Error syncing service: %s" (serviceControl_Sync s c)
  (syncStep c "Error syncing RBAC roles: %s" (roleControl_Sync s c)
  (syncStep c "Error syncing RBAC role bindings: %s" (roleBindingControl_Sync s c)
  (syncStep c "Error syncing config map: %s" (configMapControl_Sync s c)
  (syncNodePools s c))))).

(** The status a return statement has already copied when the deferred
    updateClusterStatus runs: the copy shares the NodePools map, if there is
    one, and keeps a nil map nil. *)
Definition returnedStatus (atReturn : ElasticsearchClusterStatus)
    (final : gmap string ElasticsearchClusterNodePoolStatus) : ElasticsearchClusterStatus :=
  set_est_NodePools (match est_NodePools atReturn with None => None | Some _ => Some final end) atReturn.

(** The results of Sync are unnamed, so the error computed by the deferred
    function is not returned. *)
Definition Sync (s : State) (c : ElasticsearchCluster)
    : GoM World (ElasticsearchClusterStatus * option Err) :=
  let c := syncPausedConditions (Now s) c in
  if cfg_Paused (es_Config (esc_Spec c)) then mret (esc_Status c, None)
  else
    err ← syncBody s c;
    mret (returnedStatus (esc_Status c) (fst (updateClusterStatus s c)), err).
