(* ===== verification/ESControlFacts.v ===== *)
(** * Correctness of the Elasticsearch control loop *)

From S2P Require Import Prelude GoStrings Semver K8s Types Cluster Fixtures ESUtil ESResources ESScale ESUpdateVersion ESControl.

(** ** Convergence of a node pool *)

(** The stateful set of a pool is as the specification asks. *)
Definition matchesPool (c : ElasticsearchCluster) (np : ElasticsearchClusterNodePool)
    (ss : StatefulSet) : Prop :=
  map_get (om_Annotations (ss_Meta ss)) ElasticsearchNodePoolVersionAnnotation =
    Some (Version_String (es_Version (esc_Spec c))) ∧
  is_Some (enp_Replicas np) ∧ ss_Replicas ss = enp_Replicas np.

Definition poolConverged (s : State) (c : ElasticsearchCluster)
    (np : ElasticsearchClusterNodePool) : Prop :=
  ∃ ss, lister_Get (StatefulSetLister s) (esc_Namespace c) (NodePoolResourceName c np) = inr ss ∧
    matchesPool c np ss.

Lemma nextActionForNodePool_None s c np :
  nextActionForNodePool s c np = Ret (inr None) ↔ poolConverged s c np.
Proof.
  unfold nextActionForNodePool, poolConverged, matchesPool. split.
  - intros H. destruct (lister_Get _ _ _) as [err|ss]; [by destruct (IsNotFound _)|].
    exists ss. split; [done|].
    destruct (map_get _ _) as [cur|]; [|done]. case_bool_decide; simpl in H; [subst|done].
    destruct (ss_Replicas ss) as [cur|]; [|done]. destruct (enp_Replicas np) as [n|]; [|done].
    unfold mbind, outcome_bind in H. simpl in H. case_bool_decide; [subst|done]. eauto.
  - intros (ss & Hget & Han & [n Hn] & Hrep). rewrite Hget, Han, Hrep, Hn.
    rewrite bool_decide_eq_true_2 by done. simpl. unfold mbind, outcome_bind. simpl.
    by rewrite bool_decide_eq_true_2.
Qed.

Lemma nextActionLoop_None s c pools :
  nextActionLoop s c pools = Ret (inr None) ↔ Forall (poolConverged s c) pools.
Proof.
  induction pools as [|np pools IH]; simpl; [split; auto|].
  rewrite Forall_cons, <-IH, <-nextActionForNodePool_None.
  unfold mbind, outcome_bind.
  destruct (nextActionForNodePool s c np) as [[err|[a|]]|]; naive_solver.
Qed.

(** The action that a pool needs. *)
Definition actionFor (c : ElasticsearchCluster) (np : ElasticsearchClusterNodePool) (a : Action) : Prop :=
  a = ActCreateNodePool c np ∨ a = ActUpdateVersion (mkUpdateVersion (Some c) (Some np)) ∨
  ∃ n, enp_Replicas np = Some n ∧ a = ActScale (mkScale (Some c) (Some np) n).

Lemma nextActionForNodePool_Scale s c np sc :
  nextActionForNodePool s c np = Ret (inr (Some (ActScale sc))) →
  ∃ ss n, lister_Get (StatefulSetLister s) (esc_Namespace c) (NodePoolResourceName c np) = inr ss ∧
    map_get (om_Annotations (ss_Meta ss)) ElasticsearchNodePoolVersionAnnotation =
      Some (Version_String (es_Version (esc_Spec c))) ∧
    enp_Replicas np = Some n ∧ sc = mkScale (Some c) (Some np) n.
Proof.
  unfold nextActionForNodePool. intros H.
  destruct (lister_Get _ _ _) as [err|ss]; [destruct (IsNotFound _); naive_solver|].
  destruct (map_get _ _) eqn:Ean; [|done]. case_bool_decide; simpl in H; [subst|done].
  destruct (ss_Replicas ss); [|done]. destruct (enp_Replicas np) as [n|]; [|done].
  unfold mbind, outcome_bind in H. simpl in H. case_bool_decide; naive_solver.
Qed.

Lemma nextActionForNodePool_Some s c np a :
  nextActionForNodePool s c np = Ret (inr (Some a)) → actionFor c np a.
Proof.
  unfold nextActionForNodePool, actionFor. intros H.
  destruct (lister_Get _ _ _) as [err|ss]; [destruct (IsNotFound _); naive_solver|].
  destruct (map_get _ _); [|done]. case_bool_decide; simpl in H; [|naive_solver].
  destruct (ss_Replicas ss); [|done]. destruct (enp_Replicas np) as [n|]; [|done].
  unfold mbind, outcome_bind in H. simpl in H. case_bool_decide; naive_solver.
Qed.

Lemma nextActionLoop_Some s c pools a :
  nextActionLoop s c pools = Ret (inr (Some a)) →
  ∃ pre np post, pools = pre ++ np :: post ∧
    Forall (poolConverged s c) pre ∧ ¬ poolConverged s c np ∧
    nextActionForNodePool s c np = Ret (inr (Some a)).
Proof.
  induction pools as [|np pools IH]; simpl; [done|].
  unfold mbind, outcome_bind. intros H.
  destruct (nextActionForNodePool s c np) as [[err|[a'|]]|] eqn:E; simplify_eq.
  - exists [], np, pools. split_and!; [done|constructor| |done].
    rewrite <-nextActionForNodePool_None, E. done.
  - destruct (IH H) as (pre & np' & post & -> & Hpre & Hnp & Ha).
    exists (np :: pre), np', post. split_and!; [done| |done..].
    constructor; [|done]. by apply nextActionForNodePool_None.
Qed.

(** ** Every action moves its pool towards the specification *)

Lemma matchesPool_set_Replicas c np ss n :
  map_get (om_Annotations (ss_Meta ss)) ElasticsearchNodePoolVersionAnnotation =
    Some (Version_String (es_Version (esc_Spec c))) →
  enp_Replicas np = Some n → matchesPool c np (set_Replicas n ss).
Proof. intros Han Hn. unfold matchesPool. rewrite Hn. eauto. Qed.

Lemma nodePoolStatefulSet_name c np ss :
  nodePoolStatefulSet c np = inr ss →
  ss_Namespace ss = esc_Namespace c ∧ ss_Name ss = NodePoolResourceName c np.
Proof.
  unfold nodePoolStatefulSet. destruct (elasticsearchPodTemplateSpec c np); [done|]. by intros [= <-].
Qed.

Lemma created_set_matches_pool c np ss :
  is_Some (enp_Replicas np) → nodePoolStatefulSet c np = inr ss → matchesPool c np ss.
Proof.
  intros Hn. unfold nodePoolStatefulSet. destruct (elasticsearchPodTemplateSpec c np); [done|].
  intros [= <-]. unfold matchesPool. simpl. by rewrite lookup_singleton_eq.
Qed.

(** ** Stale node pools *)

Lemma dropFirst_subset name sets ss : ss ∈ dropFirst name sets → ss ∈ sets.
Proof.
  induction sets as [|x sets IH]; simpl; [done|].
  destruct (labelledForPool name x); set_solver.
Qed.

Lemma staleSets_subset pools sets ss : ss ∈ staleSets pools sets → ss ∈ sets.
Proof.
  revert sets. induction pools as [|np pools IH]; intros sets; simpl; [done|].
  intros ?%IH. by eapply dropFirst_subset.
Qed.

Lemma dropFirst_sublist name sets : dropFirst name sets `sublist_of` sets.
Proof.
  induction sets as [|x sets IH]; simpl; [constructor|]. destruct (labelledForPool name x); by constructor.
Qed.

Lemma staleSets_sublist pools sets : staleSets pools sets `sublist_of` sets.
Proof.
  revert sets. induction pools as [|np pools IH]; intros sets; simpl; [done|].
  etrans; [apply IH|apply dropFirst_sublist].
Qed.

Lemma sublist_filter {A} (f : A → bool) (xs : list A) : List.filter f xs `sublist_of` xs.
Proof. induction xs as [|x xs IH]; simpl; [constructor|]. destruct (f x); by constructor. Qed.

(** What dropFirst leaves out is the first set labelled for the pool. *)
Lemma dropFirst_split name sets :
  (Forall (λ ss, labelledForPool name ss = false) sets ∧ dropFirst name sets = sets) ∨
  ∃ pre x post, sets = pre ++ x :: post ∧ labelledForPool name x = true ∧
    Forall (λ ss, labelledForPool name ss = false) pre ∧ dropFirst name sets = pre ++ post.
Proof.
  induction sets as [|x sets IH]; simpl; [by left|]. destruct (labelledForPool name x) eqn:Hx.
  { right. exists [], x, sets. by split_and!. }
  destruct IH as [[Hall ->]|(pre & y & post & -> & Hy & Hpre & ->)]; [left; by split; [constructor|]|].
  right. exists (x :: pre), y, post. split_and!; [done|done|by constructor|done].
Qed.

(** A set carries one pool name. *)
Lemma labelledForPool_inj name name' ss :
  labelledForPool name ss = true → labelledForPool name' ss = true → name = name'.
Proof.
  unfold labelledForPool. destruct (om_Labels (ss_Meta ss)); [|done]. intros H1%bool_decide_eq_true H2%bool_decide_eq_true. congruence.
Qed.

(** A listed set that no pool needs: at some place in the list it stands behind another set
    labelled for each pool that it is labelled for. *)
Definition superfluous (pools : list ElasticsearchClusterNodePool) (sets : list StatefulSet) (ss : StatefulSet) : Prop :=
  ∃ pre post, sets = pre ++ ss :: post ∧
    ∀ np, np ∈ pools → labelledForPool (enp_Name np) ss = true → ∃ x, x ∈ pre ∧ labelledForPool (enp_Name np) x = true.

Lemma superfluous_cons np pools sets ss :
  enp_Name np ∉ map enp_Name pools →
  superfluous (np :: pools) sets ss ↔ superfluous pools (dropFirst (enp_Name np) sets) ss.
Proof.
  intros Hn. assert (∀ np' x, np' ∈ pools → labelledForPool (enp_Name np') x = true → labelledForPool (enp_Name np) x = true → False) as Hone.
  { intros np' x Hin H1 H2. apply Hn. rewrite (labelledForPool_inj _ _ _ H2 H1). by apply list_elem_of_fmap_2. }
  destruct (dropFirst_split (enp_Name np) sets) as [[Hall ->]|(a & x & b & -> & Hx & Ha & ->)].
  - split; intros (pre & post & -> & Hss); exists pre, post; (split; [done|]); intros np' Hin; [apply Hss; set_solver|].
    apply elem_of_cons in Hin as [->|Hin]; [|by apply Hss]. intros Hl. rewrite Forall_forall in Hall.
    rewrite Hall in Hl by set_solver. done.
  - rewrite Forall_forall in Ha. split.
    + intros (pre & post & Heq & Hss).
      assert ((∃ b', a = pre ++ ss :: b' ∧ post = b' ++ x :: b) ∨ (∃ b1, pre = a ++ x :: b1 ∧ b = b1 ++ ss :: post)) as Hcase.
      { apply app_eq_inv in Heq as [(k & -> & Hk)|(k & -> & Hk)].
        - destruct k as [|y k]; simpl in Hk; simplify_eq; [|left; by exists k].
          destruct (Hss np) as (y & Hy & Hly); [left|done|]. rewrite app_nil_r in Ha. by rewrite Ha in Hly.
        - destruct k as [|y k]; simpl in Hk; simplify_eq; [|right; by exists k].
          destruct (Hss np) as (y & Hy & Hly); [left|done|]. rewrite app_nil_r in Hy. by rewrite Ha in Hly. }
      destruct Hcase as [(b' & -> & ->)|(b1 & -> & ->)].
      * exists pre, (b' ++ b). rewrite <-app_assoc. split; [done|]. intros np' Hin. apply Hss. set_solver.
      * exists (a ++ b1), post. rewrite <-app_assoc. split; [done|]. intros np' Hin Hl.
        destruct (Hss np') as (y & Hy & Hly); [set_solver|done|]. exists y. split; [|done].
        apply elem_of_app in Hy as [?|[->|?]%elem_of_cons]; [set_solver| |set_solver]. exfalso. by eapply Hone.
    + intros (pre & post & Heq & Hss).
      assert ((∃ a', a = pre ++ ss :: a' ∧ post = a' ++ b) ∨ (∃ b1, pre = a ++ b1 ∧ b = b1 ++ ss :: post)) as [(a' & -> & ->)|(b1 & -> & ->)].
      { apply app_eq_inv in Heq as [(k & -> & Hk)|(k & -> & Hk)]; [|right; by exists k].
        destruct k as [|y k]; simpl in Hk; simplify_eq; [right; exists []; by rewrite !app_nil_r|left; by exists k]. }
      * exists pre, (a' ++ x :: b). rewrite <-app_assoc. split; [done|]. intros np' [->|Hin]%elem_of_cons Hl; [|by apply Hss].
        rewrite Ha in Hl by set_solver. done.
      * exists (a ++ x :: b1), post. rewrite <-app_assoc. split; [done|]. intros np' [->|Hin]%elem_of_cons Hl; [exists x; set_solver|].
        destruct (Hss np' Hin Hl) as (y & Hy & Hly). exists y. set_solver.
Qed.

Lemma staleSets_superfluous pools sets ss :
  NoDup (map enp_Name pools) → ss ∈ staleSets pools sets ↔ superfluous pools sets ss.
Proof.
  revert sets. induction pools as [|np pools IH]; intros sets Hnd.
  - simpl. split.
    + intros (pre & post & ->)%list_elem_of_split. exists pre, post. split; [done|]. by intros np ?%not_elem_of_nil.
    + intros (pre & post & -> & _). set_solver.
  - simpl in Hnd. apply NoDup_cons in Hnd as [Hn Hnd].
    change (staleSets (np :: pools) sets) with (staleSets pools (dropFirst (enp_Name np) sets)).
    by rewrite IH, superfluous_cons.
Qed.

(** ** Deletion of stale sets *)

Definition deletion (ss : StatefulSet) : APICall := DeleteStatefulSet (ss_Namespace ss) (ss_Name ss).

Definition controlledSet (c : ElasticsearchCluster) (ss : StatefulSet) : bool :=
  IsControlledBy (ss_Meta ss) (esc_Meta c).

(** The deletions are those of the controlled sets, in list order; an API
    error ends the loop early. *)
Lemma delete_loop s c sets :
  triple (for_range sets (deleteIfControlled s c)) (λ o cs,
    ∃ r post, o = Ret r ∧
      deletion <$> List.filter (controlledSet c) sets = cs ++ post ∧ (r = None → post = [])).
Proof.
  apply (triple_for_range _ _ (λ pre cs, cs = deletion <$> List.filter (controlledSet c) pre)); [done|..].
  - intros pre ss post cs -> ->. unfold deleteIfControlled.
    fold (controlledSet c ss). rewrite !List.filter_app, !fmap_app. simpl.
    destruct (controlledSet c ss) eqn:E; simpl; [|apply triple_ret; by rewrite !app_nil_r].
    apply triple_call. intros [e|]; simpl; [|done].
    exists (Some e), (deletion <$> List.filter (controlledSet c) post). by rewrite <-app_assoc.
  - intros cs ->. exists None, []. by rewrite app_nil_r.
Qed.

(** C17. When the pools have distinct names, reconcileNodePools keeps for every pool of the
    specification the first listed stateful set that is labelled for it: it deletes only listed
    sets that the cluster controls and that are no such first set, a second set labelled for a
    pool included, and when no deletion fails it deletes all of them, in the order listed. *)
Theorem reconcile_deletes_exactly_stale s c sel sets :
  SelectorForCluster (esc_Name c) = inr sel →
  lister_List (StatefulSetLister s) (esc_Namespace c) sel = inr sets →
  NoDup (map enp_Name (es_NodePools (esc_Spec c))) →
  triple (reconcileNodePools s c) (λ o cs, ∃ r stale, o = Ret r ∧
    (∀ ss, ss ∈ stale ↔ IsControlledBy (ss_Meta ss) (esc_Meta c) = true ∧ superfluous (es_NodePools (esc_Spec c)) sets ss) ∧
    stale `sublist_of` sets ∧
    cs `prefix_of` ((λ ss, DeleteStatefulSet (ss_Namespace ss) (ss_Name ss)) <$> stale) ∧
    (r = None → cs = (λ ss, DeleteStatefulSet (ss_Namespace ss) (ss_Name ss)) <$> stale)).
Proof.
  intros Hsel Hl Hnd. unfold reconcileNodePools. rewrite Hsel, Hl.
  eapply triple_weaken; [apply delete_loop|]. intros o cs (r & post & -> & Heq & Hend).
  exists r, (List.filter (controlledSet c) (staleSets (es_NodePools (esc_Spec c)) sets)). split_and!; [done|..].
  - intros ss. rewrite list_elem_of_In, filter_In, <-list_elem_of_In, (staleSets_superfluous _ _ _ Hnd). unfold controlledSet. tauto.
  - etrans; [apply sublist_filter|apply staleSets_sublist].
  - by exists post.
  - intros Hr. rewrite (Hend Hr), app_nil_r in Heq. exact (eq_sym Heq).
Qed.

(** The cluster has dropped its "old" pool; the set of another cluster stays. *)
Definition staleState : State :=
  setsAndPilots [demoSet "old" "5.6.1" 1 1 1; demoSet "data" "5.6.1" 2 2 2] [].

Lemma reconcile_deletes_exactly_stale_witness :
  let sets := [demoSet "old" "5.6.1" 1 1 1; demoSet "data" "5.6.1" 2 2 2] in
  let c := demoClusterAt version561 false [dataPool] in
  triple (reconcileNodePools staleState c) (λ o cs, ∃ r stale, o = Ret r ∧
    (∀ ss, ss ∈ stale ↔ IsControlledBy (ss_Meta ss) (esc_Meta c) = true ∧ superfluous [dataPool] sets ss) ∧
    stale `sublist_of` sets ∧
    cs `prefix_of` ((λ ss, DeleteStatefulSet (ss_Namespace ss) (ss_Name ss)) <$> stale) ∧
    (r = None → cs = (λ ss, DeleteStatefulSet (ss_Namespace ss) (ss_Name ss)) <$> stale)).
Proof.
  apply (reconcile_deletes_exactly_stale staleState (demoClusterAt version561 false [dataPool])
           [mkRequirement ElasticsearchClusterNameLabel "demo"]);
    [reflexivity|vm_compute; reflexivity|decide_closed].
Defined.

Example reconcile_deletes_old :
  calls (w_log (snd (reconcileNodePools staleState (demoClusterAt version561 false [dataPool]) emptyWorld))) =
  [DeleteStatefulSet "default" "es-demo-old"].
Proof. vm_compute. reflexivity. Qed.

(** A second set labelled for a pool of the specification is deleted, whichever of the two
    carries the name that the controller gives the set of the pool. *)
Example reconcile_deletes_second_set :
  calls (w_log (snd (for_range (staleSets [dataPool] [demoSet "data" "5.6.1" 2 2 2; demoSet "data" "5.6.1" 2 2 2])
    (deleteIfControlled staleState demoCluster) emptyWorld))) = [DeleteStatefulSet "default" "es-demo-data"].
Proof. vm_compute. reflexivity. Qed.
