(* ===== verification/ESSync.v ===== *)
(** * What one Sync of an Elasticsearch cluster may do

    Trace specifications of the actions and of [Sync]: the order and the kind
    of the API calls, the effect of pausing, the steady state and the returned
    status. *)

From S2P Require Import Prelude GoStrings Semver K8s Types Cluster Fixtures ESUtil ESResources ESScale ESUpdateVersion ESControl ESControlFacts.

(** ** The calls of the sub-controls *)

Section traces.
Context (s : State) (c : ElasticsearchCluster).

Lemma checkDrained_trace toRemove : triple (checkDrained c toRemove) (λ o cs, (∃ r, o = Ret r) ∧ cs = []).
Proof.
  apply (triple_for_range _ _ (λ _ cs, cs = [])); [done| |naive_solver].
  intros pre p post cs _ ->. unfold checkPilotDrained. trace; eauto.
Qed.

Lemma canScaleNodePool_trace np ss d :
  triple (canScaleNodePool s c np ss d) (λ o cs, (∃ r, o = Ret r) ∧ cs = []).
Proof.
  unfold canScaleNodePool. trace; eauto.
  eapply triple_bind; [apply checkDrained_trace|..]; [|naive_solver].
  intros r cs [_ ->]. trace; eauto.
Qed.

(** At most one update, of the pool's own set as the cache has it, that keeps
    its identity, labels and owners. *)
Definition updatesOwnSet (np : ElasticsearchClusterNodePool) (cs : list APICall) : Prop :=
  cs = [] ∨
  ∃ ss ss', lister_Get (StatefulSetLister s) (esc_Namespace c) (NodePoolResourceName c np) = inr ss ∧
    cs = [UpdateStatefulSet (ss_Namespace ss) ss'] ∧
    (ss_Name ss', ss_Namespace ss', om_Labels (ss_Meta ss'), om_OwnerReferences (ss_Meta ss')) =
    (ss_Name ss, ss_Namespace ss, om_Labels (ss_Meta ss), om_OwnerReferences (ss_Meta ss)).

Lemma scale_replicas_trace np n :
  triple (Scale_Execute s (mkScale (Some c) (Some np) n)) (λ o cs, cs = [] ∨
    ∃ ss, lister_Get (StatefulSetLister s) (esc_Namespace c) (NodePoolResourceName c np) = inr ss ∧
      cs = [UpdateStatefulSet (ss_Namespace ss) (set_Replicas n ss)]).
Proof.
  unfold Scale_Execute. simpl. trace; try (by left).
  eapply triple_bind; [apply canScaleNodePool_trace|..]; [|by intros ? ? [[? ?] _]].
  intros r cs [_ ->]. trace; try (by left); right; eauto 10.
Qed.

Lemma scale_trace np n :
  triple (Scale_Execute s (mkScale (Some c) (Some np) n)) (λ o cs, updatesOwnSet np cs).
Proof.
  eapply triple_weaken; [apply scale_replicas_trace|].
  intros o cs [->|(ss & Hget & ->)]; [by left|]. right. eauto 10.
Qed.

Lemma performUpdate_trace ss msg args :
  triple (performUpdate s c ss msg args) (λ o cs, cs = [UpdateStatefulSet (ss_Namespace ss) ss]).
Proof. unfold performUpdate. trace; eauto. Qed.

Lemma updateSwitch_trace np ss an image existing d next :
  lister_Get (StatefulSetLister s) (esc_Namespace c) (NodePoolResourceName c np) = inr ss →
  triple (updateSwitch s c np ss an image existing d next) (λ o cs, updatesOwnSet np cs).
Proof.
  intros Hget. unfold updateSwitch, lastPilotUpdated.
  destruct (pilotsUpToDate s c np ss).
  - destruct (_ || _); [|trace; by left].
    eapply (triple_bind _ _ (λ o cs, cs = [])); [trace; done| |by left].
    intros [|[]] cs ->; [trace; by left| |trace; by left].
    eapply triple_weaken; [apply performUpdate_trace|]. intros o cs ->. right; eauto 10.
  - eapply triple_weaken; [apply performUpdate_trace|]. intros o cs ->. right; eauto 10.
Qed.

Lemma update_version_trace np :
  triple (UpdateVersion_Execute s (mkUpdateVersion (Some c) (Some np))) (λ o cs, updatesOwnSet np cs).
Proof.
  unfold UpdateVersion_Execute. simpl. trace; try (by left); by apply updateSwitch_trace.
Qed.

(** Creating the set of a pool that has none. *)
Definition createsSet (np : ElasticsearchClusterNodePool) (cs : list APICall) : Prop :=
  cs = [] ∨ ∃ ss, nodePoolStatefulSet c np = inr ss ∧ cs = [CreateStatefulSet (esc_Namespace c) ss].

Lemma create_trace np : triple (CreateNodePool_Execute s c np) (λ o cs, createsSet np cs).
Proof.
  unfold CreateNodePool_Execute. destruct (nodePoolStatefulSet c np) as [err|ss] eqn:E; [trace; by left|].
  destruct (nodePoolStatefulSet_name _ _ _ E) as [-> _].
  trace; right; eauto.
Qed.

(** ** The supporting resources *)

(** The calls that the caches call for, per kind of resource: what is missing is created, and a
    role or role binding of the cluster that is not as wanted is updated. *)
Definition serviceAccountPlan : list APICall :=
  match SelectorForCluster (esc_Name c) with
  | inr sel =>
      match lister_List (ServiceAccountLister s) (esc_Namespace c) sel with
      | inr [] => [CreateServiceAccount (esc_Namespace c) (clusterServiceAccount c)]
      | _ => []
      end
  | inl _ => []
  end.

Definition servicePlan (name : string) (svc : Service) : list APICall :=
  if missing (lister_Get (ServiceLister s) (esc_Namespace c) name) then [CreateService (esc_Namespace c) svc] else [].

Definition rolePlan : list APICall :=
  match lister_Get (RoleLister s) (esc_Namespace c) (RBACRoleName c) with
  | inl err => if IsNotFound (Some err) then [CreateRole (esc_Namespace c) (roleForCluster c)] else []
  | inr r =>
      if IsControlledBy (role_Meta r) (esc_Meta c) && negb (bool_decide (role_Rules (roleForCluster c) = role_Rules r))
      then [UpdateRole (esc_Namespace c) (roleForCluster c)] else []
  end.

Definition roleBindingPlan : list APICall :=
  match lister_Get (RoleBindingLister s) (esc_Namespace c) (RBACRoleName c) with
  | inl err => if IsNotFound (Some err) then [CreateRoleBinding (esc_Namespace c) (roleBindingForCluster c)] else []
  | inr rb =>
      if IsControlledBy (rb_Meta rb) (esc_Meta c) &&
         (negb (bool_decide (rb_RoleRef (roleBindingForCluster c) = rb_RoleRef rb)) ||
          negb (bool_decide (rb_Subjects (roleBindingForCluster c) = rb_Subjects rb)))
      then [UpdateRoleBinding (esc_Namespace c) (roleBindingForCluster c)] else []
  end.

Definition configMapCall (np : ElasticsearchClusterNodePool) : option APICall :=
  match esConfigConfigMap c np with
  | Ret cm =>
      if missing (lister_Get (ConfigMapLister s) (esc_Namespace c) (ConfigMapName c np))
      then Some (CreateConfigMap (esc_Namespace c) cm) else None
  | Panic _ => None
  end.

Definition supportPlan : list APICall :=
  serviceAccountPlan ++
  (servicePlan (DiscoveryServiceName c) (discoveryService c) ++ servicePlan (ClientServiceName c) (clientService c)) ++
  rolePlan ++ roleBindingPlan ++ omap configMapCall (es_NodePools (esc_Spec c)).

Lemma ensureService_trace svc :
  om_Namespace (svc_Meta svc) = esc_Namespace c →
  triple (ensureService s svc) (λ o cs, (∃ r, o = Ret r) ∧ follows (servicePlan (om_Name (svc_Meta svc)) svc) o cs).
Proof.
  intros Hns. unfold ensureService, servicePlan. rewrite Hns. destruct (lister_Get _ _ _) as [err|]; simpl; trace; eauto with navigator.
Qed.

Lemma serviceAccount_trace : triple (serviceAccountControl_Sync s c) (follows serviceAccountPlan).
Proof.
  unfold serviceAccountControl_Sync, serviceAccountPlan. destruct (SelectorForCluster _); [trace; auto with navigator|].
  destruct (lister_List _ _ _) as [err|[|sa [|]]]; trace; auto with navigator.
Qed.

Lemma service_trace :
  triple (serviceControl_Sync s c)
    (follows (servicePlan (DiscoveryServiceName c) (discoveryService c) ++ servicePlan (ClientServiceName c) (clientService c))).
Proof.
  unfold serviceControl_Sync.
  eapply triple_bind; [by apply ensureService_trace| |by intros ? ? [[? ?] _]].
  intros [e|] cs [_ [Hp Hall]]; [trace; rewrite app_nil_r; split; [by apply prefix_app_r|done]|]. rewrite (Hall eq_refl).
  eapply triple_bind; [by apply ensureService_trace| |by intros ? ? [[? ?] _]].
  intros r cs' [_ [Hp' Hall']]. destruct r; trace; rewrite app_nil_r; (split; [by apply prefix_app|intros [=]]). by rewrite (Hall' eq_refl).
Qed.

Lemma role_trace : triple (roleControl_Sync s c) (follows rolePlan).
Proof.
  unfold roleControl_Sync, rolePlan, ownerCheck. cbn [role_Meta roleForCluster om_Namespace om_Name newObjectMeta].
  destruct (lister_Get _ _ _) as [err|r]; [trace; auto with navigator|].
  destruct (IsControlledBy _ _); simpl; [|trace; auto with navigator]. case_bool_decide; simpl; trace; auto with navigator.
Qed.

Lemma rolebinding_trace : triple (roleBindingControl_Sync s c) (follows roleBindingPlan).
Proof.
  unfold roleBindingControl_Sync, roleBindingPlan, ownerCheck. cbn [rb_Meta roleBindingForCluster om_Namespace om_Name newObjectMeta].
  destruct (lister_Get _ _ _) as [err|r]; [trace; auto with navigator|].
  destruct (IsControlledBy _ _); simpl; [|trace; auto with navigator]. destruct (_ || _); trace; auto with navigator.
Qed.

Lemma configMap_meta np cm :
  esConfigConfigMap c np = Ret cm → om_Namespace (cm_Meta cm) = esc_Namespace c ∧ om_Name (cm_Meta cm) = ConfigMapName c np.
Proof.
  unfold esConfigConfigMap, mbind, outcome_bind. destruct (generateConfig c); intros; by simplify_eq.
Qed.

Lemma ensureConfigMap_trace np cm :
  esConfigConfigMap c np = Ret cm → triple (ensureConfigMap s cm) (follows (omap configMapCall [np])).
Proof.
  intros Hcm. unfold ensureConfigMap, configMapCall. simpl. rewrite Hcm. destruct (configMap_meta _ _ Hcm) as [-> ->].
  destruct (lister_Get _ _ _) as [err|]; simpl; [destruct (IsNotFound _)|]; trace; auto with navigator.
Qed.

Lemma configMap_trace : triple (configMapControl_Sync s c) (follows (omap configMapCall (es_NodePools (esc_Spec c)))).
Proof.
  apply (triple_for_range _ _ (λ pre cs, cs = omap configMapCall pre)); [done| |by intros cs ->; auto with navigator].
  intros pre np post cs Heq ->. rewrite Heq, (cons_middle np), (app_assoc pre), !omap_app.
  apply (triple_weaken _ (follows (omap configMapCall [np]))).
  - apply triple_bind_lift; [|auto with navigator]. intros cm Hcm.
    eapply triple_bind; [by eapply ensureConfigMap_trace| |done].
    intros [e|] cs' Hcs'; trace; rewrite app_nil_r; [|done]. by destruct Hcs'.
  - intros [[e|]|p] cs' [Hp Hall]; [|by rewrite Hall|]; (split; [|done]); apply prefix_app_r, prefix_app, Hp.
Qed.
End traces.

(** ** Sync *)

Section sync.
Context (s : State) (c : ElasticsearchCluster).

(** The lookup of the set of a pool *)
Abbreviation poolSet np := (lister_Get (StatefulSetLister s) (esc_Namespace c) (NodePoolResourceName c np)).

(** What follows the supporting resources: an error before any call, the one action of the first
    pool that is not converged, or, when all are, deletions of the stale sets among those listed that the
    cluster controls, in their order and, when the sync succeeds ([ok]), all of them. *)
Definition poolCalls (ok : Prop) (cs : list APICall) : Prop :=
  (cs = [] ∧ ¬ ok) ∨
  (∃ pre np post, es_NodePools (esc_Spec c) = pre ++ np :: post ∧
     Forall (poolConverged s c) pre ∧ ¬ poolConverged s c np ∧
     (updatesOwnSet s c np cs ∨ missing (poolSet np) = true ∧ createsSet c np cs)) ∨
  (Forall (poolConverged s c) (es_NodePools (esc_Spec c)) ∧
   ∃ sel sets, SelectorForCluster (esc_Name c) = inr sel ∧
     lister_List (StatefulSetLister s) (esc_Namespace c) sel = inr sets ∧
     let deletions := deletion <$> List.filter (controlledSet c) (staleSets (es_NodePools (esc_Spec c)) sets) in
     cs `prefix_of` deletions ∧ (ok → cs = deletions)).

(** The calls of a sync: those of the plan, all of them if any others follow or the sync
    succeeds, and then those for the pools. *)
Definition syncShape (plan : list APICall) (ok : Prop) (cs : list APICall) : Prop :=
  ∃ support tail, cs = support ++ tail ∧ support `prefix_of` plan ∧
    (support = plan ∧ poolCalls ok tail ∨ tail = [] ∧ ¬ ok).

(** The sync returned nil. *)
Abbreviation succeeded o := (o = Ret None).

Lemma reconcile_trace :
  Forall (poolConverged s c) (es_NodePools (esc_Spec c)) →
  triple (reconcileNodePools s c) (λ o cs, poolCalls (succeeded o) cs).
Proof.
  intros Hconv. unfold reconcileNodePools. destruct (SelectorForCluster _) as [err|sel] eqn:Hsel; [trace; by left|].
  destruct (lister_List _ _ _) as [err|sets] eqn:Hl; [trace; by left|].
  eapply triple_weaken; [apply delete_loop|]. intros o cs (r & post & -> & Heq & Hend).
  right; right. split; [done|]. exists sel, sets. split; [done|]. split; [done|]. split; [by exists post|].
  intros [= Hr]. by rewrite Heq, (Hend Hr), app_nil_r.
Qed.

Lemma action_trace np a :
  nextActionForNodePool s c np = Ret (inr (Some a)) →
  triple (Action_Execute s a) (λ o cs, updatesOwnSet s c np cs ∨ missing (poolSet np) = true ∧ createsSet c np cs).
Proof.
  intros Ha. assert (a = ActCreateNodePool c np → missing (poolSet np) = true) as Hmiss.
  { intros ->. unfold nextActionForNodePool in Ha. destruct (lister_Get _ _ _) as [err|ss]; simpl.
    - by destruct (IsNotFound _).
    - exfalso. repeat (case_match; simplify_eq/=). destruct (enp_Replicas np); simplify_eq/=. case_bool_decide; simplify_eq/=. }
  apply nextActionForNodePool_Some in Ha as [->|[->|(n & _ & ->)]]; simpl;
    (eapply triple_weaken; [apply create_trace || apply update_version_trace || apply scale_trace|]);
    auto.
Qed.

Lemma syncNodePools_trace : triple (syncNodePools s c) (λ o cs, poolCalls (succeeded o) cs).
Proof.
  unfold syncNodePools, errEvent. apply triple_bind_lift; [|intros; by left].
  intros [e|[a|]] Hnext; [trace; by left|..].
  - apply nextActionLoop_Some in Hnext as (pre & np & post & Heq & Hpre & Hnc & Ha).
    eapply triple_bind; [by eapply action_trace|..]; simpl.
    + intros r cs Hcs. trace; rewrite app_nil_r; right; left; eauto 10.
    + intros p cs Hcs. right; left; eauto 10.
  - apply nextActionLoop_None in Hnext. by apply reconcile_trace.
Qed.

Lemma syncStep_trace f m k P plan :
  triple m (follows P) → triple k (λ o cs, syncShape plan (succeeded o) cs) →
  triple (syncStep c f m k) (λ o cs, syncShape (P ++ plan) (succeeded o) cs).
Proof.
  intros Hm Hk.
  assert (∀ (o : outcome (option Err)) cs, o ≠ Ret None → cs `prefix_of` P → syncShape (P ++ plan) (succeeded o) cs) as Hstop.
  { intros o cs Ho Hcs. exists cs, []. rewrite app_nil_r.
    split_and!; [done|by apply prefix_app_r|by right]. }
  unfold syncStep, errEvent. eapply triple_bind; [exact Hm| |intros p cs [? _]; by apply Hstop].
  intros [e|] cs [Hcs Hall]; [trace; rewrite app_nil_r; by apply Hstop|]. rewrite (Hall eq_refl).
  eapply triple_weaken; [exact Hk|]. intros o cs' (sup & tail & -> & Hsup & Htail).
  exists (P ++ sup), tail. rewrite app_assoc. split_and!; [done|by apply prefix_app|].
  destruct Htail as [[-> ?]|?]; auto.
Qed.

Lemma syncBody_trace : triple (syncBody s c) (λ o cs, syncShape (supportPlan s c) (succeeded o) cs).
Proof.
  unfold supportPlan. rewrite <-(app_nil_r (omap _ _)). unfold syncBody.
  repeat (apply syncStep_trace;
    [auto using serviceAccount_trace, service_trace, role_trace, rolebinding_trace, configMap_trace|]).
  eapply triple_weaken; [apply syncNodePools_trace|]. intros o cs Hcs. exists [], cs. split_and!; [done..|by left].
Qed.
End sync.

Lemma esSync_trace s c :
  triple (Sync s c) (λ o cs,
    if cfg_Paused (es_Config (esc_Spec c)) then cs = []
    else syncShape s c (supportPlan s c) (∃ status, o = Ret (status, None)) cs).
Proof.
  unfold Sync. simpl. destruct (cfg_Paused _); [by apply triple_ret|].
  assert (∀ ok ok' : Prop, (ok ↔ ok') → ∀ cs, syncShape s c (supportPlan s c) ok cs → syncShape s c (supportPlan s c) ok' cs) as Hiff.
  { intros ok ok' Hok cs. unfold syncShape, poolCalls. by setoid_rewrite Hok. }
  eapply triple_bind; [apply syncBody_trace|..]; simpl.
  - intros r cs Hcs. trace. rewrite app_nil_r. eapply Hiff, Hcs. split; [intros [= ->]; eauto|]. by intros [? [= _ ->]].
  - intros p cs Hcs. eapply Hiff, Hcs. split; [done|]. by intros [? ?].
Qed.

(** C3. The API calls of one Sync: none when paused; otherwise, in their fixed order and up to
    the first failure, the creations of the supporting resources that the caches lack and the
    updates of the role and the role binding where they are the cluster's and not as wanted;
    then, once all of these are made, either at most one create or update for the first pool in
    the specification that is not converged, a create only when it has no set, or, when all pools
    are converged, the deletions of the stale sets among the listed ones that the cluster
    controls, in their order. A Sync that returns no error has made all the calls of the
    resources and all the deletions. *)
Theorem sync_call_order s c :
  triple (Sync s c) (λ o cs,
    if cfg_Paused (es_Config (esc_Spec c)) then cs = []
    else syncShape s c (supportPlan s c) (∃ status, o = Ret (status, None)) cs).
Proof. apply esSync_trace. Qed.

(** ** Pausing *)

Lemma replaceCondition_get t new conds :
  GetStatusCondition (replaceCondition t new conds) (cc_Type new) =
    (λ old, mkClusterCondition (cc_Type new) (cc_Status new)
       (if bool_decide (cc_Status old = cc_Status new) then cc_LastTransitionTime old else t)
       (cc_Reason new) (cc_Message new)) <$> GetStatusCondition conds (cc_Type new).
Proof.
  induction conds as [|old conds IH]; simpl; [done|].
  case_bool_decide; simpl; [by rewrite bool_decide_eq_true_2|]. by rewrite bool_decide_eq_false_2.
Qed.

(** The other conditions are not touched. *)
Lemma replaceCondition_get_ne t new conds ty :
  ty ≠ cc_Type new → GetStatusCondition (replaceCondition t new conds) ty = GetStatusCondition conds ty.
Proof.
  intros Hne. induction conds as [|old conds IH]; simpl; [done|].
  repeat (case_bool_decide; simpl; try congruence).
Qed.

Lemma UpdateStatusCondition_get t conds ty st reason msg :
  conds = [] ∨ is_Some (GetStatusCondition conds ty) →
  ∃ time, GetStatusCondition (UpdateStatusCondition t conds ty st reason msg) ty =
    Some (mkClusterCondition ty st time reason msg).
Proof.
  intros H. unfold UpdateStatusCondition. destruct conds as [|x conds].
  - simpl. rewrite bool_decide_eq_true_2 by done. eauto.
  - destruct H as [?|[old Hold]]; [done|].
    set (new := mkClusterCondition ty st t reason msg).
    change ty with (cc_Type new) at 1. rewrite replaceCondition_get. simpl cc_Type.
    rewrite Hold. simpl. eauto.
Qed.

(** Sync of a paused cluster has no effect but the status, and the Progressing condition
    then has the paused reason, provided the conditions were empty or already had one of that
    type. *)
Theorem paused_sync s c w :
  cfg_Paused (es_Config (esc_Spec c)) = true →
  let conds := ncs_Conditions (est_Conditions (esc_Status c)) in
  ∃ st, Sync s c w = (Ret (st, None), w) ∧
    est_NodePools st = est_NodePools (esc_Status c) ∧ est_Health st = est_Health (esc_Status c) ∧
    (conds = [] ∨ is_Some (GetStatusCondition conds ClusterConditionProgressing) →
     ∃ cond, GetStatusCondition (ncs_Conditions (est_Conditions st)) ClusterConditionProgressing = Some cond ∧
       cc_Reason cond = PausedClusterReason).
Proof.
  intros Hp conds. unfold Sync. simpl. rewrite Hp. eexists. split_and!; [done..|].
  simpl. fold conds. unfold pausedConditions. intros H.
  destruct (GetStatusCondition conds ClusterConditionProgressing) as [cond|] eqn:Ec; simpl.
  - case_bool_decide; simpl; [by eauto|].
    edestruct UpdateStatusCondition_get as [time ->]; [right; by rewrite Ec|]. by eexists.
  - destruct H as [->|[? ?]]; [|done]. by eexists.
Qed.

Lemma paused_sync_witness :
  ∃ st, Sync (setsAndPilots [] []) (demoClusterAt version561 true [dataPool]) emptyWorld =
      (Ret (st, None), emptyWorld) ∧
    est_NodePools st = Some ∅ ∧ est_Health st = Some ElasticsearchClusterHealthGreen ∧
    ([] = @nil ClusterCondition ∨ is_Some (GetStatusCondition [] ClusterConditionProgressing) →
     ∃ cond, GetStatusCondition (ncs_Conditions (est_Conditions st)) ClusterConditionProgressing = Some cond ∧
       cc_Reason cond = PausedClusterReason).
Proof.
  apply (paused_sync (setsAndPilots [] []) (demoClusterAt version561 true [dataPool]) emptyWorld). reflexivity.
Defined.

(** UpdateStatusCondition leaves a non-empty condition list that lacks the type unchanged:
    the condition is not added. *)
Theorem condition_not_added t conds ty st reason msg :
  conds ≠ [] → GetStatusCondition conds ty = None →
  UpdateStatusCondition t conds ty st reason msg = conds.
Proof.
  intros Hne. unfold UpdateStatusCondition. destruct conds as [|x conds]; [done|]. clear Hne.
  generalize (x :: conds) as l. induction l as [|y l IH]; simpl; [done|].
  case_bool_decide; [done|]. intros Hn. f_equal. auto.
Qed.

Lemma condition_not_added_witness :
  let conds := [mkClusterCondition ClusterConditionAvailable ConditionTrue 1 "" ""] in
  UpdateStatusCondition 100 conds ClusterConditionProgressing ConditionFalse PausedClusterReason
    "Cluster is paused" = conds.
Proof. apply condition_not_added; [discriminate|reflexivity]. Defined.

(** ** The steady state *)

(** One service account is listed, the services and config maps exist, the role and its
    binding are the cluster's and as wanted, every pool is as specified and the
    cluster controls no other stateful set among those it lists. *)
Record steady (s : State) (c : ElasticsearchCluster) : Prop := {
  steady_serviceAccount : ∃ sel sa, SelectorForCluster (esc_Name c) = inr sel ∧
    lister_List (ServiceAccountLister s) (esc_Namespace c) sel = inr [sa];
  steady_discovery : ∃ svc, lister_Get (ServiceLister s) (esc_Namespace c) (DiscoveryServiceName c) = inr svc;
  steady_client : ∃ svc, lister_Get (ServiceLister s) (esc_Namespace c) (ClientServiceName c) = inr svc;
  steady_role : ∃ r, lister_Get (RoleLister s) (esc_Namespace c) (RBACRoleName c) = inr r ∧
    IsControlledBy (role_Meta r) (esc_Meta c) = true ∧ role_Rules r = role_Rules (roleForCluster c);
  steady_rolebinding : ∃ rb, lister_Get (RoleBindingLister s) (esc_Namespace c) (RBACRoleName c) = inr rb ∧
    IsControlledBy (rb_Meta rb) (esc_Meta c) = true ∧
    rb_RoleRef rb = rb_RoleRef (roleBindingForCluster c) ∧
    rb_Subjects rb = rb_Subjects (roleBindingForCluster c);
  steady_configmaps np : np ∈ es_NodePools (esc_Spec c) →
    ∃ cm, lister_Get (ConfigMapLister s) (esc_Namespace c) (ConfigMapName c np) = inr cm;
  steady_pools : Forall (poolConverged s c) (es_NodePools (esc_Spec c));
  steady_sets sel : SelectorForCluster (esc_Name c) = inr sel →
    ∃ sets, lister_List (StatefulSetLister s) (esc_Namespace c) sel = inr sets ∧
      ∀ ss, ss ∈ staleSets (es_NodePools (esc_Spec c)) sets → controlledSet c ss = false;
}.

Lemma for_range_None {A R} (xs : list A) (body : A → GoM World (option R)) w :
  (∀ x, x ∈ xs → body x w = (Ret None, w)) → for_range xs body w = (Ret None, w).
Proof.
  induction xs as [|x xs IH]; intros H; [done|].
  rewrite (for_range_cons_None _ _ _ _ w) by (apply H; set_solver). apply IH. set_solver.
Qed.

Lemma syncStep_None c f m k w : m w = (Ret None, w) → syncStep c f m k w = k w.
Proof. intros H. unfold syncStep. by rewrite (gom_bind_ret _ _ _ _ _ H). Qed.

Lemma steady_generateConfig s c :
  steady s c → ∃ config, generateConfig c = Ret config.
Proof.
  intros Hs. unfold generateConfig, configMinimumMasters.
  destruct (es_MinimumMasters (esc_Spec c)); [by eexists|].
  rewrite CountElasticsearchMasters_spec; [by eexists|].
  eapply Forall_impl; [apply (steady_pools _ _ Hs)|]. intros np (ss & _ & _ & ? & _). done.
Qed.

Section steady.
Context (s : State) (c : ElasticsearchCluster) (Hs : steady s c) (w : World).

Lemma steady_serviceAccount_run : serviceAccountControl_Sync s c w = (Ret None, w).
Proof.
  destruct (steady_serviceAccount _ _ Hs) as (sel & sa & Hsel & Hl).
  unfold serviceAccountControl_Sync. by rewrite Hsel, Hl.
Qed.

Lemma steady_service_run : serviceControl_Sync s c w = (Ret None, w).
Proof.
  destruct (steady_discovery _ _ Hs) as [d Hd]. destruct (steady_client _ _ Hs) as [d' Hd'].
  unfold serviceControl_Sync, ensureService. simpl. rewrite Hd.
  unfold mbind, gom_bind. simpl. by rewrite Hd'.
Qed.

Lemma steady_role_run : roleControl_Sync s c w = (Ret None, w).
Proof.
  destruct (steady_role _ _ Hs) as (r & Hr & Hc & Hrules).
  unfold roleControl_Sync, ownerCheck. cbn [role_Meta roleForCluster om_Namespace om_Name newObjectMeta].
  rewrite Hr, Hc, bool_decide_eq_true_2 by done. done.
Qed.

Lemma steady_rolebinding_run : roleBindingControl_Sync s c w = (Ret None, w).
Proof.
  destruct (steady_rolebinding _ _ Hs) as (r & Hr & Hc & Href & Hsub).
  unfold roleBindingControl_Sync, ownerCheck.
  cbn [rb_Meta roleBindingForCluster om_Namespace om_Name newObjectMeta].
  rewrite Hr, Hc, !bool_decide_eq_true_2 by done. done.
Qed.

Lemma steady_configmap_run : configMapControl_Sync s c w = (Ret None, w).
Proof.
  destruct (steady_generateConfig _ _ Hs) as [config Hc]. apply for_range_None. intros np Hnp.
  destruct (steady_configmaps _ _ Hs np Hnp) as [cm Hcm].
  unfold esConfigConfigMap, ensureConfigMap. rewrite Hc. unfold lift, mbind, gom_bind. simpl.
  by rewrite Hcm.
Qed.

Lemma steady_nodepools_run : syncNodePools s c w = (Ret None, w).
Proof.
  unfold syncNodePools, nextAction.
  rewrite (proj2 (nextActionLoop_None _ _ _) (steady_pools _ _ Hs)).
  unfold lift, mbind, gom_bind. simpl. unfold reconcileNodePools.
  destruct (steady_serviceAccount _ _ Hs) as (sel & _ & Hsel & _). rewrite Hsel.
  destruct (steady_sets _ _ Hs sel Hsel) as (sets & Hl & Hst). rewrite Hl.
  apply for_range_None. intros ss Hss. unfold deleteIfControlled.
  fold (controlledSet c ss). by rewrite (Hst ss Hss).
Qed.

Lemma steady_body_run : syncBody s c w = (Ret None, w).
Proof.
  unfold syncBody.
  rewrite syncStep_None by apply steady_serviceAccount_run.
  rewrite syncStep_None by apply steady_service_run.
  rewrite syncStep_None by apply steady_role_run.
  rewrite syncStep_None by apply steady_rolebinding_run.
  rewrite syncStep_None by apply steady_configmap_run.
  apply steady_nodepools_run.
Qed.
End steady.

(** The paused conditions are no part of the steady state. *)
Lemma steady_syncPausedConditions t s c : steady s c → steady s (syncPausedConditions t c).
Proof. intros [? ? ? ? ? ? ? ?]. by constructor. Qed.

Lemma steady_run s c w :
  cfg_Paused (es_Config (esc_Spec c)) = false → steady s c →
  ∃ st, Sync s c w = (Ret (st, None), w).
Proof.
  intros Hp Hs. unfold Sync. simpl. rewrite Hp.
  rewrite (gom_bind_ret _ _ _ None w); [by eexists|].
  apply steady_body_run, steady_syncPausedConditions, Hs.
Qed.

(** C27. Sync is idempotent: when one service account is listed for the cluster, both services
    and a config map per pool exist, the role and the role binding exist, are controlled by the
    cluster and have the rules, role and subjects it wants, every pool is as specified and no
    stale set is controlled by the cluster, Sync succeeds without any API call or event. *)
Theorem steady_sync_is_silent s c w :
  cfg_Paused (es_Config (esc_Spec c)) = false → steady s c →
  ∃ st, Sync s c w = (Ret (st, None), w).
Proof. apply steady_run. Qed.

Definition steadyState : State :=
  let cm name := mkConfigMap (metaOf name "") None in
  stateOf [demoSet "master" "5.6.1" 3 3 3; demoSet "data" "5.6.1" 2 2 2] []
    [clusterServiceAccount demoCluster] [discoveryService demoCluster; clientService demoCluster]
    [roleForCluster demoCluster] [roleBindingForCluster demoCluster] [cm "es-demo-master"; cm "es-demo-data"].

Lemma steadyState_steady : steady steadyState demoCluster.
Proof.
  constructor.
  - exists [mkRequirement ElasticsearchClusterNameLabel "demo"], (clusterServiceAccount demoCluster).
    split; reflexivity.
  - eexists. get_listed (discoveryService demoCluster).
  - eexists. get_listed (clientService demoCluster).
  - exists (roleForCluster demoCluster). split_and!; [get_listed (roleForCluster demoCluster)|reflexivity..].
  - exists (roleBindingForCluster demoCluster).
    split_and!; [get_listed (roleBindingForCluster demoCluster)|reflexivity..].
  - intros np Hnp. change (np ∈ [masterPool; dataPool]) in Hnp.
    rewrite !elem_of_cons, elem_of_nil in Hnp. destruct Hnp as [->|[->|[]]]; eexists;
      [get_listed (mkConfigMap (metaOf "es-demo-master" "") None)
      |get_listed (mkConfigMap (metaOf "es-demo-data" "") None)].
  - repeat constructor.
    + exists (demoSet "master" "5.6.1" 3 3 3).
      split; [get_listed (demoSet "master" "5.6.1" 3 3 3)|by split_and!; [|eexists|]].
    + exists (demoSet "data" "5.6.1" 2 2 2).
      split; [get_listed (demoSet "data" "5.6.1" 2 2 2)|by split_and!; [|eexists|]].
  - intros sel [= <-]. eexists. split; [reflexivity|].
    assert (staleSets (es_NodePools (esc_Spec demoCluster))
      (List.filter (in_selection ss_Meta "default" [mkRequirement ElasticsearchClusterNameLabel "demo"])
        (map snd (map_to_list (byKey ss_Meta [demoSet "master" "5.6.1" 3 3 3; demoSet "data" "5.6.1" 2 2 2]))))
      = []) as Hnil by (vm_compute; reflexivity).
    intros ss Hss. exfalso. apply (not_elem_of_nil ss). rewrite <-Hnil. exact Hss.
Qed.

Lemma steady_sync_is_silent_witness :
  ∃ st, Sync steadyState demoCluster emptyWorld = (Ret (st, None), emptyWorld).
Proof. apply steady_sync_is_silent; [reflexivity|exact steadyState_steady]. Defined.

(** ** A configuration is not updated *)

(** A cluster of one master pool, and its configuration map. *)
Definition mastersCluster (n : Z) : ElasticsearchCluster :=
  demoClusterAt version561 false [poolOf "master" n [ElasticsearchRoleMaster]].

Definition mastersConfig (n : Z) : ConfigMap :=
  mkConfigMap (newObjectMeta "es-demo-master" "default" (Some (ClusterLabels (mastersCluster n))) None
    [ES_ControllerRef (mastersCluster n)]) (Some {[ "elasticsearch.yml" := sprintfConfigTemplate (CalculateQuorum n) ]}).

(** The set has [n] replicas, the configuration was written for [m]. *)
Definition rescaledState (n m : Z) : State :=
  let c := mastersCluster n in
  stateOf [demoSet "master" "5.6.1" n n n] [] [clusterServiceAccount c] [discoveryService c; clientService c]
    [roleForCluster c] [roleBindingForCluster c] [mastersConfig m].

Lemma rescaledState_steady n m : steady (rescaledState n m) (mastersCluster n).
Proof.
  constructor.
  - exists [mkRequirement ElasticsearchClusterNameLabel "demo"], (clusterServiceAccount (mastersCluster n)).
    split; reflexivity.
  - eexists. get_listed (discoveryService (mastersCluster n)).
  - eexists. get_listed (clientService (mastersCluster n)).
  - exists (roleForCluster (mastersCluster n)).
    split_and!; [get_listed (roleForCluster (mastersCluster n))|reflexivity..].
  - exists (roleBindingForCluster (mastersCluster n)).
    split_and!; [get_listed (roleBindingForCluster (mastersCluster n))|reflexivity..].
  - intros np ->%list_elem_of_singleton. eexists. get_listed (mastersConfig m).
  - repeat constructor. exists (demoSet "master" "5.6.1" n n n).
    split; [get_listed (demoSet "master" "5.6.1" n n n)|by split_and!; [|eexists|]].
  - intros sel [= <-]. eexists. split; [reflexivity|].
    assert (staleSets (es_NodePools (esc_Spec (mastersCluster n)))
      (List.filter (in_selection ss_Meta "default" [mkRequirement ElasticsearchClusterNameLabel "demo"])
        (map snd (map_to_list (byKey ss_Meta [demoSet "master" "5.6.1" n n n])))) = []) as Hnil by reflexivity.
    intros ss Hss. exfalso. apply (not_elem_of_nil ss). rewrite <-Hnil. exact Hss.
Qed.

(** The configuration of a pool is written once: after a master pool was rescaled Sync
    succeeds without any call while the configuration map still holds the quorum computed for the
    old number of masters, as 2 for 5 masters. *)
Theorem rescaled_masters_keep_quorum n m :
  0 ≤ m ≤ int32_max →
  esConfigConfigMap (mastersCluster m) (poolOf "master" m [ElasticsearchRoleMaster]) = Ret (mastersConfig m) ∧
  lister_Get (ConfigMapLister (rescaledState n m)) "default" "es-demo-master" = inr (mastersConfig m) ∧
  ∃ st, Sync (rescaledState n m) (mastersCluster n) emptyWorld = (Ret (st, None), emptyWorld).
Proof.
  intros Hm. split; [|split; [get_listed (mastersConfig m)|]].
  - assert (CountElasticsearchMasters (es_NodePools (esc_Spec (mastersCluster m))) = Ret m) as Hcount.
    { rewrite CountElasticsearchMasters_spec by (repeat constructor; by eexists).
      change (masters_total _) with (m + 0). rewrite Z.add_0_r. f_equal. apply int32_wrap_id. int32_lia. }
    unfold esConfigConfigMap, generateConfig, configMinimumMasters.
    change (es_MinimumMasters (esc_Spec (mastersCluster m))) with (@None Z). cbv iota. by rewrite Hcount.
  - apply steady_run; [done|apply rescaledState_steady].
Qed.

Lemma rescaled_masters_keep_quorum_witness :
  generateConfig (mastersCluster 5) = Ret (sprintfConfigTemplate 3) ∧
  mastersConfig 3 = mkConfigMap (cm_Meta (mastersConfig 3)) (Some {[ "elasticsearch.yml" := sprintfConfigTemplate 2 ]}) ∧
  lister_Get (ConfigMapLister (rescaledState 5 3)) "default" "es-demo-master" = inr (mastersConfig 3) ∧
  ∃ st, Sync (rescaledState 5 3) (mastersCluster 5) emptyWorld = (Ret (st, None), emptyWorld).
Proof.
  split; [reflexivity|]. split; [reflexivity|].
  apply (rescaled_masters_keep_quorum 5 3). unfold int32_max. lia.
Defined.

(** ** The returned status *)

Definition setFor (s : State) (c : ElasticsearchCluster) (np : ElasticsearchClusterNodePool) : Res StatefulSet :=
  lister_Get (StatefulSetLister s) (esc_Namespace c) (NodePoolResourceName c np).

Lemma updatePoolStatuses_spec s c pools m :
  NoDup (map enp_Name pools) →
  (∀ np err, np ∈ pools → setFor s c np = inl err → IsNotFound (Some err) = true) →
  ∃ m', updatePoolStatuses s c pools m = (m', None) ∧
    (∀ np, np ∈ pools → m' !! enp_Name np =
       match setFor s c np with
       | inr ss => Some (mkElasticsearchClusterNodePoolStatus (sst_ReadyReplicas (ss_Status ss)))
       | inl _ => m !! enp_Name np
       end) ∧
    (∀ name, name ∉ map enp_Name pools → m' !! name = m !! name).
Proof.
  revert m. induction pools as [|np pools IH]; simpl; intros m Hnd Herr.
  { exists m. split_and!; [done|by intros ? ?%not_elem_of_nil|done]. }
  apply NoDup_cons in Hnd as [Hnp Hnd].
  pose proof (λ m0, IH m0 Hnd (λ np' err Hin, Herr np' err (list_elem_of_further _ _ _ Hin))) as HI.
  assert (∀ np', np' ∈ pools → enp_Name np' ≠ enp_Name np) as Hne.
  { intros np' Hin Heq. apply Hnp. rewrite <-Heq. by apply list_elem_of_fmap_2. }
  fold (setFor s c np). destruct (setFor s c np) as [err|ss] eqn:Eset.
  - rewrite (Herr np err) by set_solver. destruct (HI m) as (m' & Hm' & Hin & Hout).
    exists m'. split_and!; [done|..].
    + intros np' [->|Hin']%elem_of_cons; [rewrite Eset; by apply Hout|by apply Hin].
    + intros name Hname. apply Hout. set_solver.
  - set (st := mkElasticsearchClusterNodePoolStatus (sst_ReadyReplicas (ss_Status ss))).
    destruct (HI (<[enp_Name np := st]> m)) as (m' & Hm' & Hin & Hout).
    exists m'. split_and!; [done|..].
    + intros np' [->|Hin']%elem_of_cons; [rewrite Eset, Hout by done; by rewrite lookup_insert_eq|].
      rewrite Hin by done. destruct (setFor s c np'); [|done]. by rewrite lookup_insert_ne by auto using not_eq_sym.
    + intros name Hname. rewrite Hout by set_solver. apply lookup_insert_ne. set_solver.
Qed.

(** The pools' statuses that a status reports: each pool whose set exists has
    the ready replicas of the set, the other entries are as before; a nil map
    stays nil. *)
Definition reportsReady (s : State) (c : ElasticsearchCluster) (st : ElasticsearchClusterStatus) : Prop :=
  match est_NodePools (esc_Status c) with
  | None => est_NodePools st = None
  | Some m => ∃ m', est_NodePools st = Some m' ∧
      (∀ np, np ∈ es_NodePools (esc_Spec c) → m' !! enp_Name np =
         match setFor s c np with
         | inr ss => Some (mkElasticsearchClusterNodePoolStatus (sst_ReadyReplicas (ss_Status ss)))
         | inl _ => m !! enp_Name np
         end) ∧
      (∀ name, name ∉ map enp_Name (es_NodePools (esc_Spec c)) → m' !! name = m !! name)
  end.

(** The status Sync returns reports the ready replicas of every pool whose set exists and
    keeps the other entries; with a nil NodePools map it stays nil, because the status is copied
    before the deferred update runs. *)
Theorem sync_status_ready_replicas s c w st r w' :
  cfg_Paused (es_Config (esc_Spec c)) = false →
  NoDup (map enp_Name (es_NodePools (esc_Spec c))) →
  (∀ np err, np ∈ es_NodePools (esc_Spec c) → setFor s c np = inl err → IsNotFound (Some err) = true) →
  Sync s c w = (Ret (st, r), w') →
  reportsReady s c st.
Proof.
  intros Hp Hnd Herr. unfold Sync. simpl. rewrite Hp. intros Hrun. unfold reportsReady.
  apply gom_bind_inv in Hrun as (err & w1 & _ & [= <- <- <-]). simpl.
  destruct (est_NodePools (esc_Status c)) as [m|] eqn:Em; [|done].
  unfold updateClusterStatus. simpl. rewrite Em. simpl.
  destruct (updatePoolStatuses_spec s (syncPausedConditions (Now s) c) (es_NodePools (esc_Spec c)) m)
    as (m' & Hm' & Hin & Hout); [done|exact Herr|].
  exists m'. split; [|done]. by rewrite Hm'.
Qed.

Lemma sync_status_ready_replicas_witness :
  ∃ st r w', Sync steadyState demoCluster emptyWorld = (Ret (st, r), w') ∧
    reportsReady steadyState demoCluster st.
Proof.
  destruct (Sync steadyState demoCluster emptyWorld) as [[[st r]|p] w'] eqn:Hrun;
    [|exfalso; vm_compute in Hrun; discriminate].
  exists st, r, w'. split; [reflexivity|].
  apply (sync_status_ready_replicas steadyState demoCluster emptyWorld st r w');
    [reflexivity|decide_closed| |exact Hrun].
  intros np err Hnp Herr. destruct (proj1 (Forall_forall _ _) (steady_pools _ _ steadyState_steady) np Hnp)
    as (ss & Hss & _). unfold setFor in Herr. congruence.
Defined.

(** ** Progress *)

Definition isConverged (s : State) (c : ElasticsearchCluster) (np : ElasticsearchClusterNodePool) : bool :=
  match nextActionForNodePool s c np with
  | Ret (inr None) => true
  | _ => false
  end.

(** The number of pools that still need an action. *)
Definition remaining (s : State) (c : ElasticsearchCluster) : nat :=
  length (List.filter (λ np, negb (isConverged s c np)) (es_NodePools (esc_Spec c))).

Lemma isConverged_spec s c np : isConverged s c np = true ↔ poolConverged s c np.
Proof.
  rewrite <-nextActionForNodePool_None. unfold isConverged.
  destruct (nextActionForNodePool s c np) as [[|[]]|]; naive_solver.
Qed.

Lemma NodePoolResourceName_inj c np np' :
  NodePoolResourceName c np = NodePoolResourceName c np' → enp_Name np = enp_Name np'.
Proof. unfold NodePoolResourceName. intros H. apply (inj (String.append _)) in H. by simplify_eq/=. Qed.

(** Converging one pool leaves the others as they were. *)
Lemma remaining_decreases s s' c np ss :
  NoDup (map enp_Name (es_NodePools (esc_Spec c))) → np ∈ es_NodePools (esc_Spec c) →
  ¬ poolConverged s c np → reflects ss s s' →
  ss_Namespace ss = esc_Namespace c → ss_Name ss = NodePoolResourceName c np → matchesPool c np ss →
  (remaining s' c < remaining s c)%nat.
Proof.
  intros Hnd Hin Hnc Hr Hns Hname Hm. unfold remaining.
  apply list_elem_of_split in Hin as (pre & post & Heq). rewrite Heq in *.
  assert (isConverged s' c np = true) as Hc'.
  { apply isConverged_spec. exists ss. split; [|done]. rewrite Hr. by rewrite bool_decide_eq_true_2. }
  assert (isConverged s c np = false) as Hc.
  { destruct (isConverged s c np) eqn:E; [|done]. by apply isConverged_spec in E. }
  assert (∀ np', np' ∈ pre ++ post → isConverged s' c np' = isConverged s c np') as Hsame.
  { intros np' Hnp'. unfold isConverged, nextActionForNodePool. rewrite Hr, bool_decide_eq_false_2; [done|].
    intros [_ Heq']. rewrite Hname in Heq'. apply NodePoolResourceName_inj in Heq'.
    rewrite map_app in Hnd. simpl in Hnd. apply NoDup_app in Hnd as (_ & Hpre & [Hpost _]%NoDup_cons).
    apply elem_of_app in Hnp' as [?|?].
    - apply (Hpre (enp_Name np')); [by apply list_elem_of_fmap_2|]. rewrite Heq'. set_solver.
    - apply Hpost. rewrite <-Heq'. by apply list_elem_of_fmap_2. }
  assert (∀ l, l ⊆ pre ++ post →
    List.filter (λ np, negb (isConverged s' c np)) l = List.filter (λ np, negb (isConverged s c np)) l) as Hf.
  { intros l Hl. induction l as [|x l IH]; simpl; [done|].
    rewrite Hsame, IH by set_solver. done. }
  rewrite !List.filter_app. simpl. rewrite Hc, Hc', !length_app. simpl. rewrite !Hf by set_solver. lia.
Qed.

Section progress.
Context (s : State) (c : ElasticsearchCluster).
Context `{!LawfulLister ss_Meta (StatefulSetLister s)}.

Lemma create_converges np ss cs w w' r :
  is_Some (enp_Replicas np) → did w cs w' →
  CreateNodePool_Execute s c np w = (Ret r, w') → omap writtenSet cs = [ss] →
  ss_Namespace ss = esc_Namespace c ∧ ss_Name ss = NodePoolResourceName c np ∧ matchesPool c np ss.
Proof.
  intros Hn Hd Hrun Hcs. pose proof (triple_run _ _ _ _ _ _ (create_trace s c np) Hrun Hd) as Ht.
  destruct Ht as [->|(ss' & Hss & ->)]; [done|]. simpl in Hcs. simplify_eq.
  destruct (nodePoolStatefulSet_name _ _ _ Hss). auto using created_set_matches_pool.
Qed.

Lemma scale_converges np sc ss cs w w' r :
  nextActionForNodePool s c np = Ret (inr (Some (ActScale sc))) → did w cs w' →
  Scale_Execute s sc w = (Ret r, w') → omap writtenSet cs = [ss] →
  ss_Namespace ss = esc_Namespace c ∧ ss_Name ss = NodePoolResourceName c np ∧ matchesPool c np ss.
Proof.
  intros (ss0 & n & Hget & Han & Hn & ->)%nextActionForNodePool_Scale Hd Hrun Hcs.
  pose proof (triple_run _ _ _ _ _ _ (scale_replicas_trace s c np n) Hrun Hd) as Ht.
  destruct Ht as [->|(ss' & Hget' & ->)]; [done|]. simpl in Hcs. res_eq. simplify_eq.
  destruct (get_sound _ _ _ Hget) as [Hns Hname].
  split_and!; [exact Hns|exact Hname|by apply matchesPool_set_Replicas].
Qed.
End progress.

(** C23. Every CreateNodePool or Scale action that writes a set makes progress: once the cache
    shows the written set, strictly fewer pools need an action. *)
Theorem action_progress s c a w r w' cs ss s' :
  LawfulLister ss_Meta (StatefulSetLister s) →
  NoDup (map enp_Name (es_NodePools (esc_Spec c))) → replicas_set (es_NodePools (esc_Spec c)) →
  nextAction s c = Ret (inr (Some a)) → Action_Name a ≠ "UpdateVersion" →
  Action_Execute s a w = (Ret r, w') → did w cs w' → omap writtenSet cs = [ss] → reflects ss s s' →
  (remaining s' c < remaining s c)%nat.
Proof.
  intros Hl Hnd Hrep (pre & np & post & Heq & _ & Hnc & Ha)%nextActionLoop_Some Hname Hrun Hd Hcs Hr.
  assert (np ∈ es_NodePools (esc_Spec c)) as Hin by (rewrite Heq; set_solver).
  assert (ss_Namespace ss = esc_Namespace c ∧ ss_Name ss = NodePoolResourceName c np ∧ matchesPool c np ss)
    as (? & ? & ?); [|by eapply remaining_decreases].
  pose proof (nextActionForNodePool_Some _ _ _ _ Ha) as [->|[->|(n & Hn & ->)]]; [..|done|].
  - eapply create_converges; [|done..]. by apply (proj1 (Forall_forall _ _) Hrep).
  - by eapply scale_converges.
Qed.

(** The first sync of the demo cluster creates the set of its master pool. *)
Definition createdMasterSet : StatefulSet :=
  match nodePoolStatefulSet demoCluster masterPool with
  | inr ss => ss
  | inl _ => demoSet "" "" 0 0 0
  end.

Lemma reflects_created ss : reflects ss (setsAndPilots [] []) (setsAndPilots [ss] []).
Proof.
  intros ns name. change (StatefulSetLister (setsAndPilots [ss] [])) with (listerOf ss_Meta [ss]).
  change (StatefulSetLister (setsAndPilots [] [])) with (listerOf ss_Meta []).
  case_bool_decide as H.
  - destruct H as [-> ->]. apply (listerOf_Get ss_Meta [ss] ss); [apply NoDup_singleton|set_solver|done].
  - rewrite !listerOf_Get_None; [done|set_solver|]. simpl. rewrite list_elem_of_singleton.
    intros [= -> ->]. by apply H.
Qed.

Lemma action_progress_witness :
  (remaining (setsAndPilots [createdMasterSet] []) demoCluster < remaining (setsAndPilots [] []) demoCluster)%nat.
Proof.
  assert (nodePoolStatefulSet demoCluster masterPool = inr createdMasterSet) as Hss by reflexivity.
  apply (action_progress (setsAndPilots [] []) demoCluster (ActCreateNodePool demoCluster masterPool) emptyWorld
           None
           (log_effect (EffEvent (mkEvent "default" "demo" EventTypeNormal "CreateNodePool"
                                    "Created node pool %q" [AStr "master"]))
              (log_effect (EffCall (CreateStatefulSet "default" createdMasterSet)) emptyWorld))
           [CreateStatefulSet "default" createdMasterSet] createdMasterSet).
  - apply listerOf_lawful.
  - decide_closed.
  - repeat constructor; by eexists.
  - reflexivity.
  - discriminate.
  - simpl. unfold CreateNodePool_Execute. rewrite Hss. reflexivity.
  - apply did_call_event.
  - reflexivity.
  - apply reflects_created.
Defined.

(** ** Completion of a version update *)

Lemma completed_update_annotation c ss an :
  map_get (om_Annotations (ss_Meta (set_Annotation ElasticsearchNodePoolVersionAnnotation
    (Version_String (es_Version (esc_Spec c))) an ss))) ElasticsearchNodePoolVersionAnnotation =
  Some (Version_String (es_Version (esc_Spec c))).
Proof. simpl. apply lookup_insert_eq. Qed.

(** What the guards of UpdateVersion.Execute ask for. *)
Definition updateReady (c : ElasticsearchCluster) (ss : StatefulSet) (an : smap) : Prop :=
  (∃ health, est_Health (esc_Status c) = Some health ∧ health ≠ ElasticsearchClusterHealthRed) ∧
  om_Annotations (ss_Meta ss) = Some an ∧
  (∃ cur v, an !! ElasticsearchNodePoolVersionAnnotation = Some cur ∧ NewVersion cur = Some v ∧
     Version_Equal (es_Version (esc_Spec c)) v = false) ∧
  (∃ img, esImageToUse (esc_Spec c) = inr img) ∧
  ss_Replicas ss = Some (sst_ReadyReplicas (ss_Status ss)) ∧ ss_Containers ss ≠ [].

(** C26. When the guards hold and every pilot reports the new version, UpdateVersion.Execute
    records the version on the set, and once the cache shows it the pool needs no further version
    update. *)
Theorem update_version_completes s c np ss an w :
  setFor s c np = inr ss → updateReady c ss an → pilotsUpToDate s c np ss = None →
  let done := set_Annotation ElasticsearchNodePoolVersionAnnotation
                (Version_String (es_Version (esc_Spec c))) an ss in
  (∃ r w', Action_Execute s (ActUpdateVersion (mkUpdateVersion (Some c) (Some np))) w = (Ret r, w') ∧
     did w [UpdateStatefulSet (ss_Namespace ss) done] w') ∧
  ∀ s' a, lister_Get (StatefulSetLister s') (esc_Namespace c) (NodePoolResourceName c np) = inr done →
    nextActionForNodePool s' c np = Ret (inr (Some a)) → Action_Name a ≠ "UpdateVersion".
Proof.
  intros Hset ((health & Hh & Hred) & Han & (cur & v & Hcur & Hv & Hne) & (img & Himg) & Hd & Hct) Hup done.
  unfold setFor in Hset. split.
  - simpl. unfold UpdateVersion_Execute. simpl. rewrite Hset, Hh, bool_decide_eq_false_2, Han by done.
    simpl. rewrite Hcur. simpl. rewrite Hv, Hne, Himg, Hd. unfold deref, lift, mbind, gom_bind. simpl.
    rewrite bool_decide_eq_true_2 by done. simpl.
    destruct (ss_Containers ss) as [|c0 rest]; [done|]. unfold updateSwitch. rewrite Hup.
    apply (performUpdate_spec s c done).
  - intros s' a Hget. unfold nextActionForNodePool. rewrite Hget. unfold done. rewrite completed_update_annotation.
    rewrite bool_decide_eq_true_2 by done. simpl. change (ss_Replicas (set_Annotation _ _ _ _)) with (ss_Replicas ss).
    destruct (ss_Replicas ss) as [n|]; [|done].
    destruct (enp_Replicas np) as [m|]; [|done]. unfold mbind, outcome_bind. simpl.
    case_bool_decide; simpl; [done|]. by intros [= <-].
Qed.

Definition updatedState : State :=
  setsAndPilots [updatingSet] [pilotOf "data" 0 7 version562; pilotOf "data" 1 0 version562].

Lemma update_version_completes_witness :
  let an := {[ ElasticsearchNodePoolVersionAnnotation := "5.6.1" ]} : smap in
  let done := set_Annotation ElasticsearchNodePoolVersionAnnotation "5.6.2" an updatingSet in
  (∃ r w', Action_Execute updatedState
      (ActUpdateVersion (mkUpdateVersion (Some updatingCluster) (Some dataPool))) emptyWorld = (Ret r, w') ∧
     did emptyWorld [UpdateStatefulSet "default" done] w') ∧
  ∀ s' a, lister_Get (StatefulSetLister s') "default" "es-demo-data" = inr done →
    nextActionForNodePool s' updatingCluster dataPool = Ret (inr (Some a)) → Action_Name a ≠ "UpdateVersion".
Proof.
  apply (update_version_completes updatedState updatingCluster dataPool updatingSet
           {[ ElasticsearchNodePoolVersionAnnotation := "5.6.1" ]} emptyWorld);
    [vm_compute; reflexivity| |vm_compute; reflexivity].
  split_and!; [by eexists|reflexivity| |by eexists|reflexivity|discriminate].
  exists "5.6.1", version561. split_and!; vm_compute; reflexivity.
Defined.

(** When the wanted version and the version annotation differ only in build metadata, the
    pool is given an UpdateVersion action that does nothing, so it never reaches a pending scale. *)
Theorem metadata_change_stalls s c np ss v cur w :
  setFor s c np = inr ss →
  map_get (om_Annotations (ss_Meta ss)) ElasticsearchNodePoolVersionAnnotation = Some cur →
  NewVersion cur = Some v →
  Version_Equal (es_Version (esc_Spec c)) v = true → Version_String (es_Version (esc_Spec c)) ≠ cur →
  (∃ health, est_Health (esc_Status c) = Some health ∧ health ≠ ElasticsearchClusterHealthRed) →
  nextActionForNodePool s c np = Ret (inr (Some (ActUpdateVersion (mkUpdateVersion (Some c) (Some np))))) ∧
  Action_Execute s (ActUpdateVersion (mkUpdateVersion (Some c) (Some np))) w = (Ret None, w).
Proof.
  intros Hset Han Hv Heq Hne (health & Hh & Hred). unfold setFor in Hset. split.
  - unfold nextActionForNodePool. rewrite Hset, Han. by rewrite bool_decide_eq_false_2.
  - simpl. unfold UpdateVersion_Execute. simpl. rewrite Hset, Hh, bool_decide_eq_false_2 by done.
    destruct (om_Annotations (ss_Meta ss)) as [an|]; [|done]. simpl in Han |- *.
    rewrite Han. simpl. by rewrite Hv, Heq.
Qed.

Definition metadataCluster : ElasticsearchCluster :=
  demoClusterAt (mkVersion 5 6 1 "" "build2") false [dataPool].

Lemma metadata_change_stalls_witness :
  nextActionForNodePool updatingState metadataCluster dataPool =
    Ret (inr (Some (ActUpdateVersion (mkUpdateVersion (Some metadataCluster) (Some dataPool))))) ∧
  Action_Execute updatingState
    (ActUpdateVersion (mkUpdateVersion (Some metadataCluster) (Some dataPool))) emptyWorld = (Ret None, emptyWorld).
Proof.
  apply (metadata_change_stalls updatingState metadataCluster dataPool updatingSet version561 "5.6.1" emptyWorld);
    [vm_compute; reflexivity..|discriminate|by eexists].
Defined.
