(* ===== verification/ESController.v ===== *)
(** * The Elasticsearch controller around the control loop

    The [sync] of one key in pkg/controllers/elasticsearch/elasticsearch.go:
    the cluster is looked up, synced, and its status written. *)

From S2P Require Import Prelude GoStrings Semver K8s WorkQueue Types Cluster Fixtures Handlers ESUtil ESResources ESScale ESUpdateVersion ESControl ESControlFacts ESSync.

(** updateStatus: the status is set on a copy. *)
Definition es_updateStatus (s : State) (c : ElasticsearchCluster) (status : ElasticsearchClusterStatus)
    : GoM World (option Err) :=
  let copy := mkElasticsearchCluster (esc_Meta c) (esc_Spec c) status in
  api_call s (UpdateElasticsearchClusterStatus (esc_Namespace c) copy).

Definition es_sync (s : State) (key : string) : GoM World (option Err) :=
  match SplitMetaNamespaceKey key with
  | inl err => mret (Some err)
  | inr (namespace, name) =>
      match lister_Get (ElasticsearchClusterLister s) namespace name with
      | inl err => if IsNotFound (Some err) then mret None else mret (Some err)
      | inr es =>
          '(status, err) ← Sync s es;
          updateErr ← es_updateStatus s es status;
          match err with
          | None => mret updateErr
          | Some _ => mret (NewAggregate [err; updateErr])
          end
      end
  end.

(** ** Correctness *)

Definition esStatusUpdate (call : APICall) : Prop := ∃ ns c, call = UpdateElasticsearchClusterStatus ns c.

Lemma no_status_prefix plan cs :
  cs `prefix_of` plan → Forall (λ call, ¬ esStatusUpdate call) plan → Forall (λ call, ¬ esStatusUpdate call) cs.
Proof. intros [post ->]. by rewrite Forall_app; intros []. Qed.

Lemma poolCalls_no_status s c ok cs : poolCalls s c ok cs → Forall (λ call, ¬ esStatusUpdate call) cs.
Proof.
  intros [[-> _]|[(_ & np & _ & _ & _ & _ & Hcs)|(_ & sel & sets & _ & _ & Hdel & _)]]; [constructor|..].
  - destruct Hcs as [[->|(ss & ss' & _ & -> & _)]|[_ [->|(ss & _ & ->)]]]; repeat constructor; by intros (? & ? & ?).
  - eapply no_status_prefix; [exact Hdel|]. apply Forall_fmap, Forall_true. by intros ss (? & ? & ?).
Qed.

Lemma supportPlan_no_status s c : Forall (λ call, ¬ esStatusUpdate call) (supportPlan s c).
Proof.
  unfold supportPlan, serviceAccountPlan, servicePlan, rolePlan, roleBindingPlan. rewrite !Forall_app.
  split_and!; try (repeat case_match; repeat constructor; by intros (? & ? & ?)).
  apply Forall_forall. intros call (np & _ & Hnp)%list_elem_of_omap.
  unfold configMapCall in Hnp. repeat case_match; simplify_eq. by intros (? & ? & ?).
Qed.

(** Sync itself never writes the status of the cluster. *)
Lemma Sync_no_status s c : triple (Sync s c) (λ o cs, Forall (λ call, ¬ esStatusUpdate call) cs).
Proof.
  eapply triple_weaken; [apply esSync_trace|]. intros o cs Hcs. simpl in Hcs.
  destruct (cfg_Paused _); [subst; constructor|]. destruct Hcs as (support & tail & -> & Hpre & Htail).
  apply Forall_app. split; [eapply no_status_prefix; [exact Hpre|apply supportPlan_no_status]|].
  destruct Htail as [[_ Htail]|[-> _]]; [by eapply poolCalls_no_status|constructor].
Qed.

(** The Elasticsearch controller ends every sync of an existing cluster with exactly one
    status update, of the cached cluster with the status Sync returned, and returns nil exactly
    when both Sync and the update succeed; a panic in Sync skips the update. *)
Theorem es_controller_sync s key ns name c w o w1 :
  SplitMetaNamespaceKey key = inr (ns, name) →
  lister_Get (ElasticsearchClusterLister s) ns name = inr c → Sync s c w = (o, w1) →
  match o with
  | Panic p => es_sync s key w = (Panic p, w1)
  | Ret (status, err) =>
      let update := UpdateElasticsearchClusterStatus (esc_Namespace c)
                      (mkElasticsearchCluster (esc_Meta c) (esc_Spec c) status) in
      ∃ r cs, es_sync s key w = (Ret r, log_effect (EffCall update) w1) ∧
        did w (cs ++ [update]) (log_effect (EffCall update) w1) ∧
        Forall (λ call, ¬ esStatusUpdate call) cs ∧
        (r = None ↔ err = None ∧ Clientset s (w_log w1) update = None)
  end.
Proof.
  intros Hkey Hget Hrun. unfold es_sync. rewrite Hkey, Hget. destruct o as [[status err]|p].
  - set (update := UpdateElasticsearchClusterStatus (esc_Namespace c)
      (mkElasticsearchCluster (esc_Meta c) (esc_Spec c) status)).
    rewrite (gom_bind_ret _ _ _ _ _ Hrun).
    destruct (Sync_no_status s c w) as (o & w2 & cs & Hrun2 & Hd & Hcs). rewrite Hrun in Hrun2.
    injection Hrun2 as <- <-.
    assert (es_updateStatus s c status w1 = (Ret (Clientset s (w_log w1) update), log_effect (EffCall update) w1))
      as Hupd by done.
    rewrite (gom_bind_ret _ _ _ _ _ Hupd). set (answer := Clientset s (w_log w1) update).
    destruct err as [e|].
    + exists (NewAggregate [Some e; answer]), cs. split; [done|].
      split; [eapply did_trans; [exact Hd|apply did_log_call]|]. split; [done|].
      split; [by destruct answer|by intros [? _]].
    + exists answer, cs. split; [done|]. split; [eapply did_trans; [exact Hd|apply did_log_call]|].
      split; [done|]. naive_solver.
  - by rewrite (gom_bind_panic _ _ _ _ _ Hrun).
Qed.

Lemma es_controller_sync_witness :
  let c := demoClusterAt version561 true [masterPool] in
  let s := withClusters [] [c] (setsAndPilots [] []) in
  ∃ status r cs w', es_sync s "default/demo" emptyWorld = (Ret r, w') ∧
    did emptyWorld (cs ++ [UpdateElasticsearchClusterStatus "default"
      (mkElasticsearchCluster (esc_Meta c) (esc_Spec c) status)]) w' ∧
    Forall (λ call, ¬ esStatusUpdate call) cs.
Proof.
  intros c s.
  destruct (es_controller_sync s "default/demo" "default" "demo" c emptyWorld
    (Ret (esc_Status (syncPausedConditions (Now s) c), None)) emptyWorld) as (r & cs & Hrun & Hd & Hcs & _).
  - vm_compute. reflexivity.
  - get_listed c.
  - reflexivity.
  - do 4 eexists. split; [exact Hrun|]. split; [exact Hd|exact Hcs].
Defined.
