(* ===== verification/PilotLabels.v ===== *)
(** * Pilots that the Elasticsearch actions cannot see

    The pilot controller and the Elasticsearch actions meet in the cache of
    pilots: PilotForPod writes what pilotsForStatefulSet later selects by
    label. *)

From S2P Require Import Prelude GoStrings Semver K8s WorkQueue Types Cluster Fixtures Handlers PilotController ESUtil ESScale ESUpdateVersion.

Section labels.
Context (s : State) `{!LawfulLister pil_Meta (PilotLister s), !LawfulLister ss_Meta (StatefulSetLister s)}.

(** Every pilot in the cache has the labels it was created with by the pilot controller. *)
Definition pilotsFromPods : Prop :=
  ∀ ns name p, lister_Get (PilotLister s) ns name = inr p →
    ∃ pod, om_Labels (pil_Meta p) = om_Labels (pil_Meta (PilotForPod pod)).

Lemma unlabelled_not_selected cluster pool sel :
  SelectorForNodePool cluster pool = inr sel → Selector_Matches sel None = false.
Proof.
  unfold SelectorForNodePool, SelectorForCluster, NewRequirement. intros Hsel.
  destruct (IsValidLabelValue pool); [|done]. destruct (IsValidLabelValue cluster); [|done]. by injection Hsel as <-.
Qed.

Lemma created_pilot_absent cluster np ss i p : pilotsFromPods → ¬ pilotAt s cluster np ss i p.
Proof.
  intros Hfrom (sel & pilots & Hsel & Hlist & [Hin _]%findPilot_Some).
  destruct (list_sound _ _ _ _ Hlist Hin) as [_ Hm].
  destruct (Hfrom _ _ _ (list_get _ _ _ _ Hlist Hin)) as [pod Hl]. rewrite Hl in Hm.
  pose proof (unlabelled_not_selected _ _ _ Hsel) as Hf. simpl in Hm. congruence.
Qed.

(** While the pilots in the cache have the labels the pilot controller gives them, which are
    none, a data pool is never scaled down and its pilots never count as up to date, because the
    actions select pilots by cluster and pool label. *)
Theorem created_pilots_block_scale_down cluster np ss n cur w :
  pilotsFromPods →
  lister_Get (StatefulSetLister s) (esc_Namespace cluster) (NodePoolResourceName cluster np) = inr ss →
  ss_Replicas ss = Some cur → 0 ≤ n < cur → cur ≤ int32_max →
  ContainsElasticsearchRole (enp_roles np) ElasticsearchRoleData = true →
  pilotsUpToDate s cluster np ss ≠ None ∧
  ∃ r w', Scale_Execute s (mkScale (Some cluster) (Some np) n) w = (Ret r, w') ∧ did w [] w'.
Proof.
  intros Hfrom Hget Hcur Hn Hmax Hdata. destruct (get_sound _ _ _ Hget) as [Hns _]. split.
  - intros Hup. destruct (pilotsUpToDate_None s cluster np ss cur Hcur Hup 0) as (p & Hp & _); [lia|].
    by apply created_pilot_absent in Hp.
  - unfold Scale_Execute. cbn [sc_Cluster sc_NodePool sc_Replicas]. rewrite Hget, Hcur.
    assert (int32_sub n cur ≠ 0) as Hdiff by (rewrite int32_sub_id; int32_lia).
    rewrite bool_decide_eq_false_2 by done.
    destruct (canScaleNodePool_spec s cluster np ss n cur w) as (r & w1 & Hrun & Hdid & Hr); try done; [lia..|].
    rewrite (gom_bind_ret _ _ _ _ _ Hrun). destruct r as [err|[]]; [by do 2 eexists| |by do 2 eexists].
    destruct (proj1 Hr eq_refl) as (_ & [Hup|[Hnd|[Hall _]]]); [lia|congruence|].
    destruct (Hall 0) as [p Hp]; [lia|]. by apply created_pilot_absent in Hp.
Qed.
End labels.

(** ** A drained data pool that is not scaled down *)

(** The pilots of two pods of the data pool *)
Definition podNamed (name : string) : Pod := mkPod (metaOf name ("uid-" +:+ name)) (mkPodSpec None "" None "" None [] [] []).

Definition createdPilots : State :=
  setsAndPilots [demoSet "data" "5.6.1" 2 2 2] [PilotForPod (podNamed "es-demo-data-0"); PilotForPod (podNamed "es-demo-data-1")].

Lemma createdPilots_from_pods : pilotsFromPods createdPilots.
Proof.
  intros ns name p Hget. exists (podNamed "es-demo-data-0").
  change (lister_Get (listerOf pil_Meta [PilotForPod (podNamed "es-demo-data-0"); PilotForPod (podNamed "es-demo-data-1")]) ns name = inr p)
    in Hget.
  cbn [listerOf cacheLister lister_Get] in Hget. destruct (byKey _ _ !! (ns, name)) as [q|] eqn:Hq; [|done].
  injection Hget as <-. apply byKey_in in Hq. rewrite !elem_of_cons in Hq.
  destruct Hq as [->|[->|Hq%not_elem_of_nil]]; done.
Qed.

Lemma created_pilots_block_scale_down_witness :
  pilotsUpToDate createdPilots demoCluster dataPool (demoSet "data" "5.6.1" 2 2 2) ≠ None ∧
  ∃ r w', Scale_Execute createdPilots (mkScale (Some demoCluster) (Some dataPool) 1) emptyWorld = (Ret r, w') ∧ did emptyWorld [] w'.
Proof.
  apply (created_pilots_block_scale_down createdPilots (LawfulLister0 := listerOf_lawful _ _) (LawfulLister1 := listerOf_lawful _ _)
    demoCluster dataPool (demoSet "data" "5.6.1" 2 2 2) 1 2 emptyWorld createdPilots_from_pods);
    [vm_compute; reflexivity|reflexivity|lia|unfold int32_max; lia|vm_compute; reflexivity].
Defined.
