(* ===== verification/Memory.v ===== *)
(** * Memory, references and copies

    The values of the other files are read: a pointer is an option, a slice a
    list.  This file has the memory behind them, for the code whose point is
    sharing: the generated deep copies.  A struct with pointers is a record of
    references ([ptr R] points to a cell that holds an [R]); [rread] gives the
    value a reference stands for, and the locations it reaches.

    [Copyable] is what a deep copy promises: the copy stands for the same
    value, reaches only locations that did not exist before, and the old memory
    is unchanged.  It is proved once for pointers and slices; a struct
    follows from its fields ([copy_struct]). *)

From S2P Require Import Prelude GoStrings Semver K8s Types CassandraVersion.

Abbreviation loc := positive.

(** A pointer to (or a slice or map over) a cell of type [R]; [None] is nil. *)
Record ptr (R : Type) := mkPtr { addr : option loc }.
Arguments mkPtr {R} addr.
Arguments addr {R} p : rename.

Definition nilptr {R} : ptr R := mkPtr None.

(** ** Structs with references *)

Record rOwnerReference := mkROwnerReference {
  ror_APIVersion : string;
  ror_Kind : string;
  ror_Name : string;
  ror_UID : string;
  ror_Controller : ptr bool;
  ror_BlockOwnerDeletion : ptr bool;
}.

Record rObjectMeta := mkRObjectMeta {
  rom_Name : string;
  rom_Namespace : string;
  rom_UID : string;
  rom_ResourceVersion : string;
  rom_Labels : ptr smap;
  rom_Annotations : ptr smap;
  rom_OwnerReferences : ptr (list rOwnerReference);
  rom_DeletionTimestamp : ptr Z;
}.

(** big.Int: a sign and the words of the absolute value, least significant
    first, in a slice of their own. *)
Record rInt := mkRInt { rbi_neg : bool; rbi_abs : ptr (list Z) }.

(** inf.Dec: unscaled * 10^-scale. *)
Record rDec := mkRDec { rdec_unscaled : rInt; rdec_scale : Z }.

(** resource.Quantity: an int64Amount, or an inf.Dec behind a pointer where the
    pointer is not nil. *)
Record rQuantity := mkRQuantity {
  rq_value : Z;
  rq_scale : Z;
  rq_d : ptr rDec;
  rq_s : string;
  rq_Format : string;
}.

Record rResourceRequirements := mkRResourceRequirements {
  rrr_Limits : ptr (gmap string rQuantity);
  rrr_Requests : ptr (gmap string rQuantity);
}.

Record rPersistenceConfig := mkRPersistenceConfig {
  rpc_Size : rQuantity;
  rpc_StorageClass : ptr string;
}.

Record rNavigatorSecurityContext := mkRNavigatorSecurityContext { rnsc_RunAsUser : ptr Z }.

Record rNavigatorClusterConfig := mkRNavigatorClusterConfig {
  rcfg_PilotImage : ImageSpec;
  rcfg_SecurityContext : rNavigatorSecurityContext;
  rcfg_Paused : bool;
}.

Record rNavigatorClusterStatus := mkRNavigatorClusterStatus { rncs_Conditions : ptr (list ClusterCondition) }.

Record rElasticsearchClusterNodePool := mkRElasticsearchClusterNodePool {
  renp_Name : string;
  renp_Replicas : ptr Z;
  renp_Roles : ptr (list string);
  renp_NodeSelector : ptr smap;
  renp_Resources : rResourceRequirements;
  renp_Persistence : ptr rPersistenceConfig;
  renp_SchedulerName : string;
}.

Record rElasticsearchClusterSpec := mkRElasticsearchClusterSpec {
  res_Config : rNavigatorClusterConfig;
  res_Version : Version;
  res_Plugins : ptr (list string);
  res_NodePools : ptr (list rElasticsearchClusterNodePool);
  res_Image : ptr ImageSpec;
  res_MinimumMasters : ptr Z;
}.

Record rElasticsearchClusterStatus := mkRElasticsearchClusterStatus {
  rest_Conditions : rNavigatorClusterStatus;
  rest_NodePools : ptr (gmap string ElasticsearchClusterNodePoolStatus);
  rest_Health : ptr string;
}.

Record rElasticsearchCluster := mkRElasticsearchCluster {
  resc_Meta : rObjectMeta;
  resc_Spec : rElasticsearchClusterSpec;
  resc_Status : rElasticsearchClusterStatus;
}.

Record rCassVersion := mkRCassVersion {
  rcv_versionString : string;
  rcv_semver : ptr HVersion;
}.

Record rCassandraClusterNodePool := mkRCassandraClusterNodePool {
  rcnp_Name : string;
  rcnp_Replicas : ptr Z;
  rcnp_Persistence : ptr rPersistenceConfig;
  rcnp_NodeSelector : ptr smap;
  rcnp_Rack : ptr string;
  rcnp_Datacenter : ptr string;
  rcnp_Resources : rResourceRequirements;
  rcnp_SchedulerName : string;
}.

Record rCassandraClusterSpec := mkRCassandraClusterSpec {
  rcs_Config : rNavigatorClusterConfig;
  rcs_NodePools : ptr (list rCassandraClusterNodePool);
  rcs_Image : ptr ImageSpec;
  rcs_Version : rCassVersion;
}.

Record rCassandraClusterStatus := mkRCassandraClusterStatus {
  rcst_Conditions : rNavigatorClusterStatus;
  rcst_NodePools : ptr (gmap string CassandraClusterNodePoolStatus);
}.

Record rCassandraCluster := mkRCassandraCluster {
  rcass_Meta : rObjectMeta;
  rcass_Spec : rCassandraClusterSpec;
  rcass_Status : rCassandraClusterStatus;
}.

Record rElasticsearchPilotStatus := mkRElasticsearchPilotStatus {
  reps_Documents : ptr Z;
  reps_Version : ptr Version;
}.

Record rCassandraPilotStatus := mkRCassandraPilotStatus { rcps_Version : ptr rCassVersion }.

Record rPilotStatus := mkRPilotStatus {
  rpst_Conditions : ptr (list PilotCondition);
  rpst_Elasticsearch : ptr rElasticsearchPilotStatus;
  rpst_Cassandra : ptr rCassandraPilotStatus;
}.

Record rPilot := mkRPilot { rpil_Meta : rObjectMeta; rpil_Status : rPilotStatus }.

(** The lists of the API; ListMeta holds only strings and is left out. *)
Record rElasticsearchClusterList := mkRElasticsearchClusterList { rescl_Items : ptr (list rElasticsearchCluster) }.
Record rCassandraClusterList := mkRCassandraClusterList { rcassl_Items : ptr (list rCassandraCluster) }.
Record rPilotList := mkRPilotList { rpill_Items : ptr (list rPilot) }.

(** ** Cells *)

Inductive Cell :=
| CBool (v : bool)
| CInt (v : Z)
| CString (v : string)
| CStrings (v : list string)
| CSmap (v : smap)
| CWords (v : list Z)
| CDec (v : rDec)
| CQuantities (v : gmap string rQuantity)
| CImageSpec (v : ImageSpec)
| CHVersion (v : HVersion)
| CVersion (v : Version)
| CClusterCondition (v : ClusterCondition)
| CClusterConditions (v : list ClusterCondition)
| CPilotCondition (v : PilotCondition)
| CPilotConditions (v : list PilotCondition)
| CESPoolStatus (v : ElasticsearchClusterNodePoolStatus)
| CESPoolStatuses (v : gmap string ElasticsearchClusterNodePoolStatus)
| CCassPoolStatus (v : CassandraClusterNodePoolStatus)
| CCassPoolStatuses (v : gmap string CassandraClusterNodePoolStatus)
| COwners (v : list rOwnerReference)
| CPersistence (v : rPersistenceConfig)
| CSecurityContext (v : rNavigatorSecurityContext)
| CClusterConfig (v : rNavigatorClusterConfig)
| CClusterStatus (v : rNavigatorClusterStatus)
| CESPool (v : rElasticsearchClusterNodePool)
| CESPools (v : list rElasticsearchClusterNodePool)
| CESSpec (v : rElasticsearchClusterSpec)
| CESStatus (v : rElasticsearchClusterStatus)
| CESCluster (v : rElasticsearchCluster)
| CESClusters (v : list rElasticsearchCluster)
| CESClusterList (v : rElasticsearchClusterList)
| CCassVersion (v : rCassVersion)
| CCassPool (v : rCassandraClusterNodePool)
| CCassPools (v : list rCassandraClusterNodePool)
| CCassSpec (v : rCassandraClusterSpec)
| CCassStatus (v : rCassandraClusterStatus)
| CCassCluster (v : rCassandraCluster)
| CCassClusters (v : list rCassandraCluster)
| CCassClusterList (v : rCassandraClusterList)
| CESPilotStatus (v : rElasticsearchPilotStatus)
| CCassPilotStatus (v : rCassandraPilotStatus)
| CPilotStatus (v : rPilotStatus)
| CPilot (v : rPilot)
| CPilots (v : list rPilot)
| CPilotList (v : rPilotList).

Abbreviation Mem := (gmap loc Cell).

(** The types a cell can hold. *)
Class InCell (R : Type) := {
  inj : R → Cell;
  prj : Cell → option R;
  prj_inj r : prj (inj r) = Some r;
}.

#[export] Instance inCBool : InCell bool :=
  {| inj := CBool; prj c := match c with CBool v => Some v | _ => None end; prj_inj r := eq_refl |}.
#[export] Instance inCInt : InCell Z :=
  {| inj := CInt; prj c := match c with CInt v => Some v | _ => None end; prj_inj r := eq_refl |}.
#[export] Instance inCString : InCell string :=
  {| inj := CString; prj c := match c with CString v => Some v | _ => None end; prj_inj r := eq_refl |}.
#[export] Instance inCStrings : InCell (list string) :=
  {| inj := CStrings; prj c := match c with CStrings v => Some v | _ => None end; prj_inj r := eq_refl |}.
#[export] Instance inCSmap : InCell smap :=
  {| inj := CSmap; prj c := match c with CSmap v => Some v | _ => None end; prj_inj r := eq_refl |}.
#[export] Instance inCWords : InCell (list Z) :=
  {| inj := CWords; prj c := match c with CWords v => Some v | _ => None end; prj_inj r := eq_refl |}.
#[export] Instance inCDec : InCell rDec :=
  {| inj := CDec; prj c := match c with CDec v => Some v | _ => None end; prj_inj r := eq_refl |}.
#[export] Instance inCQuantities : InCell (gmap string rQuantity) :=
  {| inj := CQuantities; prj c := match c with CQuantities v => Some v | _ => None end; prj_inj r := eq_refl |}.
#[export] Instance inCImageSpec : InCell ImageSpec :=
  {| inj := CImageSpec; prj c := match c with CImageSpec v => Some v | _ => None end; prj_inj r := eq_refl |}.
#[export] Instance inCHVersion : InCell HVersion :=
  {| inj := CHVersion; prj c := match c with CHVersion v => Some v | _ => None end; prj_inj r := eq_refl |}.
#[export] Instance inCVersion : InCell Version :=
  {| inj := CVersion; prj c := match c with CVersion v => Some v | _ => None end; prj_inj r := eq_refl |}.
#[export] Instance inCClusterCondition : InCell ClusterCondition :=
  {| inj := CClusterCondition; prj c := match c with CClusterCondition v => Some v | _ => None end; prj_inj r := eq_refl |}.
#[export] Instance inCClusterConditions : InCell (list ClusterCondition) :=
  {| inj := CClusterConditions; prj c := match c with CClusterConditions v => Some v | _ => None end; prj_inj r := eq_refl |}.
#[export] Instance inCPilotCondition : InCell PilotCondition :=
  {| inj := CPilotCondition; prj c := match c with CPilotCondition v => Some v | _ => None end; prj_inj r := eq_refl |}.
#[export] Instance inCPilotConditions : InCell (list PilotCondition) :=
  {| inj := CPilotConditions; prj c := match c with CPilotConditions v => Some v | _ => None end; prj_inj r := eq_refl |}.
#[export] Instance inCESPoolStatus : InCell ElasticsearchClusterNodePoolStatus :=
  {| inj := CESPoolStatus; prj c := match c with CESPoolStatus v => Some v | _ => None end; prj_inj r := eq_refl |}.
#[export] Instance inCESPoolStatuses : InCell (gmap string ElasticsearchClusterNodePoolStatus) :=
  {| inj := CESPoolStatuses; prj c := match c with CESPoolStatuses v => Some v | _ => None end; prj_inj r := eq_refl |}.
#[export] Instance inCCassPoolStatus : InCell CassandraClusterNodePoolStatus :=
  {| inj := CCassPoolStatus; prj c := match c with CCassPoolStatus v => Some v | _ => None end; prj_inj r := eq_refl |}.
#[export] Instance inCCassPoolStatuses : InCell (gmap string CassandraClusterNodePoolStatus) :=
  {| inj := CCassPoolStatuses; prj c := match c with CCassPoolStatuses v => Some v | _ => None end; prj_inj r := eq_refl |}.
#[export] Instance inCOwners : InCell (list rOwnerReference) :=
  {| inj := COwners; prj c := match c with COwners v => Some v | _ => None end; prj_inj r := eq_refl |}.
#[export] Instance inCPersistence : InCell rPersistenceConfig :=
  {| inj := CPersistence; prj c := match c with CPersistence v => Some v | _ => None end; prj_inj r := eq_refl |}.
#[export] Instance inCSecurityContext : InCell rNavigatorSecurityContext :=
  {| inj := CSecurityContext; prj c := match c with CSecurityContext v => Some v | _ => None end; prj_inj r := eq_refl |}.
#[export] Instance inCClusterConfig : InCell rNavigatorClusterConfig :=
  {| inj := CClusterConfig; prj c := match c with CClusterConfig v => Some v | _ => None end; prj_inj r := eq_refl |}.
#[export] Instance inCClusterStatus : InCell rNavigatorClusterStatus :=
  {| inj := CClusterStatus; prj c := match c with CClusterStatus v => Some v | _ => None end; prj_inj r := eq_refl |}.
#[export] Instance inCESPool : InCell rElasticsearchClusterNodePool :=
  {| inj := CESPool; prj c := match c with CESPool v => Some v | _ => None end; prj_inj r := eq_refl |}.
#[export] Instance inCESPools : InCell (list rElasticsearchClusterNodePool) :=
  {| inj := CESPools; prj c := match c with CESPools v => Some v | _ => None end; prj_inj r := eq_refl |}.
#[export] Instance inCESSpec : InCell rElasticsearchClusterSpec :=
  {| inj := CESSpec; prj c := match c with CESSpec v => Some v | _ => None end; prj_inj r := eq_refl |}.
#[export] Instance inCESStatus : InCell rElasticsearchClusterStatus :=
  {| inj := CESStatus; prj c := match c with CESStatus v => Some v | _ => None end; prj_inj r := eq_refl |}.
#[export] Instance inCESCluster : InCell rElasticsearchCluster :=
  {| inj := CESCluster; prj c := match c with CESCluster v => Some v | _ => None end; prj_inj r := eq_refl |}.
#[export] Instance inCESClusters : InCell (list rElasticsearchCluster) :=
  {| inj := CESClusters; prj c := match c with CESClusters v => Some v | _ => None end; prj_inj r := eq_refl |}.
#[export] Instance inCESClusterList : InCell rElasticsearchClusterList :=
  {| inj := CESClusterList; prj c := match c with CESClusterList v => Some v | _ => None end; prj_inj r := eq_refl |}.
#[export] Instance inCCassVersion : InCell rCassVersion :=
  {| inj := CCassVersion; prj c := match c with CCassVersion v => Some v | _ => None end; prj_inj r := eq_refl |}.
#[export] Instance inCCassPool : InCell rCassandraClusterNodePool :=
  {| inj := CCassPool; prj c := match c with CCassPool v => Some v | _ => None end; prj_inj r := eq_refl |}.
#[export] Instance inCCassPools : InCell (list rCassandraClusterNodePool) :=
  {| inj := CCassPools; prj c := match c with CCassPools v => Some v | _ => None end; prj_inj r := eq_refl |}.
#[export] Instance inCCassSpec : InCell rCassandraClusterSpec :=
  {| inj := CCassSpec; prj c := match c with CCassSpec v => Some v | _ => None end; prj_inj r := eq_refl |}.
#[export] Instance inCCassStatus : InCell rCassandraClusterStatus :=
  {| inj := CCassStatus; prj c := match c with CCassStatus v => Some v | _ => None end; prj_inj r := eq_refl |}.
#[export] Instance inCCassCluster : InCell rCassandraCluster :=
  {| inj := CCassCluster; prj c := match c with CCassCluster v => Some v | _ => None end; prj_inj r := eq_refl |}.
#[export] Instance inCCassClusters : InCell (list rCassandraCluster) :=
  {| inj := CCassClusters; prj c := match c with CCassClusters v => Some v | _ => None end; prj_inj r := eq_refl |}.
#[export] Instance inCCassClusterList : InCell rCassandraClusterList :=
  {| inj := CCassClusterList; prj c := match c with CCassClusterList v => Some v | _ => None end; prj_inj r := eq_refl |}.
#[export] Instance inCESPilotStatus : InCell rElasticsearchPilotStatus :=
  {| inj := CESPilotStatus; prj c := match c with CESPilotStatus v => Some v | _ => None end; prj_inj r := eq_refl |}.
#[export] Instance inCCassPilotStatus : InCell rCassandraPilotStatus :=
  {| inj := CCassPilotStatus; prj c := match c with CCassPilotStatus v => Some v | _ => None end; prj_inj r := eq_refl |}.
#[export] Instance inCPilotStatus : InCell rPilotStatus :=
  {| inj := CPilotStatus; prj c := match c with CPilotStatus v => Some v | _ => None end; prj_inj r := eq_refl |}.
#[export] Instance inCPilot : InCell rPilot :=
  {| inj := CPilot; prj c := match c with CPilot v => Some v | _ => None end; prj_inj r := eq_refl |}.
#[export] Instance inCPilots : InCell (list rPilot) :=
  {| inj := CPilots; prj c := match c with CPilots v => Some v | _ => None end; prj_inj r := eq_refl |}.
#[export] Instance inCPilotList : InCell rPilotList :=
  {| inj := CPilotList; prj c := match c with CPilotList v => Some v | _ => None end; prj_inj r := eq_refl |}.

(** ** Reading *)

(** [rread m r] is the value of [r] in memory [m], with the locations it
    reaches; [None] if a reference dangles. *)
Class Rep (R A : Type) := {
  rread : Mem → R → option (A * gset loc);
  rread_mono m m' r x : m ⊆ m' → rread m r = Some x → rread m' r = Some x;
  rread_dom m r a ls : rread m r = Some (a, ls) → ls ⊆ dom m;
}.

(** Values without references stand for themselves. *)
Definition plain_rep (A : Type) : Rep A A.
Proof.
  refine {| rread m v := Some (v, ∅) |}; [done|]. intros m r a ls [= _ <-]. set_solver.
Defined.

Definition ptr_read {R A} `{InCell R, Rep R A} (m : Mem) (p : ptr R) : option (option A * gset loc) :=
  match addr p with
  | None => Some (None, ∅)
  | Some l => c ← m !! l; r ← prj c; '(a, ls) ← rread m r; Some (Some a, {[l]} ∪ ls)
  end.

Fixpoint list_read {R A} `{Rep R A} (m : Mem) (rs : list R) : option (list A * gset loc) :=
  match rs with
  | [] => Some ([], ∅)
  | r :: rs => '(a, ls) ← rread m r; '(xs, ls') ← list_read m rs; Some (a :: xs, ls ∪ ls')
  end.

(** Take a successful read in [H] apart. *)
Ltac read_inv H :=
  repeat match type of H with
  | mbind _ _ = Some _ =>
      let x := fresh "x" in let Hx := fresh "Hx" in
      apply bind_Some in H as (x & Hx & H);
      try match type of x with prod _ _ => destruct x as [? ?] end
  end.

#[export] Instance ptr_rep {R A} `{InCell R, Rep R A} : Rep (ptr R) (option A).
Proof.
  refine {| rread := ptr_read |}.
  - intros m m' [[l|]] x Hsub; unfold ptr_read; simpl; [|done]. intros Hr. read_inv Hr. simplify_eq.
    rewrite (lookup_weaken _ _ _ _ Hx Hsub). simpl. rewrite Hx0. simpl. by rewrite (rread_mono _ _ _ _ Hsub Hx1).
  - intros m [[l|]] a ls; unfold ptr_read; simpl; [|intros [= _ <-]; set_solver]. intros Hr. read_inv Hr. simplify_eq.
    apply rread_dom in Hx1. apply elem_of_dom_2 in Hx. set_solver.
Defined.

#[export] Instance list_rep {R A} `{Rep R A} : Rep (list R) (list A).
Proof.
  refine {| rread := list_read |}.
  - intros m m' rs x Hsub. revert x. induction rs as [|r rs IH]; intros x; simpl; [done|]. intros Hr. read_inv Hr.
    simplify_eq. rewrite (rread_mono _ _ _ _ Hsub Hx). simpl. by rewrite (IH _ Hx0).
  - intros m rs. induction rs as [|r rs IH]; intros a ls; simpl; [intros [= _ <-]; set_solver|]. intros Hr. read_inv Hr.
    simplify_eq. apply rread_dom in Hx. apply IH in Hx0. set_solver.
Defined.

#[export] Instance bool_rep : Rep bool bool := plain_rep bool.
#[export] Instance Z_rep : Rep Z Z := plain_rep Z.
#[export] Instance string_rep : Rep string string := plain_rep string.
#[export] Instance smap_rep : Rep smap smap := plain_rep smap.
#[export] Instance ImageSpec_rep : Rep ImageSpec ImageSpec := plain_rep ImageSpec.
#[export] Instance HVersion_rep : Rep HVersion HVersion := plain_rep HVersion.
#[export] Instance Version_rep : Rep Version Version := plain_rep Version.
#[export] Instance ClusterCondition_rep : Rep ClusterCondition ClusterCondition := plain_rep ClusterCondition.
#[export] Instance PilotCondition_rep : Rep PilotCondition PilotCondition := plain_rep PilotCondition.
#[export] Instance map_ElasticsearchClusterNodePoolStatus_rep : Rep (gmap string ElasticsearchClusterNodePoolStatus) (gmap string ElasticsearchClusterNodePoolStatus) := plain_rep (gmap string ElasticsearchClusterNodePoolStatus).
#[export] Instance map_CassandraClusterNodePoolStatus_rep : Rep (gmap string CassandraClusterNodePoolStatus) (gmap string CassandraClusterNodePoolStatus) := plain_rep (gmap string CassandraClusterNodePoolStatus).
#[export] Instance ElasticsearchClusterNodePoolStatus_rep : Rep ElasticsearchClusterNodePoolStatus ElasticsearchClusterNodePoolStatus := plain_rep ElasticsearchClusterNodePoolStatus.
#[export] Instance CassandraClusterNodePoolStatus_rep : Rep CassandraClusterNodePoolStatus CassandraClusterNodePoolStatus := plain_rep CassandraClusterNodePoolStatus.

(** ** Copying *)

Definition fresh_loc (m : Mem) : loc := fresh (dom m : gset loc).

(** [new] with a value *)
Definition alloc {R} `{InCell R} (r : R) : GoM Mem (ptr R) := λ m,
  (Ret (mkPtr (Some (fresh_loc m))), <[fresh_loc m := inj r]> m).

Definition load {R} `{InCell R} (l : loc) : GoM Mem R := λ m,
  match m !! l ≫= prj with
  | Some r => (Ret r, m)
  | None => (Panic "invalid memory address or nil pointer dereference", m)
  end.

(** The generated code for a pointer, slice or map field: nil stays nil, else a
    new cell holds a copy. *)
Definition copyPtr {R} `{InCell R} (DeepCopyInto : R → GoM Mem R) (p : ptr R) : GoM Mem (ptr R) :=
  match addr p with
  | None => mret nilptr
  | Some l => r ← load l; r' ← DeepCopyInto r; alloc r'
  end.

(** [for i := range *in] over the elements of a slice *)
Fixpoint copyList {R} (DeepCopyInto : R → GoM Mem R) (rs : list R) : GoM Mem (list R) :=
  match rs with
  | [] => mret []
  | r :: rs => r' ← DeepCopyInto r; rs' ← copyList DeepCopyInto rs; mret (r' :: rs')
  end.

(** [**out = **in], [copy], and the loop over a map of plain values *)
Definition copyPlain {R} (r : R) : GoM Mem R := mret r.

Class Copyable {R A} `{Rep R A} (copy : R → GoM Mem R) : Prop := copy_ok m r a ls :
  rread m r = Some (a, ls) →
  ∃ r' m' ls', copy r m = (Ret r', m') ∧ m ⊆ m' ∧ rread m' r' = Some (a, ls') ∧ ls' ## dom m.

(** A new cell for a value that is fresh for [m0]. *)
Lemma alloc_ok {R A} `{InCell R, Rep R A} m0 m (r : R) a ls :
  m0 ⊆ m → rread m r = Some (a, ls) → ls ## dom m0 →
  ∃ p m' ls', alloc r m = (Ret p, m') ∧ m ⊆ m' ∧ rread m' p = Some (Some a, ls') ∧ ls' ## dom m0.
Proof.
  intros Hbase Hread Hd.
  assert (fresh_loc m ∉ dom m) as Hf by (unfold fresh_loc; apply (is_fresh (dom m : gset loc))).
  assert (m ⊆ <[fresh_loc m := inj r]> m) as Hsub.
  { apply insert_subseteq. by apply not_elem_of_dom. }
  do 2 eexists. exists ({[fresh_loc m]} ∪ ls). split_and!; [done|done| |].
  - cbn. unfold ptr_read. simpl. rewrite lookup_insert_eq. simpl. rewrite prj_inj. simpl.
    by rewrite (rread_mono _ _ _ _ Hsub Hread).
  - apply subseteq_dom in Hbase. set_solver.
Qed.

#[export] Instance copyPtr_ok {R A} `{InCell R, Rep R A} (copy : R → GoM Mem R) :
  Copyable copy → Copyable (copyPtr copy).
Proof.
  intros Hc m [[l|]] a ls Hr; cbn in Hr; unfold ptr_read in Hr; simpl in Hr.
  2:{ injection Hr as <- <-. exists nilptr, m, ∅. split_and!; [done|done|done|set_solver]. }
  read_inv Hr. simplify_eq. destruct (copy_ok m _ _ _ Hx1) as (r' & m' & ls' & Hrun & Hsub & Hread & Hdisj).
  destruct (alloc_ok m m' r' _ _ Hsub Hread Hdisj) as (p & m2 & ls2 & Halloc & Hsub2 & Hread2 & Hdisj2).
  exists p, m2, ls2. split_and!; [|by etrans|done..].
  unfold copyPtr, mbind, gom_bind, load. cbn [addr]. rewrite Hx. simpl. rewrite Hx0. by rewrite Hrun.
Qed.

#[export] Instance copyList_ok {R A} `{Rep R A} (copy : R → GoM Mem R) : Copyable copy → Copyable (copyList copy).
Proof.
  intros Hc m rs. revert m. induction rs as [|r rs IH]; intros m a ls Hr; cbn in Hr.
  { injection Hr as <- <-. exists [], m, ∅. split_and!; [done|done|done|set_solver]. }
  read_inv Hr. simplify_eq. destruct (copy_ok m _ _ _ Hx) as (r' & m1 & ls1 & Hrun & Hsub & Hread & Hdisj).
  match type of Hx0 with _ = ?x => change (rread m rs = x) in Hx0 end.
  destruct (IH m1 _ _ (rread_mono m m1 rs _ Hsub Hx0)) as (rs' & m2 & ls2 & Hrun' & Hsub' & Hread' & Hdisj').
  exists (r' :: rs'), m2, (ls1 ∪ ls2). split_and!.
  - simpl. rewrite (gom_bind_ret _ _ _ _ _ Hrun). by rewrite (gom_bind_ret _ _ _ _ _ Hrun').
  - by etrans.
  - cbn. rewrite (rread_mono _ _ _ _ Hsub' Hread). simpl. cbn in Hread'. by rewrite Hread'.
  - apply subseteq_dom in Hsub. set_solver.
Qed.

(** Plain values: nothing is allocated. *)
Lemma copyPlain_ok A : Copyable (H := plain_rep A) copyPlain.
Proof. intros m r a ls [= <- <-]. exists r, m, ∅. split_and!; [done|done|done|set_solver]. Qed.

#[export] Hint Extern 1 (Copyable copyPlain) => exact (copyPlain_ok _) : typeclass_instances.

(** ** Structs *)

(** Close the obligations of a struct's [Rep]: its read is a sequence of reads
    of its fields. *)
Ltac solve_struct_mono :=
  let Hsub := fresh "Hsub" in let Hr := fresh "Hr" in
  intros ? ? ? ? Hsub Hr; cbn beta in Hr; read_inv Hr; simplify_eq;
  repeat match goal with
  | H : rread _ _ = Some _ |- _ => rewrite (rread_mono _ _ _ _ Hsub H); cbn [mbind option_bind]; clear H
  end; try done.

Ltac solve_struct_dom :=
  let Hr := fresh "Hr" in
  intros ? ? ? ? Hr; cbn beta in Hr; read_inv Hr; simplify_eq;
  repeat match goal with H : rread _ _ = Some _ |- _ => apply rread_dom in H end; set_solver.

(** A copy made in a later memory is fresh for the first one too. *)
Lemma copy_later {R A} `{Rep R A} (copy : R → GoM Mem R) `{!Copyable copy} m0 m r a ls :
  m0 ⊆ m → rread m r = Some (a, ls) →
  ∃ r' m' ls', copy r m = (Ret r', m') ∧ m ⊆ m' ∧ m0 ⊆ m' ∧ rread m' r' = Some (a, ls') ∧ ls' ## dom m0.
Proof.
  intros Hsub Hr. destruct (copy_ok m r a ls Hr) as (r' & m' & ls' & Hrun & Hm & Hread & Hd).
  exists r', m', ls'. split_and!; [done|done|by etrans|done|]. apply subseteq_dom in Hsub. set_solver.
Qed.

(** Copy the next field of a struct. *)
Ltac copy_field :=
  match goal with
  | |- context [mbind _ (?f ?x) ?m] =>
      match goal with
      | H : rread m x = Some (?a, ?ls), Hbase : ?m0 ⊆ m |- _ =>
          let r := fresh "r'" in let m' := fresh "m'" in let ls' := fresh "ls'" in
          let Hrun := fresh "Hrun" in let Hsub := fresh "Hsub" in let Hb := fresh "Hbase" in
          let Hread := fresh "Hread" in let Hd := fresh "Hdisj" in
          destruct (copy_later f m0 m x a ls Hbase H) as (r & m' & ls' & Hrun & Hsub & Hb & Hread & Hd);
          rewrite (gom_bind_ret _ _ _ _ _ Hrun); clear H Hrun Hbase;
          repeat match goal with
          | H' : rread m ?y = Some _ |- _ => apply (rread_mono _ _ _ _ Hsub) in H'
          end; clear Hsub
      end
  end.

Lemma bind_intro {A B} (o : option A) (k : A → option B) a b : o = Some a → k a = Some b → o ≫= k = Some b.
Proof. by intros ->. Qed.

Ltac unfold_rread H :=
  match type of H with @rread _ _ ?I _ _ = _ => unfold I in H; cbn [rread] in H end.
Ltac unfold_rread_goal :=
  match goal with |- @rread _ _ ?I _ _ = _ => unfold I; cbn [rread] end.

(** Prove [Copyable] of a struct: copy its fields one after the other. *)
Ltac copy_struct :=
  let m := fresh "m" in let Hr := fresh "Hr" in
  intros m ? ? ? Hr; unfold_rread Hr; read_inv Hr; simplify_eq;
  match goal with |- ex (λ r', ex (λ m', ex (λ ls', ?f ?r ?m = _ ∧ _))) => unfold f end;
  assert (m ⊆ m) as Hbase by done;
  repeat copy_field;
  do 3 eexists; split; [reflexivity|]; split; [eassumption|]; split;
    [unfold_rread_goal; repeat match goal with |- mbind _ _ = _ => eapply bind_intro; [eassumption|cbn beta iota] end; reflexivity
    |repeat match goal with |- _ ∪ _ ## _ => apply disjoint_union_l; split end;
     first [assumption|apply disjoint_empty_l]].

(** ** Maps whose values hold references *)

Section maps.
Context {R A : Type} `{Rep R A}.

Definition entry_rep : Rep (string * R) (string * A).
Proof.
  refine {| rread m e := '(a, ls) ← rread m (snd e); Some ((fst e, a), ls) |}.
  - solve_struct_mono.
  - solve_struct_dom.
Defined.

#[local] Existing Instance entry_rep.

Definition map_read (m : Mem) (g : gmap string R) : option (gmap string A * gset loc) :=
  '(kvs, ls) ← rread m (map_to_list g); Some (list_to_map kvs, ls).

Definition map_rep : Rep (gmap string R) (gmap string A).
Proof.
  refine {| rread := map_read |}; unfold map_read.
  - solve_struct_mono.
  - solve_struct_dom.
Defined.

(** [for key, val := range *in { ( *out)[key] = val.DeepCopy() }] *)
Definition copyMap (DeepCopy : R → GoM Mem R) (g : gmap string R) : GoM Mem (gmap string R) :=
  kvs ← copyList (λ '(key, val), val' ← DeepCopy val; mret (key, val')) (map_to_list g);
  mret (list_to_map kvs).

Lemma list_read_keys m (rs : list (string * R)) kvs ls : rread m rs = Some (kvs, ls) → kvs.*1 = rs.*1.
Proof.
  cbn. revert kvs ls. induction rs as [|r rs IH]; intros kvs ls Hr; cbn in Hr; [by injection Hr as <- _|].
  read_inv Hr. simplify_eq. read_inv Hx. simplify_eq. cbn. f_equal. by eapply IH.
Qed.

(** The order in which the entries are visited does not matter. *)
Lemma list_read_perm m (rs rs' : list (string * R)) kvs ls :
  rs ≡ₚ rs' → rread m rs = Some (kvs, ls) → ∃ kvs', rread m rs' = Some (kvs', ls) ∧ kvs ≡ₚ kvs'.
Proof.
  cbn. intros Hp. revert kvs ls. induction Hp as [|r rs rs' _ IH|r1 r2 rs|rs1 rs2 rs3 _ IH1 _ IH2]; intros kvs ls Hr.
  - by exists kvs.
  - simpl in Hr |- *. apply bind_Some in Hr as ([a l] & Ha & Hr). apply bind_Some in Hr as ([xs l'] & Hxs & [= <- <-]).
    destruct (IH _ _ Hxs) as (xs' & Hxs' & Hperm). rewrite Ha. simpl. rewrite Hxs'. simpl. eexists. split; [done|]. by constructor.
  - simpl in Hr |- *. apply bind_Some in Hr as ([a l] & Ha & Hr). apply bind_Some in Hr as ([ys l'] & Hys & [= <- <-]).
    apply bind_Some in Hys as ([b l2] & Hb & Hr). apply bind_Some in Hr as ([xs l3] & Hxs & [= <- <-]).
    rewrite Hb. simpl. rewrite Ha. simpl. rewrite Hxs. simpl. exists (b :: a :: xs). split; [|by constructor].
    do 2 f_equal. set_solver.
  - destruct (IH1 _ _ Hr) as (kvs2 & Hr2 & Hp2). destruct (IH2 _ _ Hr2) as (kvs3 & Hr3 & Hp3).
    exists kvs3. split; [done|by etrans].
Qed.

Lemma entry_copyable (copy : R → GoM Mem R) :
  Copyable copy → Copyable (λ '(key, val), val' ← copy val; mret (key, val')).
Proof.
  intros Hc m [k r] a ls Hr. cbn in Hr. read_inv Hr. simplify_eq.
  destruct (copy_ok m r _ _ Hx) as (r' & m' & ls' & Hrun & Hsub & Hread & Hd).
  exists (k, r'), m', ls'. split_and!; [by rewrite (gom_bind_ret _ _ _ _ _ Hrun)|done| |done].
  cbn. by rewrite Hread.
Qed.

Lemma copyMap_ok (copy : R → GoM Mem R) : Copyable copy → Copyable (H := map_rep) (copyMap copy).
Proof.
  intros Hc m g a ls Hr. cbn [rread map_rep] in Hr. unfold map_read in Hr. read_inv Hr. simplify_eq.
  destruct (copyList_ok _ (entry_copyable copy Hc) m _ _ _ Hx) as (rs' & m' & ls' & Hrun & Hsub & Hread & Hd).
  assert (NoDup rs'.*1) as Hnd.
  { rewrite <- (list_read_keys _ _ _ _ Hread), (list_read_keys _ _ _ _ Hx). apply NoDup_fst_map_to_list. }
  destruct (list_read_perm m' rs' (map_to_list (list_to_map rs' : gmap string R)) _ _ (Permutation_sym (map_to_list_to_map _ Hnd)) Hread)
    as (kvs' & Hread' & Hperm).
  exists (list_to_map rs'), m', ls'. split_and!; [|done| |done].
  - unfold copyMap. by rewrite (gom_bind_ret _ _ _ _ _ Hrun).
  - cbn [rread map_rep]. unfold map_read. rewrite Hread'. cbn. do 2 f_equal. symmetry.
    apply list_to_map_proper; [|done]. by rewrite (list_read_keys _ _ _ _ Hread).
Qed.
End maps.
