(* ===== verification/DeepCopy.v ===== *)
(** * Deep copies

    pkg/apis/navigator/v1alpha1/zz_generated.deepcopy.go over the memory of
    Memory.v, with the copies of vendored types that it calls (ObjectMeta,
    OwnerReference, ResourceRequirements, Quantity with the inf.Dec behind it)
    and the version of pkg/api/version.  Of ObjectMeta the fields of K8s.v are
    in memory (not the finalizers, initializers and grace period).  Times are plain values: the
    *time.Location of a Go time is shared by every copy and never written.

    [*out = *in] followed by the copies of the reference fields is a struct
    literal with the plain fields of [in] and fresh references for the others.
    The controllers work on copies of what the informer caches hold; the
    theorems here are why that is safe. *)

From S2P Require Import Prelude GoStrings Semver K8s Types CassandraVersion Memory.

(** ** Vendored types *)

Definition OwnerReference_DeepCopyInto (r : rOwnerReference) : GoM Mem rOwnerReference :=
  controller ← copyPtr copyPlain (ror_Controller r);
  block ← copyPtr copyPlain (ror_BlockOwnerDeletion r);
  mret (mkROwnerReference (ror_APIVersion r) (ror_Kind r) (ror_Name r) (ror_UID r) controller block).

#[export] Instance OwnerReference_rep : Rep rOwnerReference OwnerReference.
Proof.
  refine {| rread m r :=
    '(controller, l4) ← rread m (ror_Controller r);
    '(block, l5) ← rread m (ror_BlockOwnerDeletion r);
    Some (mkOwnerReference (ror_APIVersion r) (ror_Kind r) (ror_Name r) (ror_UID r) controller block, l4 ∪ l5) |}.
  - solve_struct_mono.
  - solve_struct_dom.
Defined.

#[export] Instance OwnerReference_copyable : Copyable OwnerReference_DeepCopyInto.
Proof. copy_struct. Qed.

Definition ObjectMeta_DeepCopyInto (r : rObjectMeta) : GoM Mem rObjectMeta :=
  labels ← copyPtr copyPlain (rom_Labels r);
  annotations ← copyPtr copyPlain (rom_Annotations r);
  owners ← copyPtr (copyList OwnerReference_DeepCopyInto) (rom_OwnerReferences r);
  deletion ← copyPtr copyPlain (rom_DeletionTimestamp r);
  mret (mkRObjectMeta (rom_Name r) (rom_Namespace r) (rom_UID r) (rom_ResourceVersion r) labels annotations owners deletion).

#[export] Instance ObjectMeta_rep : Rep rObjectMeta ObjectMeta.
Proof.
  refine {| rread m r :=
    '(labels, l4) ← rread m (rom_Labels r);
    '(annotations, l5) ← rread m (rom_Annotations r);
    '(owners, l6) ← rread m (rom_OwnerReferences r);
    '(deletion, l7) ← rread m (rom_DeletionTimestamp r);
    Some (mkObjectMeta (rom_Name r) (rom_Namespace r) (rom_UID r) (rom_ResourceVersion r) labels annotations (default [] owners) deletion, l4 ∪ l5 ∪ l6 ∪ l7) |}.
  - solve_struct_mono.
  - solve_struct_dom.
Defined.

#[export] Instance ObjectMeta_copyable : Copyable ObjectMeta_DeepCopyInto.
Proof. copy_struct. Qed.

(** The number with 64-bit words [ws], least significant first. *)
Definition words_value (ws : list Z) : Z := foldr (λ w n, w + 2 ^ 64 * n) 0 ws.

(** big.Int.Set on a zero receiver: the words are copied into a new slice, and
    zero, which has no words, needs none. *)
Definition Int_Set (r : rInt) : GoM Mem rInt :=
  match addr (rbi_abs r) with
  | None => mret (mkRInt (rbi_neg r) nilptr)
  | Some l =>
      ws ← load l;
      abs ← (if bool_decide (ws = []) then mret nilptr else alloc ws);
      mret (mkRInt (rbi_neg r) abs)
  end.

#[export] Instance Int_rep : Rep rInt Z.
Proof.
  refine {| rread m r :=
    '(abs, l) ← rread m (rbi_abs r);
    Some ((if rbi_neg r then -1 else 1) * words_value (default [] abs), l) |}.
  - solve_struct_mono.
  - solve_struct_dom.
Defined.

Lemma words_read m (ws xs : list Z) ls : rread m ws = Some (xs, ls) → xs = ws ∧ ls = ∅.
Proof.
  cbn. revert xs ls. induction ws as [|w ws IH]; intros xs ls Hr; cbn in Hr; [by simplify_eq|].
  read_inv Hr. destruct (IH _ _ Hx) as [-> ->]. by simplify_eq.
Qed.

Lemma words_read_eq m (ws : list Z) : rread m ws = Some (ws, ∅).
Proof. cbn. induction ws as [|w ws IH]; [done|]. cbn. by rewrite IH. Qed.

#[export] Instance Int_copyable : Copyable Int_Set.
Proof.
  intros m [neg [[l|]]] a ls Hr; cbn in Hr; unfold ptr_read in Hr; cbn in Hr; read_inv Hr; simplify_eq.
  2:{ exists (mkRInt neg nilptr), m, ∅. split_and!; [done|done|done|set_solver]. }
  apply bind_Some in Hx as (c & Hc & Hx). apply bind_Some in Hx as (ws & Hws & Hx). read_inv Hx. simplify_eq.
  match goal with H : list_read _ _ = _ |- _ => apply words_read in H as [-> ->] end.
  unfold Int_Set. cbn [addr rbi_abs]. rewrite (gom_bind_ret _ _ m ws m) by (unfold load; rewrite Hc; cbn; by rewrite Hws).
  case_bool_decide as Hnil.
  - subst ws. exists (mkRInt neg nilptr), m, ∅. split_and!; [done|done|done|set_solver].
  - destruct (alloc_ok m m ws ws ∅) as (p & m' & ls' & Halloc & Hsub & Hread & Hd); [done|apply words_read_eq|set_solver|].
    exists (mkRInt neg p), m', ls'. split_and!; [by rewrite (gom_bind_ret _ _ _ _ _ Halloc)|done| |done].
    cbn [rread Int_rep rbi_abs]. by rewrite Hread.
Qed.

Definition Dec_Set (x : rDec) : GoM Mem rDec :=
  unscaled ← Int_Set (rdec_unscaled x);
  mret (mkRDec unscaled (rdec_scale x)).

#[export] Instance Dec_rep : Rep rDec (Z * Z).
Proof.
  refine {| rread m r := '(unscaled, l) ← rread m (rdec_unscaled r); Some ((unscaled, rdec_scale r), l) |}.
  - solve_struct_mono.
  - solve_struct_dom.
Defined.

#[export] Instance Dec_copyable : Copyable Dec_Set.
Proof. copy_struct. Qed.

(** Quantity.DeepCopy: the receiver is a value; a Dec behind it is set into a
    new one. *)
Definition Quantity_DeepCopy (q : rQuantity) : GoM Mem rQuantity :=
  d ← copyPtr Dec_Set (rq_d q);
  mret (mkRQuantity (rq_value q) (rq_scale q) d (rq_s q) (rq_Format q)).

(** The Dec gives the number where there is one, the int64Amount otherwise. *)
#[export] Instance Quantity_rep : Rep rQuantity Quantity.
Proof.
  refine {| rread m q :=
    '(d, l) ← rread m (rq_d q);
    Some (match d with
          | Some (unscaled, scale) => mkQuantity unscaled (- scale) (rq_Format q) (rq_s q)
          | None => mkQuantity (rq_value q) (rq_scale q) (rq_Format q) (rq_s q)
          end, l) |}.
  - solve_struct_mono.
  - solve_struct_dom.
Defined.

#[export] Instance Quantity_copyable : Copyable Quantity_DeepCopy.
Proof. copy_struct. Qed.

#[export] Instance map_Quantity_rep : Rep (gmap string rQuantity) (gmap string Quantity) := map_rep.

#[export] Instance map_Quantity_copyable : Copyable (copyMap Quantity_DeepCopy).
Proof. apply copyMap_ok. apply _. Qed.

Definition ResourceRequirements_DeepCopyInto (r : rResourceRequirements) : GoM Mem rResourceRequirements :=
  limits ← copyPtr (copyMap Quantity_DeepCopy) (rrr_Limits r);
  requests ← copyPtr (copyMap Quantity_DeepCopy) (rrr_Requests r);
  mret (mkRResourceRequirements limits requests).

#[export] Instance ResourceRequirements_rep : Rep rResourceRequirements ResourceRequirements.
Proof.
  refine {| rread m r :=
    '(limits, l0) ← rread m (rrr_Limits r);
    '(requests, l1) ← rread m (rrr_Requests r);
    Some (mkResourceRequirements limits requests, l0 ∪ l1) |}.
  - solve_struct_mono.
  - solve_struct_dom.
Defined.

#[export] Instance ResourceRequirements_copyable : Copyable ResourceRequirements_DeepCopyInto.
Proof. copy_struct. Qed.

(** ** Versions *)

(** version.Version.DeepCopy: the copy is parsed from the string again, and the
    zero value is returned without a parsed form. *)
Definition Version_DeepCopy (r : rCassVersion) : GoM Mem rCassVersion :=
  match addr (rcv_semver r) with
  | None => mret (mkRCassVersion "" nilptr)
  | Some _ =>
      v ← lift (CassVersion_New (rcv_versionString r));
      semver ← match cv_semver v with Some sv => alloc sv | None => mret nilptr end;
      mret (mkRCassVersion (cv_versionString v) semver)
  end.

(** The versions there are: the zero value, and what New makes of a string. *)
Definition made_by_New (s : string) (semver : option HVersion) : Prop :=
  match semver with
  | None => s = ""
  | Some sv => HVersion_NewVersion s = Some sv
  end.

#[export] Instance made_by_New_dec s semver : Decision (made_by_New s semver).
Proof. unfold made_by_New. destruct semver; apply _. Defined.

#[export] Instance Version_rep' : Rep rCassVersion CassVersion.
Proof.
  refine {| rread m r :=
    '(semver, l) ← rread m (rcv_semver r);
    if decide (made_by_New (rcv_versionString r) semver)
    then Some (mkCassVersion (rcv_versionString r) semver, l) else None |}.
  - intros m m' r x Hsub Hr. read_inv Hr. rewrite (rread_mono _ _ _ _ Hsub Hx). done.
  - intros m r a ls Hr. read_inv Hr. case_decide; [|done]. simplify_eq. by apply rread_dom in Hx.
Defined.

#[export] Instance Version_copyable : Copyable Version_DeepCopy.
Proof.
  intros m r a ls Hr. unfold_rread Hr. read_inv Hr. case_decide as Hmade; [|done]. simplify_eq.
  unfold Version_DeepCopy. destruct r as [s [[loc|]]]; cbn in *.
  - unfold ptr_read in Hx. cbn in Hx. read_inv Hx. simplify_eq. cbn in Hmade.
    unfold CassVersion_New, CassVersion_set. rewrite Hmade. cbn.
    destruct (alloc_ok m m x0 x0 ∅) as (p & m' & ls' & Halloc & Hsub & Hread & Hd); [done|done|set_solver|].
    exists (mkRCassVersion s p), m', ls'. split_and!; [|done| |done].
    + unfold mbind, gom_bind, lift. cbn -[alloc]. by rewrite Halloc.
    + cbn in Hread |- *. rewrite Hread. cbn. by rewrite decide_True.
  - injection Hx as <- <-. cbn in Hmade. subst s. exists (mkRCassVersion "" nilptr), m, ∅.
    split_and!; [done|done| |set_solver]. cbn. by rewrite decide_True.
Qed.

(** ** Shared structs *)

Definition ImageSpec_DeepCopyInto (r : ImageSpec) : GoM Mem ImageSpec := copyPlain r.

#[export] Instance ImageSpec_copyable : Copyable ImageSpec_DeepCopyInto.
Proof. apply copyPlain_ok. Qed.

Definition ClusterCondition_DeepCopyInto (r : ClusterCondition) : GoM Mem ClusterCondition := copyPlain r.

#[export] Instance ClusterCondition_copyable : Copyable ClusterCondition_DeepCopyInto.
Proof. apply copyPlain_ok. Qed.

Definition PilotCondition_DeepCopyInto (r : PilotCondition) : GoM Mem PilotCondition := copyPlain r.

#[export] Instance PilotCondition_copyable : Copyable PilotCondition_DeepCopyInto.
Proof. apply copyPlain_ok. Qed.

Definition ElasticsearchClusterNodePoolStatus_DeepCopyInto (r : ElasticsearchClusterNodePoolStatus) : GoM Mem ElasticsearchClusterNodePoolStatus := copyPlain r.

#[export] Instance ElasticsearchClusterNodePoolStatus_copyable : Copyable ElasticsearchClusterNodePoolStatus_DeepCopyInto.
Proof. apply copyPlain_ok. Qed.

Definition CassandraClusterNodePoolStatus_DeepCopyInto (r : CassandraClusterNodePoolStatus) : GoM Mem CassandraClusterNodePoolStatus := copyPlain r.

#[export] Instance CassandraClusterNodePoolStatus_copyable : Copyable CassandraClusterNodePoolStatus_DeepCopyInto.
Proof. apply copyPlain_ok. Qed.

Definition PersistenceConfig_DeepCopyInto (r : rPersistenceConfig) : GoM Mem rPersistenceConfig :=
  size ← Quantity_DeepCopy (rpc_Size r);
  storageClass ← copyPtr copyPlain (rpc_StorageClass r);
  mret (mkRPersistenceConfig size storageClass).

#[export] Instance PersistenceConfig_rep : Rep rPersistenceConfig PersistenceConfig.
Proof.
  refine {| rread m r :=
    '(size, l0) ← rread m (rpc_Size r);
    '(storageClass, l1) ← rread m (rpc_StorageClass r);
    Some (mkPersistenceConfig size storageClass, l0 ∪ l1) |}.
  - solve_struct_mono.
  - solve_struct_dom.
Defined.

#[export] Instance PersistenceConfig_copyable : Copyable PersistenceConfig_DeepCopyInto.
Proof. copy_struct. Qed.

Definition NavigatorSecurityContext_DeepCopyInto (r : rNavigatorSecurityContext) : GoM Mem rNavigatorSecurityContext :=
  runAsUser ← copyPtr copyPlain (rnsc_RunAsUser r);
  mret (mkRNavigatorSecurityContext runAsUser).

#[export] Instance NavigatorSecurityContext_rep : Rep rNavigatorSecurityContext NavigatorSecurityContext.
Proof.
  refine {| rread m r :=
    '(runAsUser, l0) ← rread m (rnsc_RunAsUser r);
    Some (mkNavigatorSecurityContext runAsUser, l0) |}.
  - solve_struct_mono.
  - solve_struct_dom.
Defined.

#[export] Instance NavigatorSecurityContext_copyable : Copyable NavigatorSecurityContext_DeepCopyInto.
Proof. copy_struct. Qed.

Definition NavigatorClusterConfig_DeepCopyInto (r : rNavigatorClusterConfig) : GoM Mem rNavigatorClusterConfig :=
  securityContext ← NavigatorSecurityContext_DeepCopyInto (rcfg_SecurityContext r);
  mret (mkRNavigatorClusterConfig (rcfg_PilotImage r) securityContext (rcfg_Paused r)).

#[export] Instance NavigatorClusterConfig_rep : Rep rNavigatorClusterConfig NavigatorClusterConfig.
Proof.
  refine {| rread m r :=
    '(securityContext, l1) ← rread m (rcfg_SecurityContext r);
    Some (mkNavigatorClusterConfig (rcfg_PilotImage r) securityContext (rcfg_Paused r), l1) |}.
  - solve_struct_mono.
  - solve_struct_dom.
Defined.

#[export] Instance NavigatorClusterConfig_copyable : Copyable NavigatorClusterConfig_DeepCopyInto.
Proof. copy_struct. Qed.

Definition NavigatorClusterStatus_DeepCopyInto (r : rNavigatorClusterStatus) : GoM Mem rNavigatorClusterStatus :=
  conditions ← copyPtr (copyList ClusterCondition_DeepCopyInto) (rncs_Conditions r);
  mret (mkRNavigatorClusterStatus conditions).

#[export] Instance NavigatorClusterStatus_rep : Rep rNavigatorClusterStatus NavigatorClusterStatus.
Proof.
  refine {| rread m r :=
    '(conditions, l0) ← rread m (rncs_Conditions r);
    Some (mkNavigatorClusterStatus (default [] conditions), l0) |}.
  - solve_struct_mono.
  - solve_struct_dom.
Defined.

#[export] Instance NavigatorClusterStatus_copyable : Copyable NavigatorClusterStatus_DeepCopyInto.
Proof. copy_struct. Qed.

(** ** Elasticsearch *)

Definition ElasticsearchClusterNodePool_DeepCopyInto (r : rElasticsearchClusterNodePool) : GoM Mem rElasticsearchClusterNodePool :=
  replicas ← copyPtr copyPlain (renp_Replicas r);
  roles ← copyPtr (copyList copyPlain) (renp_Roles r);
  nodeSelector ← copyPtr copyPlain (renp_NodeSelector r);
  resources ← ResourceRequirements_DeepCopyInto (renp_Resources r);
  persistence ← copyPtr PersistenceConfig_DeepCopyInto (renp_Persistence r);
  mret (mkRElasticsearchClusterNodePool (renp_Name r) replicas roles nodeSelector resources persistence (renp_SchedulerName r)).

#[export] Instance ElasticsearchClusterNodePool_rep : Rep rElasticsearchClusterNodePool ElasticsearchClusterNodePool.
Proof.
  refine {| rread m r :=
    '(replicas, l1) ← rread m (renp_Replicas r);
    '(roles, l2) ← rread m (renp_Roles r);
    '(nodeSelector, l3) ← rread m (renp_NodeSelector r);
    '(resources, l4) ← rread m (renp_Resources r);
    '(persistence, l5) ← rread m (renp_Persistence r);
    Some (mkElasticsearchClusterNodePool (renp_Name r) replicas roles nodeSelector resources persistence (renp_SchedulerName r), l1 ∪ l2 ∪ l3 ∪ l4 ∪ l5) |}.
  - solve_struct_mono.
  - solve_struct_dom.
Defined.

#[export] Instance ElasticsearchClusterNodePool_copyable : Copyable ElasticsearchClusterNodePool_DeepCopyInto.
Proof. copy_struct. Qed.

Definition ElasticsearchClusterSpec_DeepCopyInto (r : rElasticsearchClusterSpec) : GoM Mem rElasticsearchClusterSpec :=
  config ← NavigatorClusterConfig_DeepCopyInto (res_Config r);
  plugins ← copyPtr (copyList copyPlain) (res_Plugins r);
  nodePools ← copyPtr (copyList ElasticsearchClusterNodePool_DeepCopyInto) (res_NodePools r);
  image ← copyPtr copyPlain (res_Image r);
  minimumMasters ← copyPtr copyPlain (res_MinimumMasters r);
  mret (mkRElasticsearchClusterSpec config (res_Version r) plugins nodePools image minimumMasters).

#[export] Instance ElasticsearchClusterSpec_rep : Rep rElasticsearchClusterSpec ElasticsearchClusterSpec.
Proof.
  refine {| rread m r :=
    '(config, l0) ← rread m (res_Config r);
    '(plugins, l2) ← rread m (res_Plugins r);
    '(nodePools, l3) ← rread m (res_NodePools r);
    '(image, l4) ← rread m (res_Image r);
    '(minimumMasters, l5) ← rread m (res_MinimumMasters r);
    Some (mkElasticsearchClusterSpec config (res_Version r) (default [] plugins) (default [] nodePools) image minimumMasters, l0 ∪ l2 ∪ l3 ∪ l4 ∪ l5) |}.
  - solve_struct_mono.
  - solve_struct_dom.
Defined.

#[export] Instance ElasticsearchClusterSpec_copyable : Copyable ElasticsearchClusterSpec_DeepCopyInto.
Proof. copy_struct. Qed.

Definition ElasticsearchClusterStatus_DeepCopyInto (r : rElasticsearchClusterStatus) : GoM Mem rElasticsearchClusterStatus :=
  conditions ← NavigatorClusterStatus_DeepCopyInto (rest_Conditions r);
  nodePools ← copyPtr copyPlain (rest_NodePools r);
  health ← copyPtr copyPlain (rest_Health r);
  mret (mkRElasticsearchClusterStatus conditions nodePools health).

#[export] Instance ElasticsearchClusterStatus_rep : Rep rElasticsearchClusterStatus ElasticsearchClusterStatus.
Proof.
  refine {| rread m r :=
    '(conditions, l0) ← rread m (rest_Conditions r);
    '(nodePools, l1) ← rread m (rest_NodePools r);
    '(health, l2) ← rread m (rest_Health r);
    Some (mkElasticsearchClusterStatus conditions nodePools health, l0 ∪ l1 ∪ l2) |}.
  - solve_struct_mono.
  - solve_struct_dom.
Defined.

#[export] Instance ElasticsearchClusterStatus_copyable : Copyable ElasticsearchClusterStatus_DeepCopyInto.
Proof. copy_struct. Qed.

Definition ElasticsearchCluster_DeepCopyInto (r : rElasticsearchCluster) : GoM Mem rElasticsearchCluster :=
  meta ← ObjectMeta_DeepCopyInto (resc_Meta r);
  spec ← ElasticsearchClusterSpec_DeepCopyInto (resc_Spec r);
  status ← ElasticsearchClusterStatus_DeepCopyInto (resc_Status r);
  mret (mkRElasticsearchCluster meta spec status).

#[export] Instance ElasticsearchCluster_rep : Rep rElasticsearchCluster ElasticsearchCluster.
Proof.
  refine {| rread m r :=
    '(meta, l0) ← rread m (resc_Meta r);
    '(spec, l1) ← rread m (resc_Spec r);
    '(status, l2) ← rread m (resc_Status r);
    Some (mkElasticsearchCluster meta spec status, l0 ∪ l1 ∪ l2) |}.
  - solve_struct_mono.
  - solve_struct_dom.
Defined.

#[export] Instance ElasticsearchCluster_copyable : Copyable ElasticsearchCluster_DeepCopyInto.
Proof. copy_struct. Qed.

Definition ElasticsearchClusterList_DeepCopyInto (r : rElasticsearchClusterList) : GoM Mem rElasticsearchClusterList :=
  items ← copyPtr (copyList ElasticsearchCluster_DeepCopyInto) (rescl_Items r);
  mret (mkRElasticsearchClusterList items).

#[export] Instance ElasticsearchClusterList_rep : Rep rElasticsearchClusterList (list ElasticsearchCluster).
Proof.
  refine {| rread m r :=
    '(items, l0) ← rread m (rescl_Items r);
    Some (default [] items, l0) |}.
  - solve_struct_mono.
  - solve_struct_dom.
Defined.

#[export] Instance ElasticsearchClusterList_copyable : Copyable ElasticsearchClusterList_DeepCopyInto.
Proof. copy_struct. Qed.

(** ** Cassandra *)

Definition CassandraClusterNodePool_DeepCopyInto (r : rCassandraClusterNodePool) : GoM Mem rCassandraClusterNodePool :=
  replicas ← copyPtr copyPlain (rcnp_Replicas r);
  persistence ← copyPtr PersistenceConfig_DeepCopyInto (rcnp_Persistence r);
  nodeSelector ← copyPtr copyPlain (rcnp_NodeSelector r);
  rack ← copyPtr copyPlain (rcnp_Rack r);
  datacenter ← copyPtr copyPlain (rcnp_Datacenter r);
  resources ← ResourceRequirements_DeepCopyInto (rcnp_Resources r);
  mret (mkRCassandraClusterNodePool (rcnp_Name r) replicas persistence nodeSelector rack datacenter resources (rcnp_SchedulerName r)).

#[export] Instance CassandraClusterNodePool_rep : Rep rCassandraClusterNodePool CassandraClusterNodePool.
Proof.
  refine {| rread m r :=
    '(replicas, l1) ← rread m (rcnp_Replicas r);
    '(persistence, l2) ← rread m (rcnp_Persistence r);
    '(nodeSelector, l3) ← rread m (rcnp_NodeSelector r);
    '(rack, l4) ← rread m (rcnp_Rack r);
    '(datacenter, l5) ← rread m (rcnp_Datacenter r);
    '(resources, l6) ← rread m (rcnp_Resources r);
    Some (mkCassandraClusterNodePool (rcnp_Name r) replicas persistence nodeSelector rack datacenter resources (rcnp_SchedulerName r), l1 ∪ l2 ∪ l3 ∪ l4 ∪ l5 ∪ l6) |}.
  - solve_struct_mono.
  - solve_struct_dom.
Defined.

#[export] Instance CassandraClusterNodePool_copyable : Copyable CassandraClusterNodePool_DeepCopyInto.
Proof. copy_struct. Qed.

Definition CassandraClusterSpec_DeepCopyInto (r : rCassandraClusterSpec) : GoM Mem rCassandraClusterSpec :=
  config ← NavigatorClusterConfig_DeepCopyInto (rcs_Config r);
  nodePools ← copyPtr (copyList CassandraClusterNodePool_DeepCopyInto) (rcs_NodePools r);
  image ← copyPtr copyPlain (rcs_Image r);
  version ← Version_DeepCopy (rcs_Version r);
  mret (mkRCassandraClusterSpec config nodePools image version).

#[export] Instance CassandraClusterSpec_rep : Rep rCassandraClusterSpec CassandraClusterSpec.
Proof.
  refine {| rread m r :=
    '(config, l0) ← rread m (rcs_Config r);
    '(nodePools, l1) ← rread m (rcs_NodePools r);
    '(image, l2) ← rread m (rcs_Image r);
    '(version, l3) ← rread m (rcs_Version r);
    Some (mkCassandraClusterSpec config (default [] nodePools) image version, l0 ∪ l1 ∪ l2 ∪ l3) |}.
  - solve_struct_mono.
  - solve_struct_dom.
Defined.

#[export] Instance CassandraClusterSpec_copyable : Copyable CassandraClusterSpec_DeepCopyInto.
Proof. copy_struct. Qed.

Definition CassandraClusterStatus_DeepCopyInto (r : rCassandraClusterStatus) : GoM Mem rCassandraClusterStatus :=
  conditions ← NavigatorClusterStatus_DeepCopyInto (rcst_Conditions r);
  nodePools ← copyPtr copyPlain (rcst_NodePools r);
  mret (mkRCassandraClusterStatus conditions nodePools).

#[export] Instance CassandraClusterStatus_rep : Rep rCassandraClusterStatus CassandraClusterStatus.
Proof.
  refine {| rread m r :=
    '(conditions, l0) ← rread m (rcst_Conditions r);
    '(nodePools, l1) ← rread m (rcst_NodePools r);
    Some (mkCassandraClusterStatus conditions nodePools, l0 ∪ l1) |}.
  - solve_struct_mono.
  - solve_struct_dom.
Defined.

#[export] Instance CassandraClusterStatus_copyable : Copyable CassandraClusterStatus_DeepCopyInto.
Proof. copy_struct. Qed.

Definition CassandraCluster_DeepCopyInto (r : rCassandraCluster) : GoM Mem rCassandraCluster :=
  meta ← ObjectMeta_DeepCopyInto (rcass_Meta r);
  spec ← CassandraClusterSpec_DeepCopyInto (rcass_Spec r);
  status ← CassandraClusterStatus_DeepCopyInto (rcass_Status r);
  mret (mkRCassandraCluster meta spec status).

#[export] Instance CassandraCluster_rep : Rep rCassandraCluster CassandraCluster.
Proof.
  refine {| rread m r :=
    '(meta, l0) ← rread m (rcass_Meta r);
    '(spec, l1) ← rread m (rcass_Spec r);
    '(status, l2) ← rread m (rcass_Status r);
    Some (mkCassandraCluster meta spec status, l0 ∪ l1 ∪ l2) |}.
  - solve_struct_mono.
  - solve_struct_dom.
Defined.

#[export] Instance CassandraCluster_copyable : Copyable CassandraCluster_DeepCopyInto.
Proof. copy_struct. Qed.

Definition CassandraClusterList_DeepCopyInto (r : rCassandraClusterList) : GoM Mem rCassandraClusterList :=
  items ← copyPtr (copyList CassandraCluster_DeepCopyInto) (rcassl_Items r);
  mret (mkRCassandraClusterList items).

#[export] Instance CassandraClusterList_rep : Rep rCassandraClusterList (list CassandraCluster).
Proof.
  refine {| rread m r :=
    '(items, l0) ← rread m (rcassl_Items r);
    Some (default [] items, l0) |}.
  - solve_struct_mono.
  - solve_struct_dom.
Defined.

#[export] Instance CassandraClusterList_copyable : Copyable CassandraClusterList_DeepCopyInto.
Proof. copy_struct. Qed.

(** ** Pilots *)

Definition ElasticsearchPilotStatus_DeepCopyInto (r : rElasticsearchPilotStatus) : GoM Mem rElasticsearchPilotStatus :=
  documents ← copyPtr copyPlain (reps_Documents r);
  version ← copyPtr copyPlain (reps_Version r);
  mret (mkRElasticsearchPilotStatus documents version).

#[export] Instance ElasticsearchPilotStatus_rep : Rep rElasticsearchPilotStatus ElasticsearchPilotStatus.
Proof.
  refine {| rread m r :=
    '(documents, l0) ← rread m (reps_Documents r);
    '(version, l1) ← rread m (reps_Version r);
    Some (mkElasticsearchPilotStatus documents version, l0 ∪ l1) |}.
  - solve_struct_mono.
  - solve_struct_dom.
Defined.

#[export] Instance ElasticsearchPilotStatus_copyable : Copyable ElasticsearchPilotStatus_DeepCopyInto.
Proof. copy_struct. Qed.

Definition CassandraPilotStatus_DeepCopyInto (r : rCassandraPilotStatus) : GoM Mem rCassandraPilotStatus :=
  version ← copyPtr Version_DeepCopy (rcps_Version r);
  mret (mkRCassandraPilotStatus version).

#[export] Instance CassandraPilotStatus_rep : Rep rCassandraPilotStatus CassandraPilotStatus.
Proof.
  refine {| rread m r :=
    '(version, l0) ← rread m (rcps_Version r);
    Some (mkCassandraPilotStatus version, l0) |}.
  - solve_struct_mono.
  - solve_struct_dom.
Defined.

#[export] Instance CassandraPilotStatus_copyable : Copyable CassandraPilotStatus_DeepCopyInto.
Proof. copy_struct. Qed.

Definition PilotStatus_DeepCopyInto (r : rPilotStatus) : GoM Mem rPilotStatus :=
  conditions ← copyPtr (copyList PilotCondition_DeepCopyInto) (rpst_Conditions r);
  elasticsearch ← copyPtr ElasticsearchPilotStatus_DeepCopyInto (rpst_Elasticsearch r);
  cassandra ← copyPtr CassandraPilotStatus_DeepCopyInto (rpst_Cassandra r);
  mret (mkRPilotStatus conditions elasticsearch cassandra).

#[export] Instance PilotStatus_rep : Rep rPilotStatus PilotStatus.
Proof.
  refine {| rread m r :=
    '(conditions, l0) ← rread m (rpst_Conditions r);
    '(elasticsearch, l1) ← rread m (rpst_Elasticsearch r);
    '(cassandra, l2) ← rread m (rpst_Cassandra r);
    Some (mkPilotStatus (default [] conditions) elasticsearch cassandra, l0 ∪ l1 ∪ l2) |}.
  - solve_struct_mono.
  - solve_struct_dom.
Defined.

#[export] Instance PilotStatus_copyable : Copyable PilotStatus_DeepCopyInto.
Proof. copy_struct. Qed.

Definition Pilot_DeepCopyInto (r : rPilot) : GoM Mem rPilot :=
  meta ← ObjectMeta_DeepCopyInto (rpil_Meta r);
  status ← PilotStatus_DeepCopyInto (rpil_Status r);
  mret (mkRPilot meta status).

#[export] Instance Pilot_rep : Rep rPilot Pilot.
Proof.
  refine {| rread m r :=
    '(meta, l0) ← rread m (rpil_Meta r);
    '(status, l1) ← rread m (rpil_Status r);
    Some (mkPilot meta status, l0 ∪ l1) |}.
  - solve_struct_mono.
  - solve_struct_dom.
Defined.

#[export] Instance Pilot_copyable : Copyable Pilot_DeepCopyInto.
Proof. copy_struct. Qed.

Definition PilotList_DeepCopyInto (r : rPilotList) : GoM Mem rPilotList :=
  items ← copyPtr (copyList Pilot_DeepCopyInto) (rpill_Items r);
  mret (mkRPilotList items).

#[export] Instance PilotList_rep : Rep rPilotList (list Pilot).
Proof.
  refine {| rread m r :=
    '(items, l0) ← rread m (rpill_Items r);
    Some (default [] items, l0) |}.
  - solve_struct_mono.
  - solve_struct_dom.
Defined.

#[export] Instance PilotList_copyable : Copyable PilotList_DeepCopyInto.
Proof. copy_struct. Qed.

(** ** DeepCopy and DeepCopyObject

    A nil receiver gives nil; otherwise a new object is filled. *)

Definition ImageSpec_DeepCopy : ptr ImageSpec → GoM Mem (ptr ImageSpec) := copyPtr ImageSpec_DeepCopyInto.
Definition ClusterCondition_DeepCopy : ptr ClusterCondition → GoM Mem (ptr ClusterCondition) := copyPtr ClusterCondition_DeepCopyInto.
Definition PilotCondition_DeepCopy : ptr PilotCondition → GoM Mem (ptr PilotCondition) := copyPtr PilotCondition_DeepCopyInto.
Definition ElasticsearchClusterNodePoolStatus_DeepCopy : ptr ElasticsearchClusterNodePoolStatus → GoM Mem (ptr ElasticsearchClusterNodePoolStatus) := copyPtr ElasticsearchClusterNodePoolStatus_DeepCopyInto.
Definition CassandraClusterNodePoolStatus_DeepCopy : ptr CassandraClusterNodePoolStatus → GoM Mem (ptr CassandraClusterNodePoolStatus) := copyPtr CassandraClusterNodePoolStatus_DeepCopyInto.
Definition PersistenceConfig_DeepCopy : ptr rPersistenceConfig → GoM Mem (ptr rPersistenceConfig) := copyPtr PersistenceConfig_DeepCopyInto.
Definition NavigatorSecurityContext_DeepCopy : ptr rNavigatorSecurityContext → GoM Mem (ptr rNavigatorSecurityContext) := copyPtr NavigatorSecurityContext_DeepCopyInto.
Definition NavigatorClusterConfig_DeepCopy : ptr rNavigatorClusterConfig → GoM Mem (ptr rNavigatorClusterConfig) := copyPtr NavigatorClusterConfig_DeepCopyInto.
Definition NavigatorClusterStatus_DeepCopy : ptr rNavigatorClusterStatus → GoM Mem (ptr rNavigatorClusterStatus) := copyPtr NavigatorClusterStatus_DeepCopyInto.
Definition ElasticsearchClusterNodePool_DeepCopy : ptr rElasticsearchClusterNodePool → GoM Mem (ptr rElasticsearchClusterNodePool) := copyPtr ElasticsearchClusterNodePool_DeepCopyInto.
Definition ElasticsearchClusterSpec_DeepCopy : ptr rElasticsearchClusterSpec → GoM Mem (ptr rElasticsearchClusterSpec) := copyPtr ElasticsearchClusterSpec_DeepCopyInto.
Definition ElasticsearchClusterStatus_DeepCopy : ptr rElasticsearchClusterStatus → GoM Mem (ptr rElasticsearchClusterStatus) := copyPtr ElasticsearchClusterStatus_DeepCopyInto.
Definition ElasticsearchCluster_DeepCopy : ptr rElasticsearchCluster → GoM Mem (ptr rElasticsearchCluster) := copyPtr ElasticsearchCluster_DeepCopyInto.
Definition ElasticsearchClusterList_DeepCopy : ptr rElasticsearchClusterList → GoM Mem (ptr rElasticsearchClusterList) := copyPtr ElasticsearchClusterList_DeepCopyInto.
Definition CassandraClusterNodePool_DeepCopy : ptr rCassandraClusterNodePool → GoM Mem (ptr rCassandraClusterNodePool) := copyPtr CassandraClusterNodePool_DeepCopyInto.
Definition CassandraClusterSpec_DeepCopy : ptr rCassandraClusterSpec → GoM Mem (ptr rCassandraClusterSpec) := copyPtr CassandraClusterSpec_DeepCopyInto.
Definition CassandraClusterStatus_DeepCopy : ptr rCassandraClusterStatus → GoM Mem (ptr rCassandraClusterStatus) := copyPtr CassandraClusterStatus_DeepCopyInto.
Definition CassandraCluster_DeepCopy : ptr rCassandraCluster → GoM Mem (ptr rCassandraCluster) := copyPtr CassandraCluster_DeepCopyInto.
Definition CassandraClusterList_DeepCopy : ptr rCassandraClusterList → GoM Mem (ptr rCassandraClusterList) := copyPtr CassandraClusterList_DeepCopyInto.
Definition ElasticsearchPilotStatus_DeepCopy : ptr rElasticsearchPilotStatus → GoM Mem (ptr rElasticsearchPilotStatus) := copyPtr ElasticsearchPilotStatus_DeepCopyInto.
Definition CassandraPilotStatus_DeepCopy : ptr rCassandraPilotStatus → GoM Mem (ptr rCassandraPilotStatus) := copyPtr CassandraPilotStatus_DeepCopyInto.
Definition PilotStatus_DeepCopy : ptr rPilotStatus → GoM Mem (ptr rPilotStatus) := copyPtr PilotStatus_DeepCopyInto.
Definition Pilot_DeepCopy : ptr rPilot → GoM Mem (ptr rPilot) := copyPtr Pilot_DeepCopyInto.
Definition PilotList_DeepCopy : ptr rPilotList → GoM Mem (ptr rPilotList) := copyPtr PilotList_DeepCopyInto.

Definition ElasticsearchCluster_DeepCopyObject (p : ptr rElasticsearchCluster) : GoM Mem (option (ptr rElasticsearchCluster)) :=
  c ← ElasticsearchCluster_DeepCopy p;
  mret (match addr c with Some _ => Some c | None => None end).
Definition ElasticsearchClusterList_DeepCopyObject (p : ptr rElasticsearchClusterList) : GoM Mem (option (ptr rElasticsearchClusterList)) :=
  c ← ElasticsearchClusterList_DeepCopy p;
  mret (match addr c with Some _ => Some c | None => None end).
Definition CassandraCluster_DeepCopyObject (p : ptr rCassandraCluster) : GoM Mem (option (ptr rCassandraCluster)) :=
  c ← CassandraCluster_DeepCopy p;
  mret (match addr c with Some _ => Some c | None => None end).
Definition CassandraClusterList_DeepCopyObject (p : ptr rCassandraClusterList) : GoM Mem (option (ptr rCassandraClusterList)) :=
  c ← CassandraClusterList_DeepCopy p;
  mret (match addr c with Some _ => Some c | None => None end).
Definition Pilot_DeepCopyObject (p : ptr rPilot) : GoM Mem (option (ptr rPilot)) :=
  c ← Pilot_DeepCopy p;
  mret (match addr c with Some _ => Some c | None => None end).
Definition PilotList_DeepCopyObject (p : ptr rPilotList) : GoM Mem (option (ptr rPilotList)) :=
  c ← PilotList_DeepCopy p;
  mret (match addr c with Some _ => Some c | None => None end).

(** ** Independence *)

(** Writes to cells of a memory. *)
Definition writes (ws : list (loc * Cell)) (m : Mem) : Mem := foldl (λ m '(l, c), <[l := c]> m) m ws.

(** A copy stands for the same value, and whatever is written to the cells it
    reaches, the original still stands for the value it had. *)
Definition independentCopy {R A} `{Rep R A} (copy : R → GoM Mem R) : Prop :=
  ∀ m r a ls, rread m r = Some (a, ls) →
  ∃ r' m' ls', copy r m = (Ret r', m') ∧ rread m' r' = Some (a, ls') ∧ ls ## ls' ∧
    ∀ ws, Forall (λ w, fst w ∈ ls') ws → rread (writes ws m') r = Some (a, ls).

Lemma writes_keep ws (m m' : Mem) (ls : gset loc) :
  m ⊆ m' → ls ## dom m → Forall (λ w, fst w ∈ ls) ws → m ⊆ writes ws m'.
Proof.
  intros Hsub Hd Hws. revert m' Hsub. induction Hws as [|[l c] ws Hl _ IH]; intros m' Hsub; [done|].
  simpl. apply IH. apply insert_subseteq_r; [|done]. apply not_elem_of_dom. simpl in Hl. set_solver.
Qed.

Lemma copy_independent {R A} `{Rep R A} (copy : R → GoM Mem R) : Copyable copy → independentCopy copy.
Proof.
  intros Hc m r a ls Hr. destruct (copy_ok m r a ls Hr) as (r' & m' & ls' & Hrun & Hsub & Hread & Hd).
  exists r', m', ls'. split_and!; [done|done| |].
  - apply rread_dom in Hr. set_solver.
  - intros ws Hws. eapply rread_mono; [|done]. by eapply writes_keep.
Qed.

(** Assigning the struct alone shares its references. *)
Lemma shallow_copy_shares : ¬ independentCopy (copyPlain : rElasticsearchClusterNodePool → _).
Proof.
  intros Hi.
  pose (pool := mkRElasticsearchClusterNodePool "data" (mkPtr (Some 1%positive)) nilptr nilptr
    (mkRResourceRequirements nilptr nilptr) nilptr "").
  destruct (Hi {[1%positive := CInt 3]} pool
    (mkElasticsearchClusterNodePool "data" (Some 3) None None (mkResourceRequirements None None) None "") {[1%positive]})
    as (r' & m' & ls' & [= <- <-] & Hread & Hd & _).
  { vm_compute. reflexivity. }
  vm_compute in Hread. injection Hread as <-. specialize (Hd 1%positive). set_solver.
Qed.

(** Copying a persistence configuration without Size.DeepCopy shares the Dec of
    a size that is held as one. *)
Lemma shared_dec_is_no_copy :
  ¬ independentCopy (λ r, storageClass ← copyPtr copyPlain (rpc_StorageClass r);
                          mret (mkRPersistenceConfig (rpc_Size r) storageClass)).
Proof.
  intros Hi.
  pose (config := mkRPersistenceConfig (mkRQuantity 0 0 (mkPtr (Some 1%positive)) "" "DecimalSI") nilptr).
  destruct (Hi {[1%positive := CDec (mkRDec (mkRInt false nilptr) 30)]} config
    (mkPersistenceConfig (mkQuantity 0 (-30) "DecimalSI" "") None) {[1%positive]})
    as (r' & m' & ls' & [= <- <-] & Hread & Hd & _).
  { vm_compute. reflexivity. }
  vm_compute in Hread. injection Hread as <-. specialize (Hd 1%positive). set_solver.
Qed.
