(* ===== verification/NavigatorDeepCopy.v ===== *)
(** * Deep copies of the internal types

    pkg/apis/navigator/zz_generated.deepcopy.go.  The structs of the internal
    version have the fields of those of v1alpha1, some in another order, so the
    records of Memory.v stand for their memory too, and a copy of one is the
    copy of its fields in the order of the internal struct. *)

From S2P Require Import Prelude GoStrings Semver K8s Internal Types CassandraVersion Conversion Memory DeepCopy.

(** ** Shared structures *)

Definition navigator_ImageSpec_DeepCopyInto (r : ImageSpec) : GoM Mem ImageSpec := copyPlain r.

#[export] Instance navigator_ImageSpec_copyable : Copyable navigator_ImageSpec_DeepCopyInto.
Proof. apply copyPlain_ok. Qed.

Definition navigator_ClusterCondition_DeepCopyInto (r : ClusterCondition) : GoM Mem ClusterCondition := copyPlain r.

#[export] Instance navigator_ClusterCondition_copyable : Copyable navigator_ClusterCondition_DeepCopyInto.
Proof. apply copyPlain_ok. Qed.

Definition navigator_PilotCondition_DeepCopyInto (r : PilotCondition) : GoM Mem PilotCondition := copyPlain r.

#[export] Instance navigator_PilotCondition_copyable : Copyable navigator_PilotCondition_DeepCopyInto.
Proof. apply copyPlain_ok. Qed.

Definition navigator_ElasticsearchClusterNodePoolStatus_DeepCopyInto (r : ElasticsearchClusterNodePoolStatus) : GoM Mem ElasticsearchClusterNodePoolStatus := copyPlain r.

#[export] Instance navigator_ElasticsearchClusterNodePoolStatus_copyable : Copyable navigator_ElasticsearchClusterNodePoolStatus_DeepCopyInto.
Proof. apply copyPlain_ok. Qed.

Definition navigator_CassandraClusterNodePoolStatus_DeepCopyInto (r : CassandraClusterNodePoolStatus) : GoM Mem CassandraClusterNodePoolStatus := copyPlain r.

#[export] Instance navigator_CassandraClusterNodePoolStatus_copyable : Copyable navigator_CassandraClusterNodePoolStatus_DeepCopyInto.
Proof. apply copyPlain_ok. Qed.

Definition navigator_PersistenceConfig_DeepCopyInto (r : rPersistenceConfig) : GoM Mem rPersistenceConfig :=
  size ← Quantity_DeepCopy (rpc_Size r);
  storageClass ← copyPtr copyPlain (rpc_StorageClass r);
  mret (mkRPersistenceConfig size storageClass).

#[export] Instance navigator_PersistenceConfig_copyable : Copyable navigator_PersistenceConfig_DeepCopyInto.
Proof. copy_struct. Qed.

Definition navigator_NavigatorSecurityContext_DeepCopyInto (r : rNavigatorSecurityContext) : GoM Mem rNavigatorSecurityContext :=
  runAsUser ← copyPtr copyPlain (rnsc_RunAsUser r);
  mret (mkRNavigatorSecurityContext runAsUser).

#[export] Instance navigator_NavigatorSecurityContext_copyable : Copyable navigator_NavigatorSecurityContext_DeepCopyInto.
Proof. copy_struct. Qed.

Definition navigator_NavigatorClusterConfig_DeepCopyInto (r : rNavigatorClusterConfig) : GoM Mem rNavigatorClusterConfig :=
  securityContext ← navigator_NavigatorSecurityContext_DeepCopyInto (rcfg_SecurityContext r);
  mret (mkRNavigatorClusterConfig (rcfg_PilotImage r) securityContext (rcfg_Paused r)).

#[export] Instance navigator_NavigatorClusterConfig_copyable : Copyable navigator_NavigatorClusterConfig_DeepCopyInto.
Proof. copy_struct. Qed.

Definition navigator_NavigatorClusterStatus_DeepCopyInto (r : rNavigatorClusterStatus) : GoM Mem rNavigatorClusterStatus :=
  conditions ← copyPtr (copyList navigator_ClusterCondition_DeepCopyInto) (rncs_Conditions r);
  mret (mkRNavigatorClusterStatus conditions).

#[export] Instance navigator_NavigatorClusterStatus_copyable : Copyable navigator_NavigatorClusterStatus_DeepCopyInto.
Proof. copy_struct. Qed.

(** ** Elasticsearch *)

Definition navigator_ElasticsearchClusterNodePool_DeepCopyInto (r : rElasticsearchClusterNodePool) : GoM Mem rElasticsearchClusterNodePool :=
  replicas ← copyPtr copyPlain (renp_Replicas r);
  roles ← copyPtr (copyList copyPlain) (renp_Roles r);
  nodeSelector ← copyPtr copyPlain (renp_NodeSelector r);
  resources ← ResourceRequirements_DeepCopyInto (renp_Resources r);
  persistence ← copyPtr navigator_PersistenceConfig_DeepCopyInto (renp_Persistence r);
  mret (mkRElasticsearchClusterNodePool (renp_Name r) replicas roles nodeSelector resources persistence (renp_SchedulerName r)).

#[export] Instance navigator_ElasticsearchClusterNodePool_copyable : Copyable navigator_ElasticsearchClusterNodePool_DeepCopyInto.
Proof. copy_struct. Qed.

Definition navigator_ElasticsearchClusterSpec_DeepCopyInto (r : rElasticsearchClusterSpec) : GoM Mem rElasticsearchClusterSpec :=
  config ← navigator_NavigatorClusterConfig_DeepCopyInto (res_Config r);
  image ← copyPtr copyPlain (res_Image r);
  plugins ← copyPtr (copyList copyPlain) (res_Plugins r);
  nodePools ← copyPtr (copyList navigator_ElasticsearchClusterNodePool_DeepCopyInto) (res_NodePools r);
  minimumMasters ← copyPtr copyPlain (res_MinimumMasters r);
  mret (mkRElasticsearchClusterSpec config (res_Version r) plugins nodePools image minimumMasters).

#[export] Instance navigator_ElasticsearchClusterSpec_copyable : Copyable navigator_ElasticsearchClusterSpec_DeepCopyInto.
Proof. copy_struct. Qed.

Definition navigator_ElasticsearchClusterStatus_DeepCopyInto (r : rElasticsearchClusterStatus) : GoM Mem rElasticsearchClusterStatus :=
  conditions ← navigator_NavigatorClusterStatus_DeepCopyInto (rest_Conditions r);
  nodePools ← copyPtr copyPlain (rest_NodePools r);
  health ← copyPtr copyPlain (rest_Health r);
  mret (mkRElasticsearchClusterStatus conditions nodePools health).

#[export] Instance navigator_ElasticsearchClusterStatus_copyable : Copyable navigator_ElasticsearchClusterStatus_DeepCopyInto.
Proof. copy_struct. Qed.

Definition navigator_ElasticsearchCluster_DeepCopyInto (r : rElasticsearchCluster) : GoM Mem rElasticsearchCluster :=
  meta ← ObjectMeta_DeepCopyInto (resc_Meta r);
  spec ← navigator_ElasticsearchClusterSpec_DeepCopyInto (resc_Spec r);
  status ← navigator_ElasticsearchClusterStatus_DeepCopyInto (resc_Status r);
  mret (mkRElasticsearchCluster meta spec status).

#[export] Instance navigator_ElasticsearchCluster_copyable : Copyable navigator_ElasticsearchCluster_DeepCopyInto.
Proof. copy_struct. Qed.

Definition navigator_ElasticsearchClusterList_DeepCopyInto (r : rElasticsearchClusterList) : GoM Mem rElasticsearchClusterList :=
  items ← copyPtr (copyList navigator_ElasticsearchCluster_DeepCopyInto) (rescl_Items r);
  mret (mkRElasticsearchClusterList items).

#[export] Instance navigator_ElasticsearchClusterList_copyable : Copyable navigator_ElasticsearchClusterList_DeepCopyInto.
Proof. copy_struct. Qed.

(** ** Cassandra *)

Definition navigator_CassandraClusterNodePool_DeepCopyInto (r : rCassandraClusterNodePool) : GoM Mem rCassandraClusterNodePool :=
  replicas ← copyPtr copyPlain (rcnp_Replicas r);
  persistence ← copyPtr navigator_PersistenceConfig_DeepCopyInto (rcnp_Persistence r);
  nodeSelector ← copyPtr copyPlain (rcnp_NodeSelector r);
  rack ← copyPtr copyPlain (rcnp_Rack r);
  datacenter ← copyPtr copyPlain (rcnp_Datacenter r);
  resources ← ResourceRequirements_DeepCopyInto (rcnp_Resources r);
  mret (mkRCassandraClusterNodePool (rcnp_Name r) replicas persistence nodeSelector rack datacenter resources (rcnp_SchedulerName r)).

#[export] Instance navigator_CassandraClusterNodePool_copyable : Copyable navigator_CassandraClusterNodePool_DeepCopyInto.
Proof. copy_struct. Qed.

Definition navigator_CassandraClusterSpec_DeepCopyInto (r : rCassandraClusterSpec) : GoM Mem rCassandraClusterSpec :=
  config ← navigator_NavigatorClusterConfig_DeepCopyInto (rcs_Config r);
  nodePools ← copyPtr (copyList navigator_CassandraClusterNodePool_DeepCopyInto) (rcs_NodePools r);
  version ← Version_DeepCopy (rcs_Version r);
  image ← copyPtr copyPlain (rcs_Image r);
  mret (mkRCassandraClusterSpec config nodePools image version).

#[export] Instance navigator_CassandraClusterSpec_copyable : Copyable navigator_CassandraClusterSpec_DeepCopyInto.
Proof. copy_struct. Qed.

Definition navigator_CassandraClusterStatus_DeepCopyInto (r : rCassandraClusterStatus) : GoM Mem rCassandraClusterStatus :=
  conditions ← navigator_NavigatorClusterStatus_DeepCopyInto (rcst_Conditions r);
  nodePools ← copyPtr copyPlain (rcst_NodePools r);
  mret (mkRCassandraClusterStatus conditions nodePools).

#[export] Instance navigator_CassandraClusterStatus_copyable : Copyable navigator_CassandraClusterStatus_DeepCopyInto.
Proof. copy_struct. Qed.

Definition navigator_CassandraCluster_DeepCopyInto (r : rCassandraCluster) : GoM Mem rCassandraCluster :=
  meta ← ObjectMeta_DeepCopyInto (rcass_Meta r);
  spec ← navigator_CassandraClusterSpec_DeepCopyInto (rcass_Spec r);
  status ← navigator_CassandraClusterStatus_DeepCopyInto (rcass_Status r);
  mret (mkRCassandraCluster meta spec status).

#[export] Instance navigator_CassandraCluster_copyable : Copyable navigator_CassandraCluster_DeepCopyInto.
Proof. copy_struct. Qed.

Definition navigator_CassandraClusterList_DeepCopyInto (r : rCassandraClusterList) : GoM Mem rCassandraClusterList :=
  items ← copyPtr (copyList navigator_CassandraCluster_DeepCopyInto) (rcassl_Items r);
  mret (mkRCassandraClusterList items).

#[export] Instance navigator_CassandraClusterList_copyable : Copyable navigator_CassandraClusterList_DeepCopyInto.
Proof. copy_struct. Qed.

(** ** Pilots *)

Definition navigator_ElasticsearchPilotStatus_DeepCopyInto (r : rElasticsearchPilotStatus) : GoM Mem rElasticsearchPilotStatus :=
  documents ← copyPtr copyPlain (reps_Documents r);
  version ← copyPtr copyPlain (reps_Version r);
  mret (mkRElasticsearchPilotStatus documents version).

#[export] Instance navigator_ElasticsearchPilotStatus_copyable : Copyable navigator_ElasticsearchPilotStatus_DeepCopyInto.
Proof. copy_struct. Qed.

Definition navigator_CassandraPilotStatus_DeepCopyInto (r : rCassandraPilotStatus) : GoM Mem rCassandraPilotStatus :=
  version ← copyPtr Version_DeepCopy (rcps_Version r);
  mret (mkRCassandraPilotStatus version).

#[export] Instance navigator_CassandraPilotStatus_copyable : Copyable navigator_CassandraPilotStatus_DeepCopyInto.
Proof. copy_struct. Qed.

Definition navigator_PilotStatus_DeepCopyInto (r : rPilotStatus) : GoM Mem rPilotStatus :=
  conditions ← copyPtr (copyList navigator_PilotCondition_DeepCopyInto) (rpst_Conditions r);
  elasticsearch ← copyPtr navigator_ElasticsearchPilotStatus_DeepCopyInto (rpst_Elasticsearch r);
  cassandra ← copyPtr navigator_CassandraPilotStatus_DeepCopyInto (rpst_Cassandra r);
  mret (mkRPilotStatus conditions elasticsearch cassandra).

#[export] Instance navigator_PilotStatus_copyable : Copyable navigator_PilotStatus_DeepCopyInto.
Proof. copy_struct. Qed.

Definition navigator_Pilot_DeepCopyInto (r : rPilot) : GoM Mem rPilot :=
  meta ← ObjectMeta_DeepCopyInto (rpil_Meta r);
  status ← navigator_PilotStatus_DeepCopyInto (rpil_Status r);
  mret (mkRPilot meta status).

#[export] Instance navigator_Pilot_copyable : Copyable navigator_Pilot_DeepCopyInto.
Proof. copy_struct. Qed.

Definition navigator_PilotList_DeepCopyInto (r : rPilotList) : GoM Mem rPilotList :=
  items ← copyPtr (copyList navigator_Pilot_DeepCopyInto) (rpill_Items r);
  mret (mkRPilotList items).

#[export] Instance navigator_PilotList_copyable : Copyable navigator_PilotList_DeepCopyInto.
Proof. copy_struct. Qed.

(** ** DeepCopy and DeepCopyObject

    A nil receiver gives nil; otherwise a new object is filled. *)

Definition navigator_ImageSpec_DeepCopy : ptr ImageSpec → GoM Mem (ptr ImageSpec) := copyPtr navigator_ImageSpec_DeepCopyInto.

Definition navigator_ClusterCondition_DeepCopy : ptr ClusterCondition → GoM Mem (ptr ClusterCondition) := copyPtr navigator_ClusterCondition_DeepCopyInto.

Definition navigator_PilotCondition_DeepCopy : ptr PilotCondition → GoM Mem (ptr PilotCondition) := copyPtr navigator_PilotCondition_DeepCopyInto.

Definition navigator_ElasticsearchClusterNodePoolStatus_DeepCopy : ptr ElasticsearchClusterNodePoolStatus → GoM Mem (ptr ElasticsearchClusterNodePoolStatus) := copyPtr navigator_ElasticsearchClusterNodePoolStatus_DeepCopyInto.

Definition navigator_CassandraClusterNodePoolStatus_DeepCopy : ptr CassandraClusterNodePoolStatus → GoM Mem (ptr CassandraClusterNodePoolStatus) := copyPtr navigator_CassandraClusterNodePoolStatus_DeepCopyInto.

Definition navigator_PersistenceConfig_DeepCopy : ptr rPersistenceConfig → GoM Mem (ptr rPersistenceConfig) := copyPtr navigator_PersistenceConfig_DeepCopyInto.

Definition navigator_NavigatorSecurityContext_DeepCopy : ptr rNavigatorSecurityContext → GoM Mem (ptr rNavigatorSecurityContext) := copyPtr navigator_NavigatorSecurityContext_DeepCopyInto.

Definition navigator_NavigatorClusterConfig_DeepCopy : ptr rNavigatorClusterConfig → GoM Mem (ptr rNavigatorClusterConfig) := copyPtr navigator_NavigatorClusterConfig_DeepCopyInto.

Definition navigator_NavigatorClusterStatus_DeepCopy : ptr rNavigatorClusterStatus → GoM Mem (ptr rNavigatorClusterStatus) := copyPtr navigator_NavigatorClusterStatus_DeepCopyInto.

Definition navigator_ElasticsearchClusterNodePool_DeepCopy : ptr rElasticsearchClusterNodePool → GoM Mem (ptr rElasticsearchClusterNodePool) := copyPtr navigator_ElasticsearchClusterNodePool_DeepCopyInto.

Definition navigator_ElasticsearchClusterSpec_DeepCopy : ptr rElasticsearchClusterSpec → GoM Mem (ptr rElasticsearchClusterSpec) := copyPtr navigator_ElasticsearchClusterSpec_DeepCopyInto.

Definition navigator_ElasticsearchClusterStatus_DeepCopy : ptr rElasticsearchClusterStatus → GoM Mem (ptr rElasticsearchClusterStatus) := copyPtr navigator_ElasticsearchClusterStatus_DeepCopyInto.

Definition navigator_ElasticsearchCluster_DeepCopy : ptr rElasticsearchCluster → GoM Mem (ptr rElasticsearchCluster) := copyPtr navigator_ElasticsearchCluster_DeepCopyInto.

Definition navigator_ElasticsearchClusterList_DeepCopy : ptr rElasticsearchClusterList → GoM Mem (ptr rElasticsearchClusterList) := copyPtr navigator_ElasticsearchClusterList_DeepCopyInto.

Definition navigator_CassandraClusterNodePool_DeepCopy : ptr rCassandraClusterNodePool → GoM Mem (ptr rCassandraClusterNodePool) := copyPtr navigator_CassandraClusterNodePool_DeepCopyInto.

Definition navigator_CassandraClusterSpec_DeepCopy : ptr rCassandraClusterSpec → GoM Mem (ptr rCassandraClusterSpec) := copyPtr navigator_CassandraClusterSpec_DeepCopyInto.

Definition navigator_CassandraClusterStatus_DeepCopy : ptr rCassandraClusterStatus → GoM Mem (ptr rCassandraClusterStatus) := copyPtr navigator_CassandraClusterStatus_DeepCopyInto.

Definition navigator_CassandraCluster_DeepCopy : ptr rCassandraCluster → GoM Mem (ptr rCassandraCluster) := copyPtr navigator_CassandraCluster_DeepCopyInto.

Definition navigator_CassandraClusterList_DeepCopy : ptr rCassandraClusterList → GoM Mem (ptr rCassandraClusterList) := copyPtr navigator_CassandraClusterList_DeepCopyInto.

Definition navigator_ElasticsearchPilotStatus_DeepCopy : ptr rElasticsearchPilotStatus → GoM Mem (ptr rElasticsearchPilotStatus) := copyPtr navigator_ElasticsearchPilotStatus_DeepCopyInto.

Definition navigator_CassandraPilotStatus_DeepCopy : ptr rCassandraPilotStatus → GoM Mem (ptr rCassandraPilotStatus) := copyPtr navigator_CassandraPilotStatus_DeepCopyInto.

Definition navigator_PilotStatus_DeepCopy : ptr rPilotStatus → GoM Mem (ptr rPilotStatus) := copyPtr navigator_PilotStatus_DeepCopyInto.

Definition navigator_Pilot_DeepCopy : ptr rPilot → GoM Mem (ptr rPilot) := copyPtr navigator_Pilot_DeepCopyInto.

Definition navigator_PilotList_DeepCopy : ptr rPilotList → GoM Mem (ptr rPilotList) := copyPtr navigator_PilotList_DeepCopyInto.

Definition navigator_ElasticsearchCluster_DeepCopyObject (p : ptr rElasticsearchCluster) : GoM Mem (option (ptr rElasticsearchCluster)) :=
  c ← navigator_ElasticsearchCluster_DeepCopy p;
  mret (match addr c with Some _ => Some c | None => None end).

Definition navigator_ElasticsearchClusterList_DeepCopyObject (p : ptr rElasticsearchClusterList) : GoM Mem (option (ptr rElasticsearchClusterList)) :=
  c ← navigator_ElasticsearchClusterList_DeepCopy p;
  mret (match addr c with Some _ => Some c | None => None end).

Definition navigator_CassandraCluster_DeepCopyObject (p : ptr rCassandraCluster) : GoM Mem (option (ptr rCassandraCluster)) :=
  c ← navigator_CassandraCluster_DeepCopy p;
  mret (match addr c with Some _ => Some c | None => None end).

Definition navigator_CassandraClusterList_DeepCopyObject (p : ptr rCassandraClusterList) : GoM Mem (option (ptr rCassandraClusterList)) :=
  c ← navigator_CassandraClusterList_DeepCopy p;
  mret (match addr c with Some _ => Some c | None => None end).

Definition navigator_Pilot_DeepCopyObject (p : ptr rPilot) : GoM Mem (option (ptr rPilot)) :=
  c ← navigator_Pilot_DeepCopy p;
  mret (match addr c with Some _ => Some c | None => None end).

Definition navigator_PilotList_DeepCopyObject (p : ptr rPilotList) : GoM Mem (option (ptr rPilotList)) :=
  c ← navigator_PilotList_DeepCopy p;
  mret (match addr c with Some _ => Some c | None => None end).

(** ** What the memory of an internal object stands for *)

(** The value of a memory seen through a function. *)
Definition rep_map {R A B} (f : A → B) (rep : Rep R A) : Rep R B.
Proof.
  refine {| rread m r := prod_map f id <$> rread m r |}.
  - intros m m' r x Hsub. destruct (rread m r) as [y|] eqn:Hy; [|done]. intros [= <-].
    by rewrite (rread_mono _ _ _ _ Hsub Hy).
  - intros m r b ls. destruct (rread m r) as [[a ls']|] eqn:Hy; [|done]. intros [= _ <-]. by apply rread_dom in Hy.
Defined.

Lemma copyable_map {R A B} (f : A → B) (rep : Rep R A) (copy : R → GoM Mem R) :
  Copyable copy → @Copyable R B (rep_map f rep) copy.
Proof.
  intros Hc m r b ls Hr. unfold rread, rep_map in Hr. destruct (rep.(rread) m r) as [[a ls0]|] eqn:Ha; [|done].
  injection Hr as <- <-. destruct (Hc m r a ls0 Ha) as (r' & m' & ls' & Hrun & Hsub & Hread & Hd).
  exists r', m', ls'. split_and!; [done..| |done]. unfold rread, rep_map. by rewrite Hread.
Qed.

(** The internal objects a reference or a list stands for. *)
Abbreviation internalRep conv := (rep_map (fmap conv) _).

Lemma internal_independent {R A B} (conv : A → B) `{InCell R} (rep : Rep R A) (copy : R → GoM Mem R) :
  Copyable copy → @independentCopy (ptr R) (option B) (rep_map (fmap conv) _) (copyPtr copy).
Proof. intros Hc. apply copy_independent, copyable_map, copyPtr_ok, Hc. Qed.

(** A cluster whose pool has a size and a limit held as an inf.Dec (10^20 and a
    half, more than an int64Amount has room for). *)
Definition dec_quantity : rQuantity := mkRQuantity 0 0 (mkPtr (Some 2%positive)) "" "DecimalSI".

Definition dec_memory : Mem := list_to_map [
  (1%positive, CWords [3875820019684212741; 54]);
  (2%positive, CDec (mkRDec (mkRInt false (mkPtr (Some 1%positive))) 1));
  (3%positive, CQuantities {["memory" := dec_quantity]});
  (4%positive, CPersistence (mkRPersistenceConfig dec_quantity nilptr));
  (5%positive, CESPools [mkRElasticsearchClusterNodePool "data" nilptr nilptr nilptr
     (mkRResourceRequirements (mkPtr (Some 3%positive)) nilptr) (mkPtr (Some 4%positive)) ""]);
  (6%positive, CESCluster (mkRElasticsearchCluster
     (mkRObjectMeta "es" "ns" "" "" nilptr nilptr nilptr nilptr)
     (mkRElasticsearchClusterSpec
        (mkRNavigatorClusterConfig (mkImageSpec "" "" "") (mkRNavigatorSecurityContext nilptr) false)
        (mkVersion 6 2 3 "" "") nilptr (mkPtr (Some 5%positive)) nilptr nilptr)
     (mkRElasticsearchClusterStatus (mkRNavigatorClusterStatus nilptr) nilptr nilptr)))].

Definition dec_value : Quantity := mkQuantity 1000000000000000000005 (-1) "DecimalSI" "".

Definition dec_cluster : ElasticsearchCluster := mkElasticsearchCluster
  (mkObjectMeta "es" "ns" "" "" None None [] None)
  (mkElasticsearchClusterSpec
     (mkNavigatorClusterConfig (mkImageSpec "" "" "") (mkNavigatorSecurityContext None) false)
     (mkVersion 6 2 3 "" "") []
     [mkElasticsearchClusterNodePool "data" None None None
        (mkResourceRequirements (Some {["memory" := dec_value]}) None)
        (Some (mkPersistenceConfig dec_value None)) ""] None None)
  (mkElasticsearchClusterStatus (mkNavigatorClusterStatus []) None None).

(** C22. The generated deep copies of clusters, pilots and their lists, of the v1alpha1 and of
    the internal types, taken of an object that memory holds (no reference dangles, and a
    Cassandra version is the zero value or one that New made), read the same as the original and
    share no cell with it, the words and the inf.Dec behind a resource quantity included:
    whatever is written later to the cells the copy reaches, the original reads as before. Of the
    vendored ObjectMeta the fields the program uses are in memory. *)
Theorem deep_copies_are_independent :
  (independentCopy ElasticsearchCluster_DeepCopy ∧ independentCopy CassandraCluster_DeepCopy ∧
   independentCopy Pilot_DeepCopy ∧ independentCopy ElasticsearchClusterList_DeepCopy ∧
   independentCopy CassandraClusterList_DeepCopy ∧ independentCopy PilotList_DeepCopy) ∧
  @independentCopy _ _ (internalRep autoConvert_v1alpha1_ElasticsearchCluster_To_navigator_ElasticsearchCluster)
    navigator_ElasticsearchCluster_DeepCopy ∧
  @independentCopy _ _ (internalRep autoConvert_v1alpha1_CassandraCluster_To_navigator_CassandraCluster)
    navigator_CassandraCluster_DeepCopy ∧
  @independentCopy _ _ (internalRep autoConvert_v1alpha1_Pilot_To_navigator_Pilot) navigator_Pilot_DeepCopy ∧
  @independentCopy _ _ (internalRep (fmap (M := list) autoConvert_v1alpha1_ElasticsearchCluster_To_navigator_ElasticsearchCluster))
    navigator_ElasticsearchClusterList_DeepCopy ∧
  @independentCopy _ _ (internalRep (fmap (M := list) autoConvert_v1alpha1_CassandraCluster_To_navigator_CassandraCluster))
    navigator_CassandraClusterList_DeepCopy ∧
  @independentCopy _ _ (internalRep (fmap (M := list) autoConvert_v1alpha1_Pilot_To_navigator_Pilot)) navigator_PilotList_DeepCopy.
Proof.
  split; [split_and!; apply copy_independent; apply copyPtr_ok; apply _|].
  split_and!; apply internal_independent; apply _.
Qed.

(** The cluster above, in the memory above, which has an inf.Dec at location 2:
    its copy stands for the same cluster and reaches none of the six cells. *)
Lemma deep_copies_are_independent_witness :
  ∃ r' m' ls',
    rread dec_memory (mkPtr (R := rElasticsearchCluster) (Some 6%positive)) = Some (Some dec_cluster, {[1; 2; 3; 4; 5; 6]}%positive) ∧
    ElasticsearchCluster_DeepCopy (mkPtr (Some 6%positive)) dec_memory = (Ret r', m') ∧
    rread m' r' = Some (Some dec_cluster, ls') ∧ {[1; 2; 3; 4; 5; 6]}%positive ## ls' ∧
    ∀ ws, Forall (λ w, fst w ∈ ls') ws →
      rread (writes ws m') (mkPtr (R := rElasticsearchCluster) (Some 6%positive)) = Some (Some dec_cluster, {[1; 2; 3; 4; 5; 6]}%positive).
Proof.
  assert (rread dec_memory (mkPtr (R := rElasticsearchCluster) (Some 6%positive)) =
          Some (Some dec_cluster, {[1; 2; 3; 4; 5; 6]}%positive)) as Hr by (vm_compute; reflexivity).
  destruct (proj1 (proj1 deep_copies_are_independent) dec_memory _ _ _ Hr) as (r' & m' & ls' & H).
  exists r', m', ls'. by split.
Defined.
