(* ===== verification/Registry.v ===== *)
(** * Registry strategies and admission

    pkg/registry/navigator/*/strategy.go and etcd.go: what happens to an object
    between a request and the store, on the main endpoint and on the status
    endpoint of each resource, and plugin/pkg/admission/namespace/lifecycle: in
    which namespaces requests are admitted.

    BeforeUpdate and BeforeCreate of the vendored k8s.io/apiserver call a
    strategy; its checks of common metadata are a parameter. *)

From S2P Require Import Prelude GoStrings Semver K8s Types CassandraVersion Internal Validation.

(** ** Strategies *)

(** RESTCreateStrategy and RESTUpdateStrategy; a failed type assertion panics,
    and the typed store only hands over objects of its type. *)
Record Strategy (T : Type) := mkStrategy {
  st_NamespaceScoped : bool;
  st_PrepareForCreate : T → T;
  st_PrepareForUpdate : T → T → T;
  st_Validate : T → outcome (list FieldError);
  st_AllowCreateOnUpdate : bool;
  st_AllowUnconditionalUpdate : bool;
  st_Canonicalize : T → T;
  st_ValidateUpdate : T → T → outcome (list FieldError);
}.
Arguments mkStrategy {T}.
Arguments st_NamespaceScoped {T} s : rename.
Arguments st_PrepareForCreate {T} s obj : rename.
Arguments st_PrepareForUpdate {T} s obj old : rename.
Arguments st_Validate {T} s obj : rename.
Arguments st_AllowCreateOnUpdate {T} s : rename.
Arguments st_AllowUnconditionalUpdate {T} s : rename.
Arguments st_Canonicalize {T} s obj : rename.
Arguments st_ValidateUpdate {T} s obj old : rename.

Definition set_nesc_Spec (spec : ElasticsearchClusterSpec) (c : ElasticsearchCluster) : ElasticsearchCluster :=
  mkElasticsearchCluster (nesc_Meta c) spec (nesc_Status c).
Definition set_ncass_Spec (spec : CassandraClusterSpec) (c : CassandraCluster) : CassandraCluster :=
  mkCassandraCluster (ncass_Meta c) spec (ncass_Status c).

Section strategies.
Context (ValidateObjectMeta : ObjectMeta → Path → list FieldError).

Definition esClusterStrategy : Strategy ElasticsearchCluster :=
  {| st_NamespaceScoped := true;
     st_PrepareForCreate obj := obj;
     st_PrepareForUpdate obj old := obj;
     st_Validate := ValidateElasticsearchCluster ValidateObjectMeta;
     st_AllowCreateOnUpdate := false;
     st_AllowUnconditionalUpdate := false;
     st_Canonicalize obj := obj;
     st_ValidateUpdate obj old := ValidateElasticsearchClusterUpdate ValidateObjectMeta old obj |}.

(** Status changes are not allowed to update spec. *)
Definition esClusterStatusStrategy : Strategy ElasticsearchCluster :=
  let base := esClusterStrategy in
  {| st_NamespaceScoped := st_NamespaceScoped base;
     st_PrepareForCreate := st_PrepareForCreate base;
     st_PrepareForUpdate new old := set_nesc_Spec (nesc_Spec old) new;
     st_Validate := st_Validate base;
     st_AllowCreateOnUpdate := st_AllowCreateOnUpdate base;
     st_AllowUnconditionalUpdate := st_AllowUnconditionalUpdate base;
     st_Canonicalize := st_Canonicalize base;
     st_ValidateUpdate _ _ := Ret [] |}.

Definition cassandraClusterStrategy : Strategy CassandraCluster :=
  {| st_NamespaceScoped := true;
     st_PrepareForCreate obj := obj;
     st_PrepareForUpdate obj old := obj;
     st_Validate := ValidateCassandraCluster ValidateObjectMeta;
     st_AllowCreateOnUpdate := false;
     st_AllowUnconditionalUpdate := false;
     st_Canonicalize obj := obj;
     st_ValidateUpdate obj old := ValidateCassandraClusterUpdate ValidateObjectMeta old obj |}.

Definition cassandraClusterStatusStrategy : Strategy CassandraCluster :=
  let base := cassandraClusterStrategy in
  {| st_NamespaceScoped := st_NamespaceScoped base;
     st_PrepareForCreate := st_PrepareForCreate base;
     st_PrepareForUpdate new old := set_ncass_Spec (ncass_Spec old) new;
     st_Validate := st_Validate base;
     st_AllowCreateOnUpdate := st_AllowCreateOnUpdate base;
     st_AllowUnconditionalUpdate := st_AllowUnconditionalUpdate base;
     st_Canonicalize := st_Canonicalize base;
     st_ValidateUpdate _ _ := Ret [] |}.
End strategies.

Definition pilotStrategy : Strategy Pilot :=
  {| st_NamespaceScoped := true;
     st_PrepareForCreate obj := obj;
     st_PrepareForUpdate obj old := obj;
     st_Validate _ := Ret [];
     st_AllowCreateOnUpdate := false;
     st_AllowUnconditionalUpdate := false;
     st_Canonicalize obj := obj;
     st_ValidateUpdate _ _ := Ret [] |}.

(** The spec of a Pilot has no fields, so keeping the old one changes nothing. *)
Definition pilotStatusStrategy : Strategy Pilot :=
  let base := pilotStrategy in
  {| st_NamespaceScoped := st_NamespaceScoped base;
     st_PrepareForCreate := st_PrepareForCreate base;
     st_PrepareForUpdate new old := new;
     st_Validate := st_Validate base;
     st_AllowCreateOnUpdate := st_AllowCreateOnUpdate base;
     st_AllowUnconditionalUpdate := st_AllowUnconditionalUpdate base;
     st_Canonicalize := st_Canonicalize base;
     st_ValidateUpdate _ _ := Ret [] |}.

(** ** rest.BeforeCreate and rest.BeforeUpdate *)

Section requests.
Context {T : Type} (meta : T → ObjectMeta) (set_Namespace : string → T → T).
(** The deletion timestamp is cleared, and the system fields are filled in. *)
Context (clearDeletion FillObjectMetaSystemFields : T → T).
(** The namespace of the request, and the checks of common metadata. *)
Context (requestNamespace : string) (commonCreate : T → list FieldError) (commonUpdate : T → T → list FieldError).

(** ValidNamespace fills in an empty namespace. *)
Definition ValidNamespace (obj : T) : T * bool :=
  let obj := if bool_decide (om_Namespace (meta obj) = "") then set_Namespace requestNamespace obj else obj in
  (obj, bool_decide (requestNamespace = om_Namespace (meta obj))).

Definition wrongNamespace : Err :=
  Errorf "the namespace of the provided object does not match the namespace sent on the request" [].
Definition NewInvalid (name : string) (errs : list FieldError) : Err := Errorf "%q is invalid" [AStr name].

Definition BeforeCreate (st : Strategy T) (obj : T) : outcome (Res T) :=
  let '(obj, ok) := if st_NamespaceScoped st then ValidNamespace obj else (set_Namespace "" obj, true) in
  if negb ok then Ret (inl wrongNamespace)
  else
    let obj := clearDeletion obj in
    let obj := st_PrepareForCreate st obj in
    let obj := FillObjectMetaSystemFields obj in
    errs ← st_Validate st obj;
    match errs with
    | _ :: _ => Ret (inl (NewInvalid (om_Name (meta obj)) errs))
    | [] =>
        match commonCreate obj with
        | _ :: _ => Ret (inl (NewInvalid (om_Name (meta obj)) (commonCreate obj)))
        | [] => Ret (inr (st_Canonicalize st obj))
        end
    end.

Definition BeforeUpdate (st : Strategy T) (obj old : T) : outcome (Res T) :=
  let '(obj, ok) := if st_NamespaceScoped st then ValidNamespace obj else (set_Namespace "" obj, true) in
  if negb ok then Ret (inl wrongNamespace)
  else
    let obj := st_PrepareForUpdate st obj old in
    errs ← st_ValidateUpdate st obj old;
    match commonUpdate obj old ++ errs with
    | _ :: _ => Ret (inl (NewInvalid (om_Name (meta obj)) (commonUpdate obj old ++ errs)))
    | [] => Ret (inr (st_Canonicalize st obj))
    end.
End requests.

Definition nesc_set_Namespace (ns : string) (c : ElasticsearchCluster) : ElasticsearchCluster :=
  let m := nesc_Meta c in
  mkElasticsearchCluster (mkObjectMeta (om_Name m) ns (om_UID m) (om_ResourceVersion m) (om_Labels m) (om_Annotations m)
    (om_OwnerReferences m) (om_DeletionTimestamp m)) (nesc_Spec c) (nesc_Status c).
Definition ncass_set_Namespace (ns : string) (c : CassandraCluster) : CassandraCluster :=
  let m := ncass_Meta c in
  mkCassandraCluster (mkObjectMeta (om_Name m) ns (om_UID m) (om_ResourceVersion m) (om_Labels m) (om_Annotations m)
    (om_OwnerReferences m) (om_DeletionTimestamp m)) (ncass_Spec c) (ncass_Status c).

(** ** What the endpoints store *)

Lemma ValidNamespace_fields ns (c : ElasticsearchCluster) c' ok :
  ValidNamespace nesc_Meta nesc_set_Namespace ns c = (c', ok) → nesc_Spec c' = nesc_Spec c ∧ nesc_Status c' = nesc_Status c.
Proof. unfold ValidNamespace. case_bool_decide; intros [= <- _]; done. Qed.

Lemma ValidNamespace_fields' ns (c : CassandraCluster) c' ok :
  ValidNamespace ncass_Meta ncass_set_Namespace ns c = (c', ok) → ncass_Spec c' = ncass_Spec c ∧ ncass_Status c' = ncass_Status c.
Proof. unfold ValidNamespace. case_bool_decide; intros [= <- _]; done. Qed.

(** An accepted update of the status endpoint stores the specification of the old object and
    the status of the request; one of the main endpoint stores the specification of the request
    and has passed update validation against the old object. *)
Theorem endpoints_separate_spec_and_status vom ns (commonES : ElasticsearchCluster → ElasticsearchCluster → list FieldError)
    (commonCass : CassandraCluster → CassandraCluster → list FieldError) :
  (∀ new old stored,
     BeforeUpdate nesc_Meta nesc_set_Namespace ns commonES (esClusterStatusStrategy vom) new old = Ret (inr stored) →
     nesc_Spec stored = nesc_Spec old ∧ nesc_Status stored = nesc_Status new) ∧
  (∀ new old stored,
     BeforeUpdate ncass_Meta ncass_set_Namespace ns commonCass (cassandraClusterStatusStrategy vom) new old = Ret (inr stored) →
     ncass_Spec stored = ncass_Spec old ∧ ncass_Status stored = ncass_Status new) ∧
  (∀ new old stored,
     BeforeUpdate nesc_Meta nesc_set_Namespace ns commonES (esClusterStrategy vom) new old = Ret (inr stored) →
     nesc_Spec stored = nesc_Spec new ∧ ValidateElasticsearchClusterUpdate vom old stored = Ret []) ∧
  (∀ new old stored,
     BeforeUpdate ncass_Meta ncass_set_Namespace ns commonCass (cassandraClusterStrategy vom) new old = Ret (inr stored) →
     ncass_Spec stored = ncass_Spec new ∧ ValidateCassandraClusterUpdate vom old stored = Ret []).
Proof.
  split_and!; intros new old stored; unfold BeforeUpdate; cbn -[ValidNamespace ValidateElasticsearchClusterUpdate ValidateCassandraClusterUpdate];
    destruct (ValidNamespace _ _ _ _) as [c ok] eqn:Hns;
    (apply ValidNamespace_fields in Hns as [Hspec Hstat] || apply ValidNamespace_fields' in Hns as [Hspec Hstat]);
    destruct ok; cbn -[ValidateElasticsearchClusterUpdate ValidateCassandraClusterUpdate]; try done.
  - destruct (_ ++ _); [|done]. by intros [= <-].
  - destruct (_ ++ _); [|done]. by intros [= <-].
  - destruct (ValidateElasticsearchClusterUpdate vom old c) as [errs|] eqn:Hv; [|done]. simpl.
    destruct (commonES c old ++ errs) eqn:Happ; [|done]. apply app_nil in Happ as [_ ->]. by intros [= <-].
  - destruct (ValidateCassandraClusterUpdate vom old c) as [errs|] eqn:Hv; [|done]. simpl.
    destruct (commonCass c old ++ errs) eqn:Happ; [|done]. apply app_nil in Happ as [_ ->]. by intros [= <-].
Qed.

(** A request that changes both, on the status endpoint. *)
Definition sampleCluster (minimumMasters : option Z) (health : option string) : ElasticsearchCluster :=
  mkElasticsearchCluster (mkObjectMeta "demo" "test" "uid-demo" "1" None None [] None)
    (mkElasticsearchClusterSpec
       (mkNavigatorClusterConfig (mkImageSpec "navigator/pilot" "v1" PullIfNotPresent) (mkNavigatorSecurityContext None) false)
       (mkVersion 5 6 1 "" "") None [] [] minimumMasters)
    (mkElasticsearchClusterStatus (mkNavigatorClusterStatus []) None health).

Lemma endpoints_separate_spec_and_status_witness :
  nesc_Spec (sampleCluster (Some 2) (Some "Green")) = nesc_Spec (sampleCluster (Some 2) (Some "Red")) ∧
  nesc_Status (sampleCluster (Some 2) (Some "Green")) = nesc_Status (sampleCluster (Some 3) (Some "Green")).
Proof.
  apply (proj1 (endpoints_separate_spec_and_status (λ _ _, []) "test" (λ _ _, []) (λ _ _, []))
    (sampleCluster (Some 3) (Some "Green")) (sampleCluster (Some 2) (Some "Red"))).
  reflexivity.
Defined.

(** The main endpoint stores the status of the request too. *)
Lemma main_endpoint_writes_status vom ns commonES new old :
  om_Namespace (nesc_Meta new) = ns → ns ≠ "" → commonES new old = [] →
  ValidateElasticsearchClusterUpdate vom old new = Ret [] →
  BeforeUpdate nesc_Meta nesc_set_Namespace ns commonES (esClusterStrategy vom) new old = Ret (inr new).
Proof.
  intros <- Hne Hc Hv. unfold BeforeUpdate, ValidNamespace. cbn [st_NamespaceScoped esClusterStrategy].
  rewrite (bool_decide_eq_false_2 _ Hne), bool_decide_eq_true_2 by done. simpl. rewrite Hv. simpl. by rewrite Hc.
Qed.

(** ** Namespace lifecycle *)

Inductive Operation := OpCreate | OpUpdate | OpDelete | OpConnect.
#[export] Instance Operation_eq_dec : EqDecision Operation.
Proof. solve_decision. Defined.

Definition NamespaceActive : string := "Active".
Definition NamespaceTerminating : string := "Terminating".

(** What is used of a corev1.Namespace. *)
Record Namespace := mkNamespace { ns_Name : string; ns_Phase : string }.

Definition NewInternalError (err : Err) : Err := StatusError StatusReasonInternalError "Internal error occurred" [err].
Definition NewForbidden (err : Err) : Err := StatusError StatusReasonForbidden "forbidden" [err].

(** The last step of Admit: nothing is created in a terminating namespace. *)
Definition admitPhase (namespace : string) (op : Operation) (ns : Namespace) : option Err :=
  if bool_decide (op = OpCreate) then
    if negb (bool_decide (ns_Phase ns = NamespaceTerminating)) then None
    else Some (NewForbidden (Errorf "unable to create new content in namespace %q because it is being terminated"
                               [AStr namespace]))
  else None.

(** Admit: [cache] is the lister's answer, [later] its answer after the wait,
    and [live] that of the API server. *)
Definition Admit (ready : bool) (namespace : string) (op : Operation) (cache later live : Res Namespace) : option Err :=
  if negb ready then Some (NewForbidden (Errorf "not yet ready to handle request" []))
  else
    let proceed (found : option Namespace) :=
      match found with
      | Some ns => admitPhase namespace op ns
      | None =>
          match live with
          | inl err => if IsNotFound (Some err) then Some err else Some (NewInternalError err)
          | inr ns => admitPhase namespace op ns
          end
      end in
    match cache with
    | inl err =>
        if negb (IsNotFound (Some err)) then Some (NewInternalError err)
        else if bool_decide (String.length namespace = 0%nat) then None
        else if bool_decide (op = OpCreate) then
          match later with
          | inl err => if IsNotFound (Some err) then proceed None else Some (NewInternalError err)
          | inr ns => proceed (Some ns)
          end
        else proceed None
    | inr ns => if bool_decide (String.length namespace = 0%nat) then None else proceed (Some ns)
    end.

Definition ValidateInitialization (namespaceLister client : bool) : option Err :=
  if negb namespaceLister then Some (Errorf "missing namespaceLister" [])
  else if negb client then Some (Errorf "missing client" [])
  else None.

(** The namespace an admission decision is based on: the first that is found in
    the cache, in the cache after the wait (for a create), or live. *)
Definition foundNamespace (op : Operation) (cache later live : Res Namespace) : option Namespace :=
  match cache with
  | inr ns => Some ns
  | inl _ =>
      match (if decide (op = OpCreate) then later else cache), live with
      | inr ns, _ => Some ns
      | inl _, inr ns => Some ns
      | inl _, inl _ => None
      end
  end.

(** The lister fails only because an object is missing. *)
Definition onlyMissing {A} (r : Res A) : Prop := ∀ err, r = inl err → IsNotFound (Some err) = true.

Lemma admitPhase_spec namespace op ns :
  admitPhase namespace op ns = None ↔
  ∃ ns', Some ns = Some ns' ∧ (op = OpCreate → ns_Phase ns' ≠ NamespaceTerminating).
Proof.
  unfold admitPhase. case_bool_decide as Hop.
  - case_bool_decide as Hp; simpl; split; try done.
    + intros (ns' & [= <-] & Hn). by specialize (Hn Hop).
    + intros _. eauto.
  - split; [|done]. intros _. eauto.
Qed.

Lemma live_spec namespace op (live : Res Namespace) :
  match live with
  | inl err => if IsNotFound (Some err) then Some err else Some (NewInternalError err)
  | inr ns => admitPhase namespace op ns
  end = None ↔
  ∃ ns', match live with inl _ => None | inr ns => Some ns end = Some ns' ∧
         (op = OpCreate → ns_Phase ns' ≠ NamespaceTerminating).
Proof.
  destruct live as [err|ns]; [|apply admitPhase_spec].
  split; [by destruct (IsNotFound (Some err))|]. by intros (ns' & ? & _).
Qed.

(** A request is admitted exactly when its namespace is found, in the cache, in the
    cache after the wait or live, and, for a create, is not being terminated. *)
Theorem admitted_iff_namespace_usable namespace op cache later live :
  namespace ≠ "" → onlyMissing cache → onlyMissing later →
  Admit true namespace op cache later live = None ↔
  ∃ ns, foundNamespace op cache later live = Some ns ∧ (op = OpCreate → ns_Phase ns ≠ NamespaceTerminating).
Proof.
  intros Hne Hc Hl. assert (bool_decide (String.length namespace = 0%nat) = false) as Hlen.
  { apply bool_decide_eq_false. by destruct namespace. }
  unfold Admit, foundNamespace. cbn [negb]. rewrite Hlen.
  destruct cache as [err|ns].
  - rewrite (Hc err eq_refl). cbn [negb]. destruct (decide (op = OpCreate)) as [Hop|Hop].
    + rewrite (bool_decide_eq_true_2 _ Hop). destruct later as [err'|ns]; [rewrite (Hl err' eq_refl)|apply admitPhase_spec].
      apply live_spec.
    + rewrite (bool_decide_eq_false_2 _ Hop). apply live_spec.
  - apply admitPhase_spec.
Qed.

(** *** Concrete requests *)

Lemma admitted_iff_namespace_usable_witness :
  Admit true "test" OpCreate (inl (NewNotFound "test")) (inr (mkNamespace "test" NamespaceActive)) (inl (NewNotFound "test")) = None ∧
  Admit true "test" OpCreate (inr (mkNamespace "test" NamespaceTerminating)) (inl (NewNotFound "test"))
    (inl (NewNotFound "test")) ≠ None.
Proof.
  assert (onlyMissing (inl (NewNotFound "test") : Res Namespace)) as Hm by (intros err [= <-]; reflexivity).
  split.
  - apply (admitted_iff_namespace_usable "test" OpCreate); [discriminate|exact Hm|intros err; discriminate|].
    eexists. split; [reflexivity|]. intros _. discriminate.
  - intros Hadm. apply (admitted_iff_namespace_usable "test" OpCreate) in Hadm as (ns & [= <-] & Hph);
      [|discriminate|intros err; discriminate|exact Hm].
    exact (Hph eq_refl eq_refl).
Defined.
