(* ===== verification/Listers.v ===== *)
(** * Informer caches and the generated listers

    vendor/k8s.io/client-go/tools/cache: the thread-safe store with its
    namespace index, the loops of listers.go, and over them the generated
    listers of pkg/client/listers/navigator.  The other files read caches
    through [Lister], with [cacheLister] (a map from namespace and name to
    objects) as its model; the theorem here is that the store and the generated
    code implement that model, whatever sequence of changes the informer
    applies. *)

From S2P Require Import Prelude GoStrings Semver K8s WorkQueue Internal Types CassandraVersion Cluster Fixtures Handlers.
From Stdlib Require Import Ascii.

Section store.
Context {A : Type} (meta : A → ObjectMeta).

(** threadSafeMap with the one indexer the informers install, by namespace. *)
Record Store := mkStore {
  ts_items : gmap string A;
  ts_index : gmap string (gset string);
}.

Definition NewStore : Store := mkStore ∅ ∅.

(** MetaNamespaceIndexFunc gives the namespace of the object. *)
Definition indexValue (obj : A) : string := om_Namespace (meta obj).

(** Keys of the store *)
Definition objKey (obj : A) : string :=
  if bool_decide (om_Namespace (meta obj) = "") then om_Name (meta obj)
  else om_Namespace (meta obj) +:+ "/" +:+ om_Name (meta obj).

Definition deleteFromIndices (obj : A) (key : string) (index : gmap string (gset string)) : gmap string (gset string) :=
  match index !! indexValue obj with
  | Some set => <[indexValue obj := set ∖ {[key]}]> index
  | None => index
  end.

Definition updateIndices (oldObj : option A) (newObj : A) (key : string) (index : gmap string (gset string))
    : gmap string (gset string) :=
  let index := match oldObj with Some old => deleteFromIndices old key index | None => index end in
  <[indexValue newObj := {[key]} ∪ default ∅ (index !! indexValue newObj)]> index.

Definition Store_Add (obj : A) (c : Store) : Store :=
  let key := objKey obj in
  mkStore (<[key := obj]> (ts_items c)) (updateIndices (ts_items c !! key) obj key (ts_index c)).

Definition Store_Update (obj : A) (c : Store) : Store :=
  let key := objKey obj in
  mkStore (<[key := obj]> (ts_items c)) (updateIndices (ts_items c !! key) obj key (ts_index c)).

Definition Store_Delete (obj : A) (c : Store) : Store :=
  let key := objKey obj in
  match ts_items c !! key with
  | Some old => mkStore (delete key (ts_items c)) (deleteFromIndices old key (ts_index c))
  | None => c
  end.

(** The items are put in a map by key, then the index is rebuilt. *)
Definition Store_Replace (objs : list A) : Store :=
  let items := foldl (λ items obj, <[objKey obj := obj]> items) ∅ objs in
  mkStore items (foldl (λ index '(key, item), updateIndices None item key index) ∅ (map_to_list items)).

(** Index by namespace: a key that is not in the map gives nil. *)
Definition Store_Index (namespace : string) (c : Store) : list (option A) :=
  map (λ key, ts_items c !! key) (elements (default ∅ (ts_index c !! namespace))).

(** The loop of ListAll and ListAllByNamespace; nil has no metadata. *)
Fixpoint appendMatching (sel : Selector) (ms : list (option A)) : Res (list A) :=
  match ms with
  | [] => inr []
  | None :: _ => inl (Errorf "object does not implement the Object interfaces" [])
  | Some m :: rest =>
      match appendMatching sel rest with
      | inl err => inl err
      | inr ret => inr (if Selector_Matches sel (om_Labels (meta m)) then m :: ret else ret)
      end
  end.

Definition ListAll (c : Store) (sel : Selector) : Res (list A) :=
  appendMatching sel (map (λ e, Some (snd e)) (map_to_list (ts_items c))).

Definition ListAllByNamespace (c : Store) (namespace : string) (sel : Selector) : Res (list A) :=
  if bool_decide (namespace = "") then ListAll c sel
  else appendMatching sel (Store_Index namespace c).

(** The generated listers: all three have these bodies. *)
Definition generatedLister (c : Store) : Lister A :=
  {| lister_Get namespace name :=
       match ts_items c !! (namespace +:+ "/" +:+ name) with
       | Some obj => inr obj
       | None => inl (NewNotFound name)
       end;
     lister_List namespace sel := ListAllByNamespace c namespace sel |}.

(** ** What the informer does to the store *)

Inductive StoreOp :=
| SAddObj (obj : A)
| SUpdateObj (obj : A)
| SDeleteObj (obj : A)
| SReplaceObjs (objs : list A).

Definition applyOp (op : StoreOp) (c : Store) : Store :=
  match op with
  | SAddObj obj => Store_Add obj c
  | SUpdateObj obj => Store_Update obj c
  | SDeleteObj obj => Store_Delete obj c
  | SReplaceObjs objs => Store_Replace objs
  end.

(** The same on the map of the model. *)
Definition metaKey (obj : A) : string * string := (om_Namespace (meta obj), om_Name (meta obj)).

Definition abs_applyOp (op : StoreOp) (m : gmap (string * string) A) : gmap (string * string) A :=
  match op with
  | SAddObj obj | SUpdateObj obj => <[metaKey obj := obj]> m
  | SDeleteObj obj => delete (metaKey obj) m
  | SReplaceObjs objs => foldl (λ m obj, <[metaKey obj := obj]> m) ∅ objs
  end.

(** Namespaced objects: the namespace is not empty and has no slash. *)
Definition namespaced (obj : A) : Prop :=
  om_Namespace (meta obj) ≠ "" ∧ has_char "/"%char (om_Namespace (meta obj)) = false.

Definition opNamespaced (op : StoreOp) : Prop :=
  match op with
  | SAddObj obj | SUpdateObj obj | SDeleteObj obj => namespaced obj
  | SReplaceObjs objs => Forall namespaced objs
  end.

(** ** The invariant *)

Lemma objKey_namespaced obj : namespaced obj → objKey obj = om_Namespace (meta obj) +:+ "/" +:+ om_Name (meta obj).
Proof. intros [Hne _]. unfold objKey. by rewrite bool_decide_eq_false_2. Qed.

Lemma slash_key_inj ns ns' n n' :
  has_char "/"%char ns = false → has_char "/"%char ns' = false →
  ns +:+ "/" +:+ n = ns' +:+ "/" +:+ n' → ns = ns' ∧ n = n'.
Proof.
  intros H1 H2 Heq. pose proof (split_first_app "/"%char ns n H1) as S1. pose proof (split_first_app "/"%char ns' n' H2) as S2.
  change ("/" +:+ n) with (String "/"%char n) in Heq. change ("/" +:+ n') with (String "/"%char n') in Heq.
  rewrite Heq, S2 in S1. by injection S1 as -> ->.
Qed.

(** *** The index *)

Definition index_ok (items : gmap string A) (index : gmap string (gset string)) : Prop :=
  ∀ ns key, key ∈ (default ∅ (index !! ns) : gset string) ↔ ∃ a, items !! key = Some a ∧ om_Namespace (meta a) = ns.

Lemma index_insert items index key obj :
  index_ok items index → items !! key = None →
  index_ok (<[key := obj]> items)
    (<[indexValue obj := {[key]} ∪ default ∅ (index !! indexValue obj)]> index).
Proof.
  intros Hok Hnone ns k. specialize (Hok ns k). unfold indexValue. destruct (decide (k = key)) as [->|Hk].
  - rewrite lookup_insert_eq. destruct (decide (ns = om_Namespace (meta obj))) as [->|Hns].
    + rewrite lookup_insert_eq. split; [eauto|]. intros _. simpl. set_solver.
    + rewrite lookup_insert_ne by done. rewrite Hok, Hnone. split; [by intros (? & ? & _)|].
      intros (a & [= <-] & Ha). by destruct Hns.
  - rewrite (lookup_insert_ne items) by done. rewrite <- Hok. destruct (decide (ns = om_Namespace (meta obj))) as [->|Hns].
    + rewrite lookup_insert_eq. simpl. set_solver.
    + by rewrite lookup_insert_ne.
Qed.

Lemma index_delete items index key old :
  index_ok items index → items !! key = Some old →
  index_ok (delete key items) (deleteFromIndices old key index).
Proof.
  intros Hok Hold ns k. pose proof (Hok ns k) as Hk. unfold deleteFromIndices, indexValue.
  assert (k ∈ (default ∅ (match index !! om_Namespace (meta old) with
      | Some set => <[om_Namespace (meta old) := set ∖ {[key]}]> index | None => index end !! ns) : gset string) ↔
    k ∈ (default ∅ (index !! ns) : gset string) ∧ (ns = om_Namespace (meta old) → k ≠ key)) as ->.
  { destruct (index !! om_Namespace (meta old)) as [set|] eqn:Hset.
    - destruct (decide (ns = om_Namespace (meta old))) as [->|Hns].
      + rewrite lookup_insert_eq, Hset. simpl. set_solver.
      + rewrite lookup_insert_ne by done. naive_solver.
    - split; [|tauto]. intros Hin. split; [done|]. intros -> ->. by rewrite Hset in Hin. }
  rewrite Hk. destruct (decide (k = key)) as [->|Hne].
  - rewrite lookup_delete_eq, Hold. split; [|by intros (? & ? & _)]. intros [(a & [= <-] & <-) Hc]. by destruct Hc.
  - rewrite lookup_delete_ne by done. naive_solver.
Qed.

Lemma index_update items index key obj :
  index_ok items index → index_ok (<[key := obj]> items) (updateIndices (items !! key) obj key index).
Proof.
  intros Hok. unfold updateIndices. destruct (items !! key) as [old|] eqn:Hold.
  - rewrite <- insert_delete_eq. apply index_insert; [by apply index_delete|apply lookup_delete_eq].
  - by apply index_insert.
Qed.

Lemma foldl_insert_union {V} (l : list (string * V)) (m : gmap string V) :
  NoDup l.*1 → foldl (λ m '(k, v), <[k := v]> m) m l = list_to_map l ∪ m.
Proof.
  revert m. induction l as [|[k v] l IH]; intros m Hnd; simpl; [by rewrite (left_id_L ∅ (∪))|].
  apply NoDup_cons in Hnd as [Hk Hnd]. rewrite IH by done.
  rewrite <- insert_union_r by (by apply not_elem_of_list_to_map_1). by rewrite insert_union_l.
Qed.

Lemma index_rebuild_from l items index :
  NoDup l.*1 → (∀ k, k ∈ l.*1 → items !! k = None) → index_ok items index →
  index_ok (foldl (λ m '(k, v), <[k := v]> m) items l)
    (foldl (λ index '(key, item), updateIndices None item key index) index l).
Proof.
  revert items index. induction l as [|[k v] l IH]; intros items index Hnd Hfresh Hok; [done|].
  apply NoDup_cons in Hnd as [Hk Hnd]. simpl. apply IH; [done| |].
  - intros k' Hk'. rewrite lookup_insert_ne by (intros ->; done). apply Hfresh. by right.
  - apply index_insert; [done|]. apply Hfresh. by left.
Qed.

Lemma index_rebuild items :
  index_ok items (foldl (λ index '(key, item), updateIndices None item key index) ∅ (map_to_list items)).
Proof.
  pose proof (index_rebuild_from (map_to_list items) ∅ ∅) as H.
  rewrite foldl_insert_union, list_to_map_to_list, (right_id_L ∅ (∪)) in H by apply NoDup_fst_map_to_list.
  apply H; [apply NoDup_fst_map_to_list|done|]. intros ns k. rewrite !lookup_empty. simpl. set_solver.
Qed.

(** *** Keys *)

(** The items are those of the map, under string keys. *)
Definition items_ok (items : gmap string A) (m : gmap (string * string) A) : Prop :=
  (∀ key a, items !! key = Some a → namespaced a ∧ key = objKey a) ∧
  keyed meta m ∧ map_Forall (λ _, namespaced) m ∧
  ∀ ns name, has_char "/"%char ns = false → ns ≠ "" → items !! (ns +:+ "/" +:+ name) = m !! (ns, name).

Lemma items_insert items m obj :
  namespaced obj → items_ok items m → items_ok (<[objKey obj := obj]> items) (<[metaKey obj := obj]> m).
Proof.
  intros Hobj (H1 & H2 & H3 & H4). split_and!.
  - intros key a [[<- <-]|[_ Ha]]%lookup_insert_Some; eauto.
  - apply map_Forall_insert_2; done.
  - apply map_Forall_insert_2; done.
  - intros ns name Hns Hne. rewrite objKey_namespaced by done. unfold metaKey.
    destruct (decide ((ns, name) = (om_Namespace (meta obj), om_Name (meta obj)))) as [[= -> ->]|Hd].
    + by rewrite !lookup_insert_eq.
    + rewrite (lookup_insert_ne m) by done. rewrite lookup_insert_ne; [by apply H4|].
      intros [Hn1 Hn2]%slash_key_inj; [congruence|apply Hobj|done].
Qed.

Lemma items_delete items m obj :
  namespaced obj → items_ok items m → items_ok (delete (objKey obj) items) (delete (metaKey obj) m).
Proof.
  intros Hobj (H1 & H2 & H3 & H4). split_and!.
  - intros key a [_ Ha]%lookup_delete_Some. eauto.
  - by apply map_Forall_delete.
  - by apply map_Forall_delete.
  - intros ns name Hns Hne. rewrite objKey_namespaced by done. unfold metaKey.
    destruct (decide ((ns, name) = (om_Namespace (meta obj), om_Name (meta obj)))) as [[= -> ->]|Hd].
    + by rewrite !lookup_delete_eq.
    + rewrite (lookup_delete_ne m) by done. rewrite lookup_delete_ne; [by apply H4|].
      intros [Hn1 Hn2]%slash_key_inj; [congruence|apply Hobj|done].
Qed.

Lemma items_empty : items_ok ∅ ∅.
Proof. split_and!; [done|apply map_Forall_empty..|]. intros. by rewrite !lookup_empty. Qed.

Lemma items_replace objs :
  Forall namespaced objs →
  items_ok (foldl (λ items obj, <[objKey obj := obj]> items) ∅ objs) (foldl (λ m obj, <[metaKey obj := obj]> m) ∅ objs).
Proof.
  induction objs as [|obj objs IH] using rev_ind; intros Hf; [apply items_empty|].
  rewrite !foldl_app. simpl. apply Forall_app in Hf as [Hf [Hobj _]%Forall_cons]. apply items_insert; auto.
Qed.

Definition store_holds (c : Store) (m : gmap (string * string) A) : Prop :=
  items_ok (ts_items c) m ∧ index_ok (ts_items c) (ts_index c).

Lemma applyOp_holds op c m : opNamespaced op → store_holds c m → store_holds (applyOp op c) (abs_applyOp op m).
Proof.
  intros Hop [Hi Hx]. destruct op as [obj|obj|obj|objs]; simpl in *.
  - split; [by apply items_insert|by apply index_update].
  - split; [by apply items_insert|by apply index_update].
  - unfold Store_Delete. pose proof (items_delete _ _ obj Hop Hi) as Hd.
    destruct (ts_items c !! objKey obj) as [old|] eqn:Hold.
    + split; [done|by apply index_delete].
    + split; [|done]. by rewrite delete_id in Hd.
  - split; [by apply items_replace|apply index_rebuild].
Qed.

Definition afterOps (ops : list StoreOp) : Store := foldl (λ c op, applyOp op c) NewStore ops.
Definition abs_afterOps (ops : list StoreOp) : gmap (string * string) A := foldl (λ m op, abs_applyOp op m) ∅ ops.

Lemma afterOps_holds ops : Forall opNamespaced ops → store_holds (afterOps ops) (abs_afterOps ops).
Proof.
  induction ops as [|op ops IH] using rev_ind; intros Hf.
  - split; [apply items_empty|]. intros ns k. unfold afterOps, NewStore. simpl. rewrite !lookup_empty. simpl. set_solver.
  - apply Forall_app in Hf as [Hf [Hop _]%Forall_cons]. unfold afterOps, abs_afterOps. rewrite !foldl_app. simpl.
    by apply applyOp_holds; [|apply IH].
Qed.

(** *** Reading *)

Lemma appendMatching_Some sel l :
  appendMatching sel (map Some l) = inr (List.filter (λ a, Selector_Matches sel (om_Labels (meta a))) l).
Proof. induction l as [|a l IH]; simpl; [done|]. by rewrite IH. Qed.

(** The same objects are in the store and in the map. *)
Lemma items_same items m a :
  items_ok items m → (∃ k, items !! k = Some a) ↔ (∃ k, m !! k = Some a).
Proof.
  intros (H1 & H2 & H3 & H4). split.
  - intros [k Hk]. destruct (H1 k a Hk) as [Hns ->]. exists (metaKey a). unfold metaKey.
    rewrite <- H4, <- objKey_namespaced; [done|done|apply Hns..].
  - intros [k Hk]. pose proof (H3 k a Hk) as Hns. simpl in Hns. pose proof (H2 k a Hk) as ->. exists (objKey a).
    rewrite objKey_namespaced, H4; [done|apply Hns..|done].
Qed.

(** Looking up distinct keys gives distinct objects. *)
Lemma lookup_keys items m l :
  items_ok items m → NoDup l → (∀ k, k ∈ l → is_Some (items !! k)) →
  ∃ vals, map (λ k, items !! k) l = map Some vals ∧ NoDup vals ∧ ∀ a, a ∈ vals ↔ ∃ k, k ∈ l ∧ items !! k = Some a.
Proof.
  intros (H1 & _) Hnd Hl.
  assert (∃ vals, map (λ k, items !! k) l = map Some vals ∧ map objKey vals = l) as (vals & Hv & Hkeys).
  { clear Hnd. induction l as [|k l IH]; [by exists []|]. destruct (Hl k) as [a Ha]; [by left|].
    destruct IH as (vals & Hv & Hk); [intros; apply Hl; by right|]. exists (a :: vals). simpl.
    rewrite Ha, Hv, Hk. destruct (H1 _ _ Ha) as [_ ->]. done. }
  exists vals. split_and!; [done| |].
  - apply (NoDup_fmap_1 objKey). change (NoDup (map objKey vals)). by rewrite Hkeys.
  - intros a. transitivity (Some a ∈ map (λ k, items !! k) l).
    + rewrite Hv, !list_elem_of_In, in_map_iff. split; [by exists a|]. by intros (? & [= ->] & ?).
    + rewrite list_elem_of_In, in_map_iff. setoid_rewrite list_elem_of_In. split; intros (k & ? & ?); by exists k.
Qed.

Lemma namespace_list items index m ns sel :
  items_ok items m → index_ok items index →
  ∃ xs, appendMatching sel (map (λ key, items !! key) (elements (default ∅ (index !! ns) : gset string))) = inr xs ∧
        xs ≡ₚ List.filter (in_selection meta ns sel) (map snd (map_to_list m)).
Proof.
  intros Hi Hx. destruct (lookup_keys items m (elements (default ∅ (index !! ns) : gset string)))
    as (vals & -> & Hnd & Hvals); [done|apply NoDup_elements| |].
  { intros k [a [Ha _]]%elem_of_elements%Hx. by exists a. }
  rewrite appendMatching_Some. eexists. split; [done|]. apply NoDup_Permutation.
  - by apply NoDup_ListNoDup, List.NoDup_filter, NoDup_ListNoDup.
  - eapply (NoDup_fmap_1 (λ a, om_Name (meta a))). apply cache_NoDup, Hi.
  - intros a. rewrite !list_elem_of_In, !filter_In, <- !list_elem_of_In, Hvals. unfold in_selection.
    rewrite andb_true_iff, bool_decide_eq_true.
    assert (a ∈ map snd (map_to_list m) ↔ ∃ k, m !! k = Some a) as ->.
    { rewrite list_elem_of_In, in_map_iff. setoid_rewrite <- list_elem_of_In.
      split; [intros ([k b] & [= ->] & ?%elem_of_map_to_list); by exists k|].
      intros [k Hk]. exists (k, a). by rewrite elem_of_map_to_list. }
    rewrite <- (items_same items m a Hi). setoid_rewrite elem_of_elements. split.
    + intros [(k & Hk & Ha) Hsel]. apply Hx in Hk as (b & Hb & Hns). rewrite Ha in Hb. injection Hb as <-. eauto.
    + intros [[k Ha] [Hns Hsel]]. split; [|done]. exists k. split; [|done]. apply Hx. eauto.
Qed.
End store.

(** The generated listers; lister-gen writes the same text for each type of either version. *)
Definition pilotNamespaceLister (indexer : Store (A:=Pilot)) : Lister Pilot := generatedLister pil_Meta indexer.
Definition elasticsearchClusterNamespaceLister (indexer : Store (A:=ElasticsearchCluster)) : Lister ElasticsearchCluster :=
  generatedLister esc_Meta indexer.
Definition cassandraClusterNamespaceLister (indexer : Store (A:=CassandraCluster)) : Lister CassandraCluster :=
  generatedLister cass_Meta indexer.

Definition internal_pilotNamespaceLister (indexer : Store (A:=Internal.Pilot)) : Lister Internal.Pilot :=
  generatedLister npil_Meta indexer.
Definition internal_elasticsearchClusterNamespaceLister (indexer : Store (A:=Internal.ElasticsearchCluster))
    : Lister Internal.ElasticsearchCluster := generatedLister nesc_Meta indexer.
Definition internal_cassandraClusterNamespaceLister (indexer : Store (A:=Internal.CassandraCluster))
    : Lister Internal.CassandraCluster := generatedLister ncass_Meta indexer.

(** What the model of a cache promises of a lister over a store. *)
Definition implements {A} (meta : A → ObjectMeta) (l : Lister A) (m : gmap (string * string) A) : Prop :=
  ∀ ns, ns ≠ "" → has_char "/"%char ns = false →
    (∀ name, lister_Get l ns name = lister_Get (cacheLister meta m) ns name) ∧
    ∀ sel, ∃ xs ys, lister_List l ns sel = inr xs ∧ lister_List (cacheLister meta m) ns sel = inr ys ∧ xs ≡ₚ ys.

Lemma generatedLister_implements {A} (meta : A → ObjectMeta) ops :
  Forall (opNamespaced meta) ops →
  implements meta (generatedLister meta (afterOps meta ops)) (abs_afterOps meta ops).
Proof.
  intros [Hi Hx]%afterOps_holds ns Hne Hns. split.
  - intros name. cbn [generatedLister cacheLister lister_Get]. destruct Hi as (_ & _ & _ & Hkey). by rewrite Hkey.
  - intros sel. cbn [generatedLister cacheLister lister_List]. unfold ListAllByNamespace.
    rewrite bool_decide_eq_false_2 by done.
    destruct (namespace_list meta _ _ _ ns sel Hi Hx) as (xs & Hxs & Hperm). eauto.
Qed.

(** C19. After any sequence of additions, updates, deletions and replacements of namespaced
    objects, the generated listers over the indexed store answer Get and List as the map from
    namespace and name to objects does that the other components are proved against, lists up to
    their order. *)
Theorem listers_refine_caches pilots clusters rings ipilots iclusters irings :
  Forall (opNamespaced pil_Meta) pilots → Forall (opNamespaced esc_Meta) clusters → Forall (opNamespaced cass_Meta) rings →
  Forall (opNamespaced npil_Meta) ipilots → Forall (opNamespaced nesc_Meta) iclusters → Forall (opNamespaced ncass_Meta) irings →
  implements pil_Meta (pilotNamespaceLister (afterOps pil_Meta pilots)) (abs_afterOps pil_Meta pilots) ∧
  implements esc_Meta (elasticsearchClusterNamespaceLister (afterOps esc_Meta clusters)) (abs_afterOps esc_Meta clusters) ∧
  implements cass_Meta (cassandraClusterNamespaceLister (afterOps cass_Meta rings)) (abs_afterOps cass_Meta rings) ∧
  implements npil_Meta (internal_pilotNamespaceLister (afterOps npil_Meta ipilots)) (abs_afterOps npil_Meta ipilots) ∧
  implements nesc_Meta (internal_elasticsearchClusterNamespaceLister (afterOps nesc_Meta iclusters)) (abs_afterOps nesc_Meta iclusters) ∧
  implements ncass_Meta (internal_cassandraClusterNamespaceLister (afterOps ncass_Meta irings)) (abs_afterOps ncass_Meta irings).
Proof. intros. split_and!; by apply generatedLister_implements. Qed.

Definition internalPilot : Internal.Pilot :=
  Internal.mkPilot (newObjectMeta "es-demo-data-0" "test" None None []) (Internal.mkPilotStatus [] None None).

Lemma listers_refine_caches_witness :
  implements pil_Meta (pilotNamespaceLister (afterOps pil_Meta
      [SReplaceObjs [pilotOf "data" 0 10 version561; pilotOf "data" 1 0 version561]; SDeleteObj (pilotOf "data" 0 0 version561)]))
    (abs_afterOps pil_Meta
      [SReplaceObjs [pilotOf "data" 0 10 version561; pilotOf "data" 1 0 version561]; SDeleteObj (pilotOf "data" 0 0 version561)]) ∧
  implements esc_Meta (elasticsearchClusterNamespaceLister (afterOps esc_Meta [SAddObj demoCluster; SUpdateObj demoCluster]))
    (abs_afterOps esc_Meta [SAddObj demoCluster; SUpdateObj demoCluster]) ∧
  implements cass_Meta (cassandraClusterNamespaceLister (afterOps cass_Meta [SAddObj (demoCassandra 3)]))
    (abs_afterOps cass_Meta [SAddObj (demoCassandra 3)]) ∧
  implements npil_Meta (internal_pilotNamespaceLister (afterOps npil_Meta [SAddObj internalPilot])) (abs_afterOps npil_Meta [SAddObj internalPilot]) ∧
  implements nesc_Meta (internal_elasticsearchClusterNamespaceLister (afterOps nesc_Meta [])) (abs_afterOps nesc_Meta []) ∧
  implements ncass_Meta (internal_cassandraClusterNamespaceLister (afterOps ncass_Meta [])) (abs_afterOps ncass_Meta []).
Proof. apply listers_refine_caches; repeat (constructor; simpl); done. Defined.
