(* ===== verification/PilotFlags.v ===== *)
(** * Command line flags

    vendor/github.com/spf13/pflag: how a pilot reads its arguments
    (flag.go: parseArgs, parseLongArg, parseShortArg, Set), the string list
    values of string_slice.go, and the reader of encoding/csv they use. *)

From S2P Require Import Prelude GoStrings.
From Stdlib Require Import Ascii.

(** ** encoding/csv *)

Definition comma : ascii := ","%char.
Definition quote : ascii := "034"%char.
Definition newline : ascii := "010"%char.
Definition return_ : ascii := "013"%char.

(** readRune gives one newline for a carriage return and a newline, and drops a
    carriage return at the end of the input. *)
Fixpoint csv_runes (s : string) : string :=
  match s with
  | EmptyString => ""
  | String c s' =>
      if Ascii.eqb c return_ then
        match s' with
        | EmptyString => ""
        | String d _ => if Ascii.eqb d newline then csv_runes s' else String c (csv_runes s')
        end
      else String c (csv_runes s')
  end.

(** Where the reader is: at the start of a field, or in one that has a text so
    far (not quoted, inside quotes, just after a quote inside quotes). *)
Inductive csvMode :=
| FieldStart
| Unquoted (text : string)
| Quoted (text : string)
| AfterQuote (text : string).

Definition ErrQuote : Err := Errorf "extraneous quote in field" [].
Definition ErrBareQuote : Err := Errorf "bare quote in non-quoted-field" [].
Definition EOF : Err := Errorf "EOF" [].

Definition snoc (s : string) (c : ascii) : string := s +:+ String c "".

Definition cons_field (text : string) (r : Res (list string)) : Res (list string) :=
  match r with
  | inl err => inl err
  | inr fields => inr (text :: fields)
  end.

(** The fields of one record. *)
Fixpoint csv_fields (m : csvMode) (s : string) : Res (list string) :=
  match s with
  | EmptyString =>
      match m with
      | FieldStart => inr [""]
      | Unquoted text | AfterQuote text => inr [text]
      | Quoted _ => inl ErrQuote
      end
  | String c s =>
      match m with
      | FieldStart =>
          if Ascii.eqb c comma then cons_field "" (csv_fields FieldStart s)
          else if Ascii.eqb c newline then inr [""]
          else if Ascii.eqb c quote then csv_fields (Quoted "") s
          else csv_fields (Unquoted (String c "")) s
      | Unquoted text =>
          if Ascii.eqb c comma then cons_field text (csv_fields FieldStart s)
          else if Ascii.eqb c newline then inr [text]
          else if Ascii.eqb c quote then inl ErrBareQuote
          else csv_fields (Unquoted (snoc text c)) s
      | Quoted text =>
          if Ascii.eqb c quote then csv_fields (AfterQuote text) s
          else csv_fields (Quoted (snoc text c)) s
      | AfterQuote text =>
          if Ascii.eqb c comma then cons_field text (csv_fields FieldStart s)
          else if Ascii.eqb c newline then inr [text]
          else if Ascii.eqb c quote then csv_fields (Quoted (snoc text quote)) s
          else inl ErrQuote
      end
  end.

(** Read skips empty lines. *)
Fixpoint csv_Read (s : string) : Res (list string) :=
  match s with
  | EmptyString => inl EOF
  | String c s' => if Ascii.eqb c newline then csv_Read s' else csv_fields FieldStart s
  end.

(** string_slice.go *)
Definition readAsCSV (val : string) : Res (list string) :=
  if bool_decide (val = "") then inr [] else csv_Read (csv_runes val).

(** A text that needs no quotes. *)
Definition plainField (s : string) : Prop :=
  has_char comma s = false ∧ has_char quote s = false ∧ has_char newline s = false ∧ has_char return_ s = false.

(** ** pflag *)

Section flags.
(** The variables that the flags point to *)
Context {V : Type}.

(** [fl_Set changed value]: [changed] says whether the flag was set before. *)
Record Flag := mkFlag {
  fl_NoOptDefVal : string;
  fl_Set : bool → string → V → Res V;
}.

Record FlagSet := mkFlagSet {
  fs_formal : string → option Flag;
  fs_shorthands : ascii → option string;
}.

(** What Parse changes: the variables, the flags that were set, and the
    arguments that are not flags. *)
Record Parsed := mkParsed {
  pa_vars : V;
  pa_actual : gset string;
  pa_args : list string;
}.

Definition StringVar (set : string → V → V) : Flag := mkFlag "" (λ _ value o, inr (set value o)).

(** stringSliceValue.Set: the first value replaces the default, the next ones are appended. *)
Definition StringSliceVar (get : V → list string) (set : list string → V → V) : Flag :=
  mkFlag "" (λ changed val o,
    match readAsCSV val with
    | inl err => inl err
    | inr v => inr (set (if changed then get o ++ v else v) o)
    end).

Definition FlagSet_Set (f : FlagSet) (name value : string) (p : Parsed) : Res Parsed :=
  match fs_formal f name with
  | None => inl (Errorf "no such flag -%v" [AStr name])
  | Some flag =>
      match fl_Set flag (bool_decide (name ∈ pa_actual p)) value (pa_vars p) with
      | inl err => inl (Errorf "invalid argument %q for %q flag: %v" [AStr value; AStr name; AErr err])
      | inr vars => inr (mkParsed vars ({[name]} ∪ pa_actual p) (pa_args p))
      end
  end.

(** [name] is the argument after its two dashes. *)
Definition parseLongArg (f : FlagSet) (name : string) (args : list string) (p : Parsed) : Res (list string * Parsed) :=
  let set name value args :=
    match FlagSet_Set f name value p with
    | inl err => inl err
    | inr p => inr (args, p)
    end in
  match name with
  | EmptyString => inl (Errorf "bad flag syntax: --%s" [AStr name])
  | String c _ =>
      if Ascii.eqb c "-"%char || Ascii.eqb c "="%char then inl (Errorf "bad flag syntax: --%s" [AStr name])
      else
        let '(name, value) :=
          match split_first "="%char name with
          | Some (name, value) => (name, Some value)
          | None => (name, None)
          end in
        match fs_formal f name with
        | None =>
            if bool_decide (name = "help") then inl (Errorf "pflag: help requested" [])
            else inl (Errorf "unknown flag: --%s" [AStr name])
        | Some flag =>
            match value with
            | Some value => set name value args
            | None =>
                if negb (bool_decide (fl_NoOptDefVal flag = "")) then set name (fl_NoOptDefVal flag) args
                else match args with
                     | value :: args => set name value args
                     | [] => inl (Errorf "flag needs an argument: --%s" [AStr name])
                     end
            end
        end
  end.

(** The loop of parseShortArg; every letter sees the same [args], and [a] is
    what the last one left of them. *)
Fixpoint parseShortArg (f : FlagSet) (shorthands : string) (args a : list string) (p : Parsed)
    : Res (list string * Parsed) :=
  match shorthands with
  | EmptyString => inr (a, p)
  | String c rest =>
      if String.prefix "test." shorthands then inr ([], p)
      else
        match fs_shorthands f c with
        | None =>
            if Ascii.eqb c "h"%char then inl (Errorf "pflag: help requested" [])
            else inl (Errorf "unknown shorthand flag: %q in -%s" [AStr shorthands])
        | Some name =>
            match fs_formal f name with
            | None => inl (Errorf "no such flag -%v" [AStr name])
            | Some flag =>
                let last value args :=
                  match FlagSet_Set f name value p with
                  | inl err => inl err
                  | inr p => inr (args, p)
                  end in
                match rest with
                | String "="%char (String _ _ as value) => last value args
                | _ =>
                    if negb (bool_decide (fl_NoOptDefVal flag = "")) then
                      match FlagSet_Set f name (fl_NoOptDefVal flag) p with
                      | inl err => inl err
                      | inr p => parseShortArg f rest args args p
                      end
                    else match rest, args with
                         | String _ _, _ => last rest args
                         | EmptyString, value :: args => last value args
                         | EmptyString, [] => inl (Errorf "flag needs an argument: %q in -%s" [AStr shorthands])
                         end
                end
            end
        end
  end.

(** The loop of parseArgs, with flags and other arguments mixed. *)
Fixpoint parseArgs (fuel : nat) (f : FlagSet) (args : list string) (p : Parsed) : option (Res Parsed) :=
  match args, fuel with
  | [], _ => Some (inr p)
  | _ :: _, O => None
  | s :: args, S fuel =>
      let continue r :=
        match r with
        | inl err => Some (inl err)
        | inr (args, p) => parseArgs fuel f args p
        end in
      match s with
      | String "-"%char (String "-"%char EmptyString) =>
          Some (inr (mkParsed (pa_vars p) (pa_actual p) (pa_args p ++ args)))
      | String "-"%char (String "-"%char name) => continue (parseLongArg f name args p)
      | String "-"%char (String _ _ as shorthands) => continue (parseShortArg f shorthands args args p)
      | _ => parseArgs fuel f args (mkParsed (pa_vars p) (pa_actual p) (pa_args p ++ [s]))
      end
  end.

Definition Parse (f : FlagSet) (arguments : list string) (vars : V) : option (Res Parsed) :=
  parseArgs (length arguments) f arguments (mkParsed vars ∅ []).

(** *** Parsing ends *)

Lemma FlagSet_Set_args {f : FlagSet} {name value p} {args args' : list string} {p'} :
  match FlagSet_Set f name value p with inl err => inl err | inr p => inr (args, p) end = inr (args', p') :> Res _ →
  args' = args.
Proof. destruct (FlagSet_Set f name value p); [done|]. by intros [= -> _]. Qed.

Lemma parseLongArg_shorter f name args p args' p' :
  parseLongArg f name args p = inr (args', p') → (length args' ≤ length args)%nat.
Proof.
  unfold parseLongArg. destruct name as [|c name]; [done|]. destruct (_ || _); [done|].
  destruct (match split_first _ _ with Some _ => _ | None => _ end) as [n v].
  destruct (fs_formal f n) as [flag|]; [|by case_bool_decide].
  destruct v as [v|]; [by intros ->%FlagSet_Set_args|]. case_bool_decide; [|by intros ->%FlagSet_Set_args].
  destruct args as [|v args]; [done|]. intros ->%FlagSet_Set_args. simpl. lia.
Qed.

Lemma parseShortArg_shorter f s args a p args' p' :
  (length a ≤ length args)%nat → parseShortArg f s args a p = inr (args', p') → (length args' ≤ length args)%nat.
Proof.
  revert a p. induction s as [|c s IH]; intros a p Ha; cbn [parseShortArg]; [by intros [= <- _]|].
  destruct (String.prefix _ _); [intros [= <- _]; simpl; lia|].
  destruct (fs_shorthands f c) as [n|]; [|by destruct (Ascii.eqb c "h"%char)].
  destruct (fs_formal f n) as [flag|]; [|done].
  assert ((if negb (bool_decide (fl_NoOptDefVal flag = "")) then
      match FlagSet_Set f n (fl_NoOptDefVal flag) p with inl err => inl err | inr p => parseShortArg f s args args p end
    else match s, args with
         | String _ _, _ => match FlagSet_Set f n s p with inl err => inl err | inr p => inr (args, p) end
         | EmptyString, value :: args => match FlagSet_Set f n value p with inl err => inl err | inr p => inr (args, p) end
         | EmptyString, [] => inl (Errorf "flag needs an argument: %q in -%s" [AStr (String c s)])
         end) = inr (args', p') :> Res _ → (length args' ≤ length args)%nat) as Hgen.
  { case_bool_decide; simpl.
    - destruct s as [|d s]; [|by intros ->%FlagSet_Set_args]. destruct args as [|v args]; [done|].
      intros ->%FlagSet_Set_args. simpl. lia.
    - destruct (FlagSet_Set f n (fl_NoOptDefVal flag) p); [done|]. by apply IH. }
  destruct s as [|d [|e s]]; try exact Hgen; [by destruct d as [[] [] [] [] [] [] [] []]|].
  destruct d as [[] [] [] [] [] [] [] []]; try exact Hgen. by intros ->%FlagSet_Set_args.
Qed.

Lemma parseArgs_total fuel f args p : (length args ≤ fuel)%nat → is_Some (parseArgs fuel f args p).
Proof.
  revert args p. induction fuel as [|fuel IH]; intros [|s args] p Hl; simpl in Hl; try (by eexists); [lia|].
  assert (∀ r : Res (list string * Parsed), (∀ a q, r = inr (a, q) → (length a ≤ length args)%nat) →
    is_Some match r with inl err => Some (inl err) | inr (args, p) => parseArgs fuel f args p end) as Hc.
  { intros [err|[a q]] Hr; [by eexists|]. apply IH. specialize (Hr a q eq_refl). lia. }
  assert (is_Some (parseArgs fuel f args (mkParsed (pa_vars p) (pa_actual p) (pa_args p ++ [s])))) as Hpos by (apply IH; lia).
  assert (∀ d t, is_Some match parseShortArg f (String d t) args args p with
    | inl err => Some (inl err) | inr (args, p) => parseArgs fuel f args p end) as Hshort.
  { intros d t. apply Hc. intros a q. by apply parseShortArg_shorter. }
  cbn [parseArgs]. destruct s as [|c s]; [done|]. destruct c as [[] [] [] [] [] [] [] []]; try exact Hpos.
  destruct s as [|d s]; [exact Hpos|]. destruct d as [[] [] [] [] [] [] [] []]; try apply Hshort.
  destruct s as [|e s]; [by eexists|]. apply Hc. intros a q. apply parseLongArg_shorter.
Qed.

(** One argument of the form --name=value that its flag accepts *)
Lemma parseArgs_value c n value {fuel f args p flag vars} :
  Ascii.eqb c "-"%char || Ascii.eqb c "="%char || has_char "="%char (String c n) = false →
  fs_formal f (String c n) = Some flag →
  fl_Set flag (bool_decide (String c n ∈ pa_actual p)) value (pa_vars p) = inr vars →
  parseArgs (S fuel) f (("--" +:+ String c n +:+ "=" +:+ value) :: args) p =
  parseArgs fuel f args (mkParsed vars ({[String c n]} ∪ pa_actual p) (pa_args p)).
Proof.
  intros [Hc Heq]%orb_false_iff Hflag Hset. pose proof (split_first_app "="%char (String c n) value Heq) as Hsplit.
  change (parseArgs (S fuel) f (("--" +:+ String c n +:+ "=" +:+ value) :: args) p) with
    (match parseLongArg f (String c n +:+ String "="%char value) args p with
     | inl err => Some (inl err) | inr (args, p) => parseArgs fuel f args p end).
  unfold parseLongArg. change (String c n +:+ String "="%char value) with (String c (n +:+ String "="%char value)) in *.
  cbv beta iota. rewrite Hc, Hsplit, Hflag. unfold FlagSet_Set. by rewrite Hflag, Hset.
Qed.

(** One argument of the form --name, for a flag that needs no value *)
Lemma parseArgs_switch c n {fuel f args p flag vars} :
  Ascii.eqb c "-"%char || Ascii.eqb c "="%char || has_char "="%char (String c n) = false →
  fs_formal f (String c n) = Some flag → bool_decide (fl_NoOptDefVal flag = "") = false →
  fl_Set flag (bool_decide (String c n ∈ pa_actual p)) (fl_NoOptDefVal flag) (pa_vars p) = inr vars →
  parseArgs (S fuel) f (("--" +:+ String c n) :: args) p =
  parseArgs fuel f args (mkParsed vars ({[String c n]} ∪ pa_actual p) (pa_args p)).
Proof.
  intros [Hc Heq]%orb_false_iff Hflag Hno Hset. pose proof (split_first_None "="%char (String c n) Heq) as Hsplit.
  change (parseArgs (S fuel) f (("--" +:+ String c n) :: args) p) with
    (match parseLongArg f (String c n) args p with
     | inl err => Some (inl err) | inr (args, p) => parseArgs fuel f args p end).
  unfold parseLongArg. rewrite Hc, Hsplit, Hflag, Hno. unfold FlagSet_Set. by rewrite Hflag, Hset.
Qed.

(** The first value of a list flag *)
Lemma StringSliceVar_first (get : V → list string) set changed val v (o : V) :
  changed = false → readAsCSV val = inr v → fl_Set (StringSliceVar get set) changed val o = inr (set v o).
Proof. intros -> Hv. simpl. by rewrite Hv. Qed.

(** Parsing of a command line ends: for every set of flags and every list of arguments the
    loop of parseArgs comes to a result within as many rounds as there are arguments. *)
Theorem flag_parsing_terminates f arguments vars : ∃ r, Parse f arguments vars = Some r.
Proof. by apply parseArgs_total. Qed.
End flags.
Arguments Flag : clear implicits.
Arguments FlagSet : clear implicits.
Arguments Parsed : clear implicits.

(** ** Lists of plain texts *)

Lemma has_char_cons d c s : has_char d (String c s) = false → Ascii.eqb c d = false ∧ has_char d s = false.
Proof. simpl. intros [H1 H2]%orb_false_iff. split; [|done]. apply Ascii.eqb_neq. by apply bool_decide_eq_false in H1. Qed.

Lemma plainField_cons c s :
  plainField (String c s) →
  Ascii.eqb c comma = false ∧ Ascii.eqb c quote = false ∧ Ascii.eqb c newline = false ∧ Ascii.eqb c return_ = false ∧ plainField s.
Proof.
  intros ([H1 Hc]%has_char_cons & [H2 Hq]%has_char_cons & [H3 Hn]%has_char_cons & [H4 Hr]%has_char_cons). done.
Qed.

Lemma unquoted_run f t s : plainField f → csv_fields (Unquoted t) (f +:+ s) = csv_fields (Unquoted (t +:+ f)) s.
Proof.
  revert t. induction f as [|c f IH]; intros t Hf; [by rewrite string_app_nil_r|].
  apply plainField_cons in Hf as (H1 & H2 & H3 & _ & Hf). change (String c f +:+ s) with (String c (f +:+ s)).
  cbn [csv_fields]. rewrite H1, H2, H3, IH by done. unfold snoc. by rewrite string_app_assoc.
Qed.

Lemma plain_field_then f s :
  plainField f → csv_fields FieldStart (f +:+ String comma s) = cons_field f (csv_fields FieldStart s).
Proof.
  destruct f as [|c f]; [done|]. intros (H1 & H2 & H3 & _ & Hf)%plainField_cons.
  change (String c f +:+ String comma s) with (String c (f +:+ String comma s)).
  cbn [csv_fields]. rewrite H1, H2, H3, unquoted_run by done. done.
Qed.

Lemma plain_field_last f : plainField f → csv_fields FieldStart f = inr [f].
Proof.
  destruct f as [|c f]; [done|]. intros (H1 & H2 & H3 & _ & Hf)%plainField_cons.
  pose proof (unquoted_run f (String c "") "" Hf) as Hrun. rewrite string_app_nil_r in Hrun.
  cbn [csv_fields]. rewrite H1, H2, H3, Hrun. done.
Qed.

Lemma csv_fields_join f fs :
  Forall plainField (f :: fs) → csv_fields FieldStart (join "," (f :: fs)) = inr (f :: fs).
Proof.
  revert f. induction fs as [|g fs IH]; intros f [Hf Hfs]%Forall_cons; [by apply plain_field_last|].
  change (join "," (f :: g :: fs)) with (f +:+ String comma (join "," (g :: fs))).
  rewrite plain_field_then, IH by done. done.
Qed.

Lemma csv_runes_id s : has_char return_ s = false → csv_runes s = s.
Proof. induction s as [|c s IH]; [done|]. intros [H1 H2]%has_char_cons. simpl. by rewrite H1, IH. Qed.

Lemma has_char_join d fs : d ≠ comma → Forall (λ f, has_char d f = false) fs → has_char d (join "," fs) = false.
Proof.
  intros Hd. induction fs as [|f [|g fs] IH]; intros Hall; [done|by apply Forall_cons in Hall as [? _]|].
  apply Forall_cons in Hall as [Hf Hfs].
  change (join "," (f :: g :: fs)) with (f +:+ String comma (join "," (g :: fs))).
  rewrite has_char_app, Hf. cbn [has_char orb]. rewrite IH by done. by rewrite bool_decide_eq_false_2.
Qed.

(** A list of plain texts, joined by commas, is read back, unless it is one empty text. *)
Lemma readAsCSV_join fields : Forall plainField fields → fields ≠ [""] → readAsCSV (join "," fields) = inr fields.
Proof.
  intros Hall Hne. destruct fields as [|f fs]; [done|]. unfold readAsCSV.
  pose proof (csv_fields_join f fs Hall) as Hj.
  assert (has_char newline (join "," (f :: fs)) = false) as Hn.
  { apply has_char_join; [done|]. eapply Forall_impl; [exact Hall|]. by intros x (_ & _ & ? & _). }
  assert (has_char return_ (join "," (f :: fs)) = false) as Hr.
  { apply has_char_join; [done|]. eapply Forall_impl; [exact Hall|]. by intros x (_ & _ & _ & ?). }
  rewrite (csv_runes_id _ Hr). revert Hj Hn. destruct (join "," (f :: fs)) as [|c s] eqn:Hs.
  - intros [= <- <-] _. done.
  - intros Hj [Hc _]%has_char_cons. rewrite bool_decide_eq_false_2 by done. cbn [csv_Read]. by rewrite Hc.
Qed.

(** One empty text is read as no text. *)
Example readAsCSV_cases :
  readAsCSV (join "," [""]) = inr [] ∧ readAsCSV (join "," [""; ""]) = inr [""; ""] ∧
  readAsCSV (join "," ["a,b"; "c"]) = inr ["a"; "b"; "c"].
Proof. by split_and!. Qed.
