(* ===== verification/PilotLaunch.v ===== *)
(** * From the pod to the running pilot

    The options of the pilots (pkg/pilot/genericpilot/options.go, healthz.go and
    probe, pkg/pilot/elasticsearch/v5/options.go,
    pkg/pilot/cassandra/v3/options.go, cmd/pilot-*/pilot.go), and how they meet
    the containers that the controllers write: the arguments of a container
    against the flags of its pilot, and the probes of a container against the
    ports that its pilot listens on.

    The kubelet, which expands variables in arguments and calls the probes, is a
    parameter; so are the clients that Complete creates. *)

From S2P Require Import Prelude GoStrings Semver K8s WorkQueue Types CassandraVersion Cluster Fixtures PilotHooks GenericPilot GenericPilotFacts.
From S2P Require Import ESPilot Nodetool CassUtil CassPilot ESUtil ESResources CassResources PilotFlags.
From Stdlib Require Import Ascii.

(** ** genericpilot.Options *)

(** Fields that are only compared with nil are bools: whether they are set. *)
Record GenericOptions := mkGenericOptions {
  go_KubernetesClient : bool;
  go_NavigatorClient : bool;
  go_SharedInformerFactory : bool;
  go_KubeSharedInformerFactory : bool;
  go_PilotName : string;
  go_PilotNamespace : string;
  go_LeaderElectionConfigMap : string;
  go_CmdFunc : bool;
  go_SignalsStop : bool;
  go_Stdout : bool;
  go_Stderr : bool;
  go_StopCh : bool;
  go_Hooks : bool;
  go_SyncFunc : bool;
  go_LeaderElectedSyncFunc : bool;
}.

Definition set_PilotName (v : string) (o : GenericOptions) : GenericOptions :=
  mkGenericOptions (go_KubernetesClient o) (go_NavigatorClient o) (go_SharedInformerFactory o) (go_KubeSharedInformerFactory o)
    v (go_PilotNamespace o) (go_LeaderElectionConfigMap o) (go_CmdFunc o) (go_SignalsStop o) (go_Stdout o) (go_Stderr o)
    (go_StopCh o) (go_Hooks o) (go_SyncFunc o) (go_LeaderElectedSyncFunc o).
Definition set_PilotNamespace (v : string) (o : GenericOptions) : GenericOptions :=
  mkGenericOptions (go_KubernetesClient o) (go_NavigatorClient o) (go_SharedInformerFactory o) (go_KubeSharedInformerFactory o)
    (go_PilotName o) v (go_LeaderElectionConfigMap o) (go_CmdFunc o) (go_SignalsStop o) (go_Stdout o) (go_Stderr o)
    (go_StopCh o) (go_Hooks o) (go_SyncFunc o) (go_LeaderElectedSyncFunc o).
Definition set_LeaderElectionConfigMap (v : string) (o : GenericOptions) : GenericOptions :=
  mkGenericOptions (go_KubernetesClient o) (go_NavigatorClient o) (go_SharedInformerFactory o) (go_KubeSharedInformerFactory o)
    (go_PilotName o) (go_PilotNamespace o) v (go_CmdFunc o) (go_SignalsStop o) (go_Stdout o) (go_Stderr o)
    (go_StopCh o) (go_Hooks o) (go_SyncFunc o) (go_LeaderElectedSyncFunc o).

(** &genericpilot.Options{} with StopCh, as NewCommandStartPilot leaves it *)
Definition emptyGenericOptions : GenericOptions :=
  mkGenericOptions false false false false "" "" "" false false false false true false false false.

(** Complete; [hostname] is what os.Hostname returns. *)
Definition Generic_Complete (hostname : Res string) (o : GenericOptions) : Res GenericOptions :=
  let name :=
    if bool_decide (go_PilotName o = "") then
      match hostname with
      | inl err => inl (Errorf "error obtaining pilot hostname: %s" [AErr err])
      | inr h => inr h
      end
    else inr (go_PilotName o) in
  match name with
  | inl err => inl err
  | inr name =>
      inr (mkGenericOptions (go_KubernetesClient o) (go_NavigatorClient o) (go_SharedInformerFactory o)
        (go_KubeSharedInformerFactory o) name (go_PilotNamespace o) (go_LeaderElectionConfigMap o) (go_CmdFunc o)
        true true true true true (go_SyncFunc o) (go_LeaderElectedSyncFunc o))
  end.

(** One step of Validate *)
Definition require (ok : bool) (message : string) : list Err := if ok then [] else [Errorf message []].

Definition Generic_Validate (o : GenericOptions) : list Err :=
  require (go_KubernetesClient o) "kubernetes client must be specified" ++
  require (go_NavigatorClient o) "navigator client must be specified" ++
  require (go_SharedInformerFactory o) "shared informer factory must be specified" ++
  require (go_KubeSharedInformerFactory o) "kube shared informer factory must be specified" ++
  require (go_CmdFunc o) "cmd func must be specified" ++
  require (go_Stderr o) "stderr must be specified" ++
  require (go_Stdout o) "stdout must be specified" ++
  require (negb (bool_decide (go_PilotName o = ""))) "pilot name must be specified" ++
  require (go_SyncFunc o) "syncfunc must be specified" ++
  require (go_Hooks o) "hooks must not be nil" ++
  require (negb (bool_decide (go_PilotNamespace o = ""))) "pilot namespace must be specified".

Definition Generic_AddFlags {V} (get : V → GenericOptions) (set : GenericOptions → V → V) : list (string * Flag V) :=
  [ ("pilot-name", StringVar (λ v o, set (set_PilotName v (get o)) o));
    ("pilot-namespace", StringVar (λ v o, set (set_PilotNamespace v (get o)) o));
    ("leader-election-config-map", StringVar (λ v o, set (set_LeaderElectionConfigMap v (get o)) o)) ].

(** ** Flags of the logging library *)

Record Logging := mkLogging { log_verbosity : Z; log_toStderr : bool }.

(** Level.Set *)
Definition Level_Set (value : string) (l : Logging) : Res Logging :=
  match parse_int64 value with
  | None => inl (Errorf "strconv.Atoi: parsing %q" [AStr value])
  | Some v => inr (mkLogging (int32_wrap v) (log_toStderr l))
  end.

(** strconv.ParseBool *)
Definition ParseBool (s : string) : option bool :=
  if decide (s ∈ ["1"; "t"; "T"; "TRUE"; "true"; "True"]) then Some true
  else if decide (s ∈ ["0"; "f"; "F"; "FALSE"; "false"; "False"]) then Some false
  else None.

(** The flags [v] and [logtostderr], as AddGoFlagSet adds them. *)
Definition glogFlags {V} (get : V → Logging) (set : Logging → V → V) : list (string * Flag V) :=
  [ ("v", mkFlag "" (λ _ value o,
       match Level_Set value (get o) with
       | inl err => inl err
       | inr l => inr (set l o)
       end));
    ("logtostderr", mkFlag "true" (λ _ value o,
       match ParseBool value with
       | None => inl (Errorf "strconv.ParseBool: parsing %q" [AStr value])
       | Some b => inr (set (mkLogging (log_verbosity (get o)) b) o)
       end)) ].

(** The flags of a list; those that other packages register come after them. *)
Fixpoint formalFlags {V} (flags : list (string * Flag V)) (others : string → option (Flag V)) (name : string) : option (Flag V) :=
  match flags with
  | [] => others name
  | (n, flag) :: flags => if String.eqb name n then Some flag else formalFlags flags others name
  end.

(** ** The options of the two pilots *)

Record ClientOptions := mkClientOptions {
  co_RestConfig : bool;
  co_Master : string;
  co_KubeConfig : string;
  co_ResyncPeriod : Z;
  co_ConfigDir : string;
}.

Definition defaultResyncPeriod : Z := 30 * 1000000000.
Definition defaultConfigDir : string := "/etc/pilot".
Definition defaultElasticsearchBinary : string := "elasticsearch".
Definition defaultElasticsearchPluginBinary : string := "elasticsearch-plugin".
Definition defaultElasticsearchConfigDir : string := "/usr/share/elasticsearch/config".
Definition defaultJolokiaURL : string := "http://127.0.0.1:8778/jolokia/".

(** Flags that both pilots declare; time.ParseDuration is not used by the pods. *)
Definition clientFlags {V} (ParseDuration : string → Res Z) (get : V → ClientOptions) (set : ClientOptions → V → V)
    : list (string * Flag V) :=
  [ ("kubeconfig", StringVar (λ v o, let c := get o in
       set (mkClientOptions (co_RestConfig c) (co_Master c) v (co_ResyncPeriod c) (co_ConfigDir c)) o));
    ("master", StringVar (λ v o, let c := get o in
       set (mkClientOptions (co_RestConfig c) v (co_KubeConfig c) (co_ResyncPeriod c) (co_ConfigDir c)) o));
    ("resync-period", mkFlag "" (λ _ v o, let c := get o in
       match ParseDuration v with
       | inl err => inl err
       | inr d => inr (set (mkClientOptions (co_RestConfig c) (co_Master c) (co_KubeConfig c) d (co_ConfigDir c)) o)
       end));
    ("config-dir", StringVar (λ v o, let c := get o in
       set (mkClientOptions (co_RestConfig c) (co_Master c) (co_KubeConfig c) (co_ResyncPeriod c) v) o)) ].

Definition defaultClientOptions : ClientOptions := mkClientOptions false "" "" defaultResyncPeriod defaultConfigDir.

(** PilotOptions of the Elasticsearch pilot, with the logging flags *)
Record ESPilotOptions := mkESPilotOptions {
  ep_Client : ClientOptions;
  ep_Elasticsearch : ElasticsearchOptions;
  ep_Generic : GenericOptions;
  ep_Logging : Logging;
}.

(** PilotOptions of the Cassandra pilot *)
Record CassPilotOptions := mkCassPilotOptions {
  cp_Client : ClientOptions;
  cp_JolokiaURL : string;
  cp_Generic : GenericOptions;
  cp_Logging : Logging;
}.

Definition set_ep_Elasticsearch (f : ElasticsearchOptions → ElasticsearchOptions) (o : ESPilotOptions) : ESPilotOptions :=
  mkESPilotOptions (ep_Client o) (f (ep_Elasticsearch o)) (ep_Generic o) (ep_Logging o).

Definition ES_AddFlags : list (string * Flag ESPilotOptions) :=
  [ ("elasticsearch-master-url", StringVar (λ v, set_ep_Elasticsearch (λ e,
       mkElasticsearchOptions v (eo_Binary e) (eo_PluginBinary e) (eo_ConfigDir e) (eo_Roles e) (eo_Plugins e))));
    ("elasticsearch-binary", StringVar (λ v, set_ep_Elasticsearch (λ e,
       mkElasticsearchOptions (eo_MasterURL e) v (eo_PluginBinary e) (eo_ConfigDir e) (eo_Roles e) (eo_Plugins e))));
    ("elasticsearch-plugin-binary", StringVar (λ v, set_ep_Elasticsearch (λ e,
       mkElasticsearchOptions (eo_MasterURL e) (eo_Binary e) v (eo_ConfigDir e) (eo_Roles e) (eo_Plugins e))));
    ("elasticsearch-config-dir", StringVar (λ v, set_ep_Elasticsearch (λ e,
       mkElasticsearchOptions (eo_MasterURL e) (eo_Binary e) (eo_PluginBinary e) v (eo_Roles e) (eo_Plugins e))));
    ("elasticsearch-roles", StringSliceVar (λ o, eo_Roles (ep_Elasticsearch o)) (λ v, set_ep_Elasticsearch (λ e,
       mkElasticsearchOptions (eo_MasterURL e) (eo_Binary e) (eo_PluginBinary e) (eo_ConfigDir e) v (eo_Plugins e))));
    ("elasticsearch-plugins", StringSliceVar (λ o, eo_Plugins (ep_Elasticsearch o)) (λ v, set_ep_Elasticsearch (λ e,
       mkElasticsearchOptions (eo_MasterURL e) (eo_Binary e) (eo_PluginBinary e) (eo_ConfigDir e) (eo_Roles e) v))) ].

(** NewOptions followed by AddFlags, which writes the defaults. *)
Definition es_NewOptions : ESPilotOptions :=
  mkESPilotOptions defaultClientOptions
    (mkElasticsearchOptions "" defaultElasticsearchBinary defaultElasticsearchPluginBinary defaultElasticsearchConfigDir [] [])
    emptyGenericOptions (mkLogging 0 false).

Definition cass_NewOptions : CassPilotOptions :=
  mkCassPilotOptions defaultClientOptions defaultJolokiaURL emptyGenericOptions (mkLogging 0 false).

(** Flags of one letter have that letter as a shorthand. *)
Definition glogShorthands (c : ascii) : option string := if Ascii.eqb c "v"%char then Some "v" else None.

Definition es_AddFlags (ParseDuration : string → Res Z) (others : string → option (Flag ESPilotOptions)) : FlagSet ESPilotOptions :=
  mkFlagSet
    (formalFlags (ES_AddFlags ++
       Generic_AddFlags ep_Generic (λ g o, mkESPilotOptions (ep_Client o) (ep_Elasticsearch o) g (ep_Logging o)) ++
       clientFlags ParseDuration ep_Client (λ c o, mkESPilotOptions c (ep_Elasticsearch o) (ep_Generic o) (ep_Logging o)) ++
       glogFlags ep_Logging (λ l o, mkESPilotOptions (ep_Client o) (ep_Elasticsearch o) (ep_Generic o) l)) others)
    glogShorthands.

Definition cass_AddFlags (ParseDuration : string → Res Z) (others : string → option (Flag CassPilotOptions)) : FlagSet CassPilotOptions :=
  mkFlagSet
    (formalFlags (
       Generic_AddFlags cp_Generic (λ g o, mkCassPilotOptions (cp_Client o) (cp_JolokiaURL o) g (cp_Logging o)) ++
       clientFlags ParseDuration cp_Client (λ c o, mkCassPilotOptions c (cp_JolokiaURL o) (cp_Generic o) (cp_Logging o)) ++
       [("jolokia-url", StringVar (λ v o, mkCassPilotOptions (cp_Client o) v (cp_Generic o) (cp_Logging o)))] ++
       glogFlags cp_Logging (λ l o, mkCassPilotOptions (cp_Client o) (cp_JolokiaURL o) (cp_Generic o) l)) others)
    glogShorthands.

(** The clients that Complete creates, and the start-up of the pilot itself:
    whether each step fails. *)
Record Setup := mkSetup {
  su_BuildConfigFromFlags : string → string → option Err;
  su_kubeClientset : option Err;
  su_navigatorClientset : option Err;
  su_parseURL : string → option Err;
  su_NewPilot : option Err;
  su_Hostname : Res string;
}.

(** The first error of a list of steps *)
Fixpoint firstErr (steps : list (option Err)) : option Err :=
  match steps with
  | [] => None
  | Some err :: _ => Some err
  | None :: steps => firstErr steps
  end.

Definition buildConfig (su : Setup) (c : ClientOptions) : option Err :=
  if co_RestConfig c then None else su_BuildConfigFromFlags su (co_Master c) (co_KubeConfig c).

(** What Complete writes to the options of the generic pilot. *)
Definition wireGeneric (leaderElectedSyncFunc : bool) (o : GenericOptions) : GenericOptions :=
  mkGenericOptions true true true true (go_PilotName o) (go_PilotNamespace o) (go_LeaderElectionConfigMap o)
    true (go_SignalsStop o) (go_Stdout o) (go_Stderr o) (go_StopCh o) true true
    (leaderElectedSyncFunc || go_LeaderElectedSyncFunc o).

Definition withRestConfig (c : ClientOptions) : ClientOptions :=
  mkClientOptions true (co_Master c) (co_KubeConfig c) (co_ResyncPeriod c) (co_ConfigDir c).

Definition es_Complete (su : Setup) (o : ESPilotOptions) : Res ESPilotOptions :=
  match firstErr [buildConfig su (ep_Client o); su_kubeClientset su; su_navigatorClientset su; su_NewPilot su] with
  | Some err => inl err
  | None =>
      match Generic_Complete (su_Hostname su) (wireGeneric true (ep_Generic o)) with
      | inl err => inl err
      | inr g => inr (mkESPilotOptions (withRestConfig (ep_Client o)) (ep_Elasticsearch o) g (ep_Logging o))
      end
  end.

Definition cass_Complete (su : Setup) (o : CassPilotOptions) : Res CassPilotOptions :=
  match firstErr [buildConfig su (cp_Client o); su_kubeClientset su; su_navigatorClientset su;
                  su_parseURL su (cp_JolokiaURL o); su_NewPilot su] with
  | Some err => inl err
  | None =>
      match Generic_Complete (su_Hostname su) (wireGeneric false (cp_Generic o)) with
      | inl err => inl err
      | inr g => inr (mkCassPilotOptions (withRestConfig (cp_Client o)) (cp_JolokiaURL o) g (cp_Logging o))
      end
  end.

Definition Elasticsearch_Validate (e : ElasticsearchOptions) : list Err :=
  require (negb (bool_decide (eo_MasterURL e = ""))) "elasticsearch master URL must be specified" ++
  require (negb (bool_decide (eo_Binary e = ""))) "elasticsearch binary must be specified" ++
  require (negb (bool_decide (eo_PluginBinary e = ""))) "elasticsearch plugin binary must be specified".

Definition es_Validate (o : ESPilotOptions) : list Err :=
  Elasticsearch_Validate (ep_Elasticsearch o) ++ Generic_Validate (ep_Generic o).

Definition cass_Validate (o : CassPilotOptions) : list Err := Generic_Validate (cp_Generic o).

(** RunE of NewCommandStartPilot, up to Run: the options it runs with, or the
    errors it reports. *)
Definition RunE {O} (complete : O → Res O) (validate : O → list Err) (o : O) : list Err + O :=
  match complete o with
  | inl err => inl [err]
  | inr o =>
      match validate o with
      | [] => inr o
      | errs => inl errs
      end
  end.

Definition es_RunE (su : Setup) : ESPilotOptions → list Err + ESPilotOptions := RunE (es_Complete su) es_Validate.
Definition cass_RunE (su : Setup) : CassPilotOptions → list Err + CassPilotOptions := RunE (cass_Complete su) cass_Validate.

(** ** The kubelet *)

Definition Environ : Type := string → option string.

(** What the documentation of Container.Args promises of variable references. *)
Class VariableExpansion (expand : Environ → string → string) : Prop := {
  expand_plain env s : has_char "$"%char s = false → expand env s = s;
  expand_ref env pre name v :
    has_char "$"%char pre = false → has_char "$"%char name = false → has_char ")"%char name = false →
    env name = Some v → expand env (pre +:+ "$(" +:+ name +:+ ")") = pre +:+ v;
}.

(** The fields of a pod that a variable can refer to *)
Record PodFields := mkPodFields { pf_Name : string; pf_Namespace : string; pf_IP : string }.

Definition fieldRef (pod : PodFields) (path : string) : string :=
  if String.eqb path "metadata.name" then pf_Name pod
  else if String.eqb path "metadata.namespace" then pf_Namespace pod
  else if String.eqb path "status.podIP" then pf_IP pod
  else "".

Section kubelet.
Context (expand : Environ → string → string) (pod : PodFields).

(** Each value may refer to the variables before it. *)
Fixpoint containerEnv (env : Environ) (vars : list EnvVar) : Environ :=
  match vars with
  | [] => env
  | v :: vars =>
      let value := match env_Value v with EnvLiteral s => expand env s | EnvFieldRef path => fieldRef pod path end in
      containerEnv (λ name, if String.eqb name (env_Name v) then Some value else env name) vars
  end.

Definition containerArgs (ct : Container) : list string :=
  map (expand (containerEnv (λ _, None) (ct_Env ct))) (ct_Args ct).
End kubelet.

(** *** Probes *)

Section probes.
Context {W : Type}.

Record Listener := mkListener { li_Port : Z; li_Check : GoM W (option Err) }.

(** The handler of Listen: the status code of the answer. *)
Definition Listen (l : Listener) : GoM W Z :=
  err ← li_Check l;
  mret (match err with Some _ => 500 | None => 200 end).

Definition serveHealthz (ReadinessProbe LivenessProbe : GoM W (option Err)) : list Listener :=
  [ mkListener 12001 ReadinessProbe; mkListener 12000 LivenessProbe ].

(** An HTTP probe of the kubelet: a code from 200 to 399 is a success; a
    request that is not answered, because nothing listens or the handler
    panics, is not. *)
Definition httpProbe (listeners : list Listener) (p : Probe) (w : W) : bool :=
  match List.find (λ l, li_Port l =? probe_Port p) listeners with
  | None => false
  | Some l =>
      match fst (Listen l w) with
      | Ret code => (200 <=? code) && (code <? 400)
      | Panic _ => false
      end
  end.

Definition passes (check : GoM W (option Err)) (w : W) : bool :=
  match fst (check w) with
  | Ret None => true
  | _ => false
  end.

Lemma Listen_passes port check w :
  match fst (Listen (mkListener port check) w) with Ret code => (200 <=? code) && (code <? 400) | Panic _ => false end =
  passes check w.
Proof.
  unfold Listen, passes, mbind, gom_bind. cbn [li_Check]. destruct (check w) as [[[err|]|why] w']; reflexivity.
Qed.
End probes.

(** The Elasticsearch pods ask the right ports. *)
Lemma es_probes_reach_their_checks {W} c np image :
  ∃ r l, ct_ReadinessProbe (esContainer c np image) = Some r ∧ ct_LivenessProbe (esContainer c np image) = Some l ∧
    ∀ (ready alive : GoM W (option Err)) w,
      httpProbe (serveHealthz ready alive) r w = passes ready w ∧ httpProbe (serveHealthz ready alive) l w = passes alive w.
Proof. do 2 eexists. split_and!; [done..|]. intros ready alive w. split; apply Listen_passes. Qed.

(** The readiness probe of a Cassandra container is answered by the liveness check of its
    pilot and the liveness probe by the readiness check, so a node that is leaving fails its
    liveness probe although its liveness check passes. *)
Theorem cassandra_probes_are_swapped cluster np image :
  ∃ r l, ct_ReadinessProbe (cassContainer cluster np image) = Some r ∧
    ct_LivenessProbe (cassContainer cluster np image) = Some l ∧
    (∀ E `{MapRange} (call : GoM (Env E) (Res StorageService)) env,
       let listeners := serveHealthz (cass_ReadinessCheck call) (cass_LivenessCheck call) in
       httpProbe listeners r env = passes (cass_LivenessCheck call) env ∧
       httpProbe listeners l env = passes (cass_ReadinessCheck call) env) ∧
    (let call := answer (twoNodes ["10.0.0.2"]) in
     let listeners := serveHealthz (cass_ReadinessCheck call) (cass_LivenessCheck call) in
     passes (cass_LivenessCheck call) (emptyWorld, 0%nat) = true ∧
     httpProbe listeners l (emptyWorld, 0%nat) = false ∧
     passes (cass_ReadinessCheck call) (emptyWorld, 0%nat) = false ∧
     httpProbe listeners r (emptyWorld, 0%nat) = true).
Proof.
  do 2 eexists. split_and!; [done..| |vm_compute; repeat split].
  intros E ? call env. split; apply Listen_passes.
Qed.

(** ** The arguments of the pods *)

Section launch.
Context (expand : Environ → string → string) `{!VariableExpansion expand} (ParseDuration : string → Res Z).

Lemma expand_literal env pre name v :
  has_char "$"%char pre || has_char "$"%char name || has_char ")"%char name = false → env name = Some v →
  expand env (pre +:+ "$(" +:+ name +:+ ")") = pre +:+ v.
Proof. intros [[H1 H2]%orb_false_iff H3]%orb_false_iff. by apply expand_ref. Qed.

Lemma es_args c np image pod :
  has_char "$"%char (esc_Name c) = false → has_char "$"%char (join "," (enp_roles np)) = false →
  has_char "$"%char (join "," (es_Plugins (esc_Spec c))) = false →
  containerArgs expand pod (esContainer c np image) =
  [ "--v=4"; "--logtostderr"; "--pilot-name=" +:+ pf_Name pod; "--pilot-namespace=" +:+ pf_Namespace pod;
    "--elasticsearch-master-url=" +:+ "http://" +:+ ClientServiceName c +:+ ":9200";
    "--elasticsearch-roles=" +:+ join "," (enp_roles np);
    "--elasticsearch-plugins=" +:+ join "," (es_Plugins (esc_Spec c));
    "--leader-election-config-map=" +:+ "elastic-" +:+ esc_Name c +:+ "-leaderelection" ].
Proof.
  intros Hn Hr Hp. unfold esc_Name in Hn. unfold containerArgs. cbn [esContainer ct_Args ct_Env map].
  repeat f_equal.
  - by apply expand_plain.
  - by apply expand_plain.
  - by apply (expand_literal _ "--pilot-name=" "POD_NAME").
  - by apply (expand_literal _ "--pilot-namespace=" "POD_NAMESPACE").
  - apply (expand_literal _ "--elasticsearch-master-url=" "CLUSTER_URL"); [done|]. simpl. f_equal. apply expand_plain.
    unfold ClientServiceName, ESUtil.ResourceBaseName, esc_Name. by rewrite !has_char_app, Hn.
  - apply (expand_literal _ "--elasticsearch-roles=" "ROLES"); [done|]. simpl. f_equal. by apply expand_plain.
  - apply (expand_literal _ "--elasticsearch-plugins=" "PLUGINS"); [done|]. simpl. f_equal. by apply expand_plain.
  - apply (expand_literal _ "--leader-election-config-map=" "LEADER_ELECTION_CONFIG_MAP"); [done|].
    simpl. f_equal. apply expand_plain.
    unfold esc_Name. by rewrite !has_char_app, Hn.
Qed.

Lemma cass_args cluster np image pod :
  has_char "$"%char (cass_Name cluster) = false →
  containerArgs expand pod (cassContainer cluster np image) =
  [ "--v=4"; "--logtostderr"; "--pilot-name=" +:+ pf_Name pod; "--pilot-namespace=" +:+ pf_Namespace pod;
    "--leader-election-config-map=" +:+ "cassandra-" +:+ cass_Name cluster +:+ "-leaderelection";
    "--jolokia-url=" +:+ defaultJolokiaURL ].
Proof.
  intros Hn. unfold cass_Name in Hn. unfold containerArgs. cbn [cassContainer ct_Args ct_Env map].
  repeat f_equal.
  - by apply expand_plain.
  - by apply expand_plain.
  - by apply (expand_literal _ "--pilot-name=" "POD_NAME").
  - by apply (expand_literal _ "--pilot-namespace=" "POD_NAMESPACE").
  - apply (expand_literal _ "--leader-election-config-map=" "LEADER_ELECTION_CONFIG_MAP"); [done|].
    simpl. f_equal. apply expand_plain. unfold cass_Name. by rewrite !has_char_app, Hn.
  - by apply expand_plain.
Qed.

(** The generic options that the arguments give. *)
Definition podOptions (pod : PodFields) (configMap : string) : GenericOptions :=
  set_LeaderElectionConfigMap configMap (set_PilotNamespace (pf_Namespace pod) (set_PilotName (pf_Name pod) emptyGenericOptions)).

Definition es_podOptions (c : ElasticsearchCluster) (np : ElasticsearchClusterNodePool) (pod : PodFields) : ESPilotOptions :=
  mkESPilotOptions defaultClientOptions
    (mkElasticsearchOptions ("http://" +:+ ClientServiceName c +:+ ":9200") defaultElasticsearchBinary
       defaultElasticsearchPluginBinary defaultElasticsearchConfigDir (enp_roles np) (es_Plugins (esc_Spec c)))
    (podOptions pod ("elastic-" +:+ esc_Name c +:+ "-leaderelection")) (mkLogging 4 true).

Definition cass_podOptions (cluster : CassandraCluster) (pod : PodFields) : CassPilotOptions :=
  mkCassPilotOptions defaultClientOptions defaultJolokiaURL
    (podOptions pod ("cassandra-" +:+ cass_Name cluster +:+ "-leaderelection")) (mkLogging 4 true).

Lemma es_parse c np image pod others :
  has_char "$"%char (esc_Name c) = false → has_char "$"%char (join "," (enp_roles np)) = false →
  has_char "$"%char (join "," (es_Plugins (esc_Spec c))) = false →
  Forall plainField (enp_roles np) → enp_roles np ≠ [""] →
  Forall plainField (es_Plugins (esc_Spec c)) → es_Plugins (esc_Spec c) ≠ [""] →
  ∃ actual, Parse (es_AddFlags ParseDuration others) (containerArgs expand pod (esContainer c np image)) es_NewOptions =
    Some (inr (mkParsed (es_podOptions c np pod) actual [])).
Proof.
  intros Hn Hdr Hdp Hr Hr1 Hp Hp1. rewrite es_args by done. unfold Parse. cbn [length].
  eexists.
  etrans; [eapply (parseArgs_value "v" "" "4"); reflexivity|].
  etrans; [eapply (parseArgs_switch "l" "ogtostderr"); reflexivity|].
  etrans; [eapply (parseArgs_value "p" "ilot-name" (pf_Name pod)); reflexivity|].
  etrans; [eapply (parseArgs_value "p" "ilot-namespace" (pf_Namespace pod)); reflexivity|].
  etrans; [eapply (parseArgs_value "e" "lasticsearch-master-url"); reflexivity|].
  etrans; [eapply (parseArgs_value "e" "lasticsearch-roles"); [reflexivity..|];
           eapply StringSliceVar_first; [reflexivity|by apply readAsCSV_join]|].
  etrans; [eapply (parseArgs_value "e" "lasticsearch-plugins"); [reflexivity..|];
           eapply StringSliceVar_first; [reflexivity|by apply readAsCSV_join]|].
  etrans; [eapply (parseArgs_value "l" "eader-election-config-map"); reflexivity|].
  reflexivity.
Qed.

Lemma cass_parse cluster np image pod others :
  has_char "$"%char (cass_Name cluster) = false →
  ∃ actual, Parse (cass_AddFlags ParseDuration others) (containerArgs expand pod (cassContainer cluster np image)) cass_NewOptions =
    Some (inr (mkParsed (cass_podOptions cluster pod) actual [])).
Proof.
  intros Hn. rewrite cass_args by done. unfold Parse. cbn [length]. eexists.
  etrans; [eapply (parseArgs_value "v" "" "4"); reflexivity|].
  etrans; [eapply (parseArgs_switch "l" "ogtostderr"); reflexivity|].
  etrans; [eapply (parseArgs_value "p" "ilot-name" (pf_Name pod)); reflexivity|].
  etrans; [eapply (parseArgs_value "p" "ilot-namespace" (pf_Namespace pod)); reflexivity|].
  etrans; [eapply (parseArgs_value "l" "eader-election-config-map"); reflexivity|].
  etrans; [eapply (parseArgs_value "j" "olokia-url"); reflexivity|].
  reflexivity.
Qed.

(** The clients can be created and the address of Jolokia is a URL. *)
Definition setupWorks (su : Setup) : Prop :=
  (∀ master kubeconfig, su_BuildConfigFromFlags su master kubeconfig = None) ∧ su_kubeClientset su = None ∧
  su_navigatorClientset su = None ∧ su_parseURL su defaultJolokiaURL = None ∧ su_NewPilot su = None.

(** The generic options of a pod pass Complete and Validate. *)
Lemma generic_accepts hostname leader pod configMap :
  pf_Name pod ≠ "" → pf_Namespace pod ≠ "" →
  ∃ g, Generic_Complete hostname (wireGeneric leader (podOptions pod configMap)) = inr g ∧ Generic_Validate g = [] ∧
    go_PilotName g = pf_Name pod ∧ go_PilotNamespace g = pf_Namespace pod ∧ go_LeaderElectionConfigMap g = configMap.
Proof.
  intros Hn Hns. unfold Generic_Complete. cbn [wireGeneric podOptions set_LeaderElectionConfigMap set_PilotNamespace set_PilotName go_PilotName].
  rewrite bool_decide_eq_false_2 by done. eexists. split; [done|]. unfold Generic_Validate. cbn.
  rewrite !bool_decide_eq_false_2 by done. done.
Qed.

(** C15. The arguments the controllers write into the containers, once the kubelet has expanded
    their variables, are parsed by the flags of the pilots into options that Complete and
    Validate accept, and these name the pod, its namespace, the service of the cluster or the
    Jolokia address, and exactly the roles and plugins of the specification. The pod has a name
    and a namespace, the clients of the pilot can be made, the names of the clusters, the roles
    and the plugins hold no dollar sign, roles and plugins no comma, quote or line break, and
    neither list is that of one empty name: plugin names are not validated, and with others the
    pilot reads other plugins or fails (plugins_with_commas_are_split). *)
Theorem pods_configure_their_pilots c np image cluster cnp cimage pod su esFlags cassFlags :
  pf_Name pod ≠ "" → pf_Namespace pod ≠ "" → setupWorks su →
  Forall (λ s, has_char "$"%char s = false)
    [esc_Name c; cass_Name cluster; join "," (enp_roles np); join "," (es_Plugins (esc_Spec c))] →
  Forall plainField (enp_roles np ++ es_Plugins (esc_Spec c)) → enp_roles np ≠ [""] → es_Plugins (esc_Spec c) ≠ [""] →
  (∃ o o' actual,
     Parse (es_AddFlags ParseDuration esFlags) (containerArgs expand pod (esContainer c np image)) es_NewOptions =
       Some (inr (mkParsed o actual [])) ∧
     es_RunE su o = inr o' ∧
     go_PilotName (ep_Generic o') = pf_Name pod ∧ go_PilotNamespace (ep_Generic o') = pf_Namespace pod ∧
     go_LeaderElectionConfigMap (ep_Generic o') = "elastic-" +:+ esc_Name c +:+ "-leaderelection" ∧
     eo_MasterURL (ep_Elasticsearch o') = "http://" +:+ ClientServiceName c +:+ ":9200" ∧
     eo_Roles (ep_Elasticsearch o') = enp_roles np ∧ eo_Plugins (ep_Elasticsearch o') = es_Plugins (esc_Spec c)) ∧
  (∃ o o' actual,
     Parse (cass_AddFlags ParseDuration cassFlags) (containerArgs expand pod (cassContainer cluster cnp cimage)) cass_NewOptions =
       Some (inr (mkParsed o actual [])) ∧
     cass_RunE su o = inr o' ∧
     go_PilotName (cp_Generic o') = pf_Name pod ∧ go_PilotNamespace (cp_Generic o') = pf_Namespace pod ∧
     go_LeaderElectionConfigMap (cp_Generic o') = "cassandra-" +:+ cass_Name cluster +:+ "-leaderelection" ∧
     cp_JolokiaURL o' = "http://" +:+ jolokiaHost +:+ ":" +:+ itoa jolokiaPort +:+ jolokiaContext +:+ "/").
Proof.
  intros Hn Hns (Hcfg & Hkube & Hnav & Hurl & Hnew) Hd [Hr Hp]%Forall_app Hr1 Hp1.
  rewrite !Forall_cons in Hd. destruct Hd as (Hd1 & Hd2 & Hd3 & Hd4 & _). split.
  - destruct (es_parse c np image pod esFlags) as [actual Hparse]; [done..|].
    destruct (generic_accepts (su_Hostname su) true pod ("elastic-" +:+ esc_Name c +:+ "-leaderelection")) as (g & Hg & Hv & ? & ? & ?);
      [done..|].
    eexists _, _, actual. split; [exact Hparse|]. unfold es_RunE, RunE, es_Complete, buildConfig.
    cbn [ep_Client ep_Generic es_podOptions co_RestConfig defaultClientOptions]. rewrite Hcfg, Hkube, Hnav, Hnew, Hg. cbn [firstErr].
    unfold es_Validate. cbn [ep_Generic]. rewrite Hv. split; [reflexivity|done].
  - destruct (cass_parse cluster cnp cimage pod cassFlags) as [actual Hparse]; [done|].
    destruct (generic_accepts (su_Hostname su) false pod ("cassandra-" +:+ cass_Name cluster +:+ "-leaderelection")) as (g & Hg & Hv & ? & ? & ?);
      [done..|].
    eexists _, _, actual. split; [exact Hparse|]. unfold cass_RunE, RunE, cass_Complete, buildConfig.
    cbn [cp_Client cp_Generic cass_podOptions co_RestConfig defaultClientOptions cp_JolokiaURL].
    rewrite Hcfg, Hkube, Hnav, Hurl, Hnew, Hg. cbn [firstErr].
    unfold cass_Validate. cbn [cp_Generic]. rewrite Hv. split; [reflexivity|done].
Qed.
End launch.

(** ** A concrete pod *)

(** Expands one reference at the end of a text, which is all that the pods have. *)
Definition expandLast (env : Environ) (s : string) : string :=
  match split_first "$"%char s with
  | Some (pre, String "("%char rest) =>
      match split_first ")"%char rest with
      | Some (name, EmptyString) => match env name with Some v => pre +:+ v | None => s end
      | _ => s
      end
  | _ => s
  end.

#[export] Instance expandLast_expansion : VariableExpansion expandLast.
Proof.
  split; unfold expandLast.
  - intros env s Hs. by rewrite split_first_None.
  - intros env pre name v Hpre _ Hname Hv.
    change (pre +:+ "$(" +:+ name +:+ ")") with (pre +:+ String "$"%char (String "("%char (name +:+ String ")"%char ""))).
    rewrite split_first_app by done. cbv beta iota. by rewrite split_first_app, Hv.
Qed.

(** Plugin names are not validated, and are joined by commas without quotes: one that holds a
    comma is read as two plugins, and one that holds a quote fails the pilot. *)
Definition withPlugins (plugins : list string) : ElasticsearchCluster :=
  let sp := esc_Spec demoCluster in
  mkElasticsearchCluster (esc_Meta demoCluster)
    (mkElasticsearchClusterSpec (es_Config sp) (es_Version sp) plugins (es_NodePools sp) (es_Image sp) (es_MinimumMasters sp))
    (esc_Status demoCluster).

Definition pluginsRead (plugins : list string) : option (Res (list string)) :=
  match Parse (es_AddFlags (λ _, inr 0) (λ _, None))
          (containerArgs expandLast (mkPodFields "es-demo-data-0" "test" "10.0.0.7") (esContainer (withPlugins plugins) dataPool pilotImage))
          es_NewOptions with
  | Some (inr p) => Some (inr (eo_Plugins (ep_Elasticsearch (pa_vars p))))
  | Some (inl err) => Some (inl err)
  | None => None
  end.

Lemma plugins_with_commas_are_split :
  pluginsRead ["a,b"] = Some (inr ["a"; "b"]) ∧ pluginsRead [""] = Some (inr []) ∧
  ∃ err, pluginsRead ["a" +:+ String "034"%char ""] = Some (inl err).
Proof. split_and!; [vm_compute; reflexivity..|]. eexists. vm_compute. reflexivity. Qed.

Definition noFailure : Setup := mkSetup (λ _ _, None) None None (λ _, None) None (inr "host").

Lemma pods_configure_their_pilots_witness :
  let pod := mkPodFields "es-demo-data-0" "test" "10.0.0.7" in
  let none V : string → option (Flag V) := λ _, None in
  (∃ o o' actual,
     Parse (es_AddFlags (λ _, inr 0) (none _)) (containerArgs expandLast pod (esContainer demoCluster dataPool pilotImage)) es_NewOptions =
       Some (inr (mkParsed o actual [])) ∧
     es_RunE noFailure o = inr o' ∧
     go_PilotName (ep_Generic o') = "es-demo-data-0" ∧ go_PilotNamespace (ep_Generic o') = "test" ∧
     go_LeaderElectionConfigMap (ep_Generic o') = "elastic-demo-leaderelection" ∧
     eo_MasterURL (ep_Elasticsearch o') = "http://es-demo:9200" ∧
     eo_Roles (ep_Elasticsearch o') = ["data"; "ingest"] ∧ eo_Plugins (ep_Elasticsearch o') = []) ∧
  (∃ o o' actual,
     Parse (cass_AddFlags (λ _, inr 0) (none _)) (containerArgs expandLast pod (cassContainer (demoCassandra 3) (ringPool 3) pilotImage))
       cass_NewOptions = Some (inr (mkParsed o actual [])) ∧
     cass_RunE noFailure o = inr o' ∧
     go_PilotName (cp_Generic o') = "es-demo-data-0" ∧ go_PilotNamespace (cp_Generic o') = "test" ∧
     go_LeaderElectionConfigMap (cp_Generic o') = "cassandra-demo-leaderelection" ∧
     cp_JolokiaURL o' = "http://127.0.0.1:8778/jolokia/").
Proof.
  intros pod none. apply (pods_configure_their_pilots expandLast (λ _, inr 0) demoCluster dataPool pilotImage
    (demoCassandra 3) (ringPool 3) pilotImage pod noFailure (none _) (none _)); try discriminate; try (repeat constructor).
Defined.
