(* ===== verification/RestClient.v ===== *)
(** * Requests of the generated clients

    pkg/client/clientset: the typed clients of both versions, as the requests
    they build with vendor/k8s.io/client-go/rest (request.go, client.go,
    url_utils.go), down to the method and the path that are sent.  A request is
    a value that is built step by step and keeps the first error; nothing is
    sent when there is one. *)

From S2P Require Import Prelude GoStrings K8s Internal Types.
From Stdlib Require Import Ascii.
From Stdlib Require QArith_base Qcanon.

(** ** Package path *)

Definition slash : ascii := "/"%char.

(** One element of a path, on the reversed list of those before it. *)
Definition clean_step (rooted : bool) (out : list string) (seg : string) : list string :=
  if decide (seg = "" ∨ seg = ".") then out
  else if decide (seg = "..") then
    match out with
    | [] => if rooted then [] else [".."]
    | top :: rest => if decide (top = "..") then ".." :: out else rest
    end
  else seg :: out.

Definition isRooted (p : string) : bool :=
  match p with
  | String c _ => Ascii.eqb c slash
  | EmptyString => false
  end.

(** path.Clean *)
Definition Clean (p : string) : string :=
  if decide (p = "") then "."
  else
    let out := reverse (foldl (clean_step (isRooted p)) [] (split_all slash p)) in
    if isRooted p then String slash (join "/" out)
    else match out with [] => "." | _ => join "/" out end.

(** path.Join *)
Fixpoint path_Join (elem : list string) : string :=
  match elem with
  | [] => ""
  | e :: rest => if decide (e = "") then path_Join rest else Clean (join "/" elem)
  end.

Arguments path_Join : simpl never.

(** strings.HasSuffix(p, "/") *)
Fixpoint HasSlashSuffix (p : string) : bool :=
  match p with
  | EmptyString => false
  | String c EmptyString => Ascii.eqb c slash
  | String _ p' => HasSlashSuffix p'
  end.

(** IsValidPathSegmentName: its messages are not kept. *)
Definition validSegment (name : string) : bool :=
  negb (bool_decide (name = ".")) && negb (bool_decide (name = "..")) &&
  negb (has_char slash name) && negb (has_char "%"%char name).

(** The absolute path of a list of elements *)
Definition absPath (segs : list string) : string := String slash (join "/" segs).

Definition proper (seg : string) : Prop := seg ≠ "" ∧ seg ≠ "." ∧ seg ≠ ".." ∧ has_char slash seg = false.

(** ** Groups, versions and configuration *)

Record GroupVersion := mkGroupVersion { gv_Group : string; gv_Version : string }.
#[export] Instance GroupVersion_eq_dec : EqDecision GroupVersion.
Proof. solve_decision. Defined.

(** SchemeGroupVersion of pkg/apis/navigator/v1alpha1/register.go *)
Definition SchemeGroupVersion : GroupVersion := mkGroupVersion GroupName "v1alpha1".

(** The codec factories of the two client sets: serializer.DirectCodecFactory
    around the versioned scheme's codecs, and the internal scheme's codecs; and
    the codec of the discovery client. *)
Inductive NegotiatedSerializer := DirectCodecs | InternalCodecs | DiscoveryCodec.

(** What the clients read and set of a rest.Config. *)
Record Config := mkConfig {
  cf_Host : string;
  cf_APIPath : string;
  cf_GroupVersion : option GroupVersion;
  cf_NegotiatedSerializer : option NegotiatedSerializer;
  cf_UserAgent : string;
  cf_QPS : Qcanon.Qc;
  cf_Burst : Z;
}.

Definition versioned_setConfigDefaults (DefaultKubernetesUserAgent : string) (config : Config) : Res Config :=
  inr {| cf_Host := cf_Host config;
         cf_APIPath := "/apis";
         cf_GroupVersion := Some SchemeGroupVersion;
         cf_NegotiatedSerializer := Some DirectCodecs;
         cf_UserAgent := if bool_decide (cf_UserAgent config = "") then DefaultKubernetesUserAgent else cf_UserAgent config;
         cf_QPS := cf_QPS config;
         cf_Burst := cf_Burst config |}.

(** [registryGroup] is the answer of scheme.Registry.Group. *)
Definition internal_setConfigDefaults (registryGroup : string → Res GroupVersion)
    (DefaultKubernetesUserAgent : string) (config : Config) : Res Config :=
  match registryGroup GroupName with
  | inl err => inl err
  | inr g =>
      inr {| cf_Host := cf_Host config;
             cf_APIPath := "/apis";
             cf_GroupVersion :=
               match cf_GroupVersion config with
               | None => Some g
               | Some gv => if bool_decide (gv_Group gv = gv_Group g) then Some gv else Some g
               end;
             cf_NegotiatedSerializer := Some InternalCodecs;
             cf_UserAgent := if bool_decide (cf_UserAgent config = "") then DefaultKubernetesUserAgent else cf_UserAgent config;
             cf_QPS := if decide (cf_QPS config = Qcanon.Q2Qc (QArith_base.inject_Z 0)) then Qcanon.Q2Qc (QArith_base.inject_Z 5) else cf_QPS config;
             cf_Burst := if decide (cf_Burst config = 0) then 10 else cf_Burst config |}
  end.

Definition DefaultVersionedAPIPath (apiPath : string) (groupVersion : GroupVersion) : string :=
  let versionedAPIPath := path_Join ["/"; apiPath] in
  if bool_decide (gv_Group groupVersion = "") then path_Join [versionedAPIPath; gv_Version groupVersion]
  else path_Join [versionedAPIPath; gv_Group groupVersion; gv_Version groupVersion].

(** ** RESTClient *)

Record RESTClient := mkRESTClient {
  rc_basePath : string;
  rc_versionedAPIPath : string;
  rc_GroupVersion : GroupVersion;
}.

(** [hostPath] is url.Parse of the host and TransportFor: the path of the host's
    URL.  NewRESTClient adds the slash that path lacks. *)
Definition RESTClientFor (hostPath : string → Res string) (config : Config) : Res RESTClient :=
  match cf_GroupVersion config with
  | None => inl (Errorf "GroupVersion is required when initializing a RESTClient" [])
  | Some gv =>
      match cf_NegotiatedSerializer config with
      | None => inl (Errorf "NegotiatedSerializer is required when initializing a RESTClient" [])
      | Some _ =>
          match hostPath (if bool_decide (cf_Host config = "") then "localhost" else cf_Host config) with
          | inl err => inl err
          | inr base =>
              inr {| rc_basePath := if HasSlashSuffix base then base else base +:+ "/";
                     rc_versionedAPIPath := DefaultVersionedAPIPath (cf_APIPath config) gv;
                     rc_GroupVersion := gv |}
          end
      end
  end.

Definition versioned_NewForConfig hostPath ua (c : Config) : Res RESTClient :=
  match versioned_setConfigDefaults ua c with
  | inl err => inl err
  | inr config => RESTClientFor hostPath config
  end.

Definition internal_NewForConfig hostPath registryGroup ua (c : Config) : Res RESTClient :=
  match internal_setConfigDefaults registryGroup ua c with
  | inl err => inl err
  | inr config => RESTClientFor hostPath config
  end.

(** ** Query parameters *)

Abbreviation Values := (gmap string (list string)).

Record ListOptions := mkListOptions {
  lo_LabelSelector : string;
  lo_FieldSelector : string;
  lo_IncludeUninitialized : bool;
  lo_Watch : bool;
  lo_ResourceVersion : string;
  lo_TimeoutSeconds : option Z;
  lo_Limit : Z;
  lo_Continue : string;
}.

Record GetOptions := mkGetOptions { go_ResourceVersion : string; go_IncludeUninitialized : bool }.

Definition set_Watch (opts : ListOptions) : ListOptions :=
  mkListOptions (lo_LabelSelector opts) (lo_FieldSelector opts) (lo_IncludeUninitialized opts) true
    (lo_ResourceVersion opts) (lo_TimeoutSeconds opts) (lo_Limit opts) (lo_Continue opts).

(** queryparams.addParam on an omitempty field: a zero value adds nothing. *)
Definition addString (tag value : string) (values : Values) : Values :=
  if bool_decide (value = "") then values else <[tag := default [] (values !! tag) ++ [value]]> values.
Definition addBool (tag : string) (value : bool) (values : Values) : Values :=
  addString tag (if value then "true" else "") values.
Definition addInt (tag : string) (value : Z) (values : Values) : Values :=
  if bool_decide (value = 0) then values else addString tag (itoa value) values.

(** The parameter codec; both types convert the same way in every version. *)
Class EncodeParameters (P : Type) := encodeParameters : P → Values.

#[export] Instance ListOptions_params : EncodeParameters ListOptions := λ opts,
  addString "continue" (lo_Continue opts)
  (addInt "limit" (lo_Limit opts)
  (addInt "timeoutSeconds" (default 0 (lo_TimeoutSeconds opts))
  (addString "resourceVersion" (lo_ResourceVersion opts)
  (addBool "watch" (lo_Watch opts)
  (addBool "includeUninitialized" (lo_IncludeUninitialized opts)
  (addString "fieldSelector" (lo_FieldSelector opts)
  (addString "labelSelector" (lo_LabelSelector opts) ∅))))))).

#[export] Instance GetOptions_params : EncodeParameters GetOptions := λ opts,
  addBool "includeUninitialized" (go_IncludeUninitialized opts)
  (addString "resourceVersion" (go_ResourceVersion opts) ∅).

(** ** Request *)

Section request.
(** The body that is sent: an encoded object or the bytes of a patch. *)
Context {B : Type}.

Record Request := mkRequest {
  rq_verb : string;
  rq_pathPrefix : string;
  rq_params : Values;
  rq_namespace : string;
  rq_namespaceSet : bool;
  rq_resource : string;
  rq_resourceName : string;
  rq_subresource : string;
  rq_contentType : option string;
  rq_err : option Err;
  rq_body : option B;
}.

(** NewRequest, on the RESTClient's base URL *)
Definition NewRequest (c : RESTClient) (verb : string) : Request :=
  {| rq_verb := verb;
     rq_pathPrefix := path_Join [path_Join ["/"; rc_basePath c]; rc_versionedAPIPath c];
     rq_params := ∅; rq_namespace := ""; rq_namespaceSet := false; rq_resource := "";
     rq_resourceName := ""; rq_subresource := ""; rq_contentType := None; rq_err := None; rq_body := None |}.

Definition set_err (e : Err) (r : Request) : Request :=
  {| rq_verb := rq_verb r; rq_pathPrefix := rq_pathPrefix r; rq_params := rq_params r;
     rq_namespace := rq_namespace r; rq_namespaceSet := rq_namespaceSet r; rq_resource := rq_resource r;
     rq_resourceName := rq_resourceName r; rq_subresource := rq_subresource r;
     rq_contentType := rq_contentType r; rq_err := Some e; rq_body := rq_body r |}.

(** Every step but SetHeader leaves a request with an error alone. *)
Definition unlessErr (step : Request → Request) (r : Request) : Request :=
  match rq_err r with
  | Some _ => r
  | None => step r
  end.

Definition Resource (resource : string) : Request → Request := unlessErr (λ r,
  if negb (bool_decide (rq_resource r = "")) then
    set_err (Errorf "resource already set to %q, cannot change to %q" [AStr (rq_resource r); AStr resource]) r
  else if negb (validSegment resource) then set_err (Errorf "invalid resource %q: %v" [AStr resource]) r
  else
    {| rq_verb := rq_verb r; rq_pathPrefix := rq_pathPrefix r; rq_params := rq_params r;
       rq_namespace := rq_namespace r; rq_namespaceSet := rq_namespaceSet r; rq_resource := resource;
       rq_resourceName := rq_resourceName r; rq_subresource := rq_subresource r;
       rq_contentType := rq_contentType r; rq_err := None; rq_body := rq_body r |}).

Definition SubResource (subresources : list string) : Request → Request := unlessErr (λ r,
  let subresource := path_Join subresources in
  if negb (bool_decide (rq_subresource r = "")) then
    set_err (Errorf "subresource already set to %q, cannot change to %q" [AStr (rq_resource r); AStr subresource]) r
  else
    match List.find (λ s, negb (validSegment s)) subresources with
    | Some s => set_err (Errorf "invalid subresource %q: %v" [AStr s]) r
    | None =>
        {| rq_verb := rq_verb r; rq_pathPrefix := rq_pathPrefix r; rq_params := rq_params r;
           rq_namespace := rq_namespace r; rq_namespaceSet := rq_namespaceSet r; rq_resource := rq_resource r;
           rq_resourceName := rq_resourceName r; rq_subresource := subresource;
           rq_contentType := rq_contentType r; rq_err := None; rq_body := rq_body r |}
    end).

Definition Name (resourceName : string) : Request → Request := unlessErr (λ r,
  if bool_decide (resourceName = "") then set_err (Errorf "resource name may not be empty" []) r
  else if negb (bool_decide (rq_resourceName r = "")) then
    set_err (Errorf "resource name already set to %q, cannot change to %q" [AStr (rq_resourceName r); AStr resourceName]) r
  else if negb (validSegment resourceName) then set_err (Errorf "invalid resource name %q: %v" [AStr resourceName]) r
  else
    {| rq_verb := rq_verb r; rq_pathPrefix := rq_pathPrefix r; rq_params := rq_params r;
       rq_namespace := rq_namespace r; rq_namespaceSet := rq_namespaceSet r; rq_resource := rq_resource r;
       rq_resourceName := resourceName; rq_subresource := rq_subresource r;
       rq_contentType := rq_contentType r; rq_err := None; rq_body := rq_body r |}).

Definition setNamespace (namespace : string) : Request → Request := unlessErr (λ r,
  if rq_namespaceSet r then
    set_err (Errorf "namespace already set to %q, cannot change to %q" [AStr (rq_namespace r); AStr namespace]) r
  else if negb (validSegment namespace) then set_err (Errorf "invalid namespace %q: %v" [AStr namespace]) r
  else
    {| rq_verb := rq_verb r; rq_pathPrefix := rq_pathPrefix r; rq_params := rq_params r;
       rq_namespace := namespace; rq_namespaceSet := true; rq_resource := rq_resource r;
       rq_resourceName := rq_resourceName r; rq_subresource := rq_subresource r;
       rq_contentType := rq_contentType r; rq_err := None; rq_body := rq_body r |}).

Definition VersionedParams {P} `{EncodeParameters P} (opts : P) : Request → Request := unlessErr (λ r,
  {| rq_verb := rq_verb r; rq_pathPrefix := rq_pathPrefix r;
     rq_params := union_with (λ old new, Some (old ++ new)) (rq_params r) (encodeParameters opts);
     rq_namespace := rq_namespace r; rq_namespaceSet := rq_namespaceSet r; rq_resource := rq_resource r;
     rq_resourceName := rq_resourceName r; rq_subresource := rq_subresource r;
     rq_contentType := rq_contentType r; rq_err := None; rq_body := rq_body r |}).

Definition SetHeader (contentType : string) (r : Request) : Request :=
  {| rq_verb := rq_verb r; rq_pathPrefix := rq_pathPrefix r; rq_params := rq_params r;
     rq_namespace := rq_namespace r; rq_namespaceSet := rq_namespaceSet r; rq_resource := rq_resource r;
     rq_resourceName := rq_resourceName r; rq_subresource := rq_subresource r;
     rq_contentType := Some contentType; rq_err := rq_err r; rq_body := rq_body r |}.

Definition setBody (data : B) (r : Request) : Request :=
  {| rq_verb := rq_verb r; rq_pathPrefix := rq_pathPrefix r; rq_params := rq_params r;
     rq_namespace := rq_namespace r; rq_namespaceSet := rq_namespaceSet r; rq_resource := rq_resource r;
     rq_resourceName := rq_resourceName r; rq_subresource := rq_subresource r;
     rq_contentType := rq_contentType r; rq_err := rq_err r; rq_body := Some data |}.

(** Body of a runtime.Object pointer: [encoded] is the serializer's answer, and
    a nil pointer is no body. *)
Definition Body (encoded : option (Res B)) : Request → Request := unlessErr (λ r,
  match encoded with
  | None => r
  | Some (inl err) => set_err err r
  | Some (inr data) => SetHeader "application/json" (setBody data r)
  end).

(** Body of a byte slice. *)
Definition BodyBytes (data : B) : Request → Request := unlessErr (setBody data).

Definition URL_path (r : Request) : string :=
  let p := rq_pathPrefix r in
  let p := if rq_namespaceSet r && negb (bool_decide (rq_namespace r = ""))
           then path_Join [p; "namespaces"; rq_namespace r] else p in
  let p := if negb (bool_decide (rq_resource r = "")) then path_Join [p; ToLower (rq_resource r)] else p in
  if negb (bool_decide (rq_resourceName r = "")) || negb (bool_decide (rq_subresource r = ""))
  then path_Join [p; rq_resourceName r; rq_subresource r; ""] else p.

(** What reaches the server: method, path, query, content type and body. *)
Record Sent := mkSent {
  sent_Method : string;
  sent_Path : string;
  sent_Query : Values;
  sent_ContentType : string;
  sent_Body : option B;
}.

Definition send (r : Request) : Sent :=
  mkSent (rq_verb r) (URL_path r) (rq_params r) (default "" (rq_contentType r)) (rq_body r).

(** The checks of Request.request before it connects, and what it sends. *)
Definition Do (r : Request) : Res Sent :=
  match rq_err r with
  | Some err => inl err
  | None =>
      if bool_decide (rq_verb r ∈ ["GET"; "PUT"; "DELETE"]) && rq_namespaceSet r
         && negb (bool_decide (rq_resourceName r = "")) && bool_decide (rq_namespace r = "") then
        inl (Errorf "an empty namespace may not be set when a resource name is provided" [])
      else if bool_decide (rq_verb r = "POST") && rq_namespaceSet r && bool_decide (rq_namespace r = "") then
        inl (Errorf "an empty namespace may not be set during creation" [])
      else inr (send r)
  end.

(** Request.Watch has no such checks. *)
Definition Watch_ (r : Request) : Res Sent :=
  match rq_err r with
  | Some err => inl err
  | None => inr (send r)
  end.
End request.
Arguments Request : clear implicits.
Arguments Sent : clear implicits.
Arguments sent_Method {B} s. Arguments sent_Path {B} s. Arguments sent_Query {B} s.
Arguments sent_ContentType {B} s. Arguments sent_Body {B} s.

(** ** Typed clients

    The generated files differ in their types and in the resource name only. *)

Record ClientOps (T B : Type) := mkClientOps {
  client_Get : string → GetOptions → Res (Sent B);
  client_List : ListOptions → Res (Sent B);
  client_Watch : ListOptions → Res (Sent B);
  client_Create : T → Res (Sent B);
  client_Update : T → Res (Sent B);
  client_UpdateStatus : T → Res (Sent B);
  client_Delete : string → option (Res B) → Res (Sent B);
  client_DeleteCollection : option (Res B) → ListOptions → Res (Sent B);
  client_Patch : string → string → B → list string → Res (Sent B);
}.
Arguments mkClientOps {T B}.
Arguments client_Get {T B}. Arguments client_List {T B}. Arguments client_Watch {T B}.
Arguments client_Create {T B}. Arguments client_Update {T B}. Arguments client_UpdateStatus {T B}.
Arguments client_Delete {T B}. Arguments client_DeleteCollection {T B}. Arguments client_Patch {T B}.

Section typed.
Context {T B : Type} (resource : string) (meta : T → ObjectMeta) (Encode : T → Res B).
Context (c : RESTClient) (ns : string).

Definition generatedClient : ClientOps T B :=
  {| client_Get name options :=
       Do (VersionedParams options (Name name (Resource resource (setNamespace ns (NewRequest c "GET")))));
     client_List opts :=
       Do (VersionedParams opts (Resource resource (setNamespace ns (NewRequest c "GET"))));
     client_Watch opts :=
       let opts := set_Watch opts in
       Watch_ (VersionedParams opts (Resource resource (setNamespace ns (NewRequest c "GET"))));
     client_Create obj :=
       Do (Body (Some (Encode obj)) (Resource resource (setNamespace ns (NewRequest c "POST"))));
     client_Update obj :=
       Do (Body (Some (Encode obj))
         (Name (om_Name (meta obj)) (Resource resource (setNamespace ns (NewRequest c "PUT")))));
     client_UpdateStatus obj :=
       Do (Body (Some (Encode obj)) (SubResource ["status"]
         (Name (om_Name (meta obj)) (Resource resource (setNamespace ns (NewRequest c "PUT"))))));
     client_Delete name options :=
       Do (Body options (Name name (Resource resource (setNamespace ns (NewRequest c "DELETE")))));
     client_DeleteCollection options listOptions :=
       Do (Body options (VersionedParams listOptions (Resource resource (setNamespace ns (NewRequest c "DELETE")))));
     client_Patch name pt data subresources :=
       Do (BodyBytes data (Name name (SubResource subresources (Resource resource (setNamespace ns
         (SetHeader pt (NewRequest c "PATCH"))))))) |}.
End typed.

Definition v1alpha1_pilots {B} (Encode : Pilot → Res B) := generatedClient "pilots" pil_Meta Encode.
Definition v1alpha1_elasticsearchClusters {B} (Encode : ElasticsearchCluster → Res B) :=
  generatedClient "elasticsearchclusters" esc_Meta Encode.
Definition v1alpha1_cassandraClusters {B} (Encode : CassandraCluster → Res B) :=
  generatedClient "cassandraclusters" cass_Meta Encode.
Definition internalversion_pilots {B} (Encode : Internal.Pilot → Res B) :=
  generatedClient "pilots" Internal.npil_Meta Encode.
Definition internalversion_elasticsearchClusters {B} (Encode : Internal.ElasticsearchCluster → Res B) :=
  generatedClient "elasticsearchclusters" Internal.nesc_Meta Encode.
Definition internalversion_cassandraClusters {B} (Encode : Internal.CassandraCluster → Res B) :=
  generatedClient "cassandraclusters" Internal.ncass_Meta Encode.

Lemma clean_proper rooted out segs :
  Forall (λ s, s = "" ∨ proper s) segs →
  foldl (clean_step rooted) out segs = reverse (filter (λ s, s ≠ "") segs) ++ out.
Proof.
  revert out. induction segs as [|s segs IH]; intros out [Hs Hsegs]%Forall_cons || intros out _; [done|].
  simpl. rewrite IH by done. rewrite filter_cons. unfold clean_step. destruct Hs as [->|(Hne & Hd & Hdd & _)].
  - rewrite decide_True by auto. by rewrite decide_False by tauto.
  - rewrite decide_False by tauto. rewrite decide_False by done. rewrite decide_True by done.
    by rewrite reverse_cons, <- (assoc_L (++)).
Qed.

Lemma filter_nonempty (segs : list string) : Forall (λ s, s ≠ "") segs → filter (λ s, s ≠ "") segs = segs.
Proof.
  induction 1 as [|s segs Hs _ IH]; [done|]. rewrite filter_cons, decide_True by done. by rewrite IH.
Qed.

(** Joining elements to an absolute path appends those that are not empty. *)
Lemma path_Join_abs segs more :
  segs ≠ [] → Forall proper segs → Forall (λ s, s = "" ∨ proper s) more →
  path_Join (absPath segs :: more) = absPath (segs ++ filter (λ s, s ≠ "") more).
Proof.
  intros Hne Hsegs Hmore. unfold path_Join. rewrite decide_False by done.
  assert (join "/" (absPath segs :: more) = String slash (join "/" (segs ++ more))) as ->.
  { unfold absPath. destruct more as [|m more]; [by rewrite app_nil_r|].
    change (join "/" (String slash (join "/" segs) :: m :: more))
      with (String slash (join "/" segs +:+ "/" +:+ join "/" (m :: more))). f_equal.
    clear -Hne. induction segs as [|s [|t segs] IH]; [done|done|].
    change (join "/" (s :: t :: segs)) with (s +:+ "/" +:+ join "/" (t :: segs)).
    change (join "/" ((s :: t :: segs) ++ m :: more)) with (s +:+ "/" +:+ join "/" ((t :: segs) ++ m :: more)).
    rewrite <- IH by done. by rewrite !string_app_assoc. }
  unfold Clean. rewrite decide_False by done. cbn [isRooted]. replace (Ascii.eqb slash slash) with true by done.
  change (String slash (join "/" (segs ++ more))) with ("" +:+ String slash (join "/" (segs ++ more))).
  assert (Forall (λ s, s = "" ∨ proper s) (segs ++ more)) as Hall.
  { apply Forall_app. split; [|done]. eapply Forall_impl; [exact Hsegs|]. by right. }
  rewrite split_all_app by done. rewrite (split_all_join slash).
  - cbn [foldl]. unfold clean_step at 2. rewrite decide_True by auto. rewrite clean_proper by done.
    rewrite app_nil_r, reverse_involutive. unfold absPath. do 2 f_equal. rewrite filter_app. f_equal.
    apply filter_nonempty. eapply Forall_impl; [exact Hsegs|]. by intros s [? _].
  - by destruct segs.
  - eapply Forall_impl; [exact Hall|]. by intros s [->|(_ & _ & _ & ?)].
Qed.

Lemma validSegment_proper s : validSegment s = true → s ≠ "" → proper s.
Proof.
  unfold validSegment. rewrite !andb_true_iff, !negb_true_iff. intros (((H1 & H2) & H3) & _) Hne.
  apply bool_decide_eq_false in H1, H2. done.
Qed.

Definition nonempty (segs : list string) : list string := filter (λ s, s ≠ "") segs.

(** The path of a request whose parts are path elements. *)
Lemma URL_path_spec {B} (r : Request B) prefix :
  rq_pathPrefix r = absPath prefix → prefix ≠ [] → Forall proper prefix →
  proper (ToLower (rq_resource r)) →
  Forall (λ s, s = "" ∨ proper s) [rq_namespace r; rq_resourceName r; rq_subresource r] →
  URL_path r = absPath (prefix ++
    (if rq_namespaceSet r && negb (bool_decide (rq_namespace r = "")) then ["namespaces"; rq_namespace r] else []) ++
    ToLower (rq_resource r) :: nonempty [rq_resourceName r; rq_subresource r]).
Proof.
  intros Hp Hne Hprop Hres [Hns [Hname [Hsub _]%Forall_cons]%Forall_cons]%Forall_cons. unfold URL_path. rewrite Hp.
  assert ((if rq_namespaceSet r && negb (bool_decide (rq_namespace r = ""))
           then path_Join [absPath prefix; "namespaces"; rq_namespace r] else absPath prefix)
          = absPath (prefix ++ (if rq_namespaceSet r && negb (bool_decide (rq_namespace r = ""))
              then ["namespaces"; rq_namespace r] else [])) ∧
          Forall proper (prefix ++ (if rq_namespaceSet r && negb (bool_decide (rq_namespace r = ""))
              then ["namespaces"; rq_namespace r] else []))) as [-> Hpre].
  { destruct (rq_namespaceSet r); simpl; [|by rewrite app_nil_r].
    case_bool_decide as Hn; simpl; [by rewrite app_nil_r|]. destruct Hns as [|Hns]; [done|]. split.
    - rewrite path_Join_abs; [|done..|].
      + f_equal. f_equal. apply filter_nonempty. by repeat constructor.
      + constructor; [right|by constructor; [right|constructor]]. by repeat split.
    - apply Forall_app. split; [done|]. constructor; [|by constructor]. by repeat split. }
  assert (rq_resource r ≠ "") as Hrne. { intros Heq. rewrite Heq in Hres. by destruct Hres. }
  rewrite (bool_decide_eq_false_2 _ Hrne). cbn [negb].
  set (pre2 := prefix ++ _) in Hpre |- *. assert (pre2 ≠ []) as Hne2. { subst pre2. by destruct prefix. }
  rewrite path_Join_abs; [|done..|by constructor; [right|constructor]].
  replace (filter _ [ToLower (rq_resource r)]) with [ToLower (rq_resource r)] by (symmetry; apply filter_nonempty; repeat constructor; apply Hres).
  replace (prefix ++ _) with ((pre2 ++ [ToLower (rq_resource r)]) ++ nonempty [rq_resourceName r; rq_subresource r])
    by (subst pre2; by rewrite <- !(assoc_L (++))).
  case_bool_decide as Hn; cbn [negb orb]; [case_bool_decide as Hs; cbn [negb]|].
  - by rewrite Hn, Hs, app_nil_r.
  - rewrite Hn, path_Join_abs; [|by destruct pre2|by apply Forall_app; split; [|constructor]|].
    + unfold nonempty. rewrite !filter_cons, !(decide_False (P:= "" ≠ "")) by auto. done.
    + rewrite !Forall_cons. split_and!; auto.
  - rewrite path_Join_abs; [|by destruct pre2|by apply Forall_app; split; [|constructor]|].
    + unfold nonempty. rewrite !filter_cons, (decide_False (P:= "" ≠ "")) by auto. done.
    + rewrite !Forall_cons. split_and!; auto.
Qed.

(** ** The clients of a configuration *)

(** The elements of the path of the group version. *)
Definition apiSegs : list string := ["apis"; GroupName; "v1alpha1"].

(** A client of the group version, without a path of its own. *)
Definition onNavigator (c : RESTClient) : Prop :=
  path_Join [path_Join ["/"; rc_basePath c]; rc_versionedAPIPath c] = absPath apiSegs.

(** A host without a path gives such a client; the internal client is one when
    its registry announces v1alpha1 and no other version of the group is asked for. *)
Lemma NewForConfig_onNavigator hostPath registryGroup ua c host base :
  host = (if bool_decide (cf_Host c = "") then "localhost" else cf_Host c) →
  hostPath host = inr base → base = "" ∨ base = "/" →
  (∃ cl, versioned_NewForConfig hostPath ua c = inr cl ∧ onNavigator cl) ∧
  (registryGroup GroupName = inr SchemeGroupVersion →
   (∀ gv, cf_GroupVersion c = Some gv → gv_Group gv = GroupName → gv = SchemeGroupVersion) →
   ∃ cl, internal_NewForConfig hostPath registryGroup ua c = inr cl ∧ onNavigator cl).
Proof.
  intros -> Hhost Hbase. split.
  - unfold versioned_NewForConfig, versioned_setConfigDefaults, RESTClientFor. simpl. rewrite Hhost.
    eexists. split; [done|]. destruct Hbase as [->| ->]; vm_compute; reflexivity.
  - intros Hreg Hgv. unfold internal_NewForConfig, internal_setConfigDefaults. rewrite Hreg.
    assert (match cf_GroupVersion c with
            | Some gv => if bool_decide (gv_Group gv = gv_Group SchemeGroupVersion) then Some gv else Some SchemeGroupVersion
            | None => Some SchemeGroupVersion
            end = Some SchemeGroupVersion) as ->.
    { destruct (cf_GroupVersion c) as [gv|]; [|reflexivity]. destruct (bool_decide (gv_Group gv = _)) eqn:Hg; [|reflexivity]. apply bool_decide_eq_true in Hg. f_equal. exact (Hgv gv eq_refl Hg). }
    unfold RESTClientFor. simpl. rewrite Hhost. eexists. split; [done|].
    destruct Hbase as [->| ->]; vm_compute; reflexivity.
Qed.
