(* ===== verification/Scheme.v ===== *)
(** * Schemes

    What the processes register at start-up: register.go of pkg/apis/navigator and of
    v1alpha1, install.go, the scheme packages of the client sets and init of
    pkg/apiserver, over the scheme of vendor/k8s.io/apimachinery/pkg/runtime and the
    registry of announced groups.  A Go type is its package and its name. *)

From S2P Require Import Prelude GoStrings K8s Types Internal RestClient.

Abbreviation GVK := (string * string * string)%type.
Abbreviation GoType := (string * string)%type.

(** ** runtime.Scheme *)

(** The functions for field labels, of which Navigator adds none, are left out, and so are the
    conversions of the library's own types that every scheme starts with. *)
Record Scheme := mkScheme {
  sc_gvkToType : gmap GVK GoType;
  sc_typeToGVK : gmap GoType (list GVK);
  sc_unversionedTypes : gmap GoType GVK;
  sc_unversionedKinds : gmap string GoType;
  sc_defaulterFuncs : gset GoType;
  (** the pairs of Navigator's types that the converter has a function for *)
  sc_conversions : gset (GoType * GoType);
}.

Definition NewScheme : Scheme := mkScheme ∅ ∅ ∅ ∅ ∅ ∅.

Definition gvkOf (gv : GroupVersion) (kind : string) : GVK := (gv_Group gv, gv_Version gv, kind).

Definition AddKnownTypeWithName (gvk : GVK) (t : GoType) (s : Scheme) : outcome Scheme :=
  if bool_decide (gvk.1.2 = "") then Panic "version is required on all types"
  else
    match sc_gvkToType s !! gvk with
    | Some oldT =>
        if bool_decide (oldT ≠ t) then Panic "Double registration of different types"
        else Ret s
    | None => Ret s
    end ≫= λ s,
    let kinds := default [] (sc_typeToGVK s !! t) in
    Ret (mkScheme (<[gvk := t]> (sc_gvkToType s))
           (if bool_decide (gvk ∈ kinds) then sc_typeToGVK s else <[t := kinds ++ [gvk]]> (sc_typeToGVK s))
           (sc_unversionedTypes s) (sc_unversionedKinds s) (sc_defaulterFuncs s) (sc_conversions s)).

Fixpoint AddKnownTypes (gv : GroupVersion) (types : list GoType) (s : Scheme) : outcome Scheme :=
  match types with
  | [] => Ret s
  | t :: types => AddKnownTypeWithName (gvkOf gv t.2) t s ≫= AddKnownTypes gv types
  end.

Definition addUnversioned (version : GroupVersion) (t : GoType) (s : Scheme) : outcome Scheme :=
  let gvk := gvkOf version t.2 in
  if match sc_unversionedKinds s !! t.2 with Some old => bool_decide (t ≠ old) | None => false end
  then Panic "has already been registered as unversioned kind"
  else Ret (mkScheme (sc_gvkToType s) (sc_typeToGVK s) (<[t := gvk]> (sc_unversionedTypes s)) (<[t.2 := t]> (sc_unversionedKinds s))
              (sc_defaulterFuncs s) (sc_conversions s)).

Fixpoint addAllUnversioned (version : GroupVersion) (types : list GoType) (s : Scheme) : outcome Scheme :=
  match types with
  | [] => Ret s
  | t :: types => addUnversioned version t s ≫= addAllUnversioned version types
  end.

Definition AddUnversionedTypes (version : GroupVersion) (types : list GoType) (s : Scheme) : outcome Scheme :=
  AddKnownTypes version types s ≫= addAllUnversioned version types.

Definition addDefaulters (types : list GoType) (s : Scheme) : Scheme :=
  mkScheme (sc_gvkToType s) (sc_typeToGVK s) (sc_unversionedTypes s) (sc_unversionedKinds s)
    (list_to_set types ∪ sc_defaulterFuncs s) (sc_conversions s).

Definition addConversions (pairs : list (GoType * GoType)) (s : Scheme) : Scheme :=
  mkScheme (sc_gvkToType s) (sc_typeToGVK s) (sc_unversionedTypes s) (sc_unversionedKinds s)
    (sc_defaulterFuncs s) (list_to_set pairs ∪ sc_conversions s).

(** New: the type of an object of some kind *)
Definition Scheme_New (kind : GVK) (s : Scheme) : option GoType :=
  match sc_gvkToType s !! kind with
  | Some t => Some t
  | None => sc_unversionedKinds s !! kind.2
  end.

(** ** metav1.AddToGroupVersion *)

Definition metaType (name : string) : GoType := ("meta/v1", name).
Definition unversionedTypes : list GoType := metaType <$> ["Status"; "APIVersions"; "APIGroupList"; "APIGroup"; "APIResourceList"].

(** It also adds conversions and defaults, of its own types alone. *)
Definition AddToGroupVersion (gv : GroupVersion) (s : Scheme) : outcome Scheme :=
  s ← AddKnownTypeWithName (gvkOf gv "WatchEvent") (metaType "WatchEvent") s;
  s ← AddKnownTypeWithName (gv_Group gv, "__internal", "WatchEvent") (metaType "InternalEvent") s;
  s ← AddKnownTypes gv (metaType <$> ["ListOptions"; "ExportOptions"; "GetOptions"; "DeleteOptions"]) s;
  AddUnversionedTypes (mkGroupVersion "" "v1") unversionedTypes s.

(** ** The types of Navigator *)

Definition kinds : list string :=
  ["CassandraCluster"; "CassandraClusterList"; "ElasticsearchCluster"; "ElasticsearchClusterList"; "Pilot"; "PilotList"].

Definition internalType (name : string) : GoType := ("navigator", name).
Definition versionedType (name : string) : GoType := ("navigator/v1alpha1", name).

Definition InternalGroupVersion : GroupVersion := mkGroupVersion GroupName "__internal".

Definition navigator_addKnownTypes (s : Scheme) : outcome Scheme := AddKnownTypes InternalGroupVersion (internalType <$> kinds) s.

Definition v1alpha1_addKnownTypes (s : Scheme) : outcome Scheme :=
  s ← AddKnownTypes SchemeGroupVersion (versionedType <$> kinds) s;
  AddToGroupVersion SchemeGroupVersion s.

Definition RegisterDefaults (s : Scheme) : Scheme :=
  addDefaulters (versionedType <$> ["CassandraCluster"; "CassandraClusterList"; "ElasticsearchCluster"; "ElasticsearchClusterList"]) s.

(** Every conversion has its inverse beside it. *)
Definition convertedTypes : list string :=
  ["CassandraCluster"; "CassandraClusterList"; "CassandraClusterNodePool"; "CassandraClusterNodePoolStatus"; "CassandraClusterSpec";
   "CassandraClusterStatus"; "CassandraPilotStatus"; "ClusterCondition"; "ElasticsearchCluster"; "ElasticsearchClusterList";
   "ElasticsearchClusterNodePool"; "ElasticsearchClusterNodePoolStatus"; "ElasticsearchClusterSpec"; "ElasticsearchClusterStatus";
   "ElasticsearchPilotStatus"; "ImageSpec"; "NavigatorClusterConfig"; "NavigatorClusterStatus"; "NavigatorSecurityContext";
   "PersistenceConfig"; "Pilot"; "PilotCondition"; "PilotList"; "PilotSpec"; "PilotStatus"].

Definition RegisterConversions (s : Scheme) : Scheme :=
  addConversions (convertedTypes ≫= λ n, [(versionedType n, internalType n); (internalType n, versionedType n)]) s.

(** AddToScheme of v1alpha1: the functions of its builder *)
Definition v1alpha1_AddToScheme (s : Scheme) : outcome Scheme :=
  s ← v1alpha1_addKnownTypes s;
  Ret (RegisterConversions (RegisterDefaults s)).

Definition navigator_AddToScheme : Scheme → outcome Scheme := navigator_addKnownTypes.

(** ** The registry of groups *)

(** The registration manager with the set of announced groups: which versions it allows, and
    the preferred version of every group that is enabled.  It also notes the versions themselves,
    which Enable registers just before it asks for them. *)
Record Registry := mkRegistry {
  rg_allowed : GroupVersion → bool;
  rg_groups : gmap string GroupVersion;
  rg_announced : gset string;
}.

(** Install: Announce, Register and Enable of a group with one version.  A version
    that the environment does not allow leaves the scheme as it is. *)
Definition Install (r : Registry) (s : Scheme) : outcome (Registry * Scheme) :=
  if bool_decide (GroupName ∈ rg_announced r) then Panic "the group has already been announced."
  else
    let r := mkRegistry (rg_allowed r) (rg_groups r) ({[GroupName]} ∪ rg_announced r) in
    if negb (rg_allowed r SchemeGroupVersion) then Ret (r, s)
    else
      s ← v1alpha1_AddToScheme s;
      s ← navigator_AddToScheme s;
      match rg_groups r !! GroupName with
      | Some _ => Panic "group is already registered in groupsMap"
      | None => Ret (mkRegistry (rg_allowed r) (<[GroupName := SchemeGroupVersion]> (rg_groups r)) (rg_announced r), s)
      end.

Definition Registry_Group (r : Registry) (group : string) : Res GroupVersion :=
  match rg_groups r !! group with
  | Some gv => inr gv
  | None => inl (Errorf "group %v has not been registered" [AStr group])
  end.

(** NewOrDie with the versions of the environment *)
Definition NewRegistry (envRequestedVersions : list GroupVersion) : Registry :=
  mkRegistry (λ v, bool_decide (envRequestedVersions = []) || bool_decide (v ∈ envRequestedVersions)) ∅ ∅.

(** ** The schemes of the processes *)

Definition emptyV1 : GroupVersion := mkGroupVersion "" "v1".

(** pkg/client/clientset/versioned/scheme *)
Definition versionedScheme : outcome Scheme := AddToGroupVersion emptyV1 NewScheme ≫= v1alpha1_AddToScheme.

(** pkg/client/clientset/versioned/fake does as the scheme package *)
Definition versionedFakeScheme : outcome Scheme := AddToGroupVersion emptyV1 NewScheme ≫= v1alpha1_AddToScheme.

(** pkg/client/clientset/internalversion/fake: no version is installed *)
Definition internalFakeScheme : outcome Scheme := AddToGroupVersion emptyV1 NewScheme ≫= navigator_AddToScheme.

(** pkg/client/clientset/internalversion/scheme *)
Definition internalScheme (envRequestedVersions : list GroupVersion) : outcome (Registry * Scheme) :=
  AddToGroupVersion emptyV1 NewScheme ≫= Install (NewRegistry envRequestedVersions).

(** init of pkg/apiserver *)
Definition serverScheme : outcome (Registry * Scheme) :=
  rs ← Install (NewRegistry []) NewScheme;
  let '(r, s) := rs in
  s ← AddToGroupVersion emptyV1 s;
  s ← AddUnversionedTypes emptyV1 unversionedTypes s;
  Ret (r, s).

(** init of pkg/api, with the same statements on variables of its own *)
Definition apiScheme : outcome (Registry * Scheme) :=
  rs ← Install (NewRegistry []) NewScheme;
  let '(r, s) := rs in
  s ← AddToGroupVersion emptyV1 s;
  s ← AddUnversionedTypes emptyV1 unversionedTypes s;
  Ret (r, s).

(** ** Kinds and types *)

(** The two maps of a scheme agree. *)
Definition wfScheme (s : Scheme) : Prop := ∀ gvk t, sc_gvkToType s !! gvk = Some t ↔ gvk ∈ default [] (sc_typeToGVK s !! t).

(** A scheme that knows more, and everything as before. *)
Definition extends (s s' : Scheme) : Prop :=
  sc_gvkToType s ⊆ sc_gvkToType s' ∧ sc_unversionedKinds s ⊆ sc_unversionedKinds s' ∧
  sc_defaulterFuncs s ⊆ sc_defaulterFuncs s' ∧ sc_conversions s ⊆ sc_conversions s'.

#[export] Instance extends_preorder : PreOrder extends.
Proof.
  split; [intros s; unfold extends; by split_and!|]. intros s1 s2 s3 (H1 & H2 & H3 & H4) (H1' & H2' & H3' & H4'). unfold extends. split_and!; by etrans.
Qed.

Lemma AddKnownTypeWithName_spec gvk t s s' :
  wfScheme s → AddKnownTypeWithName gvk t s = Ret s' → wfScheme s' ∧ extends s s' ∧ sc_gvkToType s' !! gvk = Some t.
Proof.
  intros Hwf. unfold AddKnownTypeWithName. case_bool_decide; [done|].
  assert ((sc_gvkToType s !! gvk = None ∨ sc_gvkToType s !! gvk = Some t) ∨
    ∃ old, sc_gvkToType s !! gvk = Some old ∧ old ≠ t) as [Hg|(old & -> & Hne)].
  { destruct (sc_gvkToType s !! gvk) as [old|]; [|auto]. destruct (decide (old = t)) as [->|]; eauto. }
  2: { by rewrite bool_decide_eq_true_2. }
  assert (match sc_gvkToType s !! gvk with
          | Some oldT => if bool_decide (oldT ≠ t) then Panic "Double registration of different types" else Ret s
          | None => Ret s
          end = Ret s) as ->.
  { destruct Hg as [->| ->]; [done|]. rewrite bool_decide_eq_false_2; [done|]. by intros []. }
  simpl. intros [= <-]. unfold extends. split_and!; simpl; [| |done|done|done|by rewrite lookup_insert_eq].
  - unfold wfScheme in Hwf. intros gvk' t'. simpl. rewrite lookup_insert_Some, Hwf. case_bool_decide as Hin.
    + split; [|destruct (decide (gvk = gvk')) as [<-|]; [|auto]].
      * intros [[<- <-]|[_ ?]]; done.
      * intros Hin'%Hwf. apply Hwf in Hin. left. split; [done|]. congruence.
    + destruct (decide (t = t')) as [<-|Hne].
      * rewrite lookup_insert_eq. simpl. rewrite elem_of_app, list_elem_of_singleton.
        clear Hwf Hg. destruct (decide (gvk = gvk')) as [<-|Hne]; [split; auto|].
        split; [intros [[? _]|[_ ?]]; [done|by left]|]. intros [?|?]; [by right|congruence].
      * rewrite lookup_insert_ne by done. split; [intros [[_ ?]|[_ ?]]; done|]. intros Hin'. right. split; [|done]. intros <-.
        apply Hwf in Hin'. destruct Hg as [Hg|Hg]; congruence.
  - apply map_subseteq_spec. intros gvk' t' Hl. destruct (decide (gvk = gvk')) as [<-|]; [|by rewrite lookup_insert_ne].
    rewrite lookup_insert_eq. destruct Hg; congruence.
Qed.

Lemma AddKnownTypes_spec gv types s s' :
  wfScheme s → AddKnownTypes gv types s = Ret s' →
  wfScheme s' ∧ extends s s' ∧ Forall (λ t, sc_gvkToType s' !! gvkOf gv t.2 = Some t) types.
Proof.
  revert s. induction types as [|t types IH]; intros s Hwf; simpl; [intros [= <-]; by split_and!|].
  destruct (AddKnownTypeWithName _ _ _) as [s1|] eqn:H1; [|done]. simpl. intros H2.
  apply AddKnownTypeWithName_spec in H1 as (Hwf1 & He1 & Hk1); [|done]. apply IH in H2 as (Hwf2 & He2 & Hk2); [|done].
  split_and!; [done|by etrans|]. constructor; [|done]. destruct He2 as [Hsub _]. by eapply lookup_weaken.
Qed.

Lemma addAllUnversioned_spec gv types s s' : wfScheme s → addAllUnversioned gv types s = Ret s' → wfScheme s' ∧ extends s s'.
Proof.
  revert s. induction types as [|t types IH]; intros s Hwf; simpl; [intros [= <-]; done|]. unfold addUnversioned.
  destruct (match sc_unversionedKinds s !! t.2 with Some old => _ | None => _ end) eqn:Hold; [done|]. simpl.
  intros H2. apply IH in H2 as [Hwf2 He2]; [|done]. split; [done|]. etrans; [|exact He2]. unfold extends. split_and!; simpl; [done| |done..].
  apply map_subseteq_spec. intros k t' Hk. destruct (decide (t.2 = k)) as [<-|]; [|by rewrite lookup_insert_ne].
  rewrite lookup_insert_eq. rewrite Hk in Hold. apply bool_decide_eq_false in Hold. f_equal. by apply dec_stable.
Qed.

Lemma AddToGroupVersion_spec gv s s' : wfScheme s → AddToGroupVersion gv s = Ret s' → wfScheme s' ∧ extends s s'.
Proof.
  unfold AddToGroupVersion, AddUnversionedTypes. intros Hwf H.
  destruct (AddKnownTypeWithName (gvkOf gv _) _ s) as [s1|] eqn:H1; [|done]. cbn [mbind outcome_bind] in H.
  destruct (AddKnownTypeWithName _ _ s1) as [s2|] eqn:H2; [|done]. cbn [mbind outcome_bind] in H.
  destruct (AddKnownTypes gv _ s2) as [s3|] eqn:H3; [|done]. cbn [mbind outcome_bind] in H.
  destruct (AddKnownTypes _ _ s3) as [s4|] eqn:H4; [|done]. cbn [mbind outcome_bind] in H.
  apply AddKnownTypeWithName_spec in H1 as (Hw1 & He1 & _); [|done]. apply AddKnownTypeWithName_spec in H2 as (Hw2 & He2 & _); [|done].
  apply AddKnownTypes_spec in H3 as (Hw3 & He3 & _); [|done]. apply AddKnownTypes_spec in H4 as (Hw4 & He4 & _); [|done].
  apply addAllUnversioned_spec in H as [Hw He]; [|done]. split; [done|]. by repeat (etrans; [eassumption|]).
Qed.

(** The types of Navigator are added to any scheme, as the controllers and the pilots do with the
    scheme of Kubernetes: unless the registration panics because of a kind that belongs to
    another type already, the scheme knows what it knew, and the versioned types. *)
Lemma v1alpha1_AddToScheme_spec s s' :
  wfScheme s → v1alpha1_AddToScheme s = Ret s' →
  wfScheme s' ∧ extends s s' ∧ Forall (λ k, sc_gvkToType s' !! gvkOf SchemeGroupVersion k = Some (versionedType k)) kinds.
Proof.
  unfold v1alpha1_AddToScheme, v1alpha1_addKnownTypes. intros Hwf H.
  destruct (AddKnownTypes SchemeGroupVersion _ s) as [s1|] eqn:H1; [|done]. cbn [mbind outcome_bind] in H.
  destruct (AddToGroupVersion _ s1) as [s2|] eqn:H2; [|done]. cbn [mbind outcome_bind] in H. injection H as <-.
  apply AddKnownTypes_spec in H1 as (Hw1 & He1 & Hk1); [|done]. apply AddToGroupVersion_spec in H2 as [Hw2 He2]; [|done].
  split_and!; [done| |].
  - etrans; [exact He1|]. etrans; [exact He2|]. unfold extends. split_and!; simpl; [done|done|apply union_subseteq_r..].
  - apply Forall_fmap in Hk1. eapply Forall_impl; [exact Hk1|]. intros k Hk. simpl. destruct He2 as [Hsub _]. by eapply lookup_weaken.
Qed.

(** ** The schemes *)

(** A scheme that holds both versions *)
Definition bothVersions (s : Scheme) : Prop :=
  Forall (λ k,
    Scheme_New (gvkOf SchemeGroupVersion k) s = Some (versionedType k) ∧ Scheme_New (gvkOf InternalGroupVersion k) s = Some (internalType k) ∧
    sc_typeToGVK s !! versionedType k = Some [gvkOf SchemeGroupVersion k] ∧
    sc_typeToGVK s !! internalType k = Some [gvkOf InternalGroupVersion k] ∧
    (versionedType k, internalType k) ∈ sc_conversions s ∧ (internalType k, versionedType k) ∈ sc_conversions s) kinds.
#[export] Instance bothVersions_dec s : Decision (bothVersions s).
Proof. apply _. Defined.

Lemma NewScheme_wf : wfScheme NewScheme.
Proof. intros gvk t. simpl. rewrite !lookup_empty. simpl. split; [done|]. by intros ?%not_elem_of_nil. Qed.

Lemma Install_wf r s r' s' : wfScheme s → Install r s = Ret (r', s') → wfScheme s'.
Proof.
  unfold Install, navigator_AddToScheme, navigator_addKnownTypes. intros Hwf H. case_bool_decide; [done|]. cbn [rg_allowed rg_groups rg_announced] in H.
  destruct (negb _); [by injection H as <- <-|].
  destruct (v1alpha1_AddToScheme s) as [s1|] eqn:H1; [|done]. cbn [mbind outcome_bind] in H.
  destruct (AddKnownTypes _ _ s1) as [s2|] eqn:H2; [|done]. cbn [mbind outcome_bind] in H.
  apply v1alpha1_AddToScheme_spec in H1 as [Hw1 _]; [|done]. apply AddKnownTypes_spec in H2 as [Hw2 _]; [|done].
  destruct (rg_groups r !! _); [done|]. by injection H as <- <-.
Qed.

Lemma versionedScheme_wf s : versionedScheme = Ret s → wfScheme s.
Proof.
  unfold versionedScheme. intros H. destruct (AddToGroupVersion emptyV1 NewScheme) as [s1|] eqn:H1; [|done]. cbn [mbind outcome_bind] in H.
  apply AddToGroupVersion_spec in H1 as [Hw _]; [|exact NewScheme_wf]. by apply v1alpha1_AddToScheme_spec in H as [? _].
Qed.

Lemma internalScheme_wf env r s : internalScheme env = Ret (r, s) → wfScheme s.
Proof.
  unfold internalScheme. intros H. destruct (AddToGroupVersion emptyV1 NewScheme) as [s1|] eqn:H1; [|done]. cbn [mbind outcome_bind] in H.
  apply AddToGroupVersion_spec in H1 as [Hw _]; [|exact NewScheme_wf]. by eapply Install_wf.
Qed.

Lemma serverScheme_wf r s : serverScheme = Ret (r, s) → wfScheme s.
Proof.
  unfold serverScheme, AddUnversionedTypes. intros H. destruct (Install _ NewScheme) as [[r1 s1]|] eqn:H1; [|done]. cbn [mbind outcome_bind] in H.
  destruct (AddToGroupVersion emptyV1 s1) as [s2|] eqn:H2; [|done]. cbn [mbind outcome_bind] in H.
  destruct (AddKnownTypes _ _ s2) as [s3|] eqn:H3; [|done]. cbn [mbind outcome_bind] in H.
  destruct (addAllUnversioned _ _ s3) as [s4|] eqn:H4; [|done]. cbn [mbind outcome_bind] in H. injection H as <- <-.
  apply Install_wf in H1; [|exact NewScheme_wf]. apply AddToGroupVersion_spec in H2 as [? _]; [|done].
  apply AddKnownTypes_spec in H3 as [? _]; [|done]. by apply addAllUnversioned_spec in H4 as [? _].
Qed.

(** A run without input, and a decidable property of what it returns *)
Lemma outcome_run {X} (o : outcome X) (P : X → Prop) `{!∀ x, Decision (P x)} :
  match o with Ret x => bool_decide (P x) | Panic _ => false end = true → ∃ x, o = Ret x ∧ P x.
Proof. destruct o as [x|]; [|done]. intros Hrun%bool_decide_eq_true. eauto. Qed.

(** No registration at start-up panics.  The schemes of the server and of the internal client
    set know every kind in both versions, under one name each and with the conversions between
    them, and defaults for the clusters; the scheme of the versioned client set knows the
    versioned types and no internal ones, and that of the internal fake the internal types
    alone.  Where the environment does not allow the
    version, the internal client set has no group and its clients cannot be made. *)
Theorem schemes_know_their_kinds :
  (∃ r s, serverScheme = Ret (r, s) ∧ wfScheme s ∧ bothVersions s ∧ Registry_Group r GroupName = inr SchemeGroupVersion) ∧
  (∃ r s, internalScheme [] = Ret (r, s) ∧ wfScheme s ∧ bothVersions s ∧ Registry_Group r GroupName = inr SchemeGroupVersion) ∧
  (∃ s, versionedScheme = Ret s ∧ wfScheme s ∧
     Forall (λ k, Scheme_New (gvkOf SchemeGroupVersion k) s = Some (versionedType k) ∧ Scheme_New (gvkOf InternalGroupVersion k) s = None) kinds ∧
     sc_defaulterFuncs s = list_to_set (versionedType <$> take 4 kinds)) ∧
  (∃ s, internalFakeScheme = Ret s ∧
     Forall (λ k, Scheme_New (gvkOf InternalGroupVersion k) s = Some (internalType k) ∧ Scheme_New (gvkOf SchemeGroupVersion k) s = None) kinds) ∧
  apiScheme = serverScheme ∧ versionedFakeScheme = versionedScheme ∧
  (∀ env hostPath ua c, env ≠ [] → SchemeGroupVersion ∉ env →
     ∃ r s err, internalScheme env = Ret (r, s) ∧ internal_NewForConfig hostPath (Registry_Group r) ua c = inl err).
Proof.
  split_and!.
  - destruct (outcome_run serverScheme (λ rs, bothVersions rs.2 ∧ rg_groups rs.1 !! GroupName = Some SchemeGroupVersion))
      as ([r s] & Hs & Hb & Hg); [vm_compute; reflexivity|]. exists r, s. unfold Registry_Group. simpl in Hg. rewrite Hg. eauto using serverScheme_wf.
  - destruct (outcome_run (internalScheme []) (λ rs, bothVersions rs.2 ∧ rg_groups rs.1 !! GroupName = Some SchemeGroupVersion))
      as ([r s] & Hs & Hb & Hg); [vm_compute; reflexivity|]. exists r, s. unfold Registry_Group. simpl in Hg. rewrite Hg. eauto using internalScheme_wf.
  - destruct (outcome_run versionedScheme (λ s,
      Forall (λ k, Scheme_New (gvkOf SchemeGroupVersion k) s = Some (versionedType k) ∧ Scheme_New (gvkOf InternalGroupVersion k) s = None) kinds ∧
      sc_defaulterFuncs s = list_to_set (versionedType <$> take 4 kinds)))
      as (s & Hs & Hk & Hd); [vm_compute; reflexivity|]. exists s. eauto using versionedScheme_wf.
  - apply (outcome_run internalFakeScheme (λ s,
      Forall (λ k, Scheme_New (gvkOf InternalGroupVersion k) s = Some (internalType k) ∧ Scheme_New (gvkOf SchemeGroupVersion k) s = None) kinds)).
    vm_compute. reflexivity.
  - reflexivity.
  - reflexivity.
  - intros env hostPath ua c Hne Hnot. destruct (outcome_run (AddToGroupVersion emptyV1 NewScheme) (λ _, True)) as (s & Hs & _); [vm_compute; reflexivity|].
    unfold internalScheme. rewrite Hs. cbn [mbind outcome_bind]. unfold Install. simpl.
    rewrite (bool_decide_eq_false_2 (env = [])), (bool_decide_eq_false_2 (SchemeGroupVersion ∈ env)) by done. simpl.
    eexists _, _, _. split; [done|]. reflexivity.
Qed.
