(* ===== verification/APIRoutes.v ===== *)
(** * From a request to its handler

    pkg/apiserver/apiserver.go: the storage map of the Navigator API server;
    the vendored installer that registers routes for it
    (k8s.io/apiserver/pkg/endpoints/installer.go), the router that selects one
    (emicklei/go-restful, curly.go and jsr311.go), and the RequestInfo that
    authorisation, admission and naming read
    (k8s.io/apiserver/pkg/endpoints/request/requestinfo.go). *)

From S2P Require Import Prelude GoStrings K8s Internal Types RestClient.
From Stdlib Require Import Ascii.

(** ** Paths *)

Fixpoint TrimLeft (d : ascii) (s : string) : string :=
  match s with
  | EmptyString => ""
  | String c s' => if bool_decide (c = d) then TrimLeft d s' else s
  end.

Fixpoint TrimRight (d : ascii) (s : string) : string :=
  match s with
  | EmptyString => ""
  | String c s' =>
      let t := TrimRight d s' in
      if bool_decide (t = "") && bool_decide (c = d) then "" else String c t
  end.

(** strings.Trim with a cutset of one character *)
Definition Trim (d : ascii) (s : string) : string := TrimRight d (TrimLeft d s).

Definition splitPath (path : string) : list string :=
  let path := Trim slash path in
  if bool_decide (path = "") then [] else split_all slash path.

(** tokenizePath of go-restful *)
Definition tokenizePath (path : string) : list string :=
  if bool_decide (path = "/") then [] else split_all slash (Trim slash path).

(** ** RequestInfo *)

Record RequestInfo := mkRequestInfo {
  ri_IsResourceRequest : bool;
  ri_Path : string;
  ri_Verb : string;
  ri_APIPrefix : string;
  ri_APIGroup : string;
  ri_APIVersion : string;
  ri_Namespace : string;
  ri_Resource : string;
  ri_Subresource : string;
  ri_Name : string;
  ri_Parts : list string;
}.

Definition specialVerbs : list string := ["proxy"; "watch"].
Definition specialVerbsNoSubresources : list string := ["proxy"].
Definition namespaceSubresources : list string := ["status"; "finalize"].
Definition has (set : list string) (s : string) : bool := bool_decide (s ∈ set).

(** server.NewRequestInfoResolver: both prefixes, the legacy one without groups. *)
Definition APIPrefixes : list string := ["apis"; "api"].
Definition GrouplessAPIPrefixes : list string := ["api"].

Definition methodVerb (method : string) : string :=
  if bool_decide (method = "POST") then "create"
  else if bool_decide (method = "GET") || bool_decide (method = "HEAD") then "get"
  else if bool_decide (method = "PUT") then "update"
  else if bool_decide (method = "PATCH") then "patch"
  else if bool_decide (method = "DELETE") then "delete"
  else "".

Definition nonResource (method path prefix group : string) : RequestInfo :=
  mkRequestInfo false path (ToLower method) prefix group "" "" "" "" "" [].

(** The part of NewRequestInfo after the verb: namespace, resource, name and
    subresource, and the verbs of a request without a name. *)
Definition resourceInfo (path prefix group version verb : string) (query : Values) (currentParts : list string) : RequestInfo :=
  let '(namespace, parts) :=
    match currentParts with
    | first :: ns :: rest =>
        if bool_decide (first = "namespaces") then
          match rest with
          | third :: _ => if has namespaceSubresources third then (ns, currentParts) else (ns, rest)
          | [] => (ns, currentParts)
          end
        else ("", currentParts)
    | _ => ("", currentParts)
    end in
  let subresource :=
    if has specialVerbsNoSubresources verb then "" else match parts with _ :: _ :: s :: _ => s | _ => "" end in
  let name := match parts with _ :: n :: _ => n | _ => "" end in
  let resource := match parts with r :: _ => r | [] => "" end in
  let verb :=
    if bool_decide (name = "") && bool_decide (verb = "get") then
      match query !! "watch" with
      | Some (value :: _) => if has ["false"; "0"] (ToLower value) then "list" else "watch"
      | _ => "list"
      end
    else verb in
  let verb := if bool_decide (name = "") && bool_decide (verb = "delete") then "deletecollection" else verb in
  mkRequestInfo true path verb prefix group version namespace resource subresource name parts.

Definition NewRequestInfo (method path : string) (query : Values) : Res RequestInfo :=
  match splitPath path with
  | (prefix :: _ :: _ :: _) as currentParts =>
      if negb (has APIPrefixes prefix) then inr (nonResource method path "" "")
      else
        let finish (group version : string) (currentParts : list string) :=
          match currentParts with
          | first :: rest =>
              if has specialVerbs first then
                match rest with
                | [] => inl (Errorf "unable to determine kind and namespace from url, %v" [AStr path])
                | _ => inr (resourceInfo path prefix group version first query rest)
                end
              else inr (resourceInfo path prefix group version (methodVerb method) query currentParts)
          | [] => inr (nonResource method path prefix group)
          end in
        if has GrouplessAPIPrefixes prefix then
          match currentParts with
          | _ :: version :: rest => finish "" version rest
          | _ => inr (nonResource method path prefix "")
          end
        else
          match currentParts with
          | _ :: group :: version :: ((_ :: _) as rest) => finish group version rest
          | _ => inr (nonResource method path prefix "")
          end
  | _ => inr (nonResource method path "" "")
  end.

(** ** Routes *)

(** A route registered for an action of a storage. *)
Record Route := mkRoute {
  rt_Method : string;
  rt_Path : string;
  rt_Action : string;
  rt_Resource : string;
  rt_Subresource : string;
  (** [None] is Consumes of every type; a patch names its content types. *)
  rt_Consumes : option (list string);
}.

Definition patchTypes : list string :=
  ["application/json-patch+json"; "application/merge-patch+json"; "application/strategic-merge-patch+json"].

(** The method an action is registered with. *)
Definition actionMethod (verb : string) : string :=
  if has ["GET"; "LIST"; "WATCH"; "WATCHLIST"] verb then "GET"
  else if has ["DELETE"; "DELETECOLLECTION"] verb then "DELETE"
  else verb.

Definition splitSubresource (path : string) : Res (string * string) :=
  match split_all slash path with
  | [resource; subresource] => inr (resource, subresource)
  | [resource] => inr (resource, "")
  | _ => inl (Errorf "api_installer allows only one or two segment paths (resource or resource/subresource)" [])
  end.

(** registerResourceHandlers, for a namespaced resource whose storage embeds a
    generic Store: the Store is a Lister, Creater, CollectionDeleter, Watcher,
    Getter, Updater, Patcher and GracefulDeleter, and neither a Redirector nor
    a Connecter. *)
Definition registerResourceHandlers (prefix path : string) : Res (list Route) :=
  match splitSubresource path with
  | inl err => inl err
  | inr (resource, subresource) =>
      let namespacedPath := "namespaces/{namespace}/" +:+ resource in
      let hasSubresource := negb (bool_decide (subresource = "")) in
      let itemPath := namespacedPath +:+ "/{name}" +:+ (if hasSubresource then "/" +:+ subresource else "") in
      let resourcePath := if hasSubresource then itemPath else namespacedPath in
      let route verb p :=
        mkRoute (actionMethod verb) (prefix +:+ "/" +:+ p) verb resource subresource
          (if bool_decide (verb = "PATCH") then Some patchTypes else None) in
      inr ([ route "LIST" resourcePath;
             route "POST" resourcePath;
             route "DELETECOLLECTION" resourcePath;
             route "WATCHLIST" ("watch/" +:+ resourcePath);
             route "GET" itemPath;
             route "PUT" itemPath;
             route "PATCH" itemPath;
             route "DELETE" itemPath;
             route "WATCH" ("watch/" +:+ itemPath) ] ++
           (if hasSubresource then []
            else [ route "LIST" resource; route "WATCHLIST" ("watch/" +:+ resource) ]))
  end.

(** The keys of the storage map of New, in the sorted order of the installer. *)
Definition v1alpha1storage : list string :=
  ["cassandraclusters"; "cassandraclusters/status"; "elasticsearchclusters"; "elasticsearchclusters/status";
   "pilots"; "pilots/status"].

(** path.Join of the group version's root, group and version *)
Definition installPrefix : string := path_Join ["/apis"; gv_Group SchemeGroupVersion; gv_Version SchemeGroupVersion].

Definition routes : list Route :=
  flat_map (λ path, match registerResourceHandlers installPrefix path with inl _ => [] | inr rs => rs end) v1alpha1storage.

(** ** Selection of a route *)

Definition isParameter (routeToken : string) : bool := String.prefix "{" routeToken.

(** matchesRouteByPathTokens; none of the routes above has an expression or a
    wildcard.  The counts of parameters and static elements are returned. *)
Fixpoint matchesTokens (routeTokens requestTokens : list string) : option (nat * nat) :=
  match routeTokens, requestTokens with
  | [], [] => Some (0%nat, 0%nat)
  | routeToken :: routeTokens, requestToken :: requestTokens =>
      if isParameter routeToken then prod_map S id <$> matchesTokens routeTokens requestTokens
      else if bool_decide (requestToken = routeToken) then prod_map id S <$> matchesTokens routeTokens requestTokens
      else None
  | _, _ => None
  end.

Record curlyRoute := mkCurlyRoute { cr_route : Route; cr_paramCount : nat; cr_staticCount : nat }.

(** Less of sortableCurlyRoutes *)
Definition curlyLess (ci cj : curlyRoute) : bool :=
  if (cr_staticCount ci <? cr_staticCount cj)%nat then true
  else if (cr_staticCount cj <? cr_staticCount ci)%nat then false
  else if (cr_paramCount ci <? cr_paramCount cj)%nat then true
  else if (cr_paramCount cj <? cr_paramCount ci)%nat then false
  else String.ltb (rt_Path (cr_route ci)) (rt_Path (cr_route cj)).

(** sort.Sort of sort.Reverse: an insertion sort, which sort.Sort is on so few
    elements, from the greatest to the least. *)
Fixpoint insertRoute (r : curlyRoute) (sorted : list curlyRoute) : list curlyRoute :=
  match sorted with
  | [] => [r]
  | s :: rest => if curlyLess s r then r :: sorted else s :: insertRoute r rest
  end.
Definition sortRoutes (candidates : list curlyRoute) : list curlyRoute :=
  foldl (λ sorted r, insertRoute r sorted) [] candidates.

Definition selectRoutes (rs : list Route) (requestTokens : list string) : list curlyRoute :=
  sortRoutes (omap (λ r,
    (λ '(p, s), mkCurlyRoute r p s) <$> matchesTokens (tokenizePath (rt_Path r)) requestTokens) rs).

Definition matchesContentType (contentType : string) (r : Route) : bool :=
  match rt_Consumes r with
  | None => true
  | Some types => has types contentType
  end.

(** detectRoute, for a client that accepts what the routes produce *)
Definition detectRoute (candidates : list Route) (method contentType : string) : Res Route :=
  match List.filter (λ r, bool_decide (method = rt_Method r)) candidates with
  | [] => inl (Errorf "405: Method Not Allowed" [])
  | methodOk =>
      match List.filter (matchesContentType contentType) methodOk with
      | [] => inl (Errorf "415: Unsupported Media Type" [])
      | r :: _ => inr r
      end
  end.

Definition SelectRoute (method path contentType : string) : Res Route :=
  match selectRoutes routes (tokenizePath path) with
  | [] => inl (Errorf "404: Page Not Found" [])
  | candidates => detectRoute (map cr_route candidates) method contentType
  end.

Example routes_count : length routes = 60%nat.
Proof. vm_compute. reflexivity. Qed.

(** ** Absolute paths *)

Lemma TrimRight_no d s : has_char d s = false → TrimRight d s = s.
Proof.
  induction s as [|c s IH]; [done|]. simpl. rewrite orb_false_iff. intros [Hc Hs]. rewrite (IH Hs).
  by rewrite Hc, andb_false_r.
Qed.

Lemma TrimRight_app d s t : TrimRight d t ≠ "" → TrimRight d (s +:+ t) = s +:+ TrimRight d t.
Proof.
  intros Ht. induction s as [|c s IH]; [done|].
  change (String c s +:+ t) with (String c (s +:+ t)). simpl. rewrite IH.
  case_bool_decide as Hb; [|done]. exfalso. by destruct s.
Qed.

Lemma TrimRight_join segs : segs ≠ [] → Forall proper segs → TrimRight slash (join "/" segs) = join "/" segs.
Proof.
  intros Hne Hp. induction Hp as [|s [|t segs] (Hs & _ & _ & Hslash) Hp IH]; [done|by apply TrimRight_no|].
  change (join "/" (s :: t :: segs)) with (s +:+ "/" +:+ join "/" (t :: segs)).
  assert (join "/" (t :: segs) ≠ "") as Hj.
  { apply Forall_cons in Hp as [(Ht & _) _]. destruct segs; [done|]. by destruct t. }
  specialize (IH ltac:(done)). rewrite TrimRight_app, (TrimRight_app slash "/"), IH; [done|by rewrite IH|].
  by rewrite (TrimRight_app slash "/"); rewrite IH.
Qed.

Lemma Trim_abs segs : segs ≠ [] → Forall proper segs → Trim slash (absPath segs) = join "/" segs.
Proof.
  intros Hne Hp. unfold Trim, absPath. cbn [TrimLeft]. rewrite bool_decide_eq_true_2 by done.
  assert (TrimLeft slash (join "/" segs) = join "/" segs) as ->; [|by apply TrimRight_join].
  destruct segs as [|s segs]; [done|]. apply Forall_cons in Hp as [(Hs & _ & _ & Hsl) _].
  destruct s as [|c s]; [done|]. simpl in Hsl. apply orb_false_iff in Hsl as [Hc _].
  assert (TrimLeft slash (String c s) = String c s) as Htrim by (cbn [TrimLeft]; by rewrite Hc).
  destruct segs; [done|]. cbn [join]. change (String c s +:+ ?x) with (String c (s +:+ x)). cbn [TrimLeft]. by rewrite Hc.
Qed.

Lemma split_join_proper segs : segs ≠ [] → Forall proper segs → split_all slash (join "/" segs) = segs.
Proof. intros Hne Hp. apply split_all_join; [done|]. eapply Forall_impl; [exact Hp|]. by intros s (_ & _ & _ & ?). Qed.

Lemma splitPath_abs segs : segs ≠ [] → Forall proper segs → splitPath (absPath segs) = segs.
Proof.
  intros Hne Hp. unfold splitPath. rewrite Trim_abs by done. rewrite bool_decide_eq_false_2; [by apply split_join_proper|].
  destruct Hp as [|s [|t segs] (Hs & _) _]; [done|done|by destruct s].
Qed.

Lemma tokenizePath_abs segs : segs ≠ [] → Forall proper segs → tokenizePath (absPath segs) = segs.
Proof.
  intros Hne Hp. unfold tokenizePath. rewrite bool_decide_eq_false_2; [rewrite Trim_abs by done; by apply split_join_proper|].
  unfold absPath. intros [= Hj]. destruct Hp as [|s [|t segs] (Hs & _) _]; [done|done|by destruct s].
Qed.

(** ** What a path selects *)

Definition resources : list string := ["pilots"; "elasticsearchclusters"; "cassandraclusters"].

Definition target (ns resource : string) (rest : list string) : list string :=
  apiSegs ++ ["namespaces"; ns; resource] ++ rest.

Lemma target_proper ns resource rest :
  resource ∈ resources → proper ns → Forall proper rest → Forall proper (target ns resource rest).
Proof.
  intros Hr Hns Hrest. unfold target, apiSegs. repeat (apply Forall_cons; split; [by repeat split|]).
  repeat (apply Forall_cons; split); [done| |done].
  unfold resources in Hr. rewrite !elem_of_cons in Hr. by destruct Hr as [->|[->|[->|[]%not_elem_of_nil]]]; repeat split.
Qed.

Definition namedInfo (method ns resource : string) (rest : list string) : RequestInfo :=
  mkRequestInfo true (absPath (target ns resource rest)) (methodVerb method) "apis" GroupName "v1alpha1" ns resource
    (match rest with [_; s] => s | _ => "" end) (match rest with n :: _ => n | [] => "" end) (resource :: rest).

Lemma info_named method ns resource rest query :
  resource ∈ resources → proper ns → rest ≠ [] → Forall proper rest → (length rest ≤ 2)%nat →
  NewRequestInfo method (absPath (target ns resource rest)) query = inr (namedInfo method ns resource rest).
Proof.
  intros Hr Hns Hne Hrest Hlen. unfold NewRequestInfo. rewrite splitPath_abs by (done || by apply target_proper).
  destruct rest as [|name rest]; [done|]. apply Forall_cons in Hrest as [(Hname & _) _].
  unfold target, apiSegs, resourceInfo. cbn [app].
  assert (has namespaceSubresources resource = false) as Hsub.
  { unfold resources in Hr. rewrite !elem_of_cons in Hr. by destruct Hr as [->|[->|[->|[]%not_elem_of_nil]]]. }
  replace (has APIPrefixes "apis") with true by done. replace (has GrouplessAPIPrefixes "apis") with false by done.
  replace (has specialVerbs "namespaces") with false by done. cbn [negb].
  rewrite bool_decide_eq_true_2, Hsub by done. cbv beta iota zeta.
  assert (has specialVerbsNoSubresources (methodVerb method) = false) as ->.
  { unfold methodVerb. by repeat case_bool_decide. }
  rewrite (bool_decide_eq_false_2 (name = "")) by done. cbn [andb].
  unfold namedInfo. destruct rest as [|sub [|? ?]]; [done..|]. simpl in Hlen. lia.
Qed.

Definition collectionVerb (method : string) (query : Values) : string :=
  if bool_decide (methodVerb method = "get") then
    match query !! "watch" with
    | Some (value :: _) => if has ["false"; "0"] (ToLower value) then "list" else "watch"
    | _ => "list"
    end
  else if bool_decide (methodVerb method = "delete") then "deletecollection" else methodVerb method.

Lemma info_collection method ns resource query :
  resource ∈ resources → proper ns →
  NewRequestInfo method (absPath (target ns resource [])) query =
  inr (mkRequestInfo true (absPath (target ns resource [])) (collectionVerb method query) "apis" GroupName "v1alpha1"
         ns resource "" "" [resource]).
Proof.
  intros Hr Hns. unfold NewRequestInfo. rewrite splitPath_abs by (done || by apply target_proper).
  unfold target, apiSegs, resourceInfo. cbn [app].
  assert (has namespaceSubresources resource = false) as Hsub.
  { unfold resources in Hr. rewrite !elem_of_cons in Hr. by destruct Hr as [->|[->|[->|[]%not_elem_of_nil]]]. }
  replace (has APIPrefixes "apis") with true by done. replace (has GrouplessAPIPrefixes "apis") with false by done.
  replace (has specialVerbs "namespaces") with false by done. cbn [negb].
  rewrite bool_decide_eq_true_2, Hsub by done. cbv beta iota zeta.
  rewrite (bool_decide_eq_true_2 ("" = "")) by done. cbn [andb]. unfold collectionVerb.
  assert (∀ v s : string, s = "" → mkRequestInfo true (absPath (target ns resource [])) v "apis" GroupName "v1alpha1" ns resource s "" [resource]
    = mkRequestInfo true (absPath (target ns resource [])) v "apis" GroupName "v1alpha1" ns resource "" "" [resource]) as Hs.
  { by intros v s ->. }
  f_equal. etransitivity; [apply Hs; by destruct (has specialVerbsNoSubresources (methodVerb method))|]. f_equal.
  destruct (bool_decide (methodVerb method = "get")); [|done].
  destruct (query !! "watch") as [[|v vs]|]; [done| |done]. by destruct (has _ (ToLower v)).
Qed.

(** The routes of a path of the API, by method. *)
Definition namedAction (method : string) (hasSub : bool) : option string :=
  if bool_decide (method = "GET") then Some (if hasSub then "LIST" else "GET")
  else if bool_decide (method = "PUT") then Some "PUT"
  else if bool_decide (method = "PATCH") then Some "PATCH"
  else if bool_decide (method = "DELETE") then Some (if hasSub then "DELETECOLLECTION" else "DELETE")
  else None.

Definition routeOf (action resource sub : string) (r : Route) : Prop :=
  rt_Action r = action ∧ rt_Resource r = resource ∧ rt_Subresource r = sub.

Lemma namedAction_cases method sub action :
  namedAction method sub = Some action →
  method = "GET" ∧ action = (if sub then "LIST" else "GET") ∨ method = "PUT" ∧ action = "PUT" ∨
  method = "PATCH" ∧ action = "PATCH" ∨ method = "DELETE" ∧ action = (if sub then "DELETECOLLECTION" else "DELETE").
Proof. unfold namedAction. repeat case_bool_decide; intros [= <-]; tauto. Qed.

(** Select the route of a path whose resource, method and content type are given. *)
Ltac select_route :=
  match goal with
  | |- ∃ r, SelectRoute ?m (absPath ?segs) ?ct = inr r ∧ _ =>
      unfold SelectRoute; rewrite (tokenizePath_abs segs) by assumption || done;
      eexists; split; [vm_compute; reflexivity|vm_compute; repeat split]
  end.

Lemma select_named method ns resource name ct action :
  resource ∈ resources → proper ns → proper name → namedAction method false = Some action →
  (method = "PATCH" → ct ∈ patchTypes) →
  ∃ r, SelectRoute method (absPath (target ns resource [name])) ct = inr r ∧ routeOf action resource "" r.
Proof.
  intros Hr Hns Hname Hact Hct. assert (Forall proper (target ns resource [name])) as Hp by (apply target_proper; auto).
  unfold resources in Hr. rewrite !elem_of_cons in Hr. apply namedAction_cases in Hact.
  destruct Hact as [[-> ->]|[[-> ->]|[[-> ->]|[-> ->]]]]; destruct Hr as [->|[->|[->|[]%not_elem_of_nil]]];
    try select_route;
    (specialize (Hct eq_refl); unfold patchTypes in Hct; rewrite !elem_of_cons in Hct;
     destruct Hct as [->|[->|[->|[]%not_elem_of_nil]]]; select_route).
Qed.

Lemma select_status method ns resource name ct action :
  resource ∈ resources → proper ns → proper name → namedAction method true = Some action →
  (method = "PATCH" → ct ∈ patchTypes) →
  ∃ r, SelectRoute method (absPath (target ns resource [name; "status"])) ct = inr r ∧ routeOf action resource "status" r.
Proof.
  intros Hr Hns Hname Hact Hct. assert (Forall proper (target ns resource [name; "status"])) as Hp.
  { apply target_proper; [done..|]. repeat (apply Forall_cons; split; [done || by repeat split|]). done. }
  unfold resources in Hr. rewrite !elem_of_cons in Hr. apply namedAction_cases in Hact.
  destruct Hact as [[-> ->]|[[-> ->]|[[-> ->]|[-> ->]]]]; destruct Hr as [->|[->|[->|[]%not_elem_of_nil]]];
    try select_route;
    (specialize (Hct eq_refl); unfold patchTypes in Hct; rewrite !elem_of_cons in Hct;
     destruct Hct as [->|[->|[->|[]%not_elem_of_nil]]]; select_route).
Qed.

Lemma select_collection method ns resource ct action :
  resource ∈ resources → proper ns →
  (method, action) ∈ [("GET", "LIST"); ("POST", "POST"); ("DELETE", "DELETECOLLECTION")] →
  ∃ r, SelectRoute method (absPath (target ns resource [])) ct = inr r ∧ routeOf action resource "" r.
Proof.
  intros Hr Hns Hact. assert (Forall proper (target ns resource [])) as Hp by (apply target_proper; auto).
  unfold resources in Hr. rewrite !elem_of_cons in Hr. rewrite !elem_of_cons in Hact.
  destruct Hact as [[= -> ->]|[[= -> ->]|[[= -> ->]|[]%not_elem_of_nil]]];
    destruct Hr as [->|[->|[->|[]%not_elem_of_nil]]]; select_route.
Qed.

(** ** The requests of the typed clients *)

(** A request is sent, the server reads its verb, namespace, resource, name and
    subresource as given, and its route is the one of the given action. *)
Definition reaches {B} (r : Res (Sent B)) (body : option B) (verb ns resource name sub action : string) : Prop :=
  ∃ s info rt,
    r = inr s ∧ sent_Body s = body ∧
    NewRequestInfo (sent_Method s) (sent_Path s) (sent_Query s) = inr info ∧
    ri_IsResourceRequest info = true ∧ ri_APIGroup info = GroupName ∧ ri_APIVersion info = "v1alpha1" ∧
    ri_Verb info = verb ∧ ri_Namespace info = ns ∧ ri_Resource info = resource ∧
    ri_Name info = name ∧ ri_Subresource info = sub ∧
    SelectRoute (sent_Method s) (sent_Path s) (sent_ContentType s) = inr rt ∧ routeOf action resource sub rt.

Lemma reaches_named {B} (r : Request B) ns resource name sub action :
  rq_pathPrefix r = absPath apiSegs → rq_namespaceSet r = true → rq_namespace r = ns → rq_resource r = resource →
  rq_resourceName r = name → rq_subresource r = sub → sub = "" ∨ sub = "status" →
  resource ∈ resources → proper ns → proper name → namedAction (rq_verb r) (negb (bool_decide (sub = ""))) = Some action →
  (rq_verb r = "PATCH" → default "" (rq_contentType r) ∈ patchTypes) →
  reaches (inr (send r)) (rq_body r) (methodVerb (rq_verb r)) ns resource name sub action.
Proof.
  intros Hp Hset Hns Hres Hname Hsub Hs Hr Pns Pname Hact Hct.
  assert (ToLower resource = resource ∧ proper resource) as [Hlow Pres].
  { unfold resources in Hr. rewrite !elem_of_cons in Hr. by destruct Hr as [->|[->|[->|[]%not_elem_of_nil]]]; repeat split. }
  assert (proper "status") as Pst by (by repeat split).
  assert (URL_path r = absPath (target ns resource (nonempty [name; sub]))) as Hurl.
  { rewrite (URL_path_spec r apiSegs); rewrite ?Hns, ?Hres, ?Hname, ?Hsub, ?Hset, ?Hlow; try done.
    - cbn [andb]. rewrite bool_decide_eq_false_2 by apply Pns. done.
    - unfold apiSegs. by repeat (apply Forall_cons; split; [by repeat split|]).
    - rewrite !Forall_cons. split_and!; [right; done|right; done| |done]. by destruct Hs as [->| ->]; [left|right]. }
  destruct Hs as [->| ->].
  - assert (nonempty [name; ""] = [name]) as Hne. { unfold nonempty. rewrite filter_cons_True; [done|apply Pname]. }
    rewrite Hne in Hurl. destruct (select_named (rq_verb r) ns resource name (default "" (rq_contentType r)) action) as (rt & Hsel & Hrt); [done..|].
    eexists (send r), (namedInfo (rq_verb r) ns resource [name]), rt. unfold send, sent_Method, sent_Path, sent_Query, sent_ContentType, sent_Body.
    rewrite Hurl, info_named; [by split_and!|done..|by apply Forall_cons; split|simpl; lia].
  - assert (nonempty [name; "status"] = [name; "status"]) as Hne.
    { unfold nonempty. rewrite filter_cons_True; [done|apply Pname]. }
    rewrite Hne in Hurl. destruct (select_status (rq_verb r) ns resource name (default "" (rq_contentType r)) action) as (rt & Hsel & Hrt); [done..|].
    eexists (send r), (namedInfo (rq_verb r) ns resource [name; "status"]), rt. unfold send, sent_Method, sent_Path, sent_Query, sent_ContentType, sent_Body.
    rewrite Hurl, info_named; [by split_and!|done..|by repeat (apply Forall_cons; split; [done|])|simpl; lia].
Qed.

Lemma reaches_collection {B} (r : Request B) ns resource action :
  rq_pathPrefix r = absPath apiSegs → rq_namespaceSet r = true → rq_namespace r = ns → rq_resource r = resource →
  rq_resourceName r = "" → rq_subresource r = "" → resource ∈ resources → proper ns →
  (rq_verb r, action) ∈ [("GET", "LIST"); ("POST", "POST"); ("DELETE", "DELETECOLLECTION")] →
  reaches (inr (send r)) (rq_body r) (collectionVerb (rq_verb r) (rq_params r)) ns resource "" "" action.
Proof.
  intros Hp Hset Hns Hres Hname Hsub Hr Pns Hact.
  assert (ToLower resource = resource ∧ proper resource) as [Hlow Pres].
  { unfold resources in Hr. rewrite !elem_of_cons in Hr. by destruct Hr as [->|[->|[->|[]%not_elem_of_nil]]]; repeat split. }
  assert (URL_path r = absPath (target ns resource [])) as Hurl.
  { rewrite (URL_path_spec r apiSegs); rewrite ?Hns, ?Hres, ?Hname, ?Hsub, ?Hset, ?Hlow; try done.
    - cbn [andb]. rewrite bool_decide_eq_false_2 by apply Pns. done.
    - unfold apiSegs. by repeat (apply Forall_cons; split; [by repeat split|]).
    - rewrite !Forall_cons. split_and!; [right; done|left; done|left; done|done]. }
  destruct (select_collection (rq_verb r) ns resource (default "" (rq_contentType r)) action) as (rt & Hsel & Hrt); [done..|].
  eexists (send r), _, rt. unfold send, sent_Method, sent_Path, sent_Query, sent_ContentType, sent_Body.
  rewrite Hurl, info_collection by done. split_and!; try done.
Qed.

Lemma addString_ne tag tag' value values : tag ≠ tag' → addString tag value values !! tag' = values !! tag'.
Proof. intros Hne. unfold addString. case_bool_decide; [done|]. by rewrite lookup_insert_ne. Qed.

Lemma addInt_ne tag tag' value values : tag ≠ tag' → addInt tag value values !! tag' = values !! tag'.
Proof. intros Hne. unfold addInt. case_bool_decide; [done|]. by apply addString_ne. Qed.

Lemma params_watch (opts : ListOptions) :
  union_with (λ old new, Some (old ++ new)) (∅ : Values) (encodeParameters opts) !! "watch" =
  if lo_Watch opts then Some ["true"] else None.
Proof.
  rewrite lookup_union_with, lookup_empty. unfold encodeParameters, ListOptions_params.
  rewrite addString_ne, !addInt_ne, addString_ne by done. unfold addBool.
  destruct (lo_Watch opts).
  - unfold addString at 1. rewrite bool_decide_eq_false_2 by done.
    rewrite lookup_insert_eq, !addString_ne by done. by rewrite lookup_empty.
  - unfold addString at 1. rewrite bool_decide_eq_true_2 by done. rewrite !addString_ne by done. by rewrite lookup_empty.
Qed.

(** A name or namespace that is one non-empty path element *)
Definition segment (s : string) : Prop := validSegment s = true ∧ s ≠ "".

Lemma segment_proper s : segment s → proper s.
Proof. intros [? ?]. by apply validSegment_proper. Qed.

(** A request without an error, and the steps that build it. *)
Section built.
Context {B : Type} (c : RESTClient) (ns resource : string).
Context (Hns : segment ns) (Hr : resource ∈ resources).

Definition built (verb : string) (ct : option string) (params : Values) (name sub : string) (body : option B) : Request B :=
  {| rq_verb := verb; rq_pathPrefix := path_Join [path_Join ["/"; rc_basePath c]; rc_versionedAPIPath c];
     rq_params := params; rq_namespace := ns; rq_namespaceSet := true; rq_resource := resource;
     rq_resourceName := name; rq_subresource := sub; rq_contentType := ct; rq_err := None; rq_body := body |}.

Lemma resource_valid : validSegment resource = true.
Proof. unfold resources in Hr. rewrite !elem_of_cons in Hr. by destruct Hr as [->|[->|[->|[]%not_elem_of_nil]]]. Qed.

Lemma built_start verb : Resource resource (setNamespace ns (NewRequest c verb)) = built verb None ∅ "" "" None.
Proof.
  destruct Hns as [Hv _]. unfold setNamespace, unlessErr. cbn -[path_Join validSegment]. rewrite Hv. cbn -[path_Join validSegment].
  unfold Resource, unlessErr. cbn -[path_Join validSegment]. by rewrite resource_valid.
Qed.

Lemma built_patch verb pt :
  Resource resource (setNamespace ns (SetHeader pt (NewRequest c verb))) = built verb (Some pt) ∅ "" "" None.
Proof.
  destruct Hns as [Hv _]. unfold setNamespace, unlessErr. cbn -[path_Join validSegment]. rewrite Hv. cbn -[path_Join validSegment].
  unfold Resource, unlessErr. cbn -[path_Join validSegment]. by rewrite resource_valid.
Qed.

Lemma built_name verb ct params sub body name :
  segment name → Name name (built verb ct params "" sub body) = built verb ct params name sub body.
Proof.
  intros [Hv Hne]. unfold Name, unlessErr. cbn -[path_Join validSegment]. rewrite bool_decide_eq_false_2 by done.
  by rewrite Hv.
Qed.

Lemma built_name_err verb ct params sub body name :
  ¬ segment name → ∃ err, rq_err (Name name (built verb ct params "" sub body)) = Some err.
Proof.
  intros Hs. unfold Name, unlessErr. cbn -[path_Join validSegment]. case_bool_decide; [by eexists|].
  destruct (validSegment name) eqn:Hv; [by destruct Hs|by eexists].
Qed.

Lemma built_sub verb ct params name body :
  SubResource ["status"] (built verb ct params name "" body) = built verb ct params name "status" body.
Proof. reflexivity. Qed.

Lemma built_nosub verb ct params name body :
  SubResource [] (built verb ct params name "" body) = built verb ct params name "" body.
Proof. reflexivity. Qed.

Lemma Do_built verb ct params name sub body :
  Do (built verb ct params name sub body) = inr (send (built verb ct params name sub body)).
Proof.
  destruct Hns as [_ Hne]. unfold Do, built. cbn -[path_Join send]. rewrite (bool_decide_eq_false_2 (ns = "")) by done.
  by rewrite !andb_false_r.
Qed.

Lemma Do_error (r : Request B) err : rq_err r = Some err → Do r = inl err.
Proof. unfold Do. by intros ->. Qed.

Lemma keeps_error (r : Request B) err data : rq_err r = Some err → rq_err (BodyBytes data r) = Some err.
Proof. unfold BodyBytes, unlessErr. intros H. by rewrite H. Qed.

Context (Hc : onNavigator c).

Lemma built_reaches_named verb ct params name sub body action :
  segment name → sub = "" ∨ sub = "status" → namedAction verb (negb (bool_decide (sub = ""))) = Some action →
  (verb = "PATCH" → default "" ct ∈ patchTypes) →
  reaches (Do (built verb ct params name sub body)) body (methodVerb verb) ns resource name sub action.
Proof.
  intros Hname Hs Hact Hct. rewrite Do_built. apply (reaches_named (built verb ct params name sub body)); try done;
    by apply segment_proper.
Qed.

Lemma built_reaches_collection verb ct params body action :
  (verb, action) ∈ [("GET", "LIST"); ("POST", "POST"); ("DELETE", "DELETECOLLECTION")] →
  reaches (inr (send (built verb ct params "" "" body))) body (collectionVerb verb params) ns resource "" "" action.
Proof.
  intros Hact. apply (reaches_collection (built verb ct params "" "" body)); try done. by apply segment_proper.
Qed.
End built.

Lemma UpdateStatus_reaches {T B} resource (meta : T → ObjectMeta) (Encode : T → Res B) c ns obj b :
  onNavigator c → resource ∈ resources → segment ns → segment (om_Name (meta obj)) → Encode obj = inr b →
  reaches (client_UpdateStatus (generatedClient resource meta Encode c ns) obj) (Some b) "update" ns resource
    (om_Name (meta obj)) "status" "PUT".
Proof.
  intros Hc Hr Hns Hname Hb. simpl. rewrite built_start, built_name, built_sub, Hb by done.
  by apply (built_reaches_named c ns resource Hns Hr Hc "PUT" (Some "application/json")); [|right|..].
Qed.

(** ** Lists and watches, in a namespace or in all *)

Lemma info_all resource query :
  resource ∈ resources →
  NewRequestInfo "GET" (absPath (apiSegs ++ [resource])) query =
  inr (mkRequestInfo true (absPath (apiSegs ++ [resource])) (collectionVerb "GET" query) "apis" GroupName "v1alpha1"
         "" resource "" "" [resource]).
Proof.
  intros Hr. assert (proper resource) as Pres.
  { unfold resources in Hr. rewrite !elem_of_cons in Hr. by destruct Hr as [->|[->|[->|[]%not_elem_of_nil]]]; repeat split. }
  unfold NewRequestInfo. rewrite splitPath_abs; [|done|unfold apiSegs; by repeat (apply Forall_cons; split; [done || by repeat split|])].
  unfold resources in Hr. rewrite !elem_of_cons in Hr.
  destruct Hr as [->|[->|[->|[]%not_elem_of_nil]]]; unfold resourceInfo, collectionVerb; cbn -[lookup];
    destruct (query !! "watch") as [[|v vs]|]; try reflexivity; by destruct (has _ (ToLower v)).
Qed.

Lemma select_all resource ct :
  resource ∈ resources → ∃ r, SelectRoute "GET" (absPath (apiSegs ++ [resource])) ct = inr r ∧ routeOf "LIST" resource "" r.
Proof.
  intros Hr. unfold resources in Hr. rewrite !elem_of_cons in Hr.
  destruct Hr as [->|[->|[->|[]%not_elem_of_nil]]];
    (eexists; split; [vm_compute; reflexivity|vm_compute; repeat split]).
Qed.

(** The list and watch requests of a client, and what the server makes of them. *)
Lemma list_reaches {B} c ns resource (o : ListOptions) :
  onNavigator c → resource ∈ resources → ns = "" ∨ segment ns →
  let r := VersionedParams o (Resource resource (setNamespace ns (NewRequest (B := B) c "GET"))) in
  Do r = inr (send r) ∧ Watch_ r = inr (send r) ∧
  reaches (inr (send r)) None (if lo_Watch o then "watch" else "list") ns resource "" "" "LIST".
Proof.
  intros Hc Hr Hns r.
  assert (r = built c ns resource "GET" None (union_with (λ old new, Some (old ++ new)) ∅ (encodeParameters o)) "" "" None) as ->.
  { subst r. destruct Hns as [->|Hns]; [|by rewrite built_start]. unfold setNamespace, Resource, unlessErr.
    cbn -[path_Join validSegment encodeParameters union_with]. replace (validSegment "") with true by done.
    cbn -[path_Join validSegment encodeParameters union_with]. by rewrite (resource_valid resource). }
  set (params := union_with _ _ _).
  assert (collectionVerb "GET" params = if lo_Watch o then "watch" else "list") as Hverb.
  { unfold collectionVerb, params. rewrite params_watch. by destruct (lo_Watch o). }
  split_and!; [reflexivity|reflexivity|]. rewrite <- Hverb. destruct Hns as [->|Hns].
  - assert (ToLower resource = resource ∧ proper resource) as [Hlow Pres].
    { unfold resources in Hr. rewrite !elem_of_cons in Hr. by destruct Hr as [->|[->|[->|[]%not_elem_of_nil]]]; repeat split. }
    set (r := built _ _ _ _ _ _ _ _ _). assert (URL_path r = absPath (apiSegs ++ [resource])) as Hurl.
    { rewrite (URL_path_spec r apiSegs); simpl; rewrite ?Hlow; try done.
      - unfold apiSegs. by repeat (apply Forall_cons; split; [by repeat split|]).
      - rewrite !Forall_cons. by split_and!; [left..|]. }
    destruct (select_all resource "") as (rt & Hsel & Hrt); [done|].
    eexists (send r), _, rt. unfold send, sent_Method, sent_Path, sent_Query, sent_ContentType, sent_Body. cbn [rq_contentType r built default].
    rewrite Hurl. change (rq_verb r) with "GET". rewrite info_all by done. by split_and!.
  - apply (built_reaches_collection c ns resource Hns Hr Hc "GET"). set_solver.
Qed.

(** Nothing is sent. *)
Definition unsent {A} (r : Res A) : Prop := ∃ err, r = inl err.

Lemma unsent_name {B} (r : Request B) ct : (∃ err, rq_err r = Some err) → unsent (Do (Body ct r)).
Proof. intros [err He]. exists err. apply Do_error. unfold Body, unlessErr. by rewrite He. Qed.

(** C13. On a REST client for the Navigator group, every request of a generated client is read
    back by the API server with the verb, namespace, resource, name and subresource the method
    was called with and with the encoded body, and is routed to the handler of that action;
    methods called with a name that is not a path segment return an error and send nothing. *)
Theorem client_requests_reach_their_handlers {T B} resource (meta : T → ObjectMeta) (Encode : T → Res B) c ns ops :
  onNavigator c → resource ∈ resources → segment ns → ops = generatedClient resource meta Encode c ns →
  (∀ name, segment name →
     (∀ o, reaches (client_Get ops name o) None "get" ns resource name "" "GET") ∧
     (∀ o, reaches (client_Delete ops name (Some (inr o))) (Some o) "delete" ns resource name "" "DELETE") ∧
     (∀ pt data, pt ∈ patchTypes →
        reaches (client_Patch ops name pt data []) (Some data) "patch" ns resource name "" "PATCH" ∧
        reaches (client_Patch ops name pt data ["status"]) (Some data) "patch" ns resource name "status" "PATCH")) ∧
  (∀ obj b, Encode obj = inr b →
     reaches (client_Create ops obj) (Some b) "create" ns resource "" "" "POST" ∧
     (segment (om_Name (meta obj)) →
      reaches (client_Update ops obj) (Some b) "update" ns resource (om_Name (meta obj)) "" "PUT" ∧
      reaches (client_UpdateStatus ops obj) (Some b) "update" ns resource (om_Name (meta obj)) "status" "PUT")) ∧
  (∀ o, reaches (client_List ops o) None (if lo_Watch o then "watch" else "list") ns resource "" "" "LIST") ∧
  (∀ o, reaches (client_Watch ops o) None "watch" ns resource "" "" "LIST") ∧
  (∀ o lo, reaches (client_DeleteCollection ops (Some (inr o)) lo) (Some o) "deletecollection" ns resource "" "" "DELETECOLLECTION") ∧
  (∀ name, ¬ segment name →
     (∀ o, unsent (client_Get ops name o)) ∧ (∀ o, unsent (client_Delete ops name o)) ∧
     (∀ pt data, unsent (client_Patch ops name pt data [])) ∧
     (∀ obj, om_Name (meta obj) = name → unsent (client_Update ops obj) ∧ unsent (client_UpdateStatus ops obj))).
Proof.
  intros Hc Hr Hns ->. split_and!.
  - intros name Hname. split_and!.
    + intros o. simpl. rewrite built_start, built_name by done.
      by apply (built_reaches_named c ns resource Hns Hr Hc "GET" None); [|left|..].
    + intros o. simpl. rewrite built_start, built_name by done.
      by apply (built_reaches_named c ns resource Hns Hr Hc "DELETE" (Some "application/json")); [|left|..].
    + intros pt data Hpt. simpl. rewrite built_patch by done. split.
      * rewrite built_nosub, built_name by done.
        by apply (built_reaches_named c ns resource Hns Hr Hc "PATCH" (Some pt)); [|left|..].
      * rewrite built_sub, built_name by done.
        by apply (built_reaches_named c ns resource Hns Hr Hc "PATCH" (Some pt)); [|right|..].
  - intros obj b Hb. split; [|intros Hname; split]; [..|by apply UpdateStatus_reaches];
      simpl; rewrite !built_start, Hb by done.
    + change (Body _ _) with (built (B := B) c ns resource "POST" (Some "application/json") ∅ "" "" (Some b)).
      rewrite Do_built by done. by apply (built_reaches_collection c ns resource Hns Hr Hc "POST"); set_solver.
    + rewrite built_name by done.
      by apply (built_reaches_named c ns resource Hns Hr Hc "PUT" (Some "application/json")); [|left|..].
  - intros o. destruct (list_reaches (B := B) c ns resource o) as (Hd & _ & Hreach); [done..|by right|]. simpl. by rewrite Hd.
  - intros o. destruct (list_reaches (B := B) c ns resource (set_Watch o)) as (_ & Hw & Hreach); [done..|by right|]. simpl. by rewrite Hw.
  - intros o lo. simpl. rewrite built_start by done.
    change (Body _ _) with (built (B := B) c ns resource "DELETE" (Some "application/json")
      (union_with (λ old new, Some (old ++ new)) ∅ (encodeParameters lo)) "" "" (Some o)).
    rewrite Do_built by done. apply (built_reaches_collection c ns resource Hns Hr Hc "DELETE"); set_solver.
  - intros name Hname. simpl. rewrite !built_start by done. split_and!.
    + intros o. destruct (built_name_err (B := B) c ns resource "GET" None ∅ "" None name Hname) as [err He].
      exists err. apply Do_error. unfold VersionedParams, unlessErr. by rewrite He.
    + intros o. apply unsent_name, built_name_err, Hname.
    + intros pt data. rewrite built_patch, built_nosub by done.
      destruct (built_name_err (B := B) c ns resource "PATCH" (Some pt) ∅ "" None name Hname) as [err He].
      exists err. by apply Do_error, keeps_error.
    + intros obj <-. split; [apply unsent_name, built_name_err, Hname|]. apply unsent_name.
      destruct (built_name_err (B := B) c ns resource "PUT" None ∅ "" None _ Hname) as [err He].
      exists err. unfold SubResource, unlessErr. by rewrite He.
Qed.

(** A client of a cluster whose host has no path. *)
Definition sampleConfig : Config := mkConfig "https://kubernetes.default" "" None None "" (Qcanon.Q2Qc (QArith_base.inject_Z 0)) 0.
Definition sampleClient : RESTClient := mkRESTClient "/" "/apis/navigator.jetstack.io/v1alpha1" SchemeGroupVersion.

Example sampleClient_config : versioned_NewForConfig (λ _, inr "") "navigator" sampleConfig = inr sampleClient.
Proof. vm_compute. reflexivity. Qed.

Definition samplePilot : Pilot := mkPilot (newObjectMeta "es-demo-0" "test" None None []) (mkPilotStatus [] None None).

Lemma client_requests_reach_their_handlers_witness :
  reaches (client_UpdateStatus (v1alpha1_pilots (λ p, inr p) sampleClient "test")
             samplePilot) (Some samplePilot)
    "update" "test" "pilots" "es-demo-0" "status" "PUT".
Proof.
  assert (segment "test" ∧ segment "es-demo-0") as [Hns Hname] by (repeat split; discriminate).
  refine (proj2 (proj2 (proj1 (proj2 (client_requests_reach_their_handlers "pilots" pil_Meta (λ p, inr p) sampleClient "test" _
    _ _ Hns eq_refl)) samplePilot samplePilot eq_refl) Hname)).
  - vm_compute. reflexivity.
  - decide_closed.
Defined.

(** The status storage embeds a whole store, so its list and delete-collection routes have
    the path and method of its get and delete routes and come first: a GET of the status of an
    object is answered by the list handler and a DELETE by the handler that deletes the
    collection. *)
Theorem status_routes_shadow_items ns resource name ct query :
  segment ns → segment name → resource ∈ resources →
  (∃ info rt,
     NewRequestInfo "DELETE" (absPath (target ns resource [name; "status"])) query = inr info ∧
     ri_Verb info = "delete" ∧ ri_Name info = name ∧ ri_Subresource info = "status" ∧
     SelectRoute "DELETE" (absPath (target ns resource [name; "status"])) ct = inr rt ∧ rt_Action rt = "DELETECOLLECTION") ∧
  (∃ info rt,
     NewRequestInfo "GET" (absPath (target ns resource [name; "status"])) query = inr info ∧
     ri_Verb info = "get" ∧ ri_Name info = name ∧ ri_Subresource info = "status" ∧
     SelectRoute "GET" (absPath (target ns resource [name; "status"])) ct = inr rt ∧ rt_Action rt = "LIST").
Proof.
  intros Hns%segment_proper Hname%segment_proper Hr. assert (proper "status") as Hst by (by repeat split).
  assert (Forall proper [name; "status"]) as Hp by (by repeat (apply Forall_cons; split; [done|])).
  split.
  - destruct (select_status "DELETE" ns resource name ct "DELETECOLLECTION") as (rt & Hsel & Hrt & _); [done..|].
    rewrite info_named by (done || simpl; lia). by eexists _, rt.
  - destruct (select_status "GET" ns resource name ct "LIST") as (rt & Hsel & Hrt & _); [done..|].
    rewrite info_named by (done || simpl; lia). by eexists _, rt.
Qed.

Lemma status_routes_shadow_items_witness :
  ∃ rt, SelectRoute "DELETE" "/apis/navigator.jetstack.io/v1alpha1/namespaces/test/pilots/es-demo-0/status" "" = inr rt ∧
        rt_Action rt = "DELETECOLLECTION".
Proof.
  destruct (status_routes_shadow_items "test" "pilots" "es-demo-0" "" ∅) as [(info & rt & _ & _ & _ & _ & Hsel & Hrt) _];
    [split; [reflexivity|discriminate]|split; [reflexivity|discriminate]|decide_closed|].
  exists rt. split; [exact Hsel|exact Hrt].
Defined.
