(* ===== verification/APIStore.v ===== *)
(** * Updates in the API server's store

    How an update of a Navigator object reaches etcd: the PUT handler
    (k8s.io/apiserver/pkg/endpoints/handlers/update.go), the generic store's
    Update (registry/generic/registry/store.go) with the strategies of
    pkg/registry/navigator, and GuaranteedUpdate of the storage
    (storage/etcd3/store.go), whose suggestion comes from the watch cache
    (storage/cacher.go).

    The keys of one resource are pairs of namespace and name.  Other writers
    act between a read and the transaction that depends on it.  Objects have no
    finalizers and no deletion grace period, so an update never deletes. *)

From S2P Require Import Prelude GoStrings K8s Types Internal Validation Registry RestClient APIRoutes.

(** ** Resource versions and errors *)

Definition set_om_ResourceVersion (rv : string) (m : ObjectMeta) : ObjectMeta :=
  mkObjectMeta (om_Name m) (om_Namespace m) (om_UID m) rv (om_Labels m) (om_Annotations m)
    (om_OwnerReferences m) (om_DeletionTimestamp m).
Definition set_om_Namespace (ns : string) (m : ObjectMeta) : ObjectMeta :=
  mkObjectMeta (om_Name m) ns (om_UID m) (om_ResourceVersion m) (om_Labels m) (om_Annotations m)
    (om_OwnerReferences m) (om_DeletionTimestamp m).
Definition set_om_UID (uid : string) (m : ObjectMeta) : ObjectMeta :=
  mkObjectMeta (om_Name m) (om_Namespace m) uid (om_ResourceVersion m) (om_Labels m) (om_Annotations m)
    (om_OwnerReferences m) (om_DeletionTimestamp m).
Definition set_om_DeletionTimestamp (t : option Z) (m : ObjectMeta) : ObjectMeta :=
  mkObjectMeta (om_Name m) (om_Namespace m) (om_UID m) (om_ResourceVersion m) (om_Labels m) (om_Annotations m)
    (om_OwnerReferences m) t.

Definition NewConflict (name : string) : Err := StatusError StatusReasonConflict name [].
Definition IsConflict (e : Err) : bool := bool_decide (reasonForError (Some e) = StatusReasonConflict).
Definition NewBadRequest (message : string) (args : list Arg) : Err := Errorf message args.

Definition uint64_max : Z := 18446744073709551615.

(** What the store relies on of its codec, which encodes the versioned form of an object and
    decodes it with defaults: decoding gives the normal form of what was
    encoded, which has the same metadata. *)
Class StorageCodec {T D : Type} `{HasMeta T} (Encode : T → D) (Decode : D → T) (normalize : T → T) : Prop := {
  codec obj : om_ResourceVersion (objMeta obj) = "" → Decode (Encode obj) = normalize obj;
  normalize_withMeta m obj : normalize (withMeta m obj) = withMeta m (normalize obj);
  normalize_objMeta obj : objMeta (normalize obj) = objMeta obj;
  normalize_decoded data : normalize (Decode data) = Decode data;
}.

(** A codec without defaults *)
#[export] Instance id_codec {T} `{HasMeta T} : StorageCodec (T := T) id id id.
Proof. by split. Qed.

Section store.
Context {T D : Type} `{HasMeta T} `{EqDecision D}.
(** The storage codec, on objects without a resource version. *)
Context (Encode : T → D) (Decode : D → T).

Definition setResourceVersion (rv : string) (obj : T) : T := withMeta (set_om_ResourceVersion rv (objMeta obj)) obj.
Definition setObjNamespace (ns : string) (obj : T) : T := withMeta (set_om_Namespace ns (objMeta obj)) obj.
Definition clearDeletion (obj : T) : T := withMeta (set_om_DeletionTimestamp None (objMeta obj)) obj.
(** The model's metadata has no creation timestamp and no self link. *)
Definition FillObjectMetaSystemFields (newUID : string) (obj : T) : T := withMeta (set_om_UID newUID (objMeta obj)) obj.

(** PrepareObjectForStorage; the model has no self link. *)
Definition PrepareObjectForStorage (obj : T) : T := setResourceVersion "" obj.

(** APIObjectVersioner.ObjectResourceVersion: strconv.ParseUint of 64 bits *)
Definition ObjectResourceVersion (obj : T) : Res Z :=
  let version := om_ResourceVersion (objMeta obj) in
  if bool_decide (version = "") then inr 0
  else match check_max uint64_max (parse_unsigned version) with
       | Some v => inr v
       | None => inl (Errorf "strconv.ParseUint: parsing %q" [AStr version])
       end.

(** UpdateObject of the versioner *)
Definition UpdateObject (rev : Z) (obj : T) : T :=
  setResourceVersion (if bool_decide (rev = 0) then "" else itoa rev) obj.

(** *** etcd *)

Record Entry := mkEntry { en_data : D; en_rev : Z }.
Record Etcd := mkEtcd { et_kvs : gmap (string * string) Entry; et_rev : Z }.

Definition etcd_put (key : string * string) (data : D) (s : Etcd) : Etcd :=
  mkEtcd (<[key := mkEntry data (et_rev s + 1)]> (et_kvs s)) (et_rev s + 1).
Definition etcd_delete (key : string * string) (s : Etcd) : Etcd :=
  mkEtcd (delete key (et_kvs s)) (et_rev s + 1).

(** decode: the object of some data at a revision *)
Definition decode (data : D) (rev : Z) : T := UpdateObject rev (Decode data).

(** What a read of a key returns. *)
Definition readKey (key : string * string) (s : Etcd) : option T :=
  (λ e, decode (en_data e) (en_rev e)) <$> et_kvs s !! key.

(** objState: [None] stands for the zero object of a missing key. *)
Record objState := mkObjState { os_obj : option T; os_rev : Z; os_data : option D }.

Definition getState (key : string * string) (s : Etcd) : objState :=
  match et_kvs s !! key with
  | None => mkObjState None 0 None
  | Some e => mkObjState (Some (decode (en_data e) (en_rev e))) (en_rev e) (Some (en_data e))
  end.

Definition getStateFromObject (obj : T) : Res objState :=
  match ObjectResourceVersion obj with
  | inl err => inl err
  | inr rv => inr (mkObjState (Some obj) rv (Some (Encode (PrepareObjectForStorage obj))))
  end.

Definition modRevision (key : string * string) (s : Etcd) : Z :=
  match et_kvs s !! key with Some e => en_rev e | None => 0 end.

(** checkPreconditions: the UID of the request, when it has one. *)
Definition checkPreconditions (uid : string) (existing : option T) : bool :=
  bool_decide (uid = "") || bool_decide (uid = default "" ((λ o, om_UID (objMeta o)) <$> existing)).

(** The error of a failed precondition, which InterpretUpdateError turns into a conflict. *)
Definition preconditionFailed (name : string) : Err := NewConflict name.

Section update.
Context (name : string) (key : string * string) (uid : string).
Context (tryUpdate : option T → outcome (Res T)).

(** The loop of GuaranteedUpdate.  [env] holds what other writers do before each
    transaction; no one writes any more when it is used up.  [None] is out of fuel. *)
Fixpoint guaranteedLoop (fuel : nat) (env : list (Etcd → Etcd)) (origState : objState) (mustCheckData : bool) (s : Etcd)
    : option (outcome (Res T) * Etcd) :=
  match fuel with
  | O => None
  | S fuel =>
      if negb (checkPreconditions uid (os_obj origState)) then Some (Ret (inl (preconditionFailed name)), s)
      else
        match tryUpdate (os_obj origState) with
        | Panic p => Some (Panic p, s)
        | Ret (inl err) =>
            if mustCheckData && IsConflict err then guaranteedLoop fuel env (getState key s) false s
            else Some (Ret (inl err), s)
        | Ret (inr ret) =>
            let data := Encode (PrepareObjectForStorage ret) in
            if bool_decide (os_data origState = Some data) then
              if mustCheckData then
                if bool_decide (os_data (getState key s) = Some data) then
                  Some (Ret (inr (decode data (os_rev (getState key s)))), s)
                else guaranteedLoop fuel env (getState key s) false s
              else Some (Ret (inr (decode data (os_rev origState))), s)
            else
              let s := match env with [] => s | write :: _ => write s end in
              if bool_decide (modRevision key s = os_rev origState) then
                let s := etcd_put key data s in
                Some (Ret (inr (decode data (et_rev s))), s)
              else guaranteedLoop fuel (tail env) (getState key s) false s
        end
  end.

(** Every iteration but the first two follows a write of someone else. *)
Definition GuaranteedUpdate (env : list (Etcd → Etcd)) (suggestion : option T) (s : Etcd) : option (outcome (Res T) * Etcd) :=
  match suggestion with
  | Some obj =>
      match getStateFromObject obj with
      | inl err => Some (Ret (inl err), s)
      | inr origState => guaranteedLoop (3 + length env) env origState true s
      end
  | None => guaranteedLoop (3 + length env) env (getState key s) false s
  end.
End update.

(** *** Store.Update *)

Section strategy.
Context (st : Strategy T) (commonCreate : T → list FieldError) (commonUpdate : T → T → list FieldError).
(** The UID of an object this request creates. *)
Context (newUID : string).
(** Admission of the request: the transformer's verdict, and validating admission. *)
Context (admission : option Err) (createValidation : T → option Err) (updateValidation : T → T → option Err).
Context (ns name : string).

Definition mustBeSpecified : Err :=
  NewInvalid name [].

Definition updateFunc (obj : T) (existing : option T) : outcome (Res T) :=
  match admission with
  | Some err => Ret (inl err)
  | None =>
      match ObjectResourceVersion obj with
      | inl err => Ret (inl err)
      | inr resourceVersion =>
          let doUnconditionalUpdate := bool_decide (resourceVersion = 0) && st_AllowUnconditionalUpdate st in
          match match existing with None => inr 0 | Some e => ObjectResourceVersion e end, existing with
          | inl err, _ => Ret (inl err)
          | inr version, existing =>
              match (if bool_decide (version = 0) then None else existing) with
              | None =>
                  if negb (st_AllowCreateOnUpdate st) then Ret (inl (NewNotFound name))
                  else
                    res ← BeforeCreate objMeta setObjNamespace clearDeletion (FillObjectMetaSystemFields newUID) ns commonCreate st obj;
                    match res with
                    | inl err => Ret (inl err)
                    | inr obj => match createValidation obj with Some err => Ret (inl err) | None => Ret (inr obj) end
                    end
              | Some existing =>
                  let obj := if doUnconditionalUpdate then UpdateObject version obj else obj in
                  if negb doUnconditionalUpdate && bool_decide (resourceVersion = 0) then Ret (inl mustBeSpecified)
                  else if negb doUnconditionalUpdate && negb (bool_decide (resourceVersion = version)) then
                    Ret (inl (NewConflict name))
                  else
                    res ← BeforeUpdate objMeta setObjNamespace ns commonUpdate st obj existing;
                    match res with
                    | inl err => Ret (inl err)
                    | inr obj => match updateValidation obj existing with Some err => Ret (inl err) | None => Ret (inr obj) end
                    end
              end
          end
      end
  end.

(** NamespaceKeyFunc: the checks of a key *)
Definition keyFunc : Res (string * string) :=
  if bool_decide (ns = "") then inl (NewBadRequest "Namespace parameter required." [])
  else if bool_decide (name = "") then inl (NewBadRequest "Name parameter required." [])
  else if negb (validSegment name) then inl (NewBadRequest "Name parameter invalid: %q: %s" [AStr name])
  else inr (ns, name).

Definition registry_Update (env : list (Etcd → Etcd)) (suggestion : option T) (obj : T) (s : Etcd)
    : option (outcome (Res T) * Etcd) :=
  match keyFunc with
  | inl err => Some (Ret (inl err), s)
  | inr key => GuaranteedUpdate name key (om_UID (objMeta obj)) (updateFunc obj) env suggestion s
  end.

(** checkName of handlers/rest.go *)
Definition checkName (obj : T) : option Err :=
  let objName := om_Name (objMeta obj) in
  let objNamespace := om_Namespace (objMeta obj) in
  if bool_decide (objName = "") then
    Some (NewBadRequest "the name of the object (%s based on URL) was undeterminable: %v" [AStr name])
  else if negb (bool_decide (objName = name)) then
    Some (NewBadRequest "the name of the object (%s) does not match the name on the URL (%s)" [AStr objName; AStr name])
  else if negb (bool_decide (ns = "")) && negb (bool_decide (objNamespace = "")) && negb (bool_decide (objNamespace = ns)) then
    Some (NewBadRequest "the namespace of the object (%s) does not match the namespace on the request (%s)"
            [AStr objNamespace; AStr ns])
  else None.

(** UpdateResource, on the decoded object *)
Definition UpdateResource (env : list (Etcd → Etcd)) (suggestion : option T) (obj : T) (s : Etcd)
    : option (outcome (Res T) * Etcd) :=
  match checkName obj with
  | Some err => Some (Ret (inl err), s)
  | None => registry_Update env suggestion obj s
  end.
End strategy.

(** ** Revisions *)

(** Revisions are positive and none is ahead of the server's. *)
Definition wfEtcd (s : Etcd) : Prop := 0 ≤ et_rev s ∧ ∀ key e, et_kvs s !! key = Some e → 0 < en_rev e ≤ et_rev s.

(** [s'] is [s] after any writes: whatever is new has a later revision. *)
Definition writes (s s' : Etcd) : Prop :=
  et_rev s ≤ et_rev s' ∧
  ∀ key e, et_kvs s' !! key = Some e → et_kvs s !! key = Some e ∨ et_rev s < en_rev e ≤ et_rev s'.

#[export] Instance writes_preorder : PreOrder writes.
Proof.
  split.
  - intros s. split; [done|]. by left.
  - intros s1 s2 s3 [H12 E12] [H23 E23]. split; [lia|]. intros key e He.
    destruct (E23 key e He) as [He2|?]; [|right; lia]. destruct (E12 key e He2) as [|?]; [by left|right; lia].
Qed.

Lemma writes_put key data s : writes s (etcd_put key data s).
Proof.
  split; [simpl; lia|]. intros k e. simpl. destruct (decide (k = key)) as [->|Hne].
  - rewrite lookup_insert_eq. intros [= <-]. right. simpl. lia.
  - rewrite lookup_insert_ne by done. by left.
Qed.

Lemma writes_delete key s : writes s (etcd_delete key s).
Proof. split; [simpl; lia|]. intros k e. simpl. rewrite lookup_delete_Some. intros [_ ?]. by left. Qed.

Lemma writes_wf s s' : wfEtcd s → writes s s' → wfEtcd s'.
Proof.
  intros [Hr Hwf] [Hle He]. split; [lia|]. intros key e Hk. destruct (He key e Hk) as [H1|?]; [apply Hwf in H1; lia|lia].
Qed.

(** A revision names one state of a key, forever. *)
Lemma revision_identifies key s s' e e' :
  wfEtcd s → writes s s' → et_kvs s !! key = Some e → et_kvs s' !! key = Some e' → en_rev e' = en_rev e → e' = e.
Proof.
  intros [_ Hwf] [_ Hw] He He' Hrev. apply Hwf in He as Hr. destruct (Hw key e' He') as [H1|?]; [congruence|lia].
Qed.

(** [s'] is [s] after the first few of the writes of others, and nothing else. *)
Definition others (env : list (Etcd → Etcd)) (s s' : Etcd) : Prop :=
  ∃ pre, pre `prefix_of` env ∧ s' = foldl (λ s write, write s) s pre.

Lemma others_refl env s : others env s s.
Proof. exists []. split; [apply prefix_nil|done]. Qed.

(** The store before a transaction: one write of another may have come first. *)
Definition interfere (env : list (Etcd → Etcd)) (s : Etcd) : Etcd :=
  match env with [] => s | write :: _ => write s end.

Lemma others_head env s : others env s (interfere env s).
Proof. destruct env as [|write env]; [apply others_refl|]. exists [write]. split; [by exists env|done]. Qed.

Lemma others_tail env s s' : others (tail env) (interfere env s) s' → others env s s'.
Proof.
  destruct env as [|write env]; [done|]. intros (pre & Hpre & ->). exists (write :: pre). split; [by apply prefix_cons|done].
Qed.

Lemma others_writes env s s' : Forall (λ write, ∀ s, writes s (write s)) env → others env s s' → writes s s'.
Proof.
  intros Henv (pre & [post ->] & ->). apply Forall_app in Henv as [Hpre _]. revert s.
  induction Hpre as [|write pre Hwr _ IH]; intros s; [reflexivity|]. etransitivity; [apply Hwr|apply IH].
Qed.

(** ** Termination *)

Lemma guaranteedLoop_fresh name key uid tryUpdate env s fuel :
  (length env < fuel)%nat → is_Some (guaranteedLoop name key uid tryUpdate fuel env (getState key s) false s).
Proof.
  revert env s. induction fuel as [|fuel IH]; intros env s Hlen; [lia|]. cbn [guaranteedLoop].
  destruct (checkPreconditions _ _); [|by eexists]. cbn [negb].
  destruct (tryUpdate _) as [[err|ret]|p]; [by eexists| |by eexists]. cbv zeta.
  case_bool_decide; [by eexists|]. destruct env as [|write env].
  - rewrite bool_decide_eq_true_2; [by eexists|]. unfold modRevision, getState. by destruct (et_kvs s !! key).
  - case_bool_decide; [by eexists|]. apply IH. simpl in *. lia.
Qed.

Lemma GuaranteedUpdate_terminates name key uid tryUpdate env suggestion s :
  is_Some (GuaranteedUpdate name key uid tryUpdate env suggestion s).
Proof.
  unfold GuaranteedUpdate. destruct suggestion as [obj|]; [|apply guaranteedLoop_fresh; lia].
  destruct (getStateFromObject obj) as [err|orig]; [by eexists|]. change (3 + length env)%nat with (S (S (S (length env)))).
  remember (S (S (length env))) as fuel eqn:Hf. cbn [guaranteedLoop].
  destruct (checkPreconditions _ _); [|by eexists]. cbn [negb].
  destruct (tryUpdate _) as [[err|ret]|p]; [| |by eexists].
  - destruct (_ && _); [|by eexists]. apply guaranteedLoop_fresh. lia.
  - cbv zeta. case_bool_decide.
    + case_bool_decide; [by eexists|]. apply guaranteedLoop_fresh. lia.
    + case_bool_decide; [by eexists|]. apply guaranteedLoop_fresh. destruct env; simpl in *; lia.
Qed.

(** ** Accepted updates *)

Lemma modRevision_same key s s' :
  wfEtcd s → writes s s' → modRevision key s' = modRevision key s → et_kvs s' !! key = et_kvs s !! key.
Proof.
  intros Hwf Hw. assert (wfEtcd s') as Hwf' by eauto using writes_wf. unfold modRevision.
  destruct (et_kvs s !! key) as [e|] eqn:He, (et_kvs s' !! key) as [e'|] eqn:He'; intros Hrev; [|exfalso..|done].
  - f_equal. eauto using revision_identifies.
  - apply Hwf in He. lia.
  - apply Hwf' in He'. lia.
Qed.

(** What an accepted update did: it replaced the stored object, the one [tryUpdate]
    was given, by the result; or the result for an object it had been given, the cached one
    or a later one, was stored already and nothing is written. *)
Inductive committed (key : string * string) (tryUpdate : option T → outcome (Res T)) (env : list (Etcd → Etcd)) (cached s : Etcd)
    : T → Etcd → Prop :=
| committed_put s1 ret data :
    others env s s1 → tryUpdate (readKey key s1) = Ret (inr ret) → data = Encode (PrepareObjectForStorage ret) →
    committed key tryUpdate env cached s (decode data (et_rev s1 + 1)) (etcd_put key data s1)
| committed_noop s0 s1 ret e :
    others env s s1 → s0 = cached ∨ writes s s0 → writes s0 s1 → tryUpdate (readKey key s0) = Ret (inr ret) → et_kvs s1 !! key = Some e →
    en_data e = Encode (PrepareObjectForStorage ret) →
    committed key tryUpdate env cached s (decode (en_data e) (en_rev e)) s1.

(** A state of the loop that was read at [s0]. *)
Definition seenAt (key : string * string) (s0 : Etcd) (orig : objState) : Prop :=
  os_obj orig = readKey key s0 ∧ os_rev orig = modRevision key s0.

Lemma getState_seen key s : seenAt key s (getState key s).
Proof. unfold seenAt, getState, readKey, modRevision. by destruct (et_kvs s !! key). Qed.

Lemma os_data_getState key s data : os_data (getState key s) = Some data → ∃ e, et_kvs s !! key = Some e ∧ en_data e = data.
Proof. unfold getState. destruct (et_kvs s !! key) as [e|]; [|done]. intros [= <-]. eauto. Qed.

Lemma os_rev_getState key s e : et_kvs s !! key = Some e → os_rev (getState key s) = en_rev e.
Proof. unfold getState. by intros ->. Qed.

Lemma guaranteedLoop_commits name key uid tryUpdate fuel env orig must s0 s out s' :
  Forall (λ write, ∀ s, writes s (write s)) env → wfEtcd s0 → writes s0 s → seenAt key s0 orig →
  (must = false → orig = getState key s) →
  guaranteedLoop name key uid tryUpdate fuel env orig must s = Some (Ret (inr out), s') →
  committed key tryUpdate env s0 s out s'.
Proof.
  revert env orig must s0 s. induction fuel as [|fuel IH]; intros env orig must s0 s Henv Hwf Hw [Hobj Hrev] Hmust; [done|].
  assert (∀ env1 s1, Forall (λ write, ∀ s, writes s (write s)) env1 → writes s s1 →
    (∀ s2, others env1 s1 s2 → others env s s2) →
    guaranteedLoop name key uid tryUpdate fuel env1 (getState key s1) false s1 = Some (Ret (inr out), s') →
    committed key tryUpdate env s0 s out s') as Hretry.
  { intros env1 s1 Henv1 Hs1 Hoth Hloop. apply (IH env1 _ false s1) in Hloop as Hc; [|done| |done|apply getState_seen|done].
    - destruct Hc as [s2 ? ? ?|s2 s3 ? ? ? Hor]; [eapply committed_put; eauto|].
      apply (committed_noop _ _ _ _ _ s2 s3 ret); [by apply Hoth| |done..]. right. destruct Hor as [->|?]; [done|by etransitivity].
    - eapply writes_wf, Hs1. eauto using writes_wf. }
  cbn [guaranteedLoop]. destruct (checkPreconditions _ _); [|done]. cbn [negb].
  destruct (tryUpdate (os_obj orig)) as [[err|ret]|p] eqn:Htry; [| |done].
  - destruct (must && IsConflict err); [|done]. by apply Hretry.
  - cbv zeta. rewrite Hobj in Htry. case_bool_decide as Hdata.
    + destruct must.
      * case_bool_decide as Hcur; [|by apply Hretry]. intros [= <- <-].
        apply os_data_getState in Hcur as (e & He & Hed). rewrite (os_rev_getState _ _ _ He), <- Hed.
        apply (committed_noop _ _ _ _ _ s0 s ret); [apply others_refl|by left|done|done..].
      * rewrite (Hmust eq_refl) in Hdata |- *. intros [= <- <-].
        apply os_data_getState in Hdata as (e & He & Hed). rewrite (os_rev_getState _ _ _ He), <- Hed.
        apply (committed_noop _ _ _ _ _ s0 s ret); [apply others_refl|by left|done|done..].
    + fold (interfere env s). set (s1 := interfere env s).
      assert (writes s s1) as Hs1 by (eapply others_writes; [exact Henv|apply others_head]).
      case_bool_decide as Hmod.
      * intros [= <- <-]. apply (committed_put _ _ _ _ _ s1 ret); [apply others_head| |done].
        assert (et_kvs s1 !! key = et_kvs s0 !! key) as Heq.
        { apply modRevision_same; [done|by etransitivity|congruence]. }
        unfold readKey in *. by rewrite Heq.
      * apply Hretry; [destruct Henv; by simpl|done|intros s2; apply others_tail].
Qed.

Lemma ObjectResourceVersion_itoa obj rev :
  0 < rev ≤ uint64_max → om_ResourceVersion (objMeta obj) = itoa rev → ObjectResourceVersion obj = inr rev.
Proof.
  intros Hr Hrv. unfold ObjectResourceVersion. rewrite Hrv. pose proof (parse_unsigned_itoa rev ltac:(lia)) as Hp.
  rewrite bool_decide_eq_false_2; [|intros He; by rewrite He in Hp].
  rewrite Hp. cbn [check_max]. by rewrite decide_True by lia.
Qed.

Lemma decode_version data rev : 0 < rev ≤ uint64_max → ObjectResourceVersion (decode data rev) = inr rev.
Proof.
  intros Hr. apply ObjectResourceVersion_itoa; [done|]. unfold decode, UpdateObject, setResourceVersion.
  rewrite objMeta_withMeta. simpl. by rewrite bool_decide_eq_false_2 by lia.
Qed.

Lemma decode_version_inv data rev v : 0 < rev → ObjectResourceVersion (decode data rev) = inr v → v = rev.
Proof.
  intros Hr. unfold ObjectResourceVersion, decode, UpdateObject, setResourceVersion. rewrite objMeta_withMeta. simpl.
  rewrite (bool_decide_eq_false_2 (rev = 0)) by lia. pose proof (parse_unsigned_itoa rev ltac:(lia)) as Hp.
  rewrite bool_decide_eq_false_2; [|intros He; by rewrite He in Hp]. rewrite Hp. simpl.
  destruct (decide (rev ≤ uint64_max)); [|done]. by intros [= <-].
Qed.

(** The suggestion of a watch cache is what the key held at some earlier state. *)
Lemma GuaranteedUpdate_commits name key uid tryUpdate env cached s out s' :
  Forall (λ write, ∀ s, writes s (write s)) env → wfEtcd cached → writes cached s →
  GuaranteedUpdate name key uid tryUpdate env (readKey key cached) s = Some (Ret (inr out), s') →
  committed key tryUpdate env cached s out s'.
Proof.
  intros Henv Hwf Hw. unfold GuaranteedUpdate. destruct (readKey key cached) as [obj|] eqn:Hread.
  - destruct (getStateFromObject obj) as [|orig] eqn:Horig; [done|]. intros Hloop.
    eapply guaranteedLoop_commits in Hloop; [exact Hloop|exact Henv|exact Hwf|exact Hw| |done].
    unfold readKey in Hread. destruct (et_kvs cached !! key) as [e|] eqn:He; [|done]. injection Hread as <-.
    unfold getStateFromObject in Horig. destruct (ObjectResourceVersion _) as [|rv] eqn:Hrv; [done|].
    apply decode_version_inv in Hrv as ->; [|by apply Hwf in He; lia]. injection Horig as <-.
    unfold seenAt, readKey, modRevision. by rewrite He.
  - intros Hloop. eapply guaranteedLoop_commits in Hloop as Hc; [|exact Henv|exact (writes_wf _ _ Hwf Hw)|reflexivity|apply getState_seen|done].
    destruct Hc as [s2 ? ? ?|s2 s3 ? ? ? Hor]; [by eapply committed_put|].
    apply (committed_noop _ _ _ _ _ s2 s3 ret); [done| |done..]. right. by destruct Hor as [->|?].
Qed.

(** An update that is refused writes nothing. *)
Lemma guaranteedLoop_refused name key uid tryUpdate fuel env orig must s o s' :
  guaranteedLoop name key uid tryUpdate fuel env orig must s = Some (o, s') → (∀ out, o ≠ Ret (inr out)) → others env s s'.
Proof.
  revert env orig must s. induction fuel as [|fuel IH]; intros env orig must s; [done|]. cbn [guaranteedLoop].
  destruct (negb _); [intros [= <- <-] _; apply others_refl|].
  destruct (tryUpdate (os_obj orig)) as [[err|ret]|p]; [..|intros [= <- <-] _; apply others_refl].
  - destruct (must && IsConflict err); [by apply IH|]. intros [= <- <-] _. apply others_refl.
  - cbv zeta. case_bool_decide; [destruct must; [case_bool_decide|]|].
    + intros [= <- <-] Ho. naive_solver.
    + by apply IH.
    + intros [= <- <-] Ho. naive_solver.
    + fold (interfere env s). case_bool_decide; [intros [= <- <-] Ho; naive_solver|].
      intros Hl Ho. by eapply others_tail, IH.
Qed.

Lemma GuaranteedUpdate_refused name key uid tryUpdate env suggestion s o s' :
  GuaranteedUpdate name key uid tryUpdate env suggestion s = Some (o, s') → (∀ out, o ≠ Ret (inr out)) → others env s s'.
Proof.
  unfold GuaranteedUpdate. destruct suggestion; [|apply guaranteedLoop_refused].
  destruct (getStateFromObject _); [intros [= <- <-] _; apply others_refl|apply guaranteedLoop_refused].
Qed.

Section conditional.
Context (st : Strategy T) (commonCreate : T → list FieldError) (commonUpdate : T → T → list FieldError).
Context (newUID : string).
Context (admission : option Err) (createValidation : T → option Err) (updateValidation : T → T → option Err).
Context (ns name : string).
Context (Hcreate : st_AllowCreateOnUpdate st = false) (Hcond : st_AllowUnconditionalUpdate st = false).

Abbreviation try := (updateFunc st commonCreate commonUpdate newUID admission createValidation updateValidation ns name).

(** A conditional update changes only the version it names. *)
Lemma updateFunc_accepts obj existing ret :
  try obj existing = Ret (inr ret) →
  ∃ ex v, existing = Some ex ∧ v ≠ 0 ∧ ObjectResourceVersion obj = inr v ∧ ObjectResourceVersion ex = inr v ∧
          BeforeUpdate objMeta setObjNamespace ns commonUpdate st obj ex = Ret (inr ret).
Proof.
  unfold updateFunc. destruct admission; [done|]. destruct (ObjectResourceVersion obj) as [|v]; [done|].
  rewrite Hcreate, Hcond, andb_false_r. cbv zeta. cbn [negb].
  destruct existing as [ex|]; [|by case_bool_decide].
  destruct (ObjectResourceVersion ex) as [|version] eqn:Hexv; [done|]. case_bool_decide; [done|]. cbn [andb].
  case_bool_decide; [done|]. case_bool_decide; [subst|done]. cbn [negb].
  destruct (BeforeUpdate _ _ _ _ _ _ _) as [[|obj']|] eqn:Hb; [done| |done]. simpl.
  destruct (updateValidation obj' ex); [done|]. intros [= <-]. by exists ex, version.
Qed.

Lemma committed_writes key tryUpdate env cached s out s' :
  Forall (λ write, ∀ s, writes s (write s)) env → committed key tryUpdate env cached s out s' → writes s s'.
Proof. intros Henv. destruct 1; [etransitivity; [|apply writes_put]|]; by eapply others_writes. Qed.

(** The version of the snapshot [e0] leads back to the snapshot. *)
Lemma accepted_at_snapshot s0 sx e0 obj ret :
  let key := (ns, name) in
  wfEtcd s0 → wfEtcd sx → writes s0 sx ∨ writes sx s0 → et_rev s0 ≤ uint64_max → et_rev sx ≤ uint64_max →
  et_kvs s0 !! key = Some e0 → om_ResourceVersion (objMeta obj) = itoa (en_rev e0) →
  try obj (readKey key sx) = Ret (inr ret) →
  et_kvs sx !! key = Some e0 ∧
  BeforeUpdate objMeta setObjNamespace ns commonUpdate st obj (decode (en_data e0) (en_rev e0)) = Ret (inr ret).
Proof.
  intros key Hwf0 Hwfx Hord Hb0 Hbx He0 Hrv Htry. apply updateFunc_accepts in Htry as (ex & v & Hex & Hv & Hov & Hev & Hbu).
  unfold readKey in Hex. destruct (et_kvs sx !! key) as [e|] eqn:He; [|done]. injection Hex as <-.
  pose proof (proj2 Hwf0 _ _ He0). pose proof (proj2 Hwfx _ _ He).
  rewrite decode_version in Hev by lia. rewrite (ObjectResourceVersion_itoa obj (en_rev e0)) in Hov by (done || lia).
  assert (e = e0) as ->; [|done]. assert (en_rev e = en_rev e0) as Hrev by congruence.
  destruct Hord as [Hw|Hw]; [eauto using revision_identifies|symmetry; eauto using revision_identifies].
Qed.
End conditional.
End store.
