(* ===== verification/APIServer.v ===== *)
(** * Status updates, from a client to the store

    The storages of the three resources (pkg/registry/navigator/*/etcd.go)
    behind one interface, the update handler behind the router, and what an
    accepted status update of a typed client means for the stored object. *)

From S2P Require Import Prelude GoStrings Semver K8s Types Internal CassandraVersion Validation Registry RestClient APIRoutes APIStore.

(** ** Storages *)

(** NewREST: the store of a resource and the store of its status, which is the
    same but for its update strategy.  Updates through either are conditional,
    and one through the status store keeps the stored spec. *)
Class StatusStorage (T Spec Status : Type) `{HasMeta T} := {
  storeStrategy : Strategy T;
  statusStrategy : Strategy T;
  specOf : T → Spec;
  statusOf : T → Status;
  specOf_withMeta m obj : specOf (withMeta m obj) = specOf obj;
  statusOf_withMeta m obj : statusOf (withMeta m obj) = statusOf obj;
  status_conditional : st_AllowUnconditionalUpdate statusStrategy = false;
  status_existing : st_AllowCreateOnUpdate statusStrategy = false;
  status_scoped : st_NamespaceScoped statusStrategy = true;
  status_keeps_spec new old : specOf (st_Canonicalize statusStrategy (st_PrepareForUpdate statusStrategy new old)) = specOf old;
  status_takes_status new old : statusOf (st_Canonicalize statusStrategy (st_PrepareForUpdate statusStrategy new old)) = statusOf new;
}.
Arguments StatusStorage T Spec Status {_}.

(** Defaults are those of the specification, and leave the status alone. *)
Class SpecDefaults {T Spec Status} `{StatusStorage T Spec Status} (normalize : T → T) : Prop := {
  normalize_spec a b : specOf a = specOf b → specOf (normalize a) = specOf (normalize b);
  normalize_status obj : statusOf (normalize obj) = statusOf obj;
}.

(** escluster.NewREST *)
Program Definition escluster_NewREST vom : StatusStorage ElasticsearchCluster ElasticsearchClusterSpec ElasticsearchClusterStatus :=
  {| storeStrategy := esClusterStrategy vom; statusStrategy := esClusterStatusStrategy vom;
     specOf := nesc_Spec; statusOf := nesc_Status |}.
Solve All Obligations with done.

(** cassandracluster.NewREST *)
Program Definition cassandracluster_NewREST vom : StatusStorage CassandraCluster CassandraClusterSpec CassandraClusterStatus :=
  {| storeStrategy := cassandraClusterStrategy vom; statusStrategy := cassandraClusterStatusStrategy vom;
     specOf := ncass_Spec; statusOf := ncass_Status |}.
Solve All Obligations with done.

(** pilot.NewREST; the spec of a Pilot is empty. *)
Program Definition pilot_NewREST : StatusStorage Pilot unit PilotStatus :=
  {| storeStrategy := pilotStrategy; statusStrategy := pilotStatusStrategy; specOf _ := tt; statusOf := npil_Status |}.
Solve All Obligations with done.

Section server.
Context {V T D Spec Status : Type} `{HasMeta T} `{EqDecision D} {REST : StatusStorage T Spec Status}.
(** The storage codec, and the decoder of a request body: conversion to the
    internal version and defaults. *)
Context (Encode : T → D) (Decode : D → T) (decodeBody : V → Res T).
Context (commonCreate : T → list FieldError) (commonUpdate : T → T → list FieldError) (newUID : string).
Context (admission : option Err) (createValidation : T → option Err) (updateValidation : T → T → option Err).

(** The storage a route of the resource was registered with. *)
Definition strategyFor (subresource : string) : Strategy T :=
  if bool_decide (subresource = "status") then statusStrategy else storeStrategy.

(** The update handler's answer; [None] when the route is not an update. *)
Definition serveUpdate (env : list (Etcd → Etcd)) (suggestion : option T) (sent : Sent V) (s : Etcd)
    : option (outcome (Res T) * Etcd (D := D)) :=
  match NewRequestInfo (sent_Method sent) (sent_Path sent) (sent_Query sent),
        SelectRoute (sent_Method sent) (sent_Path sent) (sent_ContentType sent) with
  | inr info, inr rt =>
      if bool_decide (rt_Action rt = "PUT") then
        if bool_decide (ri_Name info = "") then Some (Ret (inl (NewBadRequest "name must be provided" [])), s)
        else
          match sent_Body sent with
          | None => Some (Ret (inl (NewBadRequest "the body of the request was empty" [])), s)
          | Some body =>
              match decodeBody body with
              | inl err => Some (Ret (inl err), s)
              | inr obj =>
                  UpdateResource Encode Decode (strategyFor (rt_Subresource rt)) commonCreate commonUpdate newUID admission
                    createValidation updateValidation (ri_Namespace info) (ri_Name info) env suggestion obj s
              end
          end
      else None
  | _, _ => None
  end.

Lemma BeforeUpdate_accepts ns (st : Strategy T) obj old ret :
  st_NamespaceScoped st = true →
  BeforeUpdate objMeta setObjNamespace ns commonUpdate st obj old = Ret (inr ret) →
  ∃ obj', (obj' = obj ∨ obj' = setObjNamespace ns obj) ∧ ret = st_Canonicalize st (st_PrepareForUpdate st obj' old).
Proof.
  intros Hsc. unfold BeforeUpdate, ValidNamespace. rewrite Hsc. cbv zeta.
  set (obj' := if bool_decide _ then _ else _). case_bool_decide; [|done]. cbn [negb].
  destruct (st_ValidateUpdate _ _ _) as [errs|]; [|done]. simpl. destruct (_ ++ _); [|done]. intros [= <-].
  exists obj'. split; [|done]. subst obj'. case_bool_decide; auto.
Qed.

Lemma status_update_content ns obj old ret :
  BeforeUpdate objMeta setObjNamespace ns commonUpdate statusStrategy obj old = Ret (inr ret) →
  specOf ret = specOf old ∧ statusOf ret = statusOf obj.
Proof.
  intros (obj' & Hobj & ->)%BeforeUpdate_accepts; [|apply status_scoped].
  rewrite status_keeps_spec, status_takes_status. split; [done|]. destruct Hobj as [->| ->]; [done|].
  apply statusOf_withMeta.
Qed.

Context (normalize : T → T) `{!StorageCodec Encode Decode normalize, !SpecDefaults normalize}.

Lemma decode_prepared ret rev :
  specOf (decode Decode (Encode (PrepareObjectForStorage ret)) rev) = specOf (normalize ret) ∧
  statusOf (decode Decode (Encode (PrepareObjectForStorage ret)) rev) = statusOf ret.
Proof.
  unfold decode, UpdateObject, PrepareObjectForStorage, setResourceVersion.
  rewrite (codec (Encode := Encode)) by by rewrite objMeta_withMeta.
  rewrite (normalize_withMeta (Encode := Encode)), !specOf_withMeta, !statusOf_withMeta. split; [done|apply normalize_status].
Qed.

(** A stored object keeps its specification when only its status is written. *)
Lemma normalize_kept data ret : specOf ret = specOf (Decode data) → specOf (normalize ret) = specOf (Decode data).
Proof. intros Hs. by rewrite (normalize_spec ret (Decode data) Hs), (normalize_decoded (Encode := Encode)). Qed.

Lemma readKey_put key data (s : Etcd) :
  readKey Decode key (etcd_put key data s) = Some (decode Decode data (et_rev s + 1)).
Proof. unfold readKey, etcd_put. simpl. by rewrite lookup_insert_eq. Qed.

(** An update of the status store with the version of a snapshot [e0] of [s0]. *)
Lemma status_update_at_snapshot ns name env cached s0 s e0 obj out s' :
  let key := (ns, name) in
  wfEtcd s0 → writes s0 s → et_kvs s0 !! key = Some e0 →
  wfEtcd cached → writes cached s → writes s0 cached ∨ writes cached s0 →
  Forall (λ write, ∀ s, writes s (write s)) env →
  om_ResourceVersion (objMeta obj) = itoa (en_rev e0) → et_rev s' ≤ uint64_max →
  registry_Update Encode Decode statusStrategy commonCreate commonUpdate newUID admission createValidation updateValidation ns name
    env (readKey Decode key cached) obj s = Some (Ret (inr out), s') →
  specOf out = specOf (Decode (en_data e0)) ∧ statusOf out = statusOf obj ∧ readKey Decode key s' = Some out ∧
  ((∃ s1 data, others env s s1 ∧ et_kvs s1 !! key = Some e0 ∧ s' = etcd_put key data s1) ∨ others env s s').
Proof.
  intros key Hwf0 Hs0 He0 Hwfc Hwc Hord Henv Hrv Hmax. unfold registry_Update, keyFunc.
  repeat case_bool_decide; [done..|]. destruct (validSegment name); [|done]. cbn [negb].
  set (try := updateFunc _ _ _ _ _ _ _ _ _ _).
  intros Hcom%GuaranteedUpdate_commits; [|done..].
  pose proof (committed_writes _ _ _ _ _ _ _ _ _ Henv Hcom) as [Hle _].
  assert (∀ sx ret, wfEtcd sx → writes s0 sx ∨ writes sx s0 → et_rev sx ≤ uint64_max → try (readKey Decode key sx) = Ret (inr ret) →
    et_kvs sx !! key = Some e0 ∧ specOf ret = specOf (Decode (en_data e0)) ∧ statusOf ret = statusOf obj) as Hsnap.
  { intros sx ret Hwfx Hordx Hmx Htry. destruct Hs0 as [Hle0 _].
    eapply accepted_at_snapshot in Htry as [Hkv Hbu];
      [|apply status_existing|apply status_conditional|exact Hwf0|done|done|lia|done|done|done].
    apply status_update_content in Hbu as [Hspec Hstat]. split_and!; [done| |done].
    rewrite Hspec. unfold decode, UpdateObject, setResourceVersion. apply specOf_withMeta. }
  assert (wfEtcd s) as Hwfs by eauto using writes_wf.
  destruct Hcom as [s1 ret data Ho1 Htry ->|sx s1 ret e Ho1 Hsx Hwx Htry He Hdata];
    pose proof (others_writes _ _ _ Henv Ho1) as Hw1.
  - destruct (Hsnap s1 ret) as (Hkv & Hspec & Hstat);
      [eauto using writes_wf|left; by etransitivity|simpl in Hmax; lia|done|].
    destruct (decode_prepared ret (et_rev s1 + 1)) as [-> ->]. split_and!; [by apply normalize_kept|done|apply readKey_put|].
    left. eauto.
  - destruct (Hsnap sx ret) as (Hkv & Hspec & Hstat).
    + destruct Hsx as [->|?]; [done|eauto using writes_wf].
    + destruct Hsx as [->|?]; [done|left; by etransitivity].
    + destruct Hwx. lia.
    + done.
    + rewrite Hdata. destruct (decode_prepared ret (en_rev e)) as [-> ->]. split_and!; [by apply normalize_kept|done| |by right].
      unfold readKey. rewrite He. simpl. by rewrite Hdata.
Qed.

(** C10. A status update sent by a typed client with the revision at which it read the object
    always gets an answer, whatever other writers commit before and while it is served. When the
    answer is success no write was lost: the stored object has the specification found at that
    revision and the status sent, and either it was put over exactly the entry of that revision,
    after some of the writes of the others, or this update wrote nothing because the store
    already held it. When the answer is not success the update wrote nothing. *)
Theorem status_updates_are_not_lost (vmeta : V → ObjectMeta) c resource ns v obj env cached s0 s e0 ops key :
  onNavigator c → resource ∈ resources → segment ns → segment (om_Name (vmeta v)) → decodeBody v = inr obj →
  ops = generatedClient resource vmeta (λ v, inr v) c ns → key = (ns, om_Name (vmeta v)) →
  wfEtcd s0 → writes s0 s → et_kvs s0 !! key = Some e0 → om_ResourceVersion (objMeta obj) = itoa (en_rev e0) →
  wfEtcd cached → writes cached s → writes s0 cached ∨ writes cached s0 →
  Forall (λ write, ∀ s, writes s (write s)) env →
  ∃ sent res s',
    client_UpdateStatus ops v = inr sent ∧ serveUpdate env (readKey Decode key cached) sent s = Some (res, s') ∧
    (∀ out, res = Ret (inr out) → et_rev s' ≤ uint64_max →
       specOf out = specOf (Decode (en_data e0)) ∧ statusOf out = statusOf obj ∧ readKey Decode key s' = Some out ∧
       ((∃ s1 data, others env s s1 ∧ et_kvs s1 !! key = Some e0 ∧ s' = etcd_put key data s1) ∨ others env s s')) ∧
    ((∀ out, res ≠ Ret (inr out)) → others env s s').
Proof.
  intros Hc Hr Hns Hname Hdec -> -> Hwf0 Hs0 He0 Hrv Hwfc Hwc Hord Henv.
  destruct (UpdateStatus_reaches resource vmeta (λ v, inr v) c ns v v) as
    (sent & info & rt & Hsent & Hbody & Hinfo & _ & _ & _ & _ & Hins & _ & Hiname & _ & Hsel & Hact & _ & Hsub); [done..|].
  unfold serveUpdate. exists sent. rewrite Hinfo, Hsel, Hact, Hbody, Hdec, Hins, Hiname, Hsub.
  rewrite bool_decide_eq_true_2, bool_decide_eq_false_2 by (done || apply Hname).
  unfold UpdateResource, strategyFor. rewrite bool_decide_eq_true_2 by done.
  destruct (checkName _ _ obj) as [err|]; [eexists _, s; split_and!; [done..|]; intros _; apply others_refl|].
  destruct (registry_Update _ _ _ _ _ _ _ _ _ _ _ _ _ _ _) as [[res s']|] eqn:Hup.
  - exists res, s'. split_and!; [done..| |].
    + intros out -> Hmax. eapply (status_update_at_snapshot ns (om_Name (vmeta v)) env cached s0 s e0 obj out s'); done.
    + revert Hup. unfold registry_Update. destruct (keyFunc _ _); [intros [= <- <-] _; apply others_refl|].
      apply GuaranteedUpdate_refused.
  - exfalso. unfold registry_Update in Hup. destruct (keyFunc _ _); [done|].
    destruct (GuaranteedUpdate_terminates Encode Decode (om_Name (vmeta v)) p (om_UID (objMeta obj))
      (updateFunc statusStrategy commonCreate commonUpdate newUID admission createValidation updateValidation ns (om_Name (vmeta v)) obj)
      env (readKey Decode (ns, om_Name (vmeta v)) cached) s) as [? Hg]. by rewrite Hup in Hg.
Qed.
End server.


(** ** A concrete update *)

#[export] Instance id_defaults {T Spec Status} `{StatusStorage T Spec Status} : SpecDefaults (T := T) id.
Proof. by split. Qed.

#[export] Instance ElasticsearchPilotStatus_eq_dec : EqDecision ElasticsearchPilotStatus.
Proof. solve_decision. Defined.
#[export] Instance CassandraPilotStatus_eq_dec : EqDecision CassandraPilotStatus.
Proof. solve_decision. Defined.
#[export] Instance PilotCondition_eq_dec : EqDecision PilotCondition.
Proof. solve_decision. Defined.
#[export] Instance PilotStatus_eq_dec : EqDecision PilotStatus.
Proof. solve_decision. Defined.
#[export] Instance Pilot_eq_dec : EqDecision Pilot.
Proof. solve_decision. Defined.

Definition pilotAt (rv : string) (documents : option Z) : Pilot :=
  mkPilot (mkObjectMeta "es-demo-0" "test" "uid-0" rv None None [] None)
    (mkPilotStatus [] (Some (mkElasticsearchPilotStatus documents None)) None).

(** The pilot was written at revision 7; the server is at 9, and someone writes
    another pilot while the update is under way. *)
Definition etcd7 : Etcd := mkEtcd {[("test", "es-demo-0") := mkEntry (pilotAt "" None) 7]} 7.
Definition etcd9 : Etcd := etcd_put ("test", "es-demo-2") (pilotAt "" None) (etcd_put ("test", "es-demo-1") (pilotAt "" None) etcd7).

Lemma etcd7_wf : wfEtcd etcd7.
Proof.
  split; [simpl; lia|]. intros key e Hk. unfold etcd7, et_kvs in Hk. apply lookup_singleton_Some in Hk as [_ <-]. simpl. lia.
Qed.

Lemma status_updates_are_not_lost_witness :
  ∃ sent out s',
    client_UpdateStatus (generatedClient "pilots" npil_Meta (λ p, inr p) sampleClient "test") (pilotAt "7" (Some 3)) = inr sent ∧
    serveUpdate (REST := pilot_NewREST) id id (λ p, inr p) (λ _, []) (λ _ _, []) "uid-1" None (λ _, None) (λ _ _, None)
      [etcd_put ("test", "es-demo-1") (pilotAt "" (Some 1))]
      (readKey id ("test", "es-demo-0") etcd7) sent etcd9 = Some (Ret (inr out), s') ∧
    npil_Status out = npil_Status (pilotAt "" (Some 3)).
Proof.
  destruct (status_updates_are_not_lost (REST := pilot_NewREST) id id (λ p, inr p) (λ _, []) (λ _ _, []) "uid-1" None (λ _, None) (λ _ _, None)
    id npil_Meta sampleClient "pilots" "test" (pilotAt "7" (Some 3)) (pilotAt "7" (Some 3))
    [etcd_put ("test", "es-demo-1") (pilotAt "" (Some 1))] etcd7 etcd7 etcd9 (mkEntry (pilotAt "" None) 7)
    (generatedClient "pilots" npil_Meta (λ p, inr p) sampleClient "test") ("test", "es-demo-0"))
    as (sent & res & s' & Hsent & Hserve & Hres & _).
  all: try reflexivity.
  - decide_closed.
  - split; [reflexivity|discriminate].
  - split; [reflexivity|discriminate].
  - exact etcd7_wf.
  - unfold etcd9. etransitivity; apply writes_put.
  - exact etcd7_wf.
  - unfold etcd9. etransitivity; apply writes_put.
  - left. reflexivity.
  - apply Forall_cons. split; [|by apply Forall_nil]. intros s. apply writes_put.
  - exists sent. assert (∃ out, res = Ret (inr out) ∧ et_rev s' = 11) as (out & Hout & Hrev).
    { vm_compute in Hsent. injection Hsent as <-. vm_compute in Hserve. injection Hserve as <- <-.
      eexists. split; reflexivity. }
    exists out, s'. split; [exact Hsent|]. split; [rewrite Hserve, Hout; reflexivity|].
    destruct (Hres out Hout) as (_ & Hstat & _); [rewrite Hrev; vm_compute; discriminate|]. exact Hstat.
Defined.
