(* ===== verification/FakeClient.v ===== *)
(** * The fake clients

    pkg/client/clientset/*/fake and the typed fakes: clients for tests that
    record every call as an action and answer it from an object tracker
    (vendor/k8s.io/client-go/testing: actions.go, fake.go, fixture.go).  The
    tracker keeps the objects of each resource in a list; one resource is
    modelled, and the shared record of actions. *)

From S2P Require Import Prelude GoStrings K8s Types Internal RestClient APIRoutes.

Section fake.
Context {T B : Type} `{HasMeta T}.
Context (resource : string).
(** labels.Parse; an invalid selector panics in ExtractFromListOptions. *)
Context (Parse : string → Res (option smap → bool)).

(** ** Object tracker *)

Definition fakeKey (obj : T) : string * string := (om_Namespace (objMeta obj), om_Name (objMeta obj)).

Definition withNamespace (ns : string) (obj : T) : T :=
  let m := objMeta obj in
  withMeta (mkObjectMeta (om_Name m) ns (om_UID m) (om_ResourceVersion m) (om_Labels m) (om_Annotations m)
    (om_OwnerReferences m) (om_DeletionTimestamp m)) obj.

Definition filterByNamespaceAndName (objs : list T) (ns name : string) : list T :=
  List.filter (λ obj,
    (bool_decide (ns = "") || bool_decide (om_Namespace (objMeta obj) = ns)) &&
    (bool_decide (name = "") || bool_decide (om_Name (objMeta obj) = name))) objs.

Definition AlreadyExists (name : string) : Err := StatusError StatusReasonAlreadyExists name [].

(** add: the first object of the same namespace and name is replaced, or is in the way. *)
Fixpoint addTo (replaceExisting : bool) (obj : T) (objs : list T) : option (Res (list T)) :=
  match objs with
  | [] => None
  | existing :: rest =>
      if bool_decide (fakeKey existing = fakeKey obj) then
        Some (if replaceExisting then inr (obj :: rest) else inl (AlreadyExists (om_Name (objMeta obj))))
      else
        match addTo replaceExisting obj rest with
        | None => None
        | Some (inl err) => Some (inl err)
        | Some (inr rest) => Some (inr (existing :: rest))
        end
  end.

Definition tracker_add (obj : T) (ns : string) (replaceExisting : bool) (objs : list T) : Res (list T) :=
  let obj := if bool_decide (om_Namespace (objMeta obj) = "") then withNamespace ns obj else obj in
  if negb (bool_decide (ns = om_Namespace (objMeta obj))) then
    inl (Errorf "request namespace does not match object namespace, request: %q object: %q"
           [AStr ns; AStr (om_Namespace (objMeta obj))])
  else
    match addTo replaceExisting obj objs with
    | Some r => r
    | None => if replaceExisting then inl (NewNotFound (om_Name (objMeta obj))) else inr (objs ++ [obj])
    end.

Definition tracker_Get (ns name : string) (objs : list T) : Res T :=
  match filterByNamespaceAndName objs ns name with
  | [] => inl (NewNotFound name)
  | [obj] => inr obj
  | _ => inl (Errorf "more than one object matched gvr %s, ns: %q name: %q" [AStr resource; AStr ns; AStr name])
  end.

Fixpoint removeFirst (key : string * string) (objs : list T) : option (list T) :=
  match objs with
  | [] => None
  | obj :: rest => if bool_decide (fakeKey obj = key) then Some rest else (obj ::.) <$> removeFirst key rest
  end.

Definition tracker_Delete (ns name : string) (objs : list T) : Res (list T) :=
  match removeFirst (ns, name) objs with
  | Some objs => inr objs
  | None => inl (NewNotFound name)
  end.

(** ** Actions *)

Inductive ActionImpl :=
| GetActionImpl (name : string)
| ListActionImpl
| WatchActionImpl
| CreateActionImpl (object : T)
| UpdateActionImpl (subresource : string) (object : T)
| DeleteActionImpl (name : string)
| DeleteCollectionActionImpl
| PatchActionImpl (name : string) (patch : B) (subresource : string).

Record Action := mkAction { ac_Verb : string; ac_Namespace : string; ac_Impl : ActionImpl }.

(** GetSubresource *)
Definition ac_Subresource (a : Action) : string :=
  match ac_Impl a with
  | UpdateActionImpl sub _ => sub
  | PatchActionImpl _ _ sub => sub
  | _ => ""
  end.

(** The name of the object an action is about. *)
Definition ac_Name (a : Action) : string :=
  match ac_Impl a with
  | GetActionImpl name | DeleteActionImpl name | PatchActionImpl name _ _ => name
  | UpdateActionImpl _ obj => om_Name (objMeta obj)
  | _ => ""
  end.

(** The Fake of a client set: its actions, and the objects of the resource. *)
Record Fake := mkFake { fk_actions : list Action; fk_objects : list T }.

Inductive Reply :=
| RObject (obj : T)
| RList (items : list T)
| RNothing.

Definition replyOf (r : Res T) : Res Reply :=
  match r with inl err => inl err | inr obj => inr (RObject obj) end.

(** ObjectReaction, by the implementation type of the action; [None] is not handled. *)
Definition ObjectReaction (a : Action) (objs : list T) : option (Res Reply * list T) :=
  let ns := ac_Namespace a in
  let store (r : Res (list T)) (obj : T) :=
    match r with
    | inl err => (inl err, objs)
    | inr objs => (replyOf (tracker_Get ns (om_Name (objMeta obj)) objs), objs)
    end in
  match ac_Impl a with
  | ListActionImpl => Some (inr (RList (filterByNamespaceAndName objs ns "")), objs)
  | GetActionImpl name => Some (replyOf (tracker_Get ns name objs), objs)
  | CreateActionImpl obj => Some (store (tracker_add obj ns false objs) obj)
  | UpdateActionImpl _ obj => Some (store (tracker_add obj ns true objs) obj)
  | DeleteActionImpl name =>
      match tracker_Delete ns name objs with
      | inl err => Some (inl err, objs)
      | inr objs => Some (inr RNothing, objs)
      end
  | _ => None
  end.

(** Fake.Invokes with the reactor of NewSimpleClientset *)
Definition Invokes (a : Action) (defaultReturn : Reply) : GoM Fake (Res Reply) := λ f,
  let actions := fk_actions f ++ [a] in
  match ObjectReaction a (fk_objects f) with
  | Some (r, objs) => (Ret r, mkFake actions objs)
  | None => (Ret (inr defaultReturn), mkFake actions (fk_objects f))
  end.

(** ** Typed fakes *)

Record FakeOps := mkFakeOps {
  fake_Get : string → GetOptions → GoM Fake (Res Reply);
  fake_List : ListOptions → GoM Fake (Res (list T));
  fake_Watch : ListOptions → GoM Fake ();
  fake_Create : T → GoM Fake (Res Reply);
  fake_Update : T → GoM Fake (Res Reply);
  fake_UpdateStatus : T → GoM Fake (Res Reply);
  fake_Delete : string → GoM Fake (option Err);
  fake_DeleteCollection : ListOptions → GoM Fake (option Err);
  fake_Patch : string → string → B → list string → GoM Fake (Res Reply);
}.

(** The zero object a call returns when no reactor handles it. *)
Context (zero : T).

(** The label selector of list options, which has to parse. *)
Definition ExtractFromListOptions (opts : ListOptions) : GoM Fake (option smap → bool) :=
  match Parse (lo_LabelSelector opts) with
  | inl err => go_panic "invalid selector %q: %v"
  | inr label => mret label
  end.

Definition generatedFake (ns : string) : FakeOps :=
  {| fake_Get name options := Invokes (mkAction "get" ns (GetActionImpl name)) (RObject zero);
     fake_List opts :=
       label ← ExtractFromListOptions opts;
       r ← Invokes (mkAction "list" ns ListActionImpl) (RList []);
       mret (match r with
             | inl err => inl err
             | inr (RList items) => inr (List.filter (λ item, label (om_Labels (objMeta item))) items)
             | inr _ => inr []
             end);
     fake_Watch opts :=
       _ ← ExtractFromListOptions opts;
       go_modify (λ f, mkFake (fk_actions f ++ [mkAction "watch" ns WatchActionImpl]) (fk_objects f));
     fake_Create obj := Invokes (mkAction "create" ns (CreateActionImpl obj)) (RObject zero);
     fake_Update obj := Invokes (mkAction "update" ns (UpdateActionImpl "" obj)) (RObject zero);
     fake_UpdateStatus obj := Invokes (mkAction "update" ns (UpdateActionImpl "status" obj)) (RObject zero);
     fake_Delete name := r ← Invokes (mkAction "delete" ns (DeleteActionImpl name)) (RObject zero); mret (res_err r);
     fake_DeleteCollection opts :=
       _ ← ExtractFromListOptions opts;
       r ← Invokes (mkAction "delete-collection" ns DeleteCollectionActionImpl) (RList []);
       mret (res_err r);
     fake_Patch name pt data subresources :=
       Invokes (mkAction "patch" ns (PatchActionImpl name data (path_Join subresources))) (RObject zero) |}.

(** NewSimpleClientset: the objects are added one by one, each in its namespace. *)
Fixpoint addAll (objects objs : list T) : outcome (list T) :=
  match objects with
  | [] => Ret objs
  | obj :: rest =>
      match tracker_add obj (om_Namespace (objMeta obj)) false objs with
      | inl err => Panic "the object cannot be added"
      | inr objs => addAll rest objs
      end
  end.

Definition NewSimpleClientset (objects : list T) : outcome Fake :=
  objs ← addAll objects []; Ret (mkFake [] objs).

(** ** The tracker is a map *)

(** No two objects of a tracker have the same namespace and name. *)
Definition uniqueKeys (objs : list T) : Prop := NoDup (map fakeKey objs).

(** The map a tracker stands for. *)
Definition view (objs : list T) : gmap (string * string) T := list_to_map (map (λ o, (fakeKey o, o)) objs).

Lemma view_fst objs : (map (λ o, (fakeKey o, o)) objs).*1 = map fakeKey objs.
Proof. induction objs as [|o objs IH]; [done|]. simpl. by rewrite <- IH. Qed.

Lemma view_Some objs key obj : uniqueKeys objs → view objs !! key = Some obj ↔ obj ∈ objs ∧ fakeKey obj = key.
Proof.
  intros Hu. unfold view. rewrite <- elem_of_list_to_map by (by rewrite view_fst).
  rewrite list_elem_of_fmap. split.
  - by intros (o & [= -> ->] & Ho).
  - intros [Ho <-]. eauto.
Qed.

Lemma view_None objs key : uniqueKeys objs → view objs !! key = None ↔ key ∉ map fakeKey objs.
Proof. intros Hu. unfold view. by rewrite <- not_elem_of_list_to_map, view_fst. Qed.

Lemma addTo_None replace obj objs : addTo replace obj objs = None ↔ fakeKey obj ∉ map fakeKey objs.
Proof.
  induction objs as [|o objs IH]; simpl; [split; [intros _; apply not_elem_of_nil|done]|].
  rewrite not_elem_of_cons. case_bool_decide as Hk; [split; [done|intros [? _]; congruence]|].
  rewrite <- IH. destruct (addTo replace obj objs) as [[|]|]; [by split; [|intros [_ ?]]..|].
  split; [|done]. intros _. split; [congruence|done].
Qed.

Lemma addTo_create obj objs r : addTo false obj objs = Some r → r = inl (AlreadyExists (om_Name (objMeta obj))).
Proof.
  revert r. induction objs as [|o objs IH]; intros r; simpl; [done|]. case_bool_decide; [by intros [= <-]|].
  destruct (addTo false obj objs) as [r'|]; [|done]. specialize (IH r' eq_refl) as ->. by intros [= <-].
Qed.

Lemma addTo_replace obj objs r :
  uniqueKeys objs → addTo true obj objs = Some r →
  ∃ objs', r = inr objs' ∧ map fakeKey objs' = map fakeKey objs ∧ view objs' = <[fakeKey obj := obj]> (view objs).
Proof.
  revert r. induction objs as [|o objs IH]; intros r Hu; simpl; [done|]. apply NoDup_cons in Hu as [Hni Hu].
  case_bool_decide as Hk.
  - intros [= <-]. exists (obj :: objs). split_and!; [done|simpl; by rewrite Hk|].
    unfold view. simpl. rewrite Hk. by rewrite insert_insert_eq.
  - destruct (addTo true obj objs) as [r'|] eqn:Hadd; [|done].
    destruct (IH r' Hu eq_refl) as (objs' & -> & Hmap & Hview). intros [= <-]. exists (o :: objs').
    split_and!; [done|simpl; by rewrite Hmap|]. unfold view in *. simpl. rewrite Hview. by rewrite insert_insert_ne.
Qed.

Lemma removeFirst_view key objs :
  uniqueKeys objs →
  match removeFirst key objs with
  | Some objs' => key ∈ map fakeKey objs ∧ uniqueKeys objs' ∧ view objs' = delete key (view objs) ∧ objs' ⊆ objs
  | None => key ∉ map fakeKey objs
  end.
Proof.
  induction objs as [|o objs IH]; intros Hu; simpl; [apply not_elem_of_nil|]. apply NoDup_cons in Hu as [Hni Hu].
  case_bool_decide as Hk.
  - split_and!; [subst; apply elem_of_cons; by left|done| |set_solver].
    unfold view. simpl. rewrite Hk, delete_insert_id; [done|]. apply view_None; [done|by rewrite <- Hk].
  - specialize (IH Hu). destruct (removeFirst key objs) as [objs'|]; simpl.
    + destruct IH as (Hin & Hu' & Hview & Hsub). split_and!; [apply elem_of_cons; by right| | |set_solver].
      * apply NoDup_cons. split; [|done]. intros Hin'. apply Hni. apply list_elem_of_fmap in Hin' as (x & -> & Hx).
        apply list_elem_of_fmap. exists x. split; [done|]. by apply Hsub.
      * unfold view in *. simpl. rewrite Hview. by rewrite delete_insert_ne by congruence.
    + rewrite not_elem_of_cons. split; [congruence|done].
Qed.

Lemma filter_unique objs ns name :
  uniqueKeys objs → ns ≠ "" → name ≠ "" →
  filterByNamespaceAndName objs ns name = match view objs !! (ns, name) with Some obj => [obj] | None => [] end.
Proof.
  intros Hu Hns Hname. unfold filterByNamespaceAndName. rewrite (bool_decide_eq_false_2 _ Hns), (bool_decide_eq_false_2 _ Hname).
  cbn [orb]. induction objs as [|o objs IH]; [done|]. apply NoDup_cons in Hu as [Hni Hu]. specialize (IH Hu). simpl.
  unfold view. simpl. fold (view objs). rewrite IH. destruct (decide (fakeKey o = (ns, name))) as [Hk|Hk].
  - rewrite Hk, lookup_insert_eq. assert (om_Namespace (objMeta o) = ns ∧ om_Name (objMeta o) = name) as [-> ->] by (by injection Hk).
    rewrite !bool_decide_eq_true_2 by done. simpl.
    destruct (view objs !! (ns, name)) eqn:Hv; [|done]. exfalso. apply Hni. apply view_Some in Hv as [Hin Hkey]; [|done].
    rewrite Hk, <- Hkey. apply list_elem_of_fmap. eauto.
  - rewrite lookup_insert_ne by done. destruct (bool_decide _ && bool_decide _) eqn:Hb; [|done].
    apply andb_true_iff in Hb as [H1 H2]. apply bool_decide_eq_true in H1, H2. destruct Hk. unfold fakeKey. by rewrite H1, H2.
Qed.

Lemma tracker_Get_view objs ns name :
  uniqueKeys objs → ns ≠ "" → name ≠ "" →
  tracker_Get ns name objs = match view objs !! (ns, name) with Some obj => inr obj | None => inl (NewNotFound name) end.
Proof. intros Hu Hns Hname. unfold tracker_Get. rewrite filter_unique by done. by destruct (view objs !! (ns, name)). Qed.

(** The object as it is stored: an empty namespace becomes the client's. *)
Definition normalized (ns : string) (obj : T) : T :=
  if bool_decide (om_Namespace (objMeta obj) = "") then withNamespace ns obj else obj.

Lemma normalized_name ns obj : om_Name (objMeta (normalized ns obj)) = om_Name (objMeta obj).
Proof. unfold normalized, withNamespace. case_bool_decide; [by rewrite objMeta_withMeta|done]. Qed.

Lemma uniqueKeys_snoc objs obj : uniqueKeys objs → fakeKey obj ∉ map fakeKey objs → uniqueKeys (objs ++ [obj]).
Proof.
  intros Hu Hni. unfold uniqueKeys. rewrite map_app. apply NoDup_app. split_and!; [done| |by apply NoDup_singleton].
  intros k Hk Hk'. apply list_elem_of_singleton in Hk' as ->. done.
Qed.

Lemma view_snoc objs obj : fakeKey obj ∉ map fakeKey objs → view (objs ++ [obj]) = <[fakeKey obj := obj]> (view objs).
Proof.
  unfold view. induction objs as [|o objs IH]; [done|]. simpl. rewrite not_elem_of_cons. intros [Hne Hni].
  rewrite IH by done. by rewrite insert_insert_ne by congruence.
Qed.

(** What storing an object does to the map. *)
Definition stored (replace : bool) (ns : string) (obj : T) (m : gmap (string * string) T) : Res (gmap (string * string) T) :=
  let o := normalized ns obj in
  if bool_decide (ns = om_Namespace (objMeta o)) then
    match m !! fakeKey o, replace with
    | Some _, false => inl (AlreadyExists (om_Name (objMeta o)))
    | None, true => inl (NewNotFound (om_Name (objMeta o)))
    | _, _ => inr (<[fakeKey o := o]> m)
    end
  else inl (Errorf "request namespace does not match object namespace, request: %q object: %q"
              [AStr ns; AStr (om_Namespace (objMeta o))]).

Lemma tracker_add_view replace ns obj objs :
  uniqueKeys objs →
  match tracker_add obj ns replace objs with
  | inl err => stored replace ns obj (view objs) = inl err
  | inr objs' => uniqueKeys objs' ∧ stored replace ns obj (view objs) = inr (view objs')
  end.
Proof.
  intros Hu. unfold tracker_add, stored. fold (normalized ns obj). set (o := normalized ns obj). cbv zeta.
  destruct (bool_decide (ns = om_Namespace (objMeta o))); [cbn [negb]|done].
  destruct (addTo replace o objs) as [r|] eqn:Hadd.
  - assert (∃ o', view objs !! fakeKey o = Some o') as [o' Hv].
    { destruct (view objs !! fakeKey o) eqn:Hv; [eauto|]. apply view_None, addTo_None with (replace := replace) in Hv; [congruence|done]. }
    rewrite Hv. destruct replace.
    + apply addTo_replace in Hadd as (objs' & -> & Hmap & Hview); [|done]. unfold uniqueKeys. by rewrite Hmap, Hview.
    + by apply addTo_create in Hadd as ->.
  - apply addTo_None in Hadd as Hni. rewrite (proj2 (view_None objs (fakeKey o) Hu) Hni). destruct replace; [done|].
    split; [by apply uniqueKeys_snoc|by rewrite view_snoc].
Qed.

Lemma store_reply replace ns obj objs objs' :
  uniqueKeys objs → ns ≠ "" → om_Name (objMeta obj) ≠ "" → tracker_add obj ns replace objs = inr objs' →
  tracker_Get ns (om_Name (objMeta obj)) objs' = inr (normalized ns obj).
Proof.
  intros Hu Hns Hname Hadd. pose proof (tracker_add_view replace ns obj objs Hu) as Hv. rewrite Hadd in Hv.
  destruct Hv as [Hu' Hst]. rewrite tracker_Get_view by done. unfold stored in Hst. cbv zeta in Hst.
  case_bool_decide as Hn; [|done].
  assert (fakeKey (normalized ns obj) = (ns, om_Name (objMeta obj))) as Hk.
  { unfold fakeKey. by rewrite <- Hn, normalized_name. }
  rewrite Hk in Hst. destruct (view objs !! _), replace; simplify_eq; by rewrite <- Hst, lookup_insert_eq.
Qed.

Lemma addAll_unique objects objs objs' : uniqueKeys objs → addAll objects objs = Ret objs' → uniqueKeys objs'.
Proof.
  revert objs. induction objects as [|o objects IH]; intros objs Hu; simpl; [by intros [= <-]|].
  pose proof (tracker_add_view false (om_Namespace (objMeta o)) o objs Hu) as Hv.
  destruct (tracker_add _ _ _ _) as [|objs1]; [done|]. by apply IH, Hv.
Qed.

(** A new client set starts with unique objects. *)
Lemma NewSimpleClientset_unique objects f : NewSimpleClientset objects = Ret f → uniqueKeys (fk_objects f).
Proof.
  unfold NewSimpleClientset. destruct (addAll objects []) as [objs|] eqn:Ha; [|done]. intros [= <-].
  by apply (addAll_unique objects []); [constructor|].
Qed.

(** C20. The fake client used by the tests, in a named namespace and while the tracked keys are
    unique (as they are in a new client), refines a map from namespace and name to objects:
    create, update and status update of named objects, get, delete and list with a label selector
    answer and change the tracked objects as the operations of the map do, and the keys stay
    unique. A create of a tracked object answers AlreadyExists, and an update, get or delete of
    an untracked one NotFound, the delete contrary to the comment of the tracker. *)
Theorem fake_client_refines_map ns ops f :
  ops = generatedFake ns → uniqueKeys (fk_objects f) → ns ≠ "" →
  (∀ replace obj r f',
     (if replace : bool then fake_Update ops obj f = (r, f') ∨ fake_UpdateStatus ops obj f = (r, f') else fake_Create ops obj f = (r, f')) →
     om_Name (objMeta obj) ≠ "" →
     uniqueKeys (fk_objects f') ∧
     match stored replace ns obj (view (fk_objects f)) with
     | inl err => r = Ret (inl err) ∧ fk_objects f' = fk_objects f
     | inr m => r = Ret (inr (RObject (normalized ns obj))) ∧ view (fk_objects f') = m
     end) ∧
  (∀ name o, name ≠ "" →
     (fake_Get ops name o f).1 =
       Ret (match view (fk_objects f) !! (ns, name) with Some obj => inr (RObject obj) | None => inl (NewNotFound name) end) ∧
     fk_objects (fake_Get ops name o f).2 = fk_objects f) ∧
  (∀ name, let '(r, f') := fake_Delete ops name f in
     uniqueKeys (fk_objects f') ∧ view (fk_objects f') = delete (ns, name) (view (fk_objects f)) ∧
     r = Ret (match view (fk_objects f) !! (ns, name) with Some _ => None | None => Some (NewNotFound name) end)) ∧
  (∀ o label, Parse (lo_LabelSelector o) = inr label →
     ∃ items, fake_List ops o f = (Ret (inr items), mkFake (fk_actions f ++ [mkAction "list" ns ListActionImpl]) (fk_objects f)) ∧
       ∀ obj, obj ∈ items ↔ (∃ name, view (fk_objects f) !! (ns, name) = Some obj) ∧ label (om_Labels (objMeta obj)) = true).
Proof.
  intros -> Hu Hns. split_and!.
  - intros replace obj r f' Hcall Hname. pose proof (tracker_add_view replace ns obj (fk_objects f) Hu) as Hview.
    pose proof (store_reply replace ns obj (fk_objects f)) as Hreply.
    assert ((r, f') = match tracker_add obj ns replace (fk_objects f) with
                      | inl err => (Ret (inl err), mkFake (fk_actions f') (fk_objects f))
                      | inr objs' => (Ret (replyOf (tracker_Get ns (om_Name (objMeta obj)) objs')), mkFake (fk_actions f') objs')
                      end) as Hr.
    { destruct replace; [destruct Hcall as [Hc|Hc]|rename Hcall into Hc]; simpl in Hc; unfold Invokes in Hc; simpl in Hc;
        destruct (tracker_add _ _ _ _); by injection Hc as <- <-. }
    destruct (tracker_add obj ns replace (fk_objects f)) as [err|objs'].
    + rewrite Hview. injection Hr as -> Hf. rewrite Hf. simpl. done.
    + destruct Hview as [Hu' ->]. rewrite (Hreply objs') in Hr by done. injection Hr as -> Hf. rewrite Hf. simpl. done.
  - intros name o Hname. simpl. unfold Invokes. simpl. rewrite tracker_Get_view by done.
    by destruct (view (fk_objects f) !! (ns, name)).
  - intros name. simpl. unfold mbind, gom_bind, Invokes, mret, gom_ret, ObjectReaction. cbn -[view]. unfold tracker_Delete.
    pose proof (removeFirst_view (ns, name) (fk_objects f) Hu) as Hrm.
    destruct (removeFirst (ns, name) (fk_objects f)) as [objs'|]; cbn -[view].
    + destruct Hrm as (Hin & Hu' & Hv & _). split_and!; [done..|]. destruct (view _ !! _) eqn:Hk; [done|].
      by apply view_None in Hk.
    + pose proof (proj2 (view_None _ _ Hu) Hrm) as Hk. split_and!; [done|by rewrite delete_id|by rewrite Hk].
  - intros o label Hp. simpl. unfold ExtractFromListOptions. rewrite Hp. eexists. split; [reflexivity|].
    intros obj. rewrite list_elem_of_In, filter_In, <- list_elem_of_In. unfold filterByNamespaceAndName.
    rewrite list_elem_of_In, filter_In, <- list_elem_of_In, (bool_decide_eq_false_2 _ Hns). simpl. rewrite andb_true_r, bool_decide_eq_true.
    split.
    + intros [[Hin Hn] Hl]. split; [|done]. exists (om_Name (objMeta obj)). apply view_Some; [done|]. split; [done|]. unfold fakeKey. by rewrite Hn.
    + intros [[name Hv] Hl]. apply view_Some in Hv as [Hin Hk]; [|done]. split; [|done]. split; [done|]. by injection Hk.
Qed.
End fake.

Arguments Fake : clear implicits.

(** The typed fakes; the objects are of the client's version. *)
Definition v1alpha1_FakePilots {B} := generatedFake (T := Types.Pilot) (B := B) "pilots".
Definition v1alpha1_FakeElasticsearchClusters {B} := generatedFake (T := Types.ElasticsearchCluster) (B := B) "elasticsearchclusters".
Definition v1alpha1_FakeCassandraClusters {B} := generatedFake (T := Types.CassandraCluster) (B := B) "cassandraclusters".
Definition internalversion_FakePilots {B} := generatedFake (T := Internal.Pilot) (B := B) "pilots".
Definition internalversion_FakeElasticsearchClusters {B} :=
  generatedFake (T := Internal.ElasticsearchCluster) (B := B) "elasticsearchclusters".
Definition internalversion_FakeCassandraClusters {B} := generatedFake (T := Internal.CassandraCluster) (B := B) "cassandraclusters".

(** A client set with one pilot, which is updated. *)
Definition fakePilot (ns : string) (documents : option Z) : Types.Pilot :=
  Types.mkPilot (newObjectMeta "es-demo-0" ns None None [])
    (Types.mkPilotStatus [] (Some (Types.mkElasticsearchPilotStatus documents None)) None).

Lemma fake_client_refines_map_witness :
  ∃ f', fake_UpdateStatus (v1alpha1_FakePilots (B := string) (λ _, inr (λ _, true)) (fakePilot "" None) "test") (fakePilot "" (Some 5))
          (mkFake [] [fakePilot "test" None]) = (Ret (inr (RObject (fakePilot "test" (Some 5)))), f') ∧
        view (fk_objects f') = {[("test", "es-demo-0") := fakePilot "test" (Some 5)]}.
Proof.
  set (f0 := mkFake [] [fakePilot "test" None]).
  destruct (fake_UpdateStatus (v1alpha1_FakePilots (B := string) (λ _, inr (λ _, true)) (fakePilot "" None) "test")
    (fakePilot "" (Some 5)) f0) as [r f'] eqn:Hcall.
  destruct (fake_client_refines_map (B := string) "pilots" (λ _, inr (λ _, true)) (fakePilot "" None) "test" _ f0 eq_refl) as [Hst _].
  - apply (NewSimpleClientset_unique (B := string) [fakePilot "test" None]). reflexivity.
  - discriminate.
  - destruct (Hst true (fakePilot "" (Some 5)) r f') as [_ Hrep]; [right; exact Hcall|discriminate|].
    exists f'. vm_compute in Hrep. destruct Hrep as [-> Hview]. split; [reflexivity|]. exact Hview.
Defined.
