(* ===== verification/Informers.v ===== *)
(** * Shared informers

    pkg/client/informers: the factories of both client sets, which keep one
    informer per type and start each once, and the informers of the three
    types, which list and watch through the typed clients.  The maps of the
    factory refer to informers by an index into those made so far; [fa_runs]
    records every [go informer.Run]. *)

From S2P Require Import Prelude GoStrings K8s Types Internal RestClient APIRoutes.

(** reflect.TypeOf of the objects *)
Inductive ObjType := TPilot | TElasticsearchCluster | TCassandraCluster.
#[export] Instance ObjType_eq_dec : EqDecision ObjType.
Proof. solve_decision. Defined.
#[export] Instance ObjType_countable : Countable ObjType.
Proof.
  refine (inj_countable' (λ t, match t with TPilot => 0 | TElasticsearchCluster => 1 | TCassandraCluster => 2 end)
    (λ n, match n with 0 => TPilot | 1 => TElasticsearchCluster | _ => TCassandraCluster end) _)%nat.
  by intros [].
Defined.

(** The resource of a type, which its client names in every request. *)
Definition typeResource (t : ObjType) : string :=
  match t with
  | TPilot => "pilots"
  | TElasticsearchCluster => "elasticsearchclusters"
  | TCassandraCluster => "cassandraclusters"
  end.

Section informers.
(** The requests of a client set: of each type, in a namespace. *)
Context {B : Type}.
Record ListWatcher := mkListWatcher {
  lw_List : ListOptions → Res (Sent B);
  lw_Watch : ListOptions → Res (Sent B);
}.
Context (client : ObjType → string → ListWatcher).

(** cache.NewSharedIndexInformer: what an informer lists and watches, and its indexers. *)
Record Informer := mkInformer {
  inf_ListWatch : ListWatcher;
  inf_Type : ObjType;
  inf_Resync : Z;
  inf_Indexers : list string;
}.

Definition tweak (tweakListOptions : option (ListOptions → ListOptions)) (options : ListOptions) : ListOptions :=
  match tweakListOptions with
  | Some f => f options
  | None => options
  end.

(** NewFilteredPilotInformer, NewFilteredElasticsearchClusterInformer and
    NewFilteredCassandraClusterInformer *)
Definition NewFilteredInformer (t : ObjType) (namespace : string) (resyncPeriod : Z) (indexers : list string)
    (tweakListOptions : option (ListOptions → ListOptions)) : Informer :=
  {| inf_ListWatch :=
       {| lw_List options := lw_List (client t namespace) (tweak tweakListOptions options);
          lw_Watch options := lw_Watch (client t namespace) (tweak tweakListOptions options) |};
     inf_Type := t;
     inf_Resync := resyncPeriod;
     inf_Indexers := indexers |}.

Definition NamespaceIndex : string := "namespace".

(** ** The factory *)

Record sharedInformerFactory := mkFactory {
  fa_namespace : string;
  fa_tweakListOptions : option (ListOptions → ListOptions);
  fa_defaultResync : Z;
  fa_informers : gmap ObjType nat;
  fa_startedInformers : gmap ObjType bool;
  fa_made : list Informer;
  fa_runs : list nat;
}.

Definition NewFilteredSharedInformerFactory (defaultResync : Z) (namespace : string)
    (tweakListOptions : option (ListOptions → ListOptions)) : sharedInformerFactory :=
  mkFactory namespace tweakListOptions defaultResync ∅ ∅ [] [].

Definition NewSharedInformerFactory (defaultResync : Z) : sharedInformerFactory :=
  NewFilteredSharedInformerFactory defaultResync "" None.

Definition InformerFor (t : ObjType) (newFunc : Z → Informer) (f : sharedInformerFactory) : nat * sharedInformerFactory :=
  match fa_informers f !! t with
  | Some informer => (informer, f)
  | None =>
      let informer := length (fa_made f) in
      (informer,
       mkFactory (fa_namespace f) (fa_tweakListOptions f) (fa_defaultResync f) (<[t := informer]> (fa_informers f))
         (fa_startedInformers f) (fa_made f ++ [newFunc (fa_defaultResync f)]) (fa_runs f))
  end.

(** Informer of pilotInformer and its siblings, with defaultInformer *)
Definition typeInformer (t : ObjType) (f : sharedInformerFactory) : nat * sharedInformerFactory :=
  InformerFor t (λ resyncPeriod,
    NewFilteredInformer t (fa_namespace f) resyncPeriod [NamespaceIndex] (fa_tweakListOptions f)) f.

(** One iteration of the loop of Start *)
Definition startOne (informerType : ObjType) (informer : nat) (f : sharedInformerFactory) : sharedInformerFactory :=
  if negb (default false (fa_startedInformers f !! informerType)) then
    mkFactory (fa_namespace f) (fa_tweakListOptions f) (fa_defaultResync f) (fa_informers f)
      (<[informerType := true]> (fa_startedInformers f)) (fa_made f) (fa_runs f ++ [informer])
  else f.

(** Start, in some order of the map *)
Definition Start (f : sharedInformerFactory) : sharedInformerFactory :=
  foldl (λ f '(informerType, informer), startOne informerType informer f) f (map_to_list (fa_informers f)).

(** WaitForCacheSync waits for the informers that are started; [hasSynced] tells
    how each wait ends. *)
Definition WaitForCacheSync (hasSynced : nat → bool) (f : sharedInformerFactory) : gmap ObjType bool :=
  hasSynced <$> filter (λ '(t, _), default false (fa_startedInformers f !! t) = true) (fa_informers f).

(** ForResource, for the group version of the factory's client set *)
Definition ForResource (gv : GroupVersion) (group version resource : string) (f : sharedInformerFactory)
    : Res nat * sharedInformerFactory :=
  let informerOf t := let '(i, f) := typeInformer t f in (inr i, f) in
  if bool_decide ((group, version) = (gv_Group gv, gv_Version gv)) then
    if bool_decide (resource = "cassandraclusters") then informerOf TCassandraCluster
    else if bool_decide (resource = "elasticsearchclusters") then informerOf TElasticsearchCluster
    else if bool_decide (resource = "pilots") then informerOf TPilot
    else (inl (Errorf "no informer found for %v" [AStr resource]), f)
  else (inl (Errorf "no informer found for %v" [AStr resource]), f).

(** ** Uses of a factory *)

Inductive use :=
| UseInformer (t : ObjType)
| UseForResource (gv : GroupVersion) (group version resource : string)
| UseStart.

Definition step (f : sharedInformerFactory) (u : use) : sharedInformerFactory :=
  match u with
  | UseInformer t => (typeInformer t f).2
  | UseForResource gv group version resource => (ForResource gv group version resource f).2
  | UseStart => Start f
  end.

(** ** One informer per type, each started once *)

Definition defaultOf (t : ObjType) (f : sharedInformerFactory) : Informer :=
  NewFilteredInformer t (fa_namespace f) (fa_defaultResync f) [NamespaceIndex] (fa_tweakListOptions f).

Record factoryInv (f : sharedInformerFactory) : Prop := {
  inv_made t i : fa_informers f !! t = Some i → fa_made f !! i = Some (defaultOf t f);
  inv_all i inf : fa_made f !! i = Some inf → fa_informers f !! inf_Type inf = Some i;
  inv_runs_once : NoDup (fa_runs f);
  inv_runs i : i ∈ fa_runs f ↔ ∃ t, fa_informers f !! t = Some i ∧ fa_startedInformers f !! t = Some true;
  inv_started t b : fa_startedInformers f !! t = Some b → b = true ∧ is_Some (fa_informers f !! t);
}.

Lemma factoryInv_new resync ns tweaks : factoryInv (NewFilteredSharedInformerFactory resync ns tweaks).
Proof.
  split; simpl; try done.
  - constructor.
  - intros i. split; [by intros ?%not_elem_of_nil|]. by intros (t & ? & _).
Qed.

Lemma informers_inj f t t' i : factoryInv f → fa_informers f !! t = Some i → fa_informers f !! t' = Some i → t = t'.
Proof.
  intros Hi Ht Ht'. pose proof (inv_made f Hi t i Ht) as H1. pose proof (inv_made f Hi t' i Ht') as H2.
  assert (defaultOf t f = defaultOf t' f) as He by congruence. by apply (f_equal inf_Type) in He.
Qed.

Lemma typeInformer_spec t f :
  factoryInv f →
  factoryInv (typeInformer t f).2 ∧ fa_informers (typeInformer t f).2 !! t = Some (typeInformer t f).1 ∧
  fa_runs (typeInformer t f).2 = fa_runs f ∧ fa_startedInformers (typeInformer t f).2 = fa_startedInformers f ∧
  (∀ t' i, fa_informers f !! t' = Some i → fa_informers (typeInformer t f).2 !! t' = Some i).
Proof.
  intros Hi. unfold typeInformer, InformerFor. destruct (fa_informers f !! t) as [i|] eqn:Ht; [done|]. simpl.
  assert (∀ t' i, fa_informers f !! t' = Some i → <[t := length (fa_made f)]> (fa_informers f) !! t' = Some i) as Hkeep.
  { intros t' i Ht'. rewrite lookup_insert_ne; [done|]. congruence. }
  split_and!; [|by rewrite lookup_insert_eq|done|done|done]. split; simpl.
  - intros t' i. rewrite lookup_insert_Some. intros [[<- <-]|[Hne Ht']].
    + rewrite lookup_app_r, Nat.sub_diag by done. done.
    + apply (inv_made f Hi) in Ht'. rewrite lookup_app_l by (by eapply lookup_lt_Some). done.
  - intros i inf. rewrite lookup_app_Some. intros [Hinf|[Hle Hinf]].
    + by apply Hkeep, (inv_all f Hi).
    + apply list_lookup_singleton_Some in Hinf as [Heq <-]. simpl. rewrite lookup_insert_eq. f_equal. lia.
  - apply (inv_runs_once f Hi).
  - intros i. rewrite (inv_runs f Hi). split.
    + intros (t' & Ht' & Hs). exists t'. by split; [apply Hkeep|].
    + intros (t' & Ht' & Hs). exists t'. split; [|done]. apply lookup_insert_Some in Ht' as [[<- _]|[_ ?]]; [|done].
      apply (inv_started f Hi) in Hs as [_ [? ?]]. congruence.
  - intros t' b Hs. destruct (inv_started f Hi t' b Hs) as [-> [i Ht']]. split; [done|]. exists i. by apply Hkeep.
Qed.

Lemma startOne_inv t i f :
  factoryInv f → fa_informers f !! t = Some i →
  factoryInv (startOne t i f) ∧ fa_informers (startOne t i f) = fa_informers f ∧
  fa_startedInformers (startOne t i f) !! t = Some true ∧
  (∀ t', fa_startedInformers f !! t' = Some true → fa_startedInformers (startOne t i f) !! t' = Some true).
Proof.
  intros Hi Ht. unfold startOne. destruct (fa_startedInformers f !! t) as [b|] eqn:Hs; simpl.
  - destruct (inv_started f Hi t b Hs) as [-> _]. done.
  - assert (i ∉ fa_runs f) as Hni.
    { intros (t' & Ht' & Hs')%(inv_runs f Hi). rewrite (informers_inj f t t' i) in Hs by done. congruence. }
    split_and!; [|done|by rewrite lookup_insert_eq|].
    + split; simpl.
      * apply (inv_made f Hi).
      * apply (inv_all f Hi).
      * apply NoDup_app. split_and!; [apply (inv_runs_once f Hi)| |by apply NoDup_singleton].
        intros j Hj Hj'. apply list_elem_of_singleton in Hj' as ->. done.
      * intros j. rewrite elem_of_app, list_elem_of_singleton, (inv_runs f Hi). split.
        -- intros [(t' & Ht' & Hs')| ->]; [|exists t; by rewrite lookup_insert_eq].
           exists t'. split; [done|]. rewrite lookup_insert_ne; [done|]. congruence.
        -- intros (t' & Ht' & Hs'). destruct (decide (t = t')) as [<-|Hne]; [right; congruence|].
           rewrite lookup_insert_ne in Hs' by done. left. eauto.
      * intros t' b. rewrite lookup_insert_Some. intros [[<- <-]|[_ Hs']]; [by eauto|by apply (inv_started f Hi)].
    + intros t' Hs'. rewrite lookup_insert_ne; [done|]. congruence.
Qed.

Lemma Start_spec f :
  factoryInv f →
  factoryInv (Start f) ∧ fa_informers (Start f) = fa_informers f ∧
  (∀ t i, fa_informers f !! t = Some i → fa_startedInformers (Start f) !! t = Some true).
Proof.
  intros Hi. unfold Start.
  assert (∀ l g, (∀ t i, (t, i) ∈ l → fa_informers f !! t = Some i) → factoryInv g → fa_informers g = fa_informers f →
    let g' := foldl (λ f '(informerType, informer), startOne informerType informer f) g l in
    factoryInv g' ∧ fa_informers g' = fa_informers f ∧
    (∀ t, fa_startedInformers g !! t = Some true ∨ (∃ i, (t, i) ∈ l) → fa_startedInformers g' !! t = Some true)) as Hloop.
  { induction l as [|[t i] l IH]; intros g Hl Hg Hinf; simpl.
    - split_and!; [done..|]. intros t [?|[i ?%not_elem_of_nil]]; done.
    - destruct (startOne_inv t i g Hg) as (Hg' & Hinf' & Ht & Hkeep); [rewrite Hinf; apply Hl, elem_of_cons; by left|].
      destruct (IH (startOne t i g)) as (Hg2 & Hinf2 & Hall); [|done|congruence|].
      + intros t' i' Hin. apply Hl, elem_of_cons. by right.
      + split_and!; [done..|]. intros t' [Hs|[i' Hin]]; [apply Hall; left; by apply Hkeep|].
        apply elem_of_cons in Hin as [[= -> ->]|Hin]; apply Hall; [by left|right; eauto]. }
  destruct (Hloop (map_to_list (fa_informers f)) f) as (H1 & H2 & H3); [|done|done|].
  - intros t i. apply elem_of_map_to_list.
  - split_and!; [done..|]. intros t i Ht. apply H3. right. exists i. by apply elem_of_map_to_list.
Qed.

Lemma step_inv f u : factoryInv f → factoryInv (step f u).
Proof.
  intros Hi. destruct u as [t|gv g v r|]; simpl; [by apply typeInformer_spec| |by apply Start_spec].
  assert (∀ t, factoryInv (let '(i, f) := typeInformer t f in (inr i : Res nat, f)).2) as Ht.
  { intros t. destruct (typeInformer_spec t f Hi) as [H _]. by destruct (typeInformer t f). }
  unfold ForResource. cbv zeta. repeat case_bool_decide; [apply Ht..|done|done].
Qed.

(** The namespace and the tweak of a factory never change. *)
Definition config (f : sharedInformerFactory) := (fa_namespace f, fa_tweakListOptions f).

Lemma Start_config f : config (Start f) = config f.
Proof.
  unfold Start. assert (∀ l g, config (foldl (λ f '(informerType, informer), startOne informerType informer f) g l) = config g) as Hl;
    [|apply Hl].
  induction l as [|[t i] l IH]; intros g; [done|]. simpl. rewrite IH. unfold startOne. by destruct (negb _).
Qed.

Lemma step_config f u : config (step f u) = config f.
Proof.
  assert (∀ t, config (typeInformer t f).2 = config f) as Ht.
  { intros t. unfold typeInformer, InformerFor. by destruct (fa_informers f !! t). }
  destruct u as [t|gv g v r|]; [apply Ht| |apply Start_config]. simpl. unfold ForResource. cbv zeta.
  repeat case_bool_decide; try done; match goal with |- context [typeInformer ?t f] => specialize (Ht t); by destruct (typeInformer t f) end.
Qed.

Lemma uses_config us f : fa_namespace (foldl step f us) = fa_namespace f ∧ fa_tweakListOptions (foldl step f us) = fa_tweakListOptions f.
Proof.
  assert (config (foldl step f us) = config f) as Hc; [|by injection Hc].
  revert f. induction us as [|u us IH]; intros f; [done|]. simpl. by rewrite IH, step_config.
Qed.

Lemma uses_inv us f : factoryInv f → factoryInv (foldl step f us).
Proof. revert f. induction us as [|u us IH]; intros f Hf; [done|]. simpl. by apply IH, step_inv. Qed.
End informers.

(** ** The informers of a client set *)

(** Lists and watches are requests without a body. *)
Definition noBody {A B} : A → Res B := λ _, inl (Errorf "no body" []).

Definition listWatchOf {T B} (ops : ClientOps T B) : ListWatcher (B := B) :=
  mkListWatcher (client_List ops) (client_Watch ops).

(** client.NavigatorV1alpha1() of the informers of the versioned client set *)
Definition v1alpha1_pilotListWatch {B} (c : RESTClient) (namespace : string) : ListWatcher (B := B) :=
  listWatchOf (v1alpha1_pilots noBody c namespace).

Definition v1alpha1_elasticsearchClusterListWatch {B} (c : RESTClient) (namespace : string) : ListWatcher (B := B) :=
  listWatchOf (v1alpha1_elasticsearchClusters noBody c namespace).

Definition v1alpha1_cassandraClusterListWatch {B} (c : RESTClient) (namespace : string) : ListWatcher (B := B) :=
  listWatchOf (v1alpha1_cassandraClusters noBody c namespace).

Definition versionedListWatch {B} (c : RESTClient) (t : ObjType) : string → ListWatcher (B := B) :=
  match t with
  | TPilot => v1alpha1_pilotListWatch c
  | TElasticsearchCluster => v1alpha1_elasticsearchClusterListWatch c
  | TCassandraCluster => v1alpha1_cassandraClusterListWatch c
  end.

(** client.Navigator() of the informers of the internal client set *)
Definition internal_pilotListWatch {B} (c : RESTClient) (namespace : string) : ListWatcher (B := B) :=
  listWatchOf (internalversion_pilots noBody c namespace).

Definition internal_elasticsearchClusterListWatch {B} (c : RESTClient) (namespace : string) : ListWatcher (B := B) :=
  listWatchOf (internalversion_elasticsearchClusters noBody c namespace).

Definition internal_cassandraClusterListWatch {B} (c : RESTClient) (namespace : string) : ListWatcher (B := B) :=
  listWatchOf (internalversion_cassandraClusters noBody c namespace).

Definition internalListWatch {B} (c : RESTClient) (t : ObjType) : string → ListWatcher (B := B) :=
  match t with
  | TPilot => internal_pilotListWatch c
  | TElasticsearchCluster => internal_elasticsearchClusterListWatch c
  | TCassandraCluster => internal_cassandraClusterListWatch c
  end.

Lemma listWatch_reaches {B} lw c t ns o :
  lw = versionedListWatch (B := B) c ∨ lw = internalListWatch c →
  onNavigator c → ns = "" ∨ segment ns →
  reaches (lw_List (lw t ns) o) None (if lo_Watch o then "watch" else "list") ns (typeResource t) "" "" "LIST" ∧
  reaches (lw_Watch (lw t ns) o) None "watch" ns (typeResource t) "" "" "LIST".
Proof.
  intros Hlw Hc Hns. assert (typeResource t ∈ resources) as Hr by (destruct t; decide_closed).
  destruct (list_reaches (B := B) c ns (typeResource t) o) as (Hd & _ & Hl); [done..|].
  destruct (list_reaches (B := B) c ns (typeResource t) (set_Watch o)) as (_ & Hw & Hwr); [done..|].
  destruct Hlw as [-> | ->]; destruct t; simpl in *; rewrite Hd, Hw; done.
Qed.

(** C21. However a shared informer factory of either client set is used, it makes at most one
    informer per type, runs each informer at most once and every one that was asked for at the
    next Start, waits exactly for those it runs, and each of them lists and watches its own
    resource in the namespace of the factory at the routes of the API server. *)
Theorem informers_are_shared_and_run_once {B} lw c resync ns tweaks uses hasSynced f :
  lw = versionedListWatch (B := B) c ∨ lw = internalListWatch c →
  onNavigator c → ns = "" ∨ segment ns →
  f = foldl (step lw) (NewFilteredSharedInformerFactory resync ns tweaks) uses →
  (∀ i j inf inf', fa_made f !! i = Some inf → fa_made f !! j = Some inf' → inf_Type inf = inf_Type inf' → i = j) ∧
  NoDup (fa_runs f) ∧
  (∀ t i, fa_informers f !! t = Some i → i ∈ fa_runs (Start f)) ∧
  (∀ t b, WaitForCacheSync hasSynced f !! t = Some b ↔ ∃ i, fa_informers f !! t = Some i ∧ i ∈ fa_runs f ∧ b = hasSynced i) ∧
  (∀ i inf o, fa_made f !! i = Some inf →
     reaches (lw_List (inf_ListWatch inf) o) None (if lo_Watch (tweak tweaks o) then "watch" else "list") ns
       (typeResource (inf_Type inf)) "" "" "LIST" ∧
     reaches (lw_Watch (inf_ListWatch inf) o) None "watch" ns (typeResource (inf_Type inf)) "" "" "LIST").
Proof.
  intros Hlw Hc Hns Hf. assert (factoryInv lw f) as Hi.
  { subst f. apply uses_inv, factoryInv_new. }
  assert (fa_namespace f = ns ∧ fa_tweakListOptions f = tweaks) as [Hfns Hft].
  { subst f. apply (uses_config lw uses (NewFilteredSharedInformerFactory resync ns tweaks)). }
  split_and!.
  - intros i j inf inf' H1 H2 Ht. apply (inv_all _ _ Hi) in H1, H2. congruence.
  - apply (inv_runs_once _ _ Hi).
  - intros t i Ht. destruct (Start_spec _ f Hi) as (Hi' & Hinf & Hs). apply (inv_runs _ _ Hi'). exists t.
    rewrite Hinf. eauto.
  - intros t b. unfold WaitForCacheSync. rewrite lookup_fmap_Some. setoid_rewrite map_lookup_filter_Some. split.
    + intros (i & <- & Ht & Hs). exists i. split_and!; [done| |done]. apply (inv_runs _ _ Hi). exists t. split; [done|].
      by destruct (fa_startedInformers f !! t) as [[]|].
    + intros (i & Ht & Hrun & ->). exists i. split_and!; [done..|]. apply (inv_runs _ _ Hi) in Hrun as (t' & Ht' & Hs).
      rewrite (informers_inj _ f t t' i) by done. by rewrite Hs.
  - intros i inf o Hmade. apply (inv_all _ _ Hi) in Hmade as Hreg. apply (inv_made _ _ Hi) in Hreg. rewrite Hmade in Hreg.
    injection Hreg as Hdef. rewrite Hdef. simpl. rewrite Hfns, Hft.
    apply (listWatch_reaches lw c (inf_Type inf) ns (tweak tweaks o)); done.
Qed.

(** Two controllers ask for pilots, and one for clusters after the start. *)
Lemma informers_are_shared_and_run_once_witness :
  let f := foldl (step (versionedListWatch (B := string) sampleClient)) (NewSharedInformerFactory 30)
             [UseInformer TPilot; UseInformer TPilot; UseStart; UseInformer TElasticsearchCluster; UseStart] in
  NoDup (fa_runs f) ∧ fa_runs f = [0%nat; 1%nat].
Proof.
  split; [|vm_compute; reflexivity].
  exact (proj1 (proj2 (informers_are_shared_and_run_once _ sampleClient 30 "" None
    [UseInformer TPilot; UseInformer TPilot; UseStart; UseInformer TElasticsearchCluster; UseStart] (λ _, true) _
    (or_introl eq_refl) ltac:(vm_compute; reflexivity) (or_introl eq_refl) eq_refl))).
Defined.
