(* ===== verification/ClientSets.v ===== *)
(** * Client sets

    pkg/client/clientset of both versions: the group client and the discovery
    client of a configuration, and the rate limiter they share.  Rate limiters
    are shared by reference: the clients hold an index into the limiters made
    so far.  The factory of the internal informers is the one of Informers over
    the internal client. *)

From S2P Require Import Prelude GoStrings K8s Types Internal RestClient RateLimit Informers.
From Stdlib Require Import QArith_base Qcanon Sorted.

Local Open Scope Z_scope.

(** ** Throttled clients *)

Abbreviation Limiters := (list Bucket).

(** rest.Config with its RateLimiter *)
Record RESTConfig := mkRESTConfig { rcf_Config : Config; rcf_RateLimiter : option nat }.

Record ThrottledClient := mkThrottledClient { th_Client : RESTClient; th_Throttle : option nat }.

Definition positive (q : Qc) : bool := negb (Qle_bool (this q) 0%Q).

Section clientsets.
Context (now : Z) (hostPath : string → Res string) (userAgent : string).

Definition newLimiter (qps : Qc) (burst : Z) : GoM Limiters nat := λ w,
  match NewTokenBucketRateLimiter now (this qps) burst with
  | Ret tb => (Ret (length w), w ++ [tb])
  | Panic p => (Panic p, w)
  end.

(** The throttle of NewRESTClient *)
Definition throttleFor (maxQPS : Qc) (maxBurst : Z) (rateLimiter : option nat) : GoM Limiters (option nat) :=
  if positive maxQPS && bool_decide (rateLimiter = None) then
    l ← newLimiter maxQPS maxBurst; mret (Some l)
  else mret rateLimiter.

(** RESTClientFor, with the limiter that NewRESTClient makes *)
Definition throttled_RESTClientFor (c : RESTConfig) : GoM Limiters (Res ThrottledClient) :=
  let config := rcf_Config c in
  match RESTClientFor hostPath config with
  | inl err => mret (inl err)
  | inr client =>
      let qps := if decide (cf_QPS config = Q2Qc (inject_Z 0)) then Q2Qc (inject_Z 5) else cf_QPS config in
      let burst := if decide (cf_Burst config = 0) then 10 else cf_Burst config in
      throttle ← throttleFor qps burst (rcf_RateLimiter c);
      mret (inr (mkThrottledClient client throttle))
  end.

Definition metaGroupVersion : GroupVersion := mkGroupVersion "meta.k8s.io" "v1".

(** UnversionedRESTClientFor, which does not default the rate *)
Definition UnversionedRESTClientFor (c : RESTConfig) : GoM Limiters (Res ThrottledClient) :=
  let config := rcf_Config c in
  match cf_NegotiatedSerializer config with
  | None => mret (inl (Errorf "NeogitatedSerializer is required when initializing a RESTClient" []))
  | Some _ =>
      match hostPath (if bool_decide (cf_Host config = "") then "localhost" else cf_Host config) with
      | inl err => mret (inl err)
      | inr base =>
          throttle ← throttleFor (cf_QPS config) (cf_Burst config) (rcf_RateLimiter c);
          mret (inr (mkThrottledClient
            {| rc_basePath := if HasSlashSuffix base then base else base +:+ "/";
               rc_versionedAPIPath := DefaultVersionedAPIPath (cf_APIPath config) (default (mkGroupVersion "" "") (cf_GroupVersion config));
               rc_GroupVersion := default metaGroupVersion (cf_GroupVersion config) |} throttle))
      end
  end.

Definition setDiscoveryDefaults (config : Config) : Config :=
  {| cf_Host := cf_Host config;
     cf_APIPath := "";
     cf_GroupVersion := None;
     cf_NegotiatedSerializer := Some DiscoveryCodec;
     cf_UserAgent := if bool_decide (cf_UserAgent config = "") then userAgent else cf_UserAgent config;
     cf_QPS := cf_QPS config;
     cf_Burst := cf_Burst config |}.

Definition NewDiscoveryClientForConfig (c : RESTConfig) : GoM Limiters (Res ThrottledClient) :=
  UnversionedRESTClientFor (mkRESTConfig (setDiscoveryDefaults (rcf_Config c)) (rcf_RateLimiter c)).

(** ** Client sets *)

Record Clientset := mkClientset { cs_navigator : ThrottledClient; cs_DiscoveryClient : ThrottledClient }.

(** [OrDie]: an error becomes a panic. *)
Definition orDie {A} (m : GoM Limiters (Res A)) : GoM Limiters A :=
  r ← m;
  match r with
  | inl err => go_panic "error in the configuration"
  | inr a => mret a
  end.

(** The code of the two client sets differs in the defaults of their group client. *)
Section defaults.
Context (setConfigDefaults : string → Config → Res Config).

Definition group_NewForConfig (c : RESTConfig) : GoM Limiters (Res ThrottledClient) :=
  match setConfigDefaults userAgent (rcf_Config c) with
  | inl err => mret (inl err)
  | inr config => throttled_RESTClientFor (mkRESTConfig config (rcf_RateLimiter c))
  end.

Definition Clientset_NewForConfig (c : RESTConfig) : GoM Limiters (Res Clientset) :=
  configShallowCopy ←
    (if bool_decide (rcf_RateLimiter c = None) && positive (cf_QPS (rcf_Config c)) then
       l ← newLimiter (cf_QPS (rcf_Config c)) (cf_Burst (rcf_Config c)); mret (mkRESTConfig (rcf_Config c) (Some l))
     else mret c);
  navigator ← group_NewForConfig configShallowCopy;
  match navigator with
  | inl err => mret (inl err)
  | inr navigator =>
      discovery ← NewDiscoveryClientForConfig configShallowCopy;
      match discovery with
      | inl err => mret (inl err)
      | inr discovery => mret (inr (mkClientset navigator discovery))
      end
  end.

Definition Clientset_NewForConfigOrDie (c : RESTConfig) : GoM Limiters Clientset :=
  navigator ← orDie (group_NewForConfig c);
  discovery ← orDie (NewDiscoveryClientForConfig c);
  mret (mkClientset navigator discovery).
End defaults.

(** New, for any REST client *)
Definition Clientset_New (c : ThrottledClient) : Clientset := mkClientset c c.

(** NavigatorV1alpha1 and Navigator dereference their receiver, Discovery checks it. *)
Definition Clientset_Navigator (c : option Clientset) : outcome ThrottledClient := c ← deref_pure c; Ret (cs_navigator c).
Definition Clientset_Discovery (c : option Clientset) : option ThrottledClient := cs_DiscoveryClient <$> c.

Definition versioned_Clientset := Clientset_NewForConfig versioned_setConfigDefaults.
Definition versioned_ClientsetOrDie := Clientset_NewForConfigOrDie versioned_setConfigDefaults.
Definition internal_Clientset registryGroup := Clientset_NewForConfig (internal_setConfigDefaults registryGroup).
Definition internal_ClientsetOrDie registryGroup := Clientset_NewForConfigOrDie (internal_setConfigDefaults registryGroup).
End clientsets.

(** ** Requests through the clients *)

(** tryThrottle of a request that is sent at [now]: when it goes on, and the limiters *)
Definition tryThrottle (now : Z) (c : ThrottledClient) (w : Limiters) : Z * Limiters :=
  match th_Throttle c with
  | None => (now, w)
  | Some l =>
      match w !! l with
      | None => (now, w)
      | Some tb => let '(release, tb) := tokenBucket_Accept now tb in (release, <[l := tb]> w)
      end
  end.

Fixpoint sendAll (requests : list (ThrottledClient * Z)) (w : Limiters) : list Z :=
  match requests with
  | [] => []
  | (c, now) :: requests => let '(release, w) := tryThrottle now c w in release :: sendAll requests w
  end.

Lemma sendAll_releases requests w l tb :
  Forall (λ r, th_Throttle r.1 = Some l) requests → w !! l = Some tb → sendAll requests w = releases requests.*2 tb.
Proof.
  intros Hall. revert w tb. induction Hall as [|[c now] requests Hc Hall IH]; intros w tb Hl; [done|]. simpl in *.
  unfold tryThrottle. rewrite Hc, Hl. unfold tokenBucket_Accept. destruct (Bucket_Wait now 1 tb) as [release tb'].
  f_equal. apply IH. apply list_lookup_insert_eq. by eapply lookup_lt_Some.
Qed.

(** ** Who shares a limiter *)

Section sharing.
Context (now : Z) (hostPath : string → Res string) (userAgent : string) (registryGroup : string → Res GroupVersion).

(** The defaults of the two client sets *)
Inductive clientDefaults : (string → Config → Res Config) → Prop :=
| versionedDefaults : clientDefaults versioned_setConfigDefaults
| internalDefaults : clientDefaults (internal_setConfigDefaults registryGroup).

Lemma throttleFor_shared qps burst l w : throttleFor now qps burst (Some l) w = (Ret (Some l), w).
Proof. unfold throttleFor. by rewrite andb_false_r. Qed.

Lemma throttleFor_unlimited qps burst w : positive qps = false → throttleFor now qps burst None w = (Ret None, w).
Proof. unfold throttleFor. by intros ->. Qed.

Lemma throttleFor_new qps burst w throttle w' :
  positive qps = true → throttleFor now qps burst None w = (Ret throttle, w') →
  ∃ tb, NewTokenBucketRateLimiter now (this qps) burst = Ret tb ∧ throttle = Some (length w) ∧ w' = w ++ [tb].
Proof.
  unfold throttleFor. intros ->. simpl. intros (l & w1 & Hl & Hr)%gom_bind_inv. unfold newLimiter in Hl.
  destruct (NewTokenBucketRateLimiter _ _ _) as [tb|]; [|done]. injection Hl as <- <-. injection Hr as <- <-. eauto.
Qed.

(** A client that is made of a configuration with a limiter has that limiter. *)
Lemma group_shared set c l w cs w' :
  rcf_RateLimiter c = Some l → group_NewForConfig now hostPath userAgent set c w = (Ret (inr cs), w') →
  th_Throttle cs = Some l ∧ w' = w.
Proof.
  unfold group_NewForConfig, throttled_RESTClientFor. intros Hl. destruct (set userAgent (rcf_Config c)) as [|config]; [done|].
  simpl. rewrite Hl. destruct (RESTClientFor hostPath config) as [|client]; [done|].
  intros (t & w1 & Ht & Hr)%gom_bind_inv. rewrite throttleFor_shared in Ht. injection Ht as <- <-. by injection Hr as <- <-.
Qed.

Lemma discovery_shared c l w cs w' :
  rcf_RateLimiter c = Some l → NewDiscoveryClientForConfig now hostPath userAgent c w = (Ret (inr cs), w') →
  th_Throttle cs = Some l ∧ w' = w.
Proof.
  unfold NewDiscoveryClientForConfig, UnversionedRESTClientFor. intros Hl. simpl. rewrite Hl.
  destruct (hostPath _) as [|base]; [done|].
  intros (t & w1 & Ht & Hr)%gom_bind_inv. rewrite throttleFor_shared in Ht. injection Ht as <- <-. by injection Hr as <- <-.
Qed.

(** The clients of a set made by NewForConfig *)
Lemma Clientset_clients set c w cs w' :
  Clientset_NewForConfig now hostPath userAgent set c w = (Ret (inr cs), w') →
  ∃ c' w1 w2,
    (if bool_decide (rcf_RateLimiter c = None) && positive (cf_QPS (rcf_Config c)) then
       l ← newLimiter now (cf_QPS (rcf_Config c)) (cf_Burst (rcf_Config c)); mret (mkRESTConfig (rcf_Config c) (Some l))
     else mret c) w = (Ret c', w1) ∧
    group_NewForConfig now hostPath userAgent set c' w1 = (Ret (inr (cs_navigator cs)), w2) ∧
    NewDiscoveryClientForConfig now hostPath userAgent c' w2 = (Ret (inr (cs_DiscoveryClient cs)), w').
Proof.
  unfold Clientset_NewForConfig. intros (c' & w1 & Hc & (n & w2 & Hn & H)%gom_bind_inv)%gom_bind_inv.
  destruct n as [|n]; [done|]. apply gom_bind_inv in H as (d & w3 & Hd & H). destruct d as [|d]; [done|]. injection H as <- <-.
  exists c', w1, w2. by split_and!.
Qed.

Lemma newLimiter_config c w c' w' :
  (l ← newLimiter now (cf_QPS (rcf_Config c)) (cf_Burst (rcf_Config c)); mret (mkRESTConfig (rcf_Config c) (Some l))) w = (Ret c', w') →
  ∃ tb, NewTokenBucketRateLimiter now (this (cf_QPS (rcf_Config c))) (cf_Burst (rcf_Config c)) = Ret tb ∧
        rcf_RateLimiter c' = Some (length w) ∧ w' = w ++ [tb].
Proof.
  intros (l & w1 & Hl & Hr)%gom_bind_inv. unfold newLimiter in Hl.
  destruct (NewTokenBucketRateLimiter _ _ _) as [tb|]; [|done]. injection Hl as <- <-. injection Hr as <- <-. eauto.
Qed.

(** The rate of a configuration binds all clients of its set together: however requests are
    sent through the clients of a set that NewForConfig made of a configuration with a rate, no
    more than the burst, one, and the tokens of the elapsed ticks are served within any ticks,
    and they are served in the order in which they came. *)
Theorem client_sets_share_one_limiter set c w cs w' requests :
  clientDefaults set → rcf_RateLimiter c = None → positive (cf_QPS (rcf_Config c)) = true →
  Clientset_NewForConfig now hostPath userAgent set c w = (Ret (inr cs), w') →
  Forall (λ r, r.1 = cs_navigator cs ∨ r.1 = cs_DiscoveryClient cs) requests → Sorted Z.le (now :: requests.*2) →
  ∃ tb, w' = w ++ [tb] ∧
    Sorted Z.le (sendAll requests w') ∧
    (∀ a b, a ≤ b → (b + 1) * tb_fillInterval tb ≤ int64_max →
     servedWithin tb a b (sendAll requests w') ≤ 1 + Z.max (cf_Burst (rcf_Config c)) (tb_quantum tb) + (b - a) * tb_quantum tb).
Proof.
  intros _ Hnone Hqps (c' & w1 & w2 & Hc & Hn & Hd)%Clientset_clients Hreq Hs.
  rewrite Hnone, bool_decide_eq_true_2, Hqps in Hc by done. simpl in Hc.
  destruct (newLimiter_config c w c' w1 Hc) as (tb & Hnew & Hl & ->).
  destruct (group_shared set c' (length w) _ _ _ Hl Hn) as [Htn ->]. destruct (discovery_shared c' (length w) _ _ _ Hl Hd) as [Htd ->].
  exists tb. split; [done|]. apply NewTokenBucketRateLimiter_fresh in Hnew as [Hf _].
  rewrite (sendAll_releases requests _ (length w) tb); [| |by apply list_lookup_middle].
  2: { eapply Forall_impl; [exact Hreq|]. simpl. by intros ? [-> | ->]. }
  split.
  - destruct (fresh_releases now _ tb requests.*2 (-1) (-1) Hf Hs) as [Ho _]; [done|done|exact Ho].
  - intros a b Hab Hb. by apply (fresh_releases now).
Qed.

(** Without a rate, as the controllers and the pilots configure their clients, the group client
    has a limiter of its own, of five requests a second, and the discovery client has none. *)
Theorem default_rate_limits_the_group_client c w cs w' :
  rcf_RateLimiter c = None → cf_QPS (rcf_Config c) = Q2Qc (inject_Z 0) → cf_Burst (rcf_Config c) = 0 →
  Clientset_NewForConfig now hostPath userAgent versioned_setConfigDefaults c w = (Ret (inr cs), w') →
  ∃ tb, w' = w ++ [tb] ∧ NewTokenBucketRateLimiter now (inject_Z 5) 10 = Ret tb ∧
    th_Throttle (cs_navigator cs) = Some (length w) ∧ th_Throttle (cs_DiscoveryClient cs) = None.
Proof.
  intros Hnone Hqps Hburst (c' & w1 & w2 & Hc & Hn & Hd)%Clientset_clients.
  assert (positive (cf_QPS (rcf_Config c)) = false) as Hpos by (by rewrite Hqps).
  rewrite Hpos, andb_false_r in Hc. injection Hc as <- <-.
  unfold group_NewForConfig, versioned_setConfigDefaults, throttled_RESTClientFor in Hn. simpl in Hn. rewrite Hnone, Hqps, Hburst in Hn.
  destruct (RESTClientFor hostPath _) as [|client]; [done|]. apply gom_bind_inv in Hn as (t & w3 & Ht & Hr).
  apply throttleFor_new in Ht as (tb & Hnew & -> & ->); [|done]. injection Hr as Hcs <-. exists tb.
  unfold NewDiscoveryClientForConfig, UnversionedRESTClientFor in Hd. simpl in Hd. rewrite Hnone, Hqps, Hburst in Hd.
  destruct (hostPath _) as [|base]; [done|]. apply gom_bind_inv in Hd as (t & w3 & Ht & Hr).
  rewrite throttleFor_unlimited in Ht by done. injection Ht as <- <-. injection Hr as Hdc <-. rewrite <- Hcs, <- Hdc. by split_and!.
Qed.

(** NewForConfigOrDie hands the configuration on as it is: each client makes a limiter of its
    own, and together they may send twice the rate. *)
Theorem or_die_doubles_the_rate c w cs w' :
  rcf_RateLimiter c = None → positive (cf_QPS (rcf_Config c)) = true → cf_Burst (rcf_Config c) ≠ 0 →
  Clientset_NewForConfigOrDie now hostPath userAgent versioned_setConfigDefaults c w = (Ret cs, w') →
  ∃ tb, w' = w ++ [tb; tb] ∧ th_Throttle (cs_navigator cs) = Some (length w) ∧ th_Throttle (cs_DiscoveryClient cs) = Some (S (length w)).
Proof.
  intros Hnone Hqps Hburst (n & w1 & (rn & w2 & Hn & Hn')%gom_bind_inv & (d & w3 & (rd & w4 & Hd & Hd')%gom_bind_inv & Hr)%gom_bind_inv)%gom_bind_inv.
  destruct rn as [|n']; [done|]. injection Hn' as -> ->. destruct rd as [|d']; [done|]. injection Hd' as -> ->. injection Hr as <- <-.
  assert (cf_QPS (rcf_Config c) ≠ Q2Qc (inject_Z 0)) as Hnz by (intros He; by rewrite He in Hqps).
  unfold group_NewForConfig, versioned_setConfigDefaults, throttled_RESTClientFor in Hn. simpl in Hn. rewrite Hnone in Hn.
  rewrite (decide_False (P := cf_QPS _ = _)), (decide_False (P := cf_Burst _ = 0)) in Hn by done.
  destruct (RESTClientFor hostPath _) as [|client]; [done|]. apply gom_bind_inv in Hn as (t & w5 & Ht & Hr).
  apply throttleFor_new in Ht as (tb & Hnew & -> & ->); [|done]. injection Hr as <- <-.
  unfold NewDiscoveryClientForConfig, UnversionedRESTClientFor in Hd. simpl in Hd. rewrite Hnone in Hd.
  destruct (hostPath _) as [|base]; [done|]. apply gom_bind_inv in Hd as (t & w5 & Ht & Hr).
  apply throttleFor_new in Ht as (tb' & Hnew' & -> & ->); [|done]. injection Hr as <- <-. rewrite Hnew in Hnew'. injection Hnew' as <-.
  exists tb. rewrite length_app. simpl. rewrite Nat.add_1_r, <- app_assoc. done.
Qed.

(** A configuration with a rate but without a burst, which the group client would take ten
    for, panics. *)
Lemma rate_without_burst_panics set c w :
  rcf_RateLimiter c = None → positive (cf_QPS (rcf_Config c)) = true → cf_Burst (rcf_Config c) = 0 →
  ∃ why, Clientset_NewForConfig now hostPath userAgent set c w = (Panic why, w).
Proof.
  intros Hnone Hqps Hburst. destruct (NewTokenBucketRateLimiter_no_burst now (this (cf_QPS (rcf_Config c))) 0) as [why Hp]; [done|].
  exists why. unfold Clientset_NewForConfig. rewrite Hnone, bool_decide_eq_true_2, Hqps by done. simpl.
  unfold newLimiter, mbind, gom_bind. by rewrite Hburst, Hp.
Qed.
End sharing.

(** ** The factory of the internal informers *)

Module InternalFactory.
Section factory.
Context {B : Type} (c : RESTClient).
Notation factory := (sharedInformerFactory (B := B)).

(** navigator.SchemeGroupVersion *)
Definition navigatorGroupVersion : GroupVersion := mkGroupVersion GroupName "__internal".

Definition internal_NewFilteredSharedInformerFactory (defaultResync : Z) (namespace : string)
    (tweakListOptions : option (ListOptions → ListOptions)) : factory :=
  NewFilteredSharedInformerFactory defaultResync namespace tweakListOptions.

Definition internal_NewSharedInformerFactory (defaultResync : Z) : factory :=
  internal_NewFilteredSharedInformerFactory defaultResync "" None.

(** InternalVersion().Pilots().Informer() and its siblings *)
Definition internal_Informer (t : ObjType) (f : factory) : nat * factory := typeInformer (internalListWatch c) t f.

Definition internal_ForResource (group version resource : string) (f : factory) : Res nat * factory :=
  ForResource (internalListWatch c) navigatorGroupVersion group version resource f.
End factory.

(** A resource is known to the factory under the internal version only, and its informer is the
    one of its type. *)
Lemma internal_ForResource_spec {B} (c : RESTClient) group version t (f : sharedInformerFactory (B := B)) :
  (group = GroupName ∧ version = "__internal" →
   internal_ForResource c group version (typeResource t) f = let '(i, f) := internal_Informer c t f in (inr i, f)) ∧
  (version ≠ "__internal" → ∃ err, internal_ForResource c group version (typeResource t) f = (inl err, f)).
Proof.
  unfold internal_ForResource, ForResource. split.
  - intros [-> ->]. rewrite bool_decide_eq_true_2 by done. by destruct t.
  - intros Hv. rewrite bool_decide_eq_false_2; [by eexists|]. by intros [= _ ?].
Qed.
End InternalFactory.
