(* ===== verification/Wiring.v ===== *)
(** * The controllers as they are put together

    NewElasticsearch, NewCassandra and pilotcontroller.New: which informers a
    controller reads, the event handlers it adds to them and the caches its Run
    waits for; the dispatch of an informer's events to those handlers; the
    worker loop; and the start of all controllers in cmd/controller/app. *)

From S2P Require Import Prelude GoStrings Semver K8s WorkQueue Internal Types CassandraVersion Cluster Fixtures Handlers RestClient APIRoutes Informers PilotController CassUtil CassControl ESUtil ESResources ESScale ESUpdateVersion ESControl ESController.

(** ** Informers and their events *)

Inductive Kind :=
| KElasticsearchClusters | KCassandraClusters | KPilots | KStatefulSets | KPods | KServiceAccounts
| KServices | KConfigMaps | KRoles | KRoleBindings.
#[export] Instance Kind_eq_dec : EqDecision Kind.
Proof. solve_decision. Defined.

(** The types of the Navigator factory; the others belong to the Kubernetes one. *)
Definition kindType (k : Kind) : option ObjType :=
  match k with
  | KElasticsearchClusters => Some TElasticsearchCluster
  | KCassandraClusters => Some TCassandraCluster
  | KPilots => Some TPilot
  | _ => None
  end.

Inductive Event :=
| Added (obj : EventObj)
| Updated (old new : EventObj)
| Deleted (obj : EventObj).

Inductive EventHandler :=
| QueuingEventHandler
| BlockingEventHandler (WorkFunc : State → EventObj → Queue → Queue)
| FilteringResourceEventHandler (FilterFunc : EventObj → bool) (handler : EventHandler).

(** The three methods of each handler. *)
Fixpoint notify (h : EventHandler) (s : State) (e : Event) (q : Queue) : outcome Queue :=
  let plain work :=
    match e with
    | Added obj => Ret (OnAdd work obj q)
    | Updated old new => OnUpdate work old new q
    | Deleted obj => Ret (OnDelete work obj q)
    end in
  match h with
  | QueuingEventHandler => plain Enqueue
  | BlockingEventHandler WorkFunc => plain (WorkFunc s)
  | FilteringResourceEventHandler FilterFunc handler =>
      match e with
      | Added obj => if FilterFunc obj then notify handler s (Added obj) q else Ret q
      | Updated old new =>
          match FilterFunc new, FilterFunc old with
          | true, true => notify handler s (Updated old new) q
          | true, false => notify handler s (Added new) q
          | false, true => notify handler s (Deleted old) q
          | false, false => Ret q
          end
      | Deleted obj => if FilterFunc obj then notify handler s (Deleted obj) q else Ret q
      end
  end.

(** ** Constructors *)

Record WiredController := mkController {
  (** the informers asked for, in the order of the code *)
  ct_informers : list Kind;
  ct_handlers : list (Kind * EventHandler);
  (** the caches Run waits for *)
  ct_waits : list Kind;
  ct_sync : State → string → GoM World (option Err);
}.

Definition NewElasticsearch : WiredController :=
  {| ct_informers :=
       [KElasticsearchClusters; KPilots; KStatefulSets; KPods; KServiceAccounts; KServices; KConfigMaps; KRoles; KRoleBindings];
     ct_handlers :=
       [ (KElasticsearchClusters, QueuingEventHandler);
         (KPilots, BlockingEventHandler ES_handleObject);
         (KStatefulSets, BlockingEventHandler ES_handleObject);
         (KPods, BlockingEventHandler ES_handlePodObject);
         (KServiceAccounts, BlockingEventHandler ES_handleObject);
         (KServices, BlockingEventHandler ES_handleObject);
         (KConfigMaps, BlockingEventHandler ES_handleObject);
         (KRoles, BlockingEventHandler ES_handleObject);
         (KRoleBindings, BlockingEventHandler ES_handleObject) ];
     ct_waits := [KElasticsearchClusters; KPilots; KStatefulSets; KPods; KServiceAccounts; KServices; KConfigMaps];
     ct_sync := es_sync |}.

Definition NewCassandra `{MapRange} : WiredController :=
  {| ct_informers := [KCassandraClusters; KPods; KStatefulSets; KServices; KServiceAccounts; KRoles; KRoleBindings];
     ct_handlers :=
       [ (KCassandraClusters, QueuingEventHandler);
         (KPods, BlockingEventHandler Cass_handlePodObject);
         (KStatefulSets, BlockingEventHandler Cass_handleObject) ];
     ct_waits := [KCassandraClusters; KServices; KStatefulSets; KPods];
     ct_sync := CassControl.sync |}.

(** NewFromContext: StateFromContext asks for every lister first. *)
Definition NewPilotController : WiredController :=
  {| ct_informers :=
       [KStatefulSets; KConfigMaps; KPods; KServices; KServiceAccounts; KRoleBindings; KRoles; KPilots; KCassandraClusters;
        KElasticsearchClusters];
     ct_handlers :=
       [ (KPods, FilteringResourceEventHandler piloted QueuingEventHandler); (KPilots, QueuingEventHandler) ];
     ct_waits := [KPilots; KPods];
     ct_sync := pilot_sync |}.

(** ** Events reach the queue *)

(** An informer's event goes to the handlers added to it, one after the other. *)
Definition dispatch (c : WiredController) (s : State) (k : Kind) (e : Event) (q : Queue) : outcome Queue :=
  foldl (λ r '(k', h), q ← r; if bool_decide (k' = k) then notify h s e q else Ret q) (Ret q) (ct_handlers c).

(** ** Run and its workers *)

(** WaitForCacheSync, then the workers on the queue as it is by then. *)
Definition Controller_Run (synced : Kind → bool) (workers : nat) (c : WiredController) (q : Queue) : Res Sys :=
  if forallb synced (ct_waits c) then inr (mkSys q (replicate workers Idle))
  else inl (Errorf "timed out waiting for caches to sync" []).

(** processNextWorkItem with the sync it runs; the deferred Done happens in any
    case, and [None] is a Get that blocks. *)
Definition workItem (sync : string → GoM World (option Err)) (q : Queue) (w : World) : option (outcome bool * Queue * World) :=
  match Get q with
  | None => None
  | Some (None, q) => Some (Ret false, q, w)
  | Some (Some key, q) =>
      match sync key w with
      | (Ret err, w) => Some (Ret true, Done key (requeue key err q), w)
      | (Panic p, w) => Some (Panic p, Done key q, w)
      end
  end.

(** The loop of worker, for at most [fuel] items. *)
Fixpoint worker (fuel : nat) (sync : string → GoM World (option Err)) (q : Queue) (w : World) : option (outcome () * Queue * World) :=
  match fuel with
  | O => None
  | S fuel =>
      match workItem sync q w with
      | None => None
      | Some (Ret true, q, w) => worker fuel sync q w
      | Some (Ret false, q, w) => Some (Ret (), q, w)
      | Some (Panic p, q, w) => Some (Panic p, q, w)
      end
  end.

(** The syncs of some keys, in order. *)
Fixpoint syncAll (sync : string → GoM World (option Err)) (keys : list string) : GoM World () :=
  match keys with
  | [] => mret ()
  | key :: keys => _ ← sync key; syncAll sync keys
  end.

(** ** Changes reach the queue of the owning cluster *)

(** The object whose change an event reports: an update that leaves the resource
    version as it was is a resync. *)
Definition changed (e : Event) : option ObjectMeta :=
  match e with
  | Added (ObjOf m) | Deleted (ObjOf m) | Deleted (DeletedFinalStateUnknown _ (ObjOf m)) => Some m
  | Updated (ObjOf old) (ObjOf new) =>
      if bool_decide (om_ResourceVersion old = om_ResourceVersion new) then None else Some new
  | _ => None
  end.

(** The objects of an event are objects. *)
Definition regular (e : Event) : bool :=
  match e with
  | Added (ObjOf _) | Deleted (ObjOf _) | Deleted (DeletedFinalStateUnknown _ (ObjOf _)) | Updated (ObjOf _) (ObjOf _) => true
  | _ => false
  end.

(** The controlling owner of a kind, when the cache has it. *)
Definition ownerIn {A} (kind : string) (l : Lister A) (m : ObjectMeta) : option A :=
  ref ← GetControllerOf m;
  if bool_decide (or_Kind ref = kind)
  then match lister_Get l (om_Namespace m) (or_Name ref) with inr a => Some a | inl _ => None end
  else None.

(** The cluster an object belongs to, for a controller of clusters of kind [self]
    that watches [kinds]: the cluster itself, the owner of the pod's set, or the owner. *)
Definition clusterOf {A} (self : Kind) (kinds : list Kind) (kind : string) (l : Lister A) (meta : A → ObjectMeta)
    (s : State) (k : Kind) (m : ObjectMeta) : option ObjectMeta :=
  if bool_decide (k = self) then Some m
  else if negb (bool_decide (k ∈ kinds)) then None
  else if bool_decide (k = KPods) then
    set ← ownerIn "StatefulSet" (StatefulSetLister s) m;
    meta <$> ownerIn kind l (ss_Meta set)
  else meta <$> ownerIn kind l m.

Definition es_clusterOf (s : State) : Kind → ObjectMeta → option ObjectMeta :=
  clusterOf KElasticsearchClusters
    [KPilots; KStatefulSets; KPods; KServiceAccounts; KServices; KConfigMaps; KRoles; KRoleBindings]
    "ElasticsearchCluster" (ElasticsearchClusterLister s) esc_Meta s.

Definition cassandra_clusterOf (s : State) : Kind → ObjectMeta → option ObjectMeta :=
  clusterOf KCassandraClusters [KStatefulSets; KPods] "CassandraCluster" (CassandraClusterLister s) cass_Meta s.

(** [q'] owes a sync of the object [m], and otherwise what [q] owes. *)
Definition owes (m : ObjectMeta) (q q' : Queue) : Prop :=
  ∃ key, SplitMetaNamespaceKey key = inr (om_Namespace m, om_Name m) ∧
    ∀ k, pending k q' ↔ k = key ∨ pending k q.

Lemma handleOwned_spec {A} kind (l : Lister A) meta enqueue m q :
  handleOwned kind l meta enqueue (ObjOf m) q =
  match ownerIn kind l m with Some c => enqueue (ObjOf (meta c)) q | None => q end.
Proof.
  unfold handleOwned, ownerIn. simpl. destruct (GetControllerOf m) as [ref|]; simpl; [|done].
  destruct (bool_decide (or_Kind ref = kind)); simpl; [|done]. by destruct (lister_Get l _ _).
Qed.

(** A handler without a filter works on the changed object and on nothing else. *)
Lemma notify_plain (h : EventHandler) work s e q :
  h = QueuingEventHandler ∧ work = Enqueue ∨ (∃ w, h = BlockingEventHandler w ∧ work = w s) →
  regular e = true →
  notify h s e q = Ret (match changed e with Some m => work (ObjOf m) q | None => q end).
Proof.
  intros Hh He.
  destruct e as [[m| |]|[m| |] [m'| |]|[m|? [m| |]|]]; try discriminate;
    destruct Hh as [[-> ->]|(w & -> & ->)]; simpl; try done;
    unfold OnUpdate; simpl; by destruct (bool_decide _).
Qed.

Lemma Enqueue_owes m q :
  q_shuttingDown q = false → plainKey (om_Namespace m) (om_Name m) →
  owes m q (enqueueElasticsearchCluster (ObjOf m) q) ∧ owes m q (enqueueCassandraCluster (ObjOf m) q).
Proof.
  intros Hsd (key & Hkey & Hsplit)%Split_KeyFunc.
  unfold enqueueElasticsearchCluster, enqueueCassandraCluster. rewrite Hkey.
  split; exists key; (split; [done|]); intros k.
  - split; [|intros [->|]; [by apply Add_pending|by apply Add_pending_other]]. unfold pending, Add. rewrite Hsd.
    repeat case_bool_decide; simpl; set_solver.
  - unfold pending, AddRateLimited. simpl. rewrite Hsd. set_solver.
Qed.

(** The handlers added to the informer of a kind *)
Definition handlersOf (c : WiredController) (k : Kind) : list EventHandler :=
  snd <$> filter (λ p, p.1 = k) (ct_handlers c).

Lemma dispatch_handlers c s k e q :
  dispatch c s k e q = foldl (λ r h, q ← r; notify h s e q) (Ret q) (handlersOf c k).
Proof.
  unfold dispatch, handlersOf. generalize (Ret q). induction (ct_handlers c) as [|[k' h] l IH]; intros r; [done|].
  rewrite filter_cons. simpl. case_bool_decide as Hk.
  - rewrite decide_True by done. apply IH.
  - rewrite decide_False by done. rewrite <- IH. by destruct r.
Qed.

Lemma dispatch_one c s k h e q : handlersOf c k = [h] → dispatch c s k e q = notify h s e q.
Proof. intros Hh. by rewrite dispatch_handlers, Hh. Qed.

Lemma dispatch_none c s k e q : handlersOf c k = [] → dispatch c s k e q = Ret q.
Proof. intros Hh. by rewrite dispatch_handlers, Hh. Qed.

(** A blocking handler that works on the owner of the changed object *)
Lemma dispatch_owned {A} c s k work kind (l : Lister A) meta enqueue e q :
  handlersOf c k = [BlockingEventHandler work] → work s = handleOwned kind l meta enqueue → regular e = true →
  dispatch c s k e q =
  Ret (match changed e ≫= ownerIn kind l with Some a => enqueue (ObjOf (meta a)) q | None => q end).
Proof.
  intros Hh Hw He. rewrite (dispatch_one _ _ _ _ _ _ Hh). rewrite (notify_plain _ (work s)) by eauto.
  destruct (changed e) as [m|]; [|done]. simpl. by rewrite Hw, handleOwned_spec.
Qed.

Lemma dispatch_self c s k e q :
  handlersOf c k = [QueuingEventHandler] → regular e = true →
  dispatch c s k e q = Ret (match changed e with Some m => Enqueue (ObjOf m) q | None => q end).
Proof. intros Hh He. rewrite (dispatch_one _ _ _ _ _ _ Hh). by rewrite (notify_plain _ Enqueue) by auto. Qed.

Lemma dispatch_NewElasticsearch s k e q :
  regular e = true →
  dispatch NewElasticsearch s k e q =
  Ret (match changed e ≫= es_clusterOf s k with Some c => enqueueElasticsearchCluster (ObjOf c) q | None => q end).
Proof.
  intros He. destruct k.
  1: rewrite dispatch_self by done; by destruct (changed e).
  1: rewrite dispatch_none by done; by destruct (changed e).
  3: erewrite (dispatch_owned _ _ _ ES_handlePodObject _ (StatefulSetLister s)) by done;
     destruct (changed e) as [m|]; [|done]; simpl; unfold es_clusterOf, clusterOf; simpl.
  all: try (erewrite (dispatch_owned _ _ _ ES_handleObject _ (ElasticsearchClusterLister s)) by done;
    destruct (changed e) as [m|]; [|done]; simpl; unfold es_clusterOf, clusterOf; simpl; by destruct (ownerIn _ _ m)).
  destruct (ownerIn _ _ m) as [set|]; [|done]. simpl. unfold ES_handleObject. rewrite handleOwned_spec. by destruct (ownerIn _ _ _).
Qed.

Lemma dispatch_NewCassandra `{MapRange} s k e q :
  regular e = true →
  dispatch NewCassandra s k e q =
  Ret (match changed e ≫= cassandra_clusterOf s k with
       | Some c => (if bool_decide (k = KCassandraClusters) then Enqueue else enqueueCassandraCluster) (ObjOf c) q
       | None => q end).
Proof.
  intros He. destruct k.
  2: rewrite dispatch_self by done; by destruct (changed e).
  3: erewrite (dispatch_owned _ _ _ Cass_handleObject _ (CassandraClusterLister s)) by done;
     destruct (changed e) as [m|]; [|done]; simpl; unfold cassandra_clusterOf, clusterOf; simpl; by destruct (ownerIn _ _ m).
  3: erewrite (dispatch_owned _ _ _ Cass_handlePodObject _ (StatefulSetLister s)) by done;
     destruct (changed e) as [m|]; [|done]; simpl; unfold cassandra_clusterOf, clusterOf; simpl.
  all: try (rewrite dispatch_none by done; by destruct (changed e)).
  destruct (ownerIn _ _ m) as [set|]; [|done]. simpl. unfold Cass_handleObject. rewrite handleOwned_spec. by destruct (ownerIn _ _ _).
Qed.

(** C18. Every addition, change or deletion, missed deletions included, of a cluster, of a pod of
    one of its sets or of a watched object it controls leaves in the queue of its controller
    exactly one more pending key, which reads back as the namespace and name of the cluster;
    resyncs and changes of other objects leave the queue as it was. The Cassandra controller
    watches clusters, pods and stateful sets, the Elasticsearch controller all the kinds it
    creates. *)
Theorem watched_objects_requeue_their_cluster `{MapRange} s k e q :
  regular e = true → q_shuttingDown q = false →
  (∃ q', dispatch NewElasticsearch s k e q = Ret q' ∧
     match changed e ≫= es_clusterOf s k with
     | Some c => plainKey (om_Namespace c) (om_Name c) → owes c q q'
     | None => q' = q
     end) ∧
  (∃ q', dispatch NewCassandra s k e q = Ret q' ∧
     match changed e ≫= cassandra_clusterOf s k with
     | Some c => plainKey (om_Namespace c) (om_Name c) → owes c q q'
     | None => q' = q
     end).
Proof.
  intros He Hsd. rewrite dispatch_NewElasticsearch, dispatch_NewCassandra by done.
  split; (eexists; split; [done|]).
  - destruct (changed e ≫= es_clusterOf s k) as [c|]; [|done]. intros Hp. by apply Enqueue_owes.
  - destruct (changed e ≫= cassandra_clusterOf s k) as [c|]; [|done]. intros Hp.
    destruct (bool_decide (k = KCassandraClusters)); by apply Enqueue_owes.
Qed.

(** ** Workers finish what is queued *)

Lemma workItem_shutdown sync q w key rest :
  queue_ok q → q_shuttingDown q = true → q_queue q = key :: rest → (∀ w, ∃ err, (sync key w).1 = Ret err) →
  ∃ q', workItem sync q w = Some (Ret true, q', (sync key w).2) ∧
    queue_ok q' ∧ q_shuttingDown q' = true ∧ q_queue q' = rest ∧ q_processing q' = q_processing q.
Proof.
  intros Hq Hsd Hrest Hsync. unfold workItem, Get. rewrite Hrest.
  assert (Get q = Some (Some key, mkQueue rest (q_dirty q ∖ {[key]}) ({[key]} ∪ q_processing q)
    (q_shuttingDown q) (q_waiting q) (q_failures q))) as Hget by (unfold Get; by rewrite Hrest).
  destruct (Get_ok _ _ _ Hq Hget) as [Hq' Hnp]. destruct (Hsync w) as [err Herr].
  destruct (sync key w) as [o w'] eqn:Hrun. simpl in Herr. subst o. eexists. split; [done|].
  set (q1 := mkQueue _ _ _ _ _ _) in *. destruct (requeue_fields key err q1) as (E1 & E2 & E3 & E4). simpl.
  split_and!.
  - apply Done_ok; [by apply (queue_ok_ext q1)|]. rewrite E3. simpl. set_solver.
  - by rewrite E4.
  - rewrite E1, E2. simpl. rewrite bool_decide_eq_false_2 by set_solver. done.
  - rewrite E3. simpl. set_solver.
Qed.

(** C29. After the queue is shut down a worker loop ends: it syncs each key that is still queued
    exactly once, in order, also when syncs fail, requeues none of them and leaves the queue
    empty, within one round more than there are keys. *)
Theorem worker_drains_on_shutdown sync q w :
  queue_ok q → q_shuttingDown q = true → (∀ key w, key ∈ q_queue q → ∃ err, (sync key w).1 = Ret err) →
  ∃ q', worker (S (length (q_queue q))) sync q w = Some (Ret (), q', (syncAll sync (q_queue q) w).2) ∧
    q_queue q' = [] ∧ q_processing q' = q_processing q.
Proof.
  intros Hq Hsd. remember (q_queue q) as keys eqn:Hkeys. revert q w Hq Hsd Hkeys.
  induction keys as [|key keys IH]; intros q w Hq Hsd Hkeys Hsync.
  - exists q. simpl. unfold workItem, Get. rewrite <- Hkeys, Hsd. done.
  - destruct (workItem_shutdown sync q w key keys) as (q1 & Hrun & Hq1 & Hsd1 & Hk1 & Hp1); [done..| |].
    { intros w'. apply Hsync, elem_of_cons. by left. }
    destruct (Hsync key w) as [err Herr]; [apply elem_of_cons; by left|].
    destruct (IH q1 (sync key w).2) as (q' & Hw & Hq' & Hp'); [done..| |].
    { intros k' w' Hin. apply Hsync, elem_of_cons. by right. }
    exists q'. split_and!; [|done|congruence].
    change (worker (S (length (key :: keys))) sync q w) with
      (match workItem sync q w with
       | None => None
       | Some (Ret true, q, w) => worker (S (length keys)) sync q w
       | Some (Ret false, q, w) => Some (Ret (), q, w)
       | Some (Panic p, q, w) => Some (Panic p, q, w)
       end).
    rewrite Hrun, Hw. do 2 f_equal. simpl. unfold mbind, gom_bind. destruct (sync key w) as [[e|p] w1]; done.
Qed.

(** The sync of the pilot controller never panics, whatever the key. *)
Lemma pilot_sync_returns s key w : ∃ r, (pilot_sync s key w).1 = Ret r.
Proof.
  destruct (SplitMetaNamespaceKey key) as [err|[ns name]] eqn:Hkey; [unfold pilot_sync; rewrite Hkey; by eexists|].
  destruct (needsPilot_dec s ns name) as [[pod Hneeds]|Hno].
  - destruct (pilot_sync_creates s key ns name pod w Hkey Hneeds) as (r & w' & -> & _). by exists r.
  - destruct (pilot_sync_idle s key ns name w Hkey Hno) as [r ->]. by exists r.
Qed.

(** ** cmd/controller: all controllers on shared informers *)

(** controllers.Register by the [init] functions of the three packages *)
Definition Register (name : string) (fn : WiredController) (known : gmap string WiredController) : gmap string WiredController :=
  <[name := fn]> known.

Definition Known `{MapRange} : gmap string WiredController :=
  Register "Pilot" NewPilotController (Register "Cassandra" NewCassandra (Register "ElasticSearch" NewElasticsearch ∅)).

Section app.
Context {B : Type} (c : RESTClient).
Notation factory := (sharedInformerFactory (B := B)).

(** A constructor asks the Navigator factory for the informers of its types. *)
Definition construct (f : factory) (ctrl : WiredController) : factory :=
  foldl (λ f k, match kindType k with
                | Some t => (typeInformer (versionedListWatch c) t f).2
                | None => f
                end) f (ct_informers ctrl).

(** The constructors in some order, then the start of the factory *)
Definition startAll (ctrls : list (string * WiredController)) (f : factory) : factory :=
  Start (foldl construct f (snd <$> ctrls)).
End app.

(** What [run] ends with, from the results of the controllers in the order in which
    they return: it never returns. *)
Fixpoint run_exit (results : list (string * option Err)) : Err :=
  match results with
  | [] => Errorf "Control loops exited" []
  | (n, Some err) :: _ => Errorf "error running %s controller: %s" [AStr n; AErr err]
  | (_, None) :: rest => run_exit rest
  end.

Section app_facts.
Context {B : Type} (c : RESTClient).
Notation lw := (versionedListWatch (B := B) c).

Lemma construct_spec f ctrl :
  factoryInv lw f →
  factoryInv lw (construct c f ctrl) ∧
  (∀ t i, fa_informers f !! t = Some i → fa_informers (construct c f ctrl) !! t = Some i) ∧
  (∀ k t, k ∈ ct_informers ctrl → kindType k = Some t → is_Some (fa_informers (construct c f ctrl) !! t)).
Proof.
  unfold construct. generalize (ct_informers ctrl). intros ks. revert f.
  induction ks as [|k ks IH]; intros f Hi; simpl.
  - split_and!; [done..|]. by intros k t ?%not_elem_of_nil.
  - destruct (kindType k) as [t|] eqn:Hk.
    + destruct (typeInformer_spec lw t f Hi) as (Hi' & Ht & _ & _ & Hkeep).
      destruct (IH _ Hi') as (H1 & H2 & H3). split_and!; [done|auto|].
      intros k' t' Hin Hk'. apply elem_of_cons in Hin as [->|Hin]; [|eauto].
      assert (t' = t) as -> by congruence. rewrite (H2 _ _ Ht). by eexists.
    + destruct (IH _ Hi) as (H1 & H2 & H3). split_and!; [done..|].
      intros k' t' Hin Hk'. apply elem_of_cons in Hin as [->|Hin]; [congruence|eauto].
Qed.

Lemma constructs_spec ctrls f :
  factoryInv lw f →
  factoryInv lw (foldl (construct c) f ctrls) ∧
  (∀ t i, fa_informers f !! t = Some i → fa_informers (foldl (construct c) f ctrls) !! t = Some i) ∧
  (∀ ctrl k t, ctrl ∈ ctrls → k ∈ ct_informers ctrl → kindType k = Some t →
     is_Some (fa_informers (foldl (construct c) f ctrls) !! t)).
Proof.
  revert f. induction ctrls as [|ctrl ctrls IH]; intros f Hi; simpl.
  - split_and!; [done..|]. by intros ctrl k t ?%not_elem_of_nil.
  - destruct (construct_spec f ctrl Hi) as (Hi' & Hkeep & Hall). destruct (IH _ Hi') as (H1 & H2 & H3).
    split_and!; [done|auto|]. intros ctrl' k t Hin Hk Ht. apply elem_of_cons in Hin as [->|Hin]; [|eauto].
    destruct (Hall k t Hk Ht) as [i Hti]. rewrite (H2 _ _ Hti). by eexists.
Qed.

(** Every controller waits only for informers it asked for. *)
Definition waitsForOwn (ctrl : WiredController) : bool := bool_decide (Forall (λ k, k ∈ ct_informers ctrl) (ct_waits ctrl)).

Lemma known_wait_for_own `{MapRange} n ctrl : Known !! n = Some ctrl → waitsForOwn ctrl = true.
Proof.
  unfold Known, Register. rewrite !lookup_insert_Some, lookup_empty.
  intros [[_ <-]|[_ [[_ <-]|[_ [[_ <-]|[_ ?]]]]]]; try done; apply bool_decide_eq_true_2; decide_closed.
Qed.

(** The answer of the HasSynced functions a controller waits for: that of a started
    informer of the Navigator factory, or of the Kubernetes factory. *)
Definition syncedIn (hasSynced : nat → bool) (kubeSynced : Kind → bool) (f : sharedInformerFactory (B := B)) (k : Kind) : bool :=
  match kindType k with
  | Some t => default false (WaitForCacheSync hasSynced f !! t)
  | None => kubeSynced k
  end.

Lemma startAll_runs `{MapRange} resync ns tweaks ctrls (f : sharedInformerFactory (B := B)) :
  ctrls ≡ₚ map_to_list Known → f = startAll c ctrls (NewFilteredSharedInformerFactory resync ns tweaks) →
  factoryInv lw f ∧
  ∀ n ctrl k t, Known !! n = Some ctrl → k ∈ ct_waits ctrl → kindType k = Some t →
    ∃ i, fa_informers f !! t = Some i ∧ fa_startedInformers f !! t = Some true.
Proof.
  intros Hperm ->. unfold startAll.
  destruct (constructs_spec (snd <$> ctrls) _ (factoryInv_new lw resync ns tweaks)) as (Hi & _ & Hall).
  destruct (Start_spec lw _ Hi) as (Hi' & Hinf & Hs). split; [done|].
  intros n ctrl k t Hn Hk Ht. pose proof (known_wait_for_own n ctrl Hn) as Hown%bool_decide_eq_true_1.
  rewrite Forall_forall in Hown.
  destruct (Hall ctrl k t) as [i Hti]; [|by apply Hown|done|].
  - apply list_elem_of_fmap. exists (n, ctrl). split; [done|]. rewrite Hperm. by apply elem_of_map_to_list.
  - exists i. rewrite Hinf. eauto.
Qed.

(** In whatever order the controllers are constructed, the start of the shared factory runs
    every Navigator informer a controller waits for exactly once, and once the informers have
    synced Run of every controller gets past its wait and begins with idle workers on an empty
    queue. *)
Theorem controllers_start_with_their_informers `{MapRange} resync ns tweaks ctrls hasSynced kubeSynced workers f :
  ctrls ≡ₚ map_to_list Known → f = startAll c ctrls (NewFilteredSharedInformerFactory resync ns tweaks) →
  (∀ i, i ∈ fa_runs f → hasSynced i = true) → (∀ k, kubeSynced k = true) →
  NoDup (fa_runs f) ∧
  ∀ n ctrl, Known !! n = Some ctrl →
    Controller_Run (syncedIn hasSynced kubeSynced f) workers ctrl newQueue = inr (initial workers).
Proof.
  intros Hperm Hf Hsync Hkube. destruct (startAll_runs resync ns tweaks ctrls f Hperm Hf) as [Hi Hwaits].
  split; [apply (inv_runs_once _ _ Hi)|]. intros n ctrl Hn. unfold Controller_Run.
  assert (forallb (syncedIn hasSynced kubeSynced f) (ct_waits ctrl) = true) as ->; [|done].
  apply forallb_forall. intros k Hk%list_elem_of_In. unfold syncedIn. destruct (kindType k) as [t|] eqn:Ht; [|done].
  destruct (Hwaits n ctrl k t Hn Hk Ht) as (i & Hti & Hst).
  assert (WaitForCacheSync hasSynced f !! t = Some (hasSynced i)) as ->.
  { unfold WaitForCacheSync. apply lookup_fmap_Some. exists i. split; [done|]. apply map_lookup_filter_Some. by rewrite Hst. }
  simpl. apply Hsync, (inv_runs _ _ Hi). eauto.
Qed.
End app_facts.

(** ** Examples *)

Definition deletedPod : Event := Deleted (DeletedFinalStateUnknown "default/es-demo-data-0" (ObjOf (dataPodMeta "2"))).

(** A missed deletion of a pod of the data set. *)
Lemma watched_objects_requeue_their_cluster_witness :
  ∃ q', dispatch NewElasticsearch handlerState KPods deletedPod newQueue = Ret q' ∧ owes (esc_Meta demoCluster) newQueue q'.
Proof.
  destruct (watched_objects_requeue_their_cluster handlerState KPods deletedPod newQueue eq_refl eq_refl)
    as [(q' & Hd & Ho) _].
  exists q'. split; [exact Hd|].
  assert (changed deletedPod ≫= es_clusterOf handlerState KPods = Some (esc_Meta demoCluster)) as Hc.
  { vm_compute. reflexivity. }
  rewrite Hc in Ho. apply Ho. split; [discriminate|]. split; reflexivity.
Defined.

(** Two keys are left when the queue shuts down. *)
Definition shuttingQueue : Queue := ShutDown (Add "default/cass-demo-ring-0" (Add "a/b/c" newQueue)).

Lemma worker_drains_on_shutdown_witness :
  ∃ q', worker 3 (pilot_sync podState) shuttingQueue emptyWorld
      = Some (Ret (), q', (syncAll (pilot_sync podState) ["a/b/c"; "default/cass-demo-ring-0"] emptyWorld).2) ∧
    q_queue q' = [].
Proof.
  destruct (worker_drains_on_shutdown (pilot_sync podState) shuttingQueue emptyWorld) as (q' & Hrun & Hq & _).
  - apply (queue_ok_ext (Add "default/cass-demo-ring-0" (Add "a/b/c" newQueue))); [reflexivity..|].
    do 2 apply Add_ok. apply (sok_queue _ (sys_ok_initial 0)).
  - reflexivity.
  - intros key w _. apply pilot_sync_returns.
  - exists q'. split; [exact Hrun|exact Hq].
Defined.

(** The three controllers on informers that have synced. *)
Lemma controllers_start_with_their_informers_witness :
  let f := startAll (B := string) sampleClient (map_to_list Known) (NewFilteredSharedInformerFactory 30 "" None) in
  length (fa_runs f) = 3%nat ∧
  Controller_Run (syncedIn (λ _, true) (λ _, true) f) 2 NewPilotController newQueue = inr (initial 2).
Proof.
  split; [vm_compute; reflexivity|].
  refine (proj2 (controllers_start_with_their_informers sampleClient 30 "" None (map_to_list Known) (λ _, true) (λ _, true) 2 _
    (Permutation_refl _) eq_refl (λ _ _, eq_refl) (λ _, eq_refl)) "Pilot" NewPilotController _).
  vm_compute. reflexivity.
Defined.
