(* ===== verification/LeaderElection.v ===== *)
(** * Leader election

    The leader election of the controllers (cmd/controller/app) and of the
    pilots (pkg/pilot/genericpilot/leaderelection) over the elector and the
    resource locks of vendor/k8s.io/client-go/tools/leaderelection: any number
    of processes that read and write one lock object, each with a clock of its
    own.  Clocks differ by a constant and run at the same rate.  A call of the
    lock is two steps, its service by the API server and the arrival of the
    answer, so that time passes and other processes move in between. *)

From S2P Require Import Prelude GoStrings.

(** ** Configuration *)

(** Durations and times are nanoseconds. *)
Definition Second : Z := 1000000000.

Record LeaderElectionConfig := mkLEConfig {
  lec_LeaseDuration : Z;
  lec_RenewDeadline : Z;
  lec_RetryPeriod : Z;
}.

(** The nearest integer with a 53 bit significand, the even one of two: the conversion of an
    integer to a float64, and the rounding of an exact product of two. *)
Definition round53 (n : Z) : Z :=
  if bool_decide (Z.abs n < 2 ^ 53) then n
  else
    let unit := 2 ^ (Z.log2 (Z.abs n) - 52) in
    let q := Z.abs n / unit in
    let r := Z.abs n mod unit in
    let up := bool_decide (unit < 2 * r) || (bool_decide (unit = 2 * r) && Z.odd q) in
    Z.sgn n * ((if up then q + 1 else q) * unit).

(** The float64 nearest to JitterFactor = 1.2, times 2^52 *)
Definition JitterFactor52 : Z := 5404319552844595.

(** time.Duration(JitterFactor*float64(d)): the product is rounded and its fraction dropped.
    Beyond the range of an int64 the result of the conversion is up to the implementation of Go. *)
Definition jittered (d : Z) : Z := Z.quot (round53 (JitterFactor52 * round53 d)) (2 ^ 52).

Lemma round53_nonneg n : 0 ≤ n → 0 ≤ round53 n.
Proof.
  intros Hn. unfold round53. case_bool_decide; [done|]. cbv zeta.
  apply Z.mul_nonneg_nonneg; [by apply Z.sgn_nonneg|]. apply Z.mul_nonneg_nonneg; [|apply Z.pow_nonneg; lia].
  pose proof (Z.div_pos (Z.abs n) (2 ^ (Z.log2 (Z.abs n) - 52)) (Z.abs_nonneg n)) as Hq.
  assert (0 ≤ Z.log2 (Z.abs n) - 52) as He.
  { assert (53 ≤ Z.log2 (Z.abs n)); [|lia]. change 53 with (Z.log2 (2 ^ 53)). apply Z.log2_le_mono. lia. }
  pose proof (Z.pow_pos_nonneg 2 _ ltac:(lia) He). specialize (Hq ltac:(lia)). destruct (_ || _); lia.
Qed.

Lemma jittered_nonneg d : 0 ≤ d → 0 ≤ jittered d.
Proof.
  intros Hd. apply Z.quot_pos; [|lia]. apply round53_nonneg, Z.mul_nonneg_nonneg; [|by apply round53_nonneg].
  unfold JitterFactor52. lia.
Qed.

(** The product is truncated toward zero, and exact where 1.2 itself would make it whole. *)
Example jittered_values :
  jittered (2 * Second) = 2400000000 ∧ jittered (-1) = -1 ∧ jittered 5 = 6 ∧
  jittered (2 ^ 53 + 1) = 10808639105689190 ∧ jittered 9000000000000000001 = 10800000000000000000.
Proof. repeat split; vm_compute; reflexivity. Qed.

(** The check of NewLeaderElector; the lock of its callers is not nil. *)
Definition NewLeaderElector (lec : LeaderElectionConfig) : Res LeaderElectionConfig :=
  if bool_decide (lec_LeaseDuration lec ≤ lec_RenewDeadline lec)
  then inl (Errorf "leaseDuration must be greater than renewDeadline" [])
  else if bool_decide (lec_RenewDeadline lec ≤ jittered (lec_RetryPeriod lec))
  then inl (Errorf "renewDeadline must be greater than retryPeriod*JitterFactor" [])
  else inr lec.

(** ControllerOptions of cmd/controller/app/options, as far as election reads them *)
Record ControllerOptions := mkControllerOptions {
  co_APIServerHost : string;
  co_Namespace : string;
  co_LeaderElect : bool;
  co_LeaderElectionNamespace : string;
  co_LeaderElectionLeaseDuration : Z;
  co_LeaderElectionRenewDeadline : Z;
  co_LeaderElectionRetryPeriod : Z;
}.

Definition NewControllerOptions : ControllerOptions :=
  {| co_APIServerHost := "";
     co_Namespace := "";
     co_LeaderElect := true;
     co_LeaderElectionNamespace := "kube-system";
     co_LeaderElectionLeaseDuration := 15 * Second;
     co_LeaderElectionRenewDeadline := 10 * Second;
     co_LeaderElectionRetryPeriod := 2 * Second |}.

(** Validate of the options accepts everything. *)
Definition ControllerOptions_Validate (o : ControllerOptions) : option Err := None.

(** The election of startLeaderElection: RunOrDie panics when NewLeaderElector
    refuses the configuration. *)
Definition startLeaderElection (opts : ControllerOptions) (hostname : Res string) : outcome (Res (string * LeaderElectionConfig)) :=
  match hostname with
  | inl err => Ret (inl (Errorf "error getting hostname: %s" [AErr err]))
  | inr id =>
      let lec := mkLEConfig (co_LeaderElectionLeaseDuration opts) (co_LeaderElectionRenewDeadline opts)
                   (co_LeaderElectionRetryPeriod opts) in
      match NewLeaderElector lec with
      | inl err => Panic "leader election configuration"
      | inr lec => Ret (inr (id +:+ "-external-navigator-controller", lec))
      end
  end.

(** Elector.Run of the pilots, up to the start of the elector *)
Definition Elector_Run (hostname : Res string) : Res (string * LeaderElectionConfig) :=
  match hostname with
  | inl err => inl (Errorf "error getting hostname: %s" [AErr err])
  | inr id =>
      match NewLeaderElector (mkLEConfig (15 * Second) (10 * Second) (2 * Second)) with
      | inl err => inl err
      | inr lec => inr (id +:+ "-external-navigator-controller", lec)
      end
  end.

(** ** The record and the lock *)

Record LeaderElectionRecord := mkLER {
  ler_HolderIdentity : string;
  ler_LeaseDurationSeconds : Z;
  ler_AcquireTime : Z;
  ler_RenewTime : Z;
  ler_LeaderTransitions : Z;
}.
#[export] Instance LeaderElectionRecord_eq_dec : EqDecision LeaderElectionRecord.
Proof. solve_decision. Defined.

Definition zeroRecord : LeaderElectionRecord := mkLER "" 0 0 0 0.

(** metav1.Time is written with a precision of seconds. *)
Definition truncSecond (t : Z) : Z := t / Second * Second.

Definition marshal (r : LeaderElectionRecord) : LeaderElectionRecord :=
  mkLER (ler_HolderIdentity r) (ler_LeaseDurationSeconds r) (truncSecond (ler_AcquireTime r))
    (truncSecond (ler_RenewTime r)) (ler_LeaderTransitions r).

(** The object of the lock: the record of its annotation, zero without one, and
    its resource version. *)
Record LockObject := mkLock { lk_record : LeaderElectionRecord; lk_rev : Z }.

Inductive GetResponse :=
| GetFailed
| GetNotFound
| GetFound (lock : LockObject).

Inductive Op :=
| OpCreate (record : LeaderElectionRecord)
| OpUpdate (record : LeaderElectionRecord) (rev : Z).

Definition op_record (op : Op) : LeaderElectionRecord :=
  match op with OpCreate r | OpUpdate r _ => r end.

(** What the API server makes of a write: a create needs the object to be absent,
    an update the revision it was read at. *)
Definition serveOp (op : Op) (lock : option LockObject) : option LockObject :=
  match op, lock with
  | OpCreate r, None => Some (mkLock (marshal r) 1)
  | OpUpdate r rev, Some l =>
      if bool_decide (lk_rev l = rev) then Some (mkLock (marshal r) (lk_rev l + 1)) else None
  | _, _ => None
  end.

(** ** The elector *)

Record LeaderElector := mkElector {
  le_observedRecord : LeaderElectionRecord;
  le_observedTime : Z;
}.

Definition newElector : LeaderElector := mkElector zeroRecord 0.

(** The first part of tryAcquireOrRenew, which began at [now], when the answer to
    Get arrives at [time]: a result, or the write it goes on with. *)
Definition onGet (lec : LeaderElectionConfig) (identity : string) (now time : Z) (resp : GetResponse) (le : LeaderElector)
    : LeaderElector * (bool + Op) :=
  let record := mkLER identity (lec_LeaseDuration lec / Second) now now 0 in
  match resp with
  | GetFailed => (le, inl false)
  | GetNotFound => (le, inr (OpCreate record))
  | GetFound lock =>
      let old := lk_record lock in
      let le := if bool_decide (le_observedRecord le = old) then le else mkElector old time in
      let mine := bool_decide (ler_HolderIdentity old = identity) in
      if bool_decide (now < le_observedTime le + lec_LeaseDuration lec) && negb mine then (le, inl false)
      else
        (le, inr (OpUpdate
          (if mine
           then mkLER identity (lec_LeaseDuration lec / Second) (ler_AcquireTime old) now (ler_LeaderTransitions old)
           else mkLER identity (lec_LeaseDuration lec / Second) now now (ler_LeaderTransitions old + 1))
          (lk_rev lock)))
  end.

(** The rest, when the answer to the write arrives *)
Definition onWrote (time : Z) (record : LeaderElectionRecord) (ok : bool) (le : LeaderElector) : LeaderElector :=
  if ok then mkElector record time else le.

(** ** The system *)

Inductive LeaderPhase :=
(** in acquire *)
| Acquiring
(** in renew, in a Poll that began at this time *)
| Leading (pollStart : Z)
(** after OnStoppedLeading *)
| Stopped.

(** An attempt that began at [now]: waiting for Get, with its answer on the way,
    and the same for the write. *)
Inductive Flight :=
| Asking (now : Z)
| Got (now : Z) (resp : GetResponse)
| Writing (now : Z) (op : Op)
| Wrote (now : Z) (record : LeaderElectionRecord) (ok : bool).

Definition flight_now (f : Flight) : Z :=
  match f with Asking now | Got now _ | Writing now _ | Wrote now _ _ => now end.

(** [pr_last]: the attempt was made after the channel of Poll was closed. *)
Record Proc := mkProc {
  pr_elector : LeaderElector;
  pr_phase : LeaderPhase;
  pr_flight : option Flight;
  pr_last : bool;
}.

Definition newProc : Proc := mkProc newElector Acquiring None false.

Record LSys := mkLSys {
  ls_clock : Z;
  ls_lock : option LockObject;
  ls_procs : list Proc;
}.

Inductive WriteResult := Accepted | AnswerLost | Refused.

Inductive LLabel :=
| Tick (time : Z)
| Begin (i : nat)
| ServeGet (i : nat) (fails : bool)
| Receive (i : nat)
| ServeWrite (i : nat) (result : WriteResult)
| Answer (i : nat)
(** a crash, or the end of a process that stopped leading, and its restart *)
| Restart (i : nat).

Section system.
(** The configuration of all processes, their host names, the difference of
    their clocks to an outer one, and a bound on the duration of an attempt. *)
Context (lec : LeaderElectionConfig) (host : nat → string) (offset : nat → Z) (maxAttempt : Z).

Definition identity (i : nat) : string := host i +:+ "-external-navigator-controller".

(** The end of an attempt: acquire returns to renew or tries again later; renew
    starts a new Poll, waits for the next tick, makes the last attempt at once
    when the deadline has passed meanwhile, or gives up. *)
Definition returned (time local : Z) (result : bool) (le : LeaderElector) (p : Proc) : Proc :=
  match pr_phase p, result with
  | Acquiring, false => mkProc le Acquiring None false
  | Acquiring, true | Leading _, true => mkProc le (Leading time) None false
  | Leading start, false =>
      if pr_last p then mkProc le Stopped None false
      else if bool_decide (start + lec_RenewDeadline lec ≤ time)
      then mkProc le (Leading start) (Some (Asking local)) true
      else mkProc le (Leading start) None false
  | Stopped, _ => mkProc le Stopped None false
  end.

(** Timers fire in time, and an attempt takes at most [maxAttempt]. *)
Definition timely (time : Z) (i : nat) (p : Proc) : bool :=
  match pr_flight p with
  | Some f => bool_decide (time + offset i ≤ flight_now f + maxAttempt)
  | None =>
      match pr_phase p with
      | Leading start => bool_decide (time ≤ start + lec_RenewDeadline lec)
      | _ => true
      end
  end.

Definition set_proc (i : nat) (p : Proc) (s : LSys) : LSys := mkLSys (ls_clock s) (ls_lock s) (<[i := p]> (ls_procs s)).

Definition set_flight (f : Flight) (p : Proc) : Proc := mkProc (pr_elector p) (pr_phase p) (Some f) (pr_last p).

Definition lstep (s : LSys) (l : LLabel) : option LSys :=
  let time := ls_clock s in
  match l with
  | Tick t =>
      if bool_decide (time ≤ t) && forallb (λ '(i, p), timely t i p) (imap pair (ls_procs s))
      then Some (mkLSys t (ls_lock s) (ls_procs s)) else None
  | Begin i =>
      p ← ls_procs s !! i;
      match pr_flight p, pr_phase p with
      | None, Acquiring => Some (set_proc i (mkProc (pr_elector p) Acquiring (Some (Asking (time + offset i))) false) s)
      | None, Leading start =>
          Some (set_proc i (mkProc (pr_elector p) (Leading start) (Some (Asking (time + offset i)))
                              (bool_decide (start + lec_RenewDeadline lec ≤ time))) s)
      | _, _ => None
      end
  | ServeGet i fails =>
      p ← ls_procs s !! i;
      match pr_flight p with
      | Some (Asking now) =>
          let resp := if fails then GetFailed else match ls_lock s with None => GetNotFound | Some lock => GetFound lock end in
          Some (set_proc i (set_flight (Got now resp) p) s)
      | _ => None
      end
  | Receive i =>
      p ← ls_procs s !! i;
      match pr_flight p with
      | Some (Got now resp) =>
          match onGet lec (identity i) now (time + offset i) resp (pr_elector p) with
          | (le, inl result) => Some (set_proc i (returned time (time + offset i) result le p) s)
          | (le, inr op) => Some (set_proc i (mkProc le (pr_phase p) (Some (Writing now op)) (pr_last p)) s)
          end
      | _ => None
      end
  | ServeWrite i result =>
      p ← ls_procs s !! i;
      match pr_flight p with
      | Some (Writing now op) =>
          let answered ok := set_flight (Wrote now (op_record op) ok) p in
          match result with
          | Refused => Some (set_proc i (answered false) s)
          | Accepted | AnswerLost =>
              lock ← serveOp op (ls_lock s);
              Some (mkLSys time (Some lock)
                (<[i := answered (match result with Accepted => true | _ => false end)]> (ls_procs s)))
          end
      | _ => None
      end
  | Answer i =>
      p ← ls_procs s !! i;
      match pr_flight p with
      | Some (Wrote now record ok) =>
          Some (set_proc i (returned time (time + offset i) ok (onWrote (time + offset i) record ok (pr_elector p)) p) s)
      | _ => None
      end
  | Restart i =>
      _ ← ls_procs s !! i;
      Some (set_proc i newProc s)
  end.

Fixpoint lrun (s : LSys) (ls : list LLabel) : option LSys :=
  match ls with
  | [] => Some s
  | l :: ls => s ← lstep s l; lrun s ls
  end.

(** [n] processes at some time, and a lock object that names none of them. *)
Definition initialL (n : nat) (clock : Z) (lock : option LockObject) : LSys := mkLSys clock lock (replicate n newProc).

Definition leads (s : LSys) (i : nat) : Prop := ∃ p start, ls_procs s !! i = Some p ∧ pr_phase p = Leading start.
End system.

(** ** The invariant *)

Section invariant.
Context (lec : LeaderElectionConfig) (host : nat → string) (offset : nat → Z) (maxAttempt : Z).
Context {host_inj : Inj (=) (=) host}.
Notation L := (lec_LeaseDuration lec).
Notation R := (lec_RenewDeadline lec).
Notation ident := (identity host).

(** The slack between the two durations covers three attempts and the rounding
    of the renew time. *)
Hypothesis deadline_nonneg : 0 ≤ R.
Hypothesis attempt_nonneg : 0 ≤ maxAttempt.
Hypothesis enough : R + 3 * maxAttempt + Second ≤ L.

(** A record was made from a time of its holder's clock before [t]. *)
Definition notLater (r : LeaderElectionRecord) (t : Z) : Prop :=
  ∀ x, ler_HolderIdentity r = ident x → ler_RenewTime r ≤ t + offset x.

(** The lock is held by [i] with a renewal no older than [now]. *)
Definition holds (lock : option LockObject) (i : nat) (now : Z) : Prop :=
  ∃ cur, lock = Some cur ∧ ler_HolderIdentity (lk_record cur) = ident i ∧ truncSecond now ≤ ler_RenewTime (lk_record cur).

(** The lock was [l] once, and is as long as its revision is that of [l]. *)
Definition wasLock (lock : option LockObject) (l : LockObject) : Prop :=
  ∃ cur, lock = Some cur ∧ lk_rev l ≤ lk_rev cur ∧ (lk_rev cur = lk_rev l → lk_record cur = lk_record l).

(** The lease of a holder other than [i] had run out at [now]. *)
Definition expired (old : LeaderElectionRecord) (i : nat) (now : Z) : Prop :=
  ∀ x, ler_HolderIdentity old = ident x → x ≠ i → ler_RenewTime old + L ≤ now - offset i + offset x.

Definition opOk (lock : option LockObject) (i : nat) (now : Z) (op : Op) : Prop :=
  ler_HolderIdentity (op_record op) = ident i ∧ ler_RenewTime (op_record op) = now ∧
  match op with
  | OpCreate _ => True
  | OpUpdate _ rev => ∃ old, wasLock lock (mkLock old rev) ∧ expired old i now
  end.

Definition flightOk (clock : Z) (lock : option LockObject) (i : nat) (f : Flight) : Prop :=
  flight_now f - offset i ≤ clock ≤ flight_now f - offset i + maxAttempt ∧
  match f with
  | Asking _ => True
  | Got _ (GetFound l) => wasLock lock l ∧ notLater (lk_record l) clock
  | Got _ _ => True
  | Writing now op => opOk lock i now op
  | Wrote now r ok => ler_HolderIdentity r = ident i ∧ ler_RenewTime r = now ∧ (ok = true → holds lock i now)
  end.

Definition phaseOk (clock : Z) (lock : option LockObject) (i : nat) (p : Proc) : Prop :=
  match pr_phase p with
  | Leading start =>
      start ≤ clock ∧
      (∃ now, now - offset i ≤ start ≤ now - offset i + maxAttempt ∧ holds lock i now) ∧
      match pr_flight p with
      | None => clock ≤ start + R
      | Some f => start ≤ flight_now f - offset i ≤ start + R + (if pr_last p then maxAttempt else 0)
      end
  | _ => True
  end.

Definition electorOk (i : nat) (le : LeaderElector) : Prop :=
  notLater (le_observedRecord le) (le_observedTime le - offset i).

Definition procOk (clock : Z) (lock : option LockObject) (i : nat) (p : Proc) : Prop :=
  electorOk i (pr_elector p) ∧ (∀ f, pr_flight p = Some f → flightOk clock lock i f) ∧ phaseOk clock lock i p.

Definition linv (s : LSys) : Prop :=
  (∀ cur, ls_lock s = Some cur → notLater (lk_record cur) (ls_clock s)) ∧
  ∀ i p, ls_procs s !! i = Some p → procOk (ls_clock s) (ls_lock s) i p.

Lemma identity_inj i j : ident i = ident j → i = j.
Proof. intros Heq%string_app_cancel_r. by apply host_inj. Qed.

Lemma identity_nonempty i : ident i ≠ "".
Proof. unfold identity. by destruct (host i). Qed.

Lemma truncSecond_lower t : t - Second < truncSecond t.
Proof. unfold truncSecond, Second. pose proof (Z.mod_pos_bound t 1000000000). pose proof (Z.div_mod t 1000000000). lia. Qed.

Lemma truncSecond_upper t : truncSecond t ≤ t.
Proof. unfold truncSecond, Second. pose proof (Z.mod_pos_bound t 1000000000). pose proof (Z.div_mod t 1000000000). lia. Qed.

Lemma truncSecond_mono t u : t ≤ u → truncSecond t ≤ truncSecond u.
Proof.
  intros Hle. unfold truncSecond. apply Z.mul_le_mono_nonneg_r; [done|]. by apply Z.div_le_mono.
Qed.

Lemma notLater_mono r t u : t ≤ u → notLater r t → notLater r u.
Proof. intros Hle Hr x Hx. specialize (Hr x Hx). lia. Qed.

Lemma notLater_zero t : notLater zeroRecord t.
Proof. intros x Hx. by destruct (identity_nonempty x). Qed.

Lemma linv_initial n clock lock :
  (∀ cur, lock = Some cur → notLater (lk_record cur) clock) → linv (initialL n clock lock).
Proof.
  intros Hlock. split; [done|]. intros i p [-> _]%lookup_replicate. split_and!; [apply notLater_zero|done|done].
Qed.

Lemma linv_set s i p0 p :
  ls_procs s !! i = Some p0 → procOk (ls_clock s) (ls_lock s) i p → linv s → linv (set_proc i p s).
Proof.
  intros Hi Hp [Hlock Hprocs]. split; [done|]. simpl. intros j q. destruct (decide (j = i)) as [->|Hne].
  - rewrite list_lookup_insert_eq by (by eapply lookup_lt_Some). by intros [= <-].
  - rewrite list_lookup_insert_ne by done. apply Hprocs.
Qed.

Lemma procOk_time clock t lock i p :
  clock ≤ t → timely lec offset maxAttempt t i p = true → procOk clock lock i p → procOk t lock i p.
Proof.
  intros Hle Ht (He & Hf & Hp). unfold timely in Ht. split_and!; [done| |].
  - intros f Hfl. destruct (Hf f Hfl) as [Hb Hc]. rewrite Hfl in Ht. apply bool_decide_eq_true_1 in Ht. split; [lia|].
    destruct f as [|now [| |l]| |]; try done. destruct Hc as [? Hl]. split; [done|]. by eapply notLater_mono.
  - unfold phaseOk in *. destruct (pr_phase p) as [|start|]; [done| |done]. destruct Hp as (H1 & H2 & H3).
    split_and!; [lia|done|]. destruct (pr_flight p) as [f|]; [done|]. by apply bool_decide_eq_true_1 in Ht.
Qed.

Lemma procOk_leading clock lock i le now :
  electorOk i le → now - offset i ≤ clock ≤ now - offset i + maxAttempt → holds lock i now →
  procOk clock lock i (mkProc le (Leading clock) None false).
Proof.
  intros Hle Hb Hh. split_and!; [done|done|]. unfold phaseOk. simpl. split_and!; [lia| |lia]. exists now. split_and!; [lia..|done].
Qed.

Lemma returned_ok clock lock i p f le result :
  procOk clock lock i p → pr_flight p = Some f → electorOk i le → (result = true → holds lock i (flight_now f)) →
  procOk clock lock i (returned lec clock (clock + offset i) result le p).
Proof.
  intros (_ & Hf & Hp) Hfl Hle Hres. destruct (Hf f Hfl) as [Hb _]. unfold phaseOk in Hp. rewrite Hfl in Hp.
  unfold returned. destruct (pr_phase p) as [|start|]; destruct result; [|by split_and!| | |by split_and!..].
  - apply (procOk_leading _ _ _ _ (flight_now f)); [done..|]. by apply Hres.
  - apply (procOk_leading _ _ _ _ (flight_now f)); [done..|]. by apply Hres.
  - destruct (pr_last p); [by split_and!|]. destruct Hp as (H1 & H2 & H3). case_bool_decide as Hd.
    + split_and!; [done| |].
      * intros f' [= <-]. split; [simpl; lia|done].
      * unfold phaseOk. simpl. split_and!; [done..| |]; lia.
    + split_and!; [done|done|]. unfold phaseOk. simpl. split_and!; [done..|]. lia.
Qed.

Lemma onGet_ok clock lock i now resp le :
  electorOk i le → flightOk clock lock i (Got now resp) →
  let r := onGet lec (ident i) now (clock + offset i) resp le in
  electorOk i r.1 ∧ match r.2 with inl b => b = false | inr op => opOk lock i now op end.
Proof.
  intros Hle [Hb Hc]. destruct resp as [| |l]; simpl; [done|done|]. destruct Hc as [Hwas Hnl].
  set (le' := if bool_decide (le_observedRecord le = lk_record l) then le else mkElector (lk_record l) (clock + offset i)).
  assert (electorOk i le' ∧ le_observedRecord le' = lk_record l) as [Hle' Hobs].
  { unfold le'. case_bool_decide; [done|]. split; [|done]. unfold electorOk. simpl.
    by replace (clock + offset i - offset i) with clock by lia. }
  destruct (bool_decide (now < le_observedTime le' + L) && negb (bool_decide (ler_HolderIdentity (lk_record l) = ident i))) eqn:E;
    simpl; split; [done..|done|].
  unfold opOk. simpl. split_and!; [by case_match|by case_match|]. exists (lk_record l). split; [by destruct l|].
  intros x Hx Hne. apply andb_false_iff in E as [E|E]; [|].
  - apply bool_decide_eq_false_1 in E. unfold electorOk in Hle'. rewrite Hobs in Hle'. specialize (Hle' x Hx). lia.
  - apply negb_false_iff, bool_decide_eq_true_1 in E. destruct Hne. apply identity_inj. congruence.
Qed.

(** ** A write is served only when no other process can lead *)

Lemma wasLock_served op lock lock' l : serveOp op lock = Some lock' → wasLock lock l → wasLock (Some lock') l.
Proof.
  intros Hs (cur & -> & Hle & _). destruct op as [r|r rev]; simpl in Hs; [done|].
  case_bool_decide as Hrev; [|done]. injection Hs as <-. eexists. split; [done|]. simpl. split; [lia|]. lia.
Qed.

Lemma served_excludes clock lock lock' i j now nowj op :
  opOk lock i now op → now - offset i ≤ clock → serveOp op lock = Some lock' → j ≠ i →
  holds lock j nowj → clock ≤ nowj - offset j + R + 3 * maxAttempt → False.
Proof.
  intros (_ & _ & Hop) Hnow Hs Hne (cur & -> & Hj & Ht) Hclock.
  destruct op as [r|r rev]; simpl in Hs; [done|]. destruct Hop as (old & (cur' & [= <-] & _ & Hsame) & Hexp).
  simpl in Hsame. case_bool_decide as Hrev; [|done]. rewrite Hsame in Hj, Ht by done.
  specialize (Hexp j Hj Hne). pose proof (truncSecond_lower nowj). lia.
Qed.

Lemma leading_deadline clock lock j q start :
  procOk clock lock j q → pr_phase q = Leading start →
  ∃ now, holds lock j now ∧ clock ≤ now - offset j + R + 3 * maxAttempt.
Proof.
  intros (_ & Hf & Hp) Hph. unfold phaseOk in Hp. rewrite Hph in Hp. destruct Hp as (H1 & (now & H2 & Hh) & H3).
  exists now. split; [done|]. destruct (pr_flight q) as [f|] eqn:Hfl; [|lia].
  destruct (Hf f eq_refl) as [Hb _]. destruct (pr_last q); lia.
Qed.

Lemma procOk_served clock lock lock' i j now op q :
  opOk lock i now op → now - offset i ≤ clock → serveOp op lock = Some lock' → j ≠ i →
  procOk clock lock j q → procOk clock (Some lock') j q.
Proof.
  intros Hop Hnow Hs Hne Hq. pose proof Hq as (He & Hf & Hp). split_and!; [done| |].
  - intros f Hfl. destruct (Hf f Hfl) as [Hb Hc]. split; [done|].
    destruct f as [now'|now' [| |l]|now' [r|r rev]|now' r ok]; try done.
    + destruct Hc as [Hw Hl]. split; [by eapply wasLock_served|done].
    + destruct Hc as (H1 & H2 & old & Hw & Hexp). unfold opOk. split_and!; [done..|]. exists old. split; [by eapply wasLock_served|done].
    + destruct Hc as (H1 & H2 & Hh). split_and!; [done..|]. intros Hok. exfalso.
      simpl in Hb. eapply (served_excludes clock lock lock' i j now now' op); [done..|by apply Hh|]. lia.
  - unfold phaseOk. destruct (pr_phase q) as [|start|] eqn:Hph; [done| |done]. exfalso.
    destruct (leading_deadline clock lock j q start Hq Hph) as (nowj & Hh & Hd).
    by eapply (served_excludes clock lock lock' i j now nowj op).
Qed.

Lemma procOk_wrote clock lock lock' i p now op ok :
  procOk clock lock i p → pr_flight p = Some (Writing now op) → serveOp op lock = Some lock' →
  procOk clock (Some lock') i (set_flight (Wrote now (op_record op) ok) p) ∧ notLater (lk_record lock') clock.
Proof.
  intros (He & Hf & Hp) Hfl Hs. destruct (Hf _ Hfl) as [Hb (Hid & Hrt & _)]. simpl in Hb.
  assert (lk_record lock' = marshal (op_record op)) as Hrec.
  { destruct op as [r|r rev], lock as [cur|]; simpl in Hs; try done; [by injection Hs as <-|].
    case_bool_decide; [|done]. by injection Hs as <-. }
  assert (∀ now', now' ≤ now → holds (Some lock') i now') as Hholds.
  { intros now' Hle. exists lock'. split; [done|]. rewrite Hrec. simpl. split; [done|]. rewrite Hrt. by apply truncSecond_mono. }
  split; [split_and!; [done| |]|].
  - intros f [= <-]. split; [done|]. split_and!; [done..|]. intros _. by apply Hholds.
  - unfold phaseOk in *. simpl. destruct (pr_phase p) as [|start|]; [done| |done]. rewrite Hfl in Hp. simpl in Hp.
    destruct Hp as (H1 & (now' & H2 & _) & H3). split_and!; [done| |lia|lia]. exists now'. split; [done|]. apply Hholds. lia.
  - intros x Hx. rewrite Hrec in *. simpl in *. rewrite Hrt. pose proof (truncSecond_upper now).
    assert (i = x) as <- by (apply identity_inj; congruence). lia.
Qed.

Lemma linv_step s l s' : linv s → lstep lec host offset maxAttempt s l = Some s' → linv s'.
Proof.
  intros Hinv Hs. pose proof Hinv as [Hlock Hprocs]. destruct l as [t|i|i fails|i|i res|i|i]; simpl in Hs.
  1: { case_bool_decide as Ht; [|done]. destruct (forallb _ _) eqn:Hall; [|done]. injection Hs as <-. simpl in Hall.
    rewrite forallb_forall in Hall. split; simpl.
    - intros cur Hc. eapply notLater_mono; [done|by apply Hlock].
    - intros i p Hi. apply (procOk_time (ls_clock s)); [done| |by apply Hprocs].
      apply (Hall (i, p)), list_elem_of_In. apply elem_of_lookup_imap. eauto. }
  all: destruct (ls_procs s !! i) as [p|] eqn:Hi; simpl in Hs; [|done]; pose proof (Hprocs i p Hi) as Hp.
  - pose proof Hp as (He & Hf & Hph). unfold phaseOk in Hph.
    destruct (pr_flight p) as [f|]; [done|]. destruct (pr_phase p) as [|start|]; [| |done]; injection Hs as <-;
      (eapply linv_set; [done| |done]); (split_and!; [done|intros f [= <-]; split; simpl; [lia|done]|]); [done|].
    unfold phaseOk. simpl. destruct Hph as (H1 & H2 & H3). split_and!; [done|done|lia|case_match; lia].
  - pose proof Hp as (He & Hf & Hph). destruct (pr_flight p) as [[now|now ?|now ?|now ? ?]|] eqn:Hfl; try done.
    injection Hs as <-. eapply linv_set; [done| |done]. destruct (Hf _ eq_refl) as [Hb _]. split_and!; [done| |].
    + intros f [= <-]. split; [done|]. destruct fails; [done|]. destruct (ls_lock s) as [cur|] eqn:Hc; [|done].
      split; [|by apply Hlock]. exists cur. done.
    + unfold phaseOk in *. rewrite Hfl in Hph. done.
  - pose proof Hp as (He & Hf & Hph). destruct (pr_flight p) as [[now|now resp|now ?|now ? ?]|] eqn:Hfl; try done.
    pose proof (onGet_ok (ls_clock s) (ls_lock s) i now resp (pr_elector p) He (Hf _ eq_refl)) as [Hle Hres].
    destruct (onGet _ _ _ _ _ _) as [le [b|op]]; simpl in *; injection Hs as <-; (eapply linv_set; [done| |done]).
    + eapply returned_ok; [done..|]. by subst b.
    + split_and!; [done| |].
      * intros f [= <-]. split; [apply (Hf _ eq_refl)|done].
      * unfold phaseOk in *. rewrite Hfl in Hph. done.
  - pose proof Hp as (He & Hf & Hph). destruct (pr_flight p) as [[now|now resp|now op|now ? ?]|] eqn:Hfl; try done.
    destruct (Hf _ eq_refl) as [Hb Hop]. simpl in Hb.
    assert (∀ ok s', (lock ← serveOp op (ls_lock s); Some (mkLSys (ls_clock s) (Some lock)
      (<[i := set_flight (Wrote now (op_record op) ok) p]> (ls_procs s)))) = Some s' → linv s') as Hserved.
    { intros ok s'' Hs''. destruct (serveOp op (ls_lock s)) as [lock'|] eqn:Hsv; [|done]. injection Hs'' as <-.
      destruct (procOk_wrote _ _ _ _ _ _ _ ok Hp Hfl Hsv) as [Hp' Hnl]. split; simpl; [by intros cur [= <-]|].
      intros j q. destruct (decide (j = i)) as [->|Hne].
      - rewrite list_lookup_insert_eq by (by eapply lookup_lt_Some). by intros [= <-].
      - rewrite list_lookup_insert_ne by done. intros Hj. eapply procOk_served; [exact Hop|lia|done..|by apply Hprocs]. }
    destruct res; [by eapply Hserved|by eapply Hserved|]. injection Hs as <-. eapply linv_set; [done| |done].
    split_and!; [done| |].
    + intros f [= <-]. split; [done|]. destruct Hop as (H1 & H2 & _). by split_and!.
    + unfold phaseOk in *. rewrite Hfl in Hph. done.
  - pose proof Hp as (He & Hf & Hph). destruct (pr_flight p) as [[now|now resp|now op|now r ok]|] eqn:Hfl; try done.
    destruct (Hf _ eq_refl) as [Hb (H1 & H2 & H3)]. simpl in Hb. injection Hs as <-. eapply linv_set; [done| |done].
    eapply returned_ok; [done..| |done]. destruct ok; [|done]. unfold electorOk. simpl. intros x Hx.
    assert (i = x) as <- by (apply identity_inj; congruence). lia.
  - injection Hs as <-. eapply linv_set; [done| |done]. split_and!; [apply notLater_zero|done|done].
Qed.

Lemma linv_run ls s s' : linv s → lrun lec host offset maxAttempt s ls = Some s' → linv s'.
Proof.
  revert s. induction ls as [|l ls IH]; simpl; intros s Hi Hr; [by injection Hr as <-|].
  destruct (lstep lec host offset maxAttempt s l) as [s1|] eqn:Hs; [|done]. eapply IH; [|done]. by eapply linv_step.
Qed.

Lemma leader_holds s i : linv s → leads s i → ∃ cur, ls_lock s = Some cur ∧ ler_HolderIdentity (lk_record cur) = ident i.
Proof.
  intros [_ Hprocs] (p & start & Hi & Hph). destruct (leading_deadline _ _ _ _ _ (Hprocs i p Hi) Hph) as (now & (cur & ? & ? & _) & _).
  eauto.
Qed.
End invariant.

(** C9. At most one controller leads at any time, and it holds the lock: for any number of
    processes with clocks that differ by constants, any interleaving of their attempts, failed
    calls, lost answers, crashes and restarts, as long as the lease duration exceeds the renew
    deadline by three times the longest attempt and the second to which renew times are rounded. *)
Theorem at_most_one_leader lec host offset maxAttempt n clock lock trace s :
  Inj (=) (=) host → NewLeaderElector lec = inr lec → 0 ≤ lec_RetryPeriod lec → 0 ≤ maxAttempt →
  lec_RenewDeadline lec + 3 * maxAttempt + Second ≤ lec_LeaseDuration lec →
  (∀ cur, lock = Some cur → notLater host offset (lk_record cur) clock) →
  lrun lec host offset maxAttempt (initialL n clock lock) trace = Some s →
  (∀ i j, leads s i → leads s j → i = j) ∧
  ∀ i, leads s i → ∃ cur, ls_lock s = Some cur ∧ ler_HolderIdentity (lk_record cur) = identity host i.
Proof.
  intros Hinj Hnew Hretry Hatt Henough Hlock Hrun.
  assert (0 ≤ lec_RenewDeadline lec) as HR.
  { unfold NewLeaderElector in Hnew. do 2 (case_bool_decide; [done|]).
    pose proof (jittered_nonneg _ Hretry). lia. }
  assert (linv lec host offset maxAttempt s) as Hinv.
  { eapply linv_run; [done..| |exact Hrun]. by apply linv_initial. }
  assert (∀ i, leads s i → ∃ cur, ls_lock s = Some cur ∧ ler_HolderIdentity (lk_record cur) = identity host i) as Hhold.
  { intros i Hi. eapply (leader_holds lec host offset maxAttempt); done. }
  split; [|done]. intros i j (cur & Hc & Hi)%Hhold (cur' & Hc' & Hj)%Hhold. apply (identity_inj host). congruence.
Qed.

(** ** The durations in use *)

Definition defaultLEC : LeaderElectionConfig := mkLEConfig (15 * Second) (10 * Second) (2 * Second).

Lemma defaultLEC_taken : NewLeaderElector defaultLEC = inr defaultLEC.
Proof. vm_compute. reflexivity. Qed.

(** With the defaults of the controllers and the constants of the pilots, attempts
    may take a second and a third. *)
Lemma default_durations lec id :
  startLeaderElection NewControllerOptions (inr id) = Ret (inr (id +:+ "-external-navigator-controller", lec)) ∨
  Elector_Run (inr id) = inr (id +:+ "-external-navigator-controller", lec) →
  NewLeaderElector lec = inr lec ∧ 0 ≤ lec_RetryPeriod lec ∧
  lec_RenewDeadline lec + 3 * 1333333333 + Second ≤ lec_LeaseDuration lec.
Proof.
  unfold startLeaderElection, Elector_Run, NewControllerOptions. cbv beta iota zeta.
  cbn [co_LeaderElectionLeaseDuration co_LeaderElectionRenewDeadline co_LeaderElectionRetryPeriod].
  fold defaultLEC. rewrite !defaultLEC_taken. intros [[= <-]|[= <-]]; (split_and!; [apply defaultLEC_taken|done..]).
Qed.

(** The flags allow a renew deadline equal to the lease duration, as their text
    says, and the controller panics. *)
Lemma equal_durations_panic opts id :
  co_LeaderElectionRenewDeadline opts = co_LeaderElectionLeaseDuration opts →
  ControllerOptions_Validate opts = None ∧ ∃ p, startLeaderElection opts (inr id) = Panic p.
Proof.
  intros Heq. split; [done|]. unfold startLeaderElection, NewLeaderElector. simpl. rewrite Heq, bool_decide_eq_true_2 by done. eauto.
Qed.

(** ** Examples *)

Definition twoHosts (i : nat) : string := itoa (Z.of_nat i).

Lemma twoHosts_inj : Inj (=) (=) twoHosts.
Proof. intros i j Heq. apply (inj pretty) in Heq. lia. Qed.

Definition twoOffsets (i : nat) : Z := if bool_decide (i = 0%nat) then 0 else 5000 * Second.

(** Process 0 leads and loses the API server; process 1 takes over and process 0
    comes back. *)
Definition takeover : list LLabel :=
  let s := Second in
  [Begin 0; ServeGet 0 false; Receive 0; Tick (101 * s); ServeWrite 0 Accepted; Answer 0;
   Begin 1; ServeGet 1 false; Receive 1;
   Tick (111 * s); Begin 0; ServeGet 0 true; Receive 0;
   Tick (116 * s); Begin 1; ServeGet 1 false; Receive 1; ServeWrite 1 Accepted; Answer 1;
   Restart 0; Begin 0; ServeGet 0 false; Receive 0].

Lemma at_most_one_leader_witness :
  ∃ s, lrun defaultLEC twoHosts twoOffsets 1333333333 (initialL 2 (100 * Second) None) takeover = Some s ∧
    leads s 1 ∧ ∀ i, leads s i → i = 1%nat.
Proof.
  destruct (lrun defaultLEC twoHosts twoOffsets 1333333333 (initialL 2 (100 * Second) None) takeover) as [s|] eqn:Hrun;
    [|vm_compute in Hrun; discriminate].
  exists s. split; [reflexivity|]. assert (leads s 1) as H1.
  { vm_compute in Hrun. injection Hrun as <-. do 2 eexists. split; reflexivity. }
  split; [exact H1|]. intros i Hi.
  exact (proj1 (at_most_one_leader defaultLEC twoHosts twoOffsets 1333333333 2 (100 * Second) None takeover s
    twoHosts_inj defaultLEC_taken ltac:(vm_compute; discriminate) ltac:(lia) ltac:(vm_compute; discriminate)
    ltac:(intros ? [=]) Hrun) i 1%nat Hi H1).
Defined.

(** The check of NewLeaderElector alone is not enough: with a nanosecond between
    the two durations, an answer that takes a second makes two leaders. *)
Definition shortLEC : LeaderElectionConfig := mkLEConfig (10 * Second + 1) (10 * Second) (2 * Second).

Definition overlap : list LLabel :=
  let s := Second in
  [Begin 0; ServeGet 0 false; Receive 0; ServeWrite 0 Accepted;
   Begin 1; ServeGet 1 false; Receive 1; Tick (101 * s); Answer 0;
   Tick (110 * s + 1); Begin 1; ServeGet 1 false; Receive 1; ServeWrite 1 Accepted; Answer 1].

Lemma short_slack_allows_two_leaders :
  NewLeaderElector shortLEC = inr shortLEC ∧
  ∃ s, lrun shortLEC twoHosts twoOffsets Second (initialL 2 (100 * Second) None) overlap = Some s ∧ leads s 0 ∧ leads s 1.
Proof. split; [vm_compute; reflexivity|]. eexists. split; [vm_compute; reflexivity|]. split; (do 2 eexists; split; reflexivity). Qed.
