(* ===== verification/APIStart.v ===== *)
(** * The start of the API server

    cmd/apiserver: the options and the configuration of the server, the
    admission plugins it registers, their initialization by
    pkg/apiserver/admission/initializer.go, and the chain the requests pass
    (vendor/k8s.io/apiserver/pkg/admission).  The options of the generic
    server and its plugins are parameters. *)

From S2P Require Import Prelude GoStrings K8s Types Internal Validation Registry RestClient Informers.

(** ** The namespace plugin *)

(** The namespaces of the kube informer factory: the answers of the lister when a
    request comes and after the wait of Admit, and whether the informer has synced. *)
Record KubeInformerFactory := mkKubeInformerFactory {
  kif_Get : string → Res Namespace;
  kif_GetLater : string → Res Namespace;
  kif_HasSynced : bool;
}.

(** client.CoreV1().Namespaces().Get *)
Definition KubeClient : Type := string → Res Namespace.

Record lifecycle := mkLifecycle {
  lc_operations : list Operation;
  lc_readyFunc : option bool;
  lc_client : option KubeClient;
  lc_namespaceLister : option KubeInformerFactory;
}.

Definition NewLifecycle : lifecycle := mkLifecycle [OpCreate; OpUpdate; OpDelete] None None None.

Definition SetKubeInformerFactory (f : KubeInformerFactory) (l : lifecycle) : lifecycle :=
  mkLifecycle (lc_operations l) (Some (kif_HasSynced f)) (lc_client l) (Some f).

Definition SetKubeClientSet (client : KubeClient) (l : lifecycle) : lifecycle :=
  mkLifecycle (lc_operations l) (lc_readyFunc l) (Some client) (lc_namespaceLister l).

Definition lifecycle_Validate (l : lifecycle) : option Err :=
  ValidateInitialization (bool_decide (is_Some (lc_namespaceLister l))) (bool_decide (is_Some (lc_client l))).

(** Admit on the fields of the plugin: a missing lister or client panics where it
    is used. *)
Definition lifecycle_Admit (l : lifecycle) (namespace : string) (op : Operation) : outcome (option Err) :=
  match default true (lc_readyFunc l) with
  | false => Ret (Admit false namespace op (inl (NewNotFound "")) (inl (NewNotFound "")) (inl (NewNotFound "")))
  | true =>
      f ← deref_pure (lc_namespaceLister l);
      let answer live := Admit true namespace op (kif_Get f namespace) (kif_GetLater f namespace) live in
      match lc_client l with
      | Some client => Ret (answer (client namespace))
      | None =>
          (* the answer depends on the client exactly when it would be called *)
          if bool_decide (is_Some (foundNamespace op (kif_Get f namespace) (kif_GetLater f namespace) (inl (NewNotFound ""))))
             || bool_decide (String.length namespace = 0%nat)
          then Ret (answer (inl (NewNotFound "")))
          else Panic "invalid memory address or nil pointer dereference"
      end
  end.

(** ** Plugins and their initialization *)

Section plugins.
(** The client and informers of the Navigator API, and the plugins of the generic
    API server with what they do. *)
Context {NavigatorClient NavigatorFactory Other : Type}.

Record pluginInitializer := mkPluginInitializer {
  pi_internalClient : NavigatorClient;
  pi_informers : NavigatorFactory;
  pi_kubeClient : KubeClient;
  pi_kubeInformers : KubeInformerFactory;
}.

Context (otherInitialize : pluginInitializer → Other → Other) (otherValidate : Other → option Err)
        (otherAdmit : Other → string → Operation → outcome (option Err)).

Definition NewPluginInitializer (internalClient : NavigatorClient) (sharedInformers : NavigatorFactory)
    (kubeClient : KubeClient) (kubeInformers : KubeInformerFactory) : pluginInitializer :=
  mkPluginInitializer internalClient sharedInformers kubeClient kubeInformers.

Inductive Plugin :=
| PLifecycle (l : lifecycle)
| POther (o : Other).

(** The interfaces lifecycle implements are WantsKubeClientSet and WantsKubeInformerFactory. *)
Definition Initialize (i : pluginInitializer) (p : Plugin) : Plugin :=
  match p with
  | PLifecycle l => PLifecycle (SetKubeInformerFactory (pi_kubeInformers i) (SetKubeClientSet (pi_kubeClient i) l))
  | POther o => POther (otherInitialize i o)
  end.

Definition plugin_Validate (p : Plugin) : option Err :=
  match p with
  | PLifecycle l => lifecycle_Validate l
  | POther o => otherValidate o
  end.

Definition plugin_Admit (p : Plugin) (namespace : string) (op : Operation) : outcome (option Err) :=
  match p with
  | PLifecycle l => if bool_decide (op ∈ lc_operations l) then lifecycle_Admit l namespace op else Ret None
  | POther o => otherAdmit o namespace op
  end.

(** chainAdmissionHandler.Admit: the first error ends the chain. *)
Fixpoint chain_Admit (chain : list Plugin) (namespace : string) (op : Operation) : outcome (option Err) :=
  match chain with
  | [] => Ret None
  | p :: chain =>
      err ← plugin_Admit p namespace op;
      match err with
      | Some e => Ret (Some e)
      | None => chain_Admit chain namespace op
      end
  end.

(** ** Registration and construction *)

(** A factory may fail. *)
Abbreviation Factories := (gmap string (Res Plugin)).

Definition PluginName : string := "KubernetesNamespaceLifecycle".

(** Plugins.Register ends the process when a name is taken. *)
Definition registerPlugin (name : string) (factory : Res Plugin) (ps : Factories) : outcome Factories :=
  match ps !! name with
  | Some _ => Panic "Admission plugin was registered twice"
  | None => Ret (<[name := factory]> ps)
  end.

Definition registerAllAdmissionPlugins (ps : Factories) : outcome Factories :=
  registerPlugin PluginName (inr (PLifecycle NewLifecycle)) ps.

Definition InitPlugin (ps : Factories) (name : string) (i : pluginInitializer) : Res (option Plugin) :=
  if bool_decide (name = "") then inr None
  else
    match ps !! name with
    | None => inl (Errorf "Unknown admission plugin: %s" [AStr name])
    | Some (inl err) => inl (Errorf "Couldn't init admission plugin %q: %v" [AStr name; AErr err])
    | Some (inr plugin) =>
        let plugin := Initialize i plugin in
        match plugin_Validate plugin with
        | Some err => inl err
        | None => inr (Some plugin)
        end
    end.

(** NewFromPlugins; [configFor] is the provider made from the configuration file. *)
Fixpoint NewFromPlugins (ps : Factories) (configFor : string → option Err) (i : pluginInitializer) (names : list string)
    : Res (list Plugin) :=
  match names with
  | [] => inr []
  | name :: names =>
      match configFor name with
      | Some err => inl err
      | None =>
          match InitPlugin ps name i with
          | inl err => inl err
          | inr plugin =>
              match NewFromPlugins ps configFor i names with
              | inl err => inl err
              | inr handlers => inr (match plugin with Some p => p :: handlers | None => handlers end)
              end
          end
      end
  end.
End plugins.

(** ** The server's options *)

(** What is used of NavigatorServerOptions: the errors the generic options find in
    themselves, the names given to admission-control, and standalone-mode. *)
Record NavigatorServerOptions := mkServerOptions {
  so_RecommendedErrors : list Err;
  so_PluginNames : list string;
  so_StandaloneMode : bool;
}.

Definition server_Validate (o : NavigatorServerOptions) : option Err :=
  NewAggregate (Some <$> so_RecommendedErrors o).

Definition server_Complete (o : NavigatorServerOptions) : option Err := None.

Section server.
Context {B Other : Type}.
Notation Plugin := (Plugin (Other := Other)).
Notation Factories := (gmap string (Res Plugin)).
Notation factory := (sharedInformerFactory (B := B)).
Notation initializer := (pluginInitializer (NavigatorClient := RESTClient) (NavigatorFactory := factory)).

(** The generic API server: its plugins, the certificates, the configuration its
    options make with the loopback client and its timeout, the answers of the
    Kubernetes client library, the admission configuration file, and the server
    itself. *)
Context (otherInitialize : initializer → Other → Other) (otherValidate : Other → option Err)
        (otherAdmit : Other → string → Operation → outcome (option Err)).
Context (genericPlugins : Factories) (selfSignedCerts : option Err) (ApplyTo : Res (Config * Z))
        (hostPath : string → Res string) (registryGroup : string → Res GroupVersion) (userAgent : string)
        (InClusterConfig : Res Config) (kubeNewForConfig : Config → Res KubeClient)
        (kubeFactory : KubeClient → KubeInformerFactory)
        (ReadAdmissionConfiguration : list string → Res (string → option Err)).

(** buildAdmission: NewFromPlugins over the names of the options *)
Definition buildAdmission (o : NavigatorServerOptions) (plugins : Factories) (client : RESTClient) (sharedInformers : factory)
    (kubeClient : KubeClient) (kubeSharedInformers : KubeInformerFactory) : Res (list Plugin) :=
  let pluginInitializer := NewPluginInitializer client sharedInformers kubeClient kubeSharedInformers in
  match ReadAdmissionConfiguration (so_PluginNames o) with
  | inl err => inl (Errorf "failed to read plugin config: %v" [AErr err])
  | inr configFor => NewFromPlugins otherInitialize otherValidate plugins configFor pluginInitializer (so_PluginNames o)
  end.

(** apiserver.Config: without AdmissionControl nothing is checked. *)
Record ServerConfig := mkServerConfig {
  cfg_AdmissionControl : option (list Plugin);
  cfg_KubeInformers : option KubeInformerFactory;
  cfg_SharedInformerFactory : factory;
}.

Definition set_GroupVersion (gv : GroupVersion) (c : Config) : Config :=
  mkConfig (cf_Host c) (cf_APIPath c) (Some gv) (cf_NegotiatedSerializer c) (cf_UserAgent c) (cf_QPS c) (cf_Burst c).

Definition server_Config (o : NavigatorServerOptions) : outcome (Res ServerConfig) :=
  plugins ← registerAllAdmissionPlugins genericPlugins;
  match selfSignedCerts with
  | Some err => Ret (inl (Errorf "error creating self-signed certificates: %v" [AErr err]))
  | None =>
      match ApplyTo with
      | inl err => Ret (inl err)
      | inr (loopback, timeout) =>
          match internal_NewForConfig hostPath registryGroup userAgent loopback with
          | inl err => Ret (inl err)
          | inr client =>
              let sharedInformers := NewSharedInformerFactory timeout in
              if negb (so_StandaloneMode o) then
                match InClusterConfig with
                | inl err => Ret (inl err)
                | inr inClusterConfig =>
                    match kubeNewForConfig (set_GroupVersion (mkGroupVersion "" "") inClusterConfig) with
                    | inl err => Ret (inl err)
                    | inr kubeClient =>
                        let kubeSharedInformers := kubeFactory kubeClient in
                        match buildAdmission o plugins client sharedInformers kubeClient kubeSharedInformers with
                        | inl err => Ret (inl (Errorf "failed to initialize admission: %v" [AErr err]))
                        | inr chain => Ret (inr (mkServerConfig (Some chain) (Some kubeSharedInformers) sharedInformers))
                        end
                    end
                end
              else Ret (inr (mkServerConfig None None sharedInformers))
          end
      end
  end.

(** RunNavigatorServer: [newServer] and [runServer] are the generic server; the
    hook starts the informers of the configuration. *)
Definition RunNavigatorServer (newServer : ServerConfig → option Err) (runServer : ServerConfig → option Err)
    (o : NavigatorServerOptions) : outcome (option Err * option ServerConfig) :=
  config ← server_Config o;
  match config with
  | inl err => Ret (Some err, None)
  | inr config =>
      match newServer config with
      | Some err => Ret (Some err, None)
      | None =>
          let started := mkServerConfig (cfg_AdmissionControl config) (cfg_KubeInformers config)
                           (Start (cfg_SharedInformerFactory config)) in
          Ret (runServer started, Some started)
      end
  end.

(** RunE of the command *)
Definition server_RunE newServer runServer (o : NavigatorServerOptions) : outcome (option Err * option ServerConfig) :=
  match server_Complete o with
  | Some err => Ret (Some err, None)
  | None =>
      match server_Validate o with
      | Some err => Ret (Some err, None)
      | None => RunNavigatorServer newServer runServer o
      end
  end.

(** What admission makes of a request *)
Definition admitted (config : ServerConfig) (namespace : string) (op : Operation) : outcome (option Err) :=
  match cfg_AdmissionControl config with
  | None => Ret None
  | Some chain => chain_Admit otherAdmit chain namespace op
  end.

(** ** Facts *)

Lemma NewFromPlugins_In ps configFor (i : initializer) names chain name plugin :
  NewFromPlugins otherInitialize otherValidate ps configFor i names = inr chain →
  name ∈ names → name ≠ "" → ps !! name = Some (inr plugin) → Initialize otherInitialize i plugin ∈ chain.
Proof.
  revert chain. induction names as [|n names IH]; intros chain Hc Hin Hne Hps; [by apply not_elem_of_nil in Hin|].
  simpl in Hc. destruct (configFor n); [done|]. destruct (InitPlugin _ _ ps n i) as [|p] eqn:Hp; [done|].
  destruct (NewFromPlugins _ _ _ _ _ _) as [|handlers] eqn:Hh; [done|]. injection Hc as <-.
  apply elem_of_cons in Hin as [->|Hin].
  - unfold InitPlugin in Hp. rewrite bool_decide_eq_false_2, Hps in Hp by done.
    destruct (plugin_Validate _ _); [done|]. injection Hp as <-. apply elem_of_cons. by left.
  - specialize (IH handlers eq_refl Hin Hne Hps). destruct p; [apply elem_of_cons; by right|done].
Qed.

Lemma chain_Admit_None (chain : list Plugin) namespace op p :
  chain_Admit otherAdmit chain namespace op = Ret None → p ∈ chain → plugin_Admit otherAdmit p namespace op = Ret None.
Proof.
  induction chain as [|q chain IH]; simpl; [by intros _ ?%not_elem_of_nil|].
  destruct (plugin_Admit otherAdmit q namespace op) as [[err|]|] eqn:Hq; simpl; try done.
  intros Hc [->|Hin]%elem_of_cons; [done|by apply IH].
Qed.

(** The plugin of the repository is always initialized with what it needs, so that its
    name never makes the construction of the chain fail. *)
Lemma lifecycle_initializes (ps : Factories) (i : initializer) :
  ps !! PluginName = Some (inr (PLifecycle NewLifecycle)) →
  ∃ l, InitPlugin otherInitialize otherValidate ps PluginName i = inr (Some (PLifecycle l)) ∧
    lc_client l = Some (pi_kubeClient i) ∧ lc_namespaceLister l = Some (pi_kubeInformers i).
Proof. intros Hps. unfold InitPlugin. rewrite Hps. simpl. eexists. split; [done|]. done. Qed.

Lemma standalone_admits_all o config namespace op :
  server_Config o = Ret (inr config) → so_StandaloneMode o = true → admitted config namespace op = Ret None.
Proof.
  unfold server_Config. intros Hc Hs. destruct (registerAllAdmissionPlugins genericPlugins); [|done]. simpl in Hc.
  destruct selfSignedCerts; [done|]. destruct ApplyTo as [|[loopback timeout]]; [done|].
  destruct (internal_NewForConfig _ _ _ _); [done|]. rewrite Hs in Hc. simpl in Hc. by injection Hc as <-.
Qed.

(** In a cluster, with the plugin of the repository among the admission plugins, as the chart
    of the repository sets it, an admitted create, update or delete of a namespaced object came
    after the namespace informer had synced, its namespace exists, and nothing is created in a
    namespace that is being terminated. *)
Theorem in_cluster_server_checks_namespaces o config namespace op :
  server_Config o = Ret (inr config) → so_StandaloneMode o = false → PluginName ∈ so_PluginNames o →
  ∃ client,
    let f := kubeFactory client in
    cfg_KubeInformers config = Some f ∧
    (namespace ≠ "" → op ∈ [OpCreate; OpUpdate; OpDelete] →
     onlyMissing (kif_Get f namespace) → onlyMissing (kif_GetLater f namespace) →
     admitted config namespace op = Ret None →
     kif_HasSynced f = true ∧
     ∃ ns, foundNamespace op (kif_Get f namespace) (kif_GetLater f namespace) (client namespace) = Some ns ∧
       (op = OpCreate → ns_Phase ns ≠ NamespaceTerminating)).
Proof.
  unfold server_Config. intros Hc Hs Hname.
  destruct (registerAllAdmissionPlugins genericPlugins) as [ps|] eqn:Hps; [|done]. simpl in Hc.
  destruct selfSignedCerts; [done|]. destruct ApplyTo as [|[loopback timeout]]; [done|].
  destruct (internal_NewForConfig _ _ _ _) as [|nav]; [done|]. rewrite Hs in Hc. simpl in Hc.
  destruct InClusterConfig as [|icc]; [done|]. destruct (kubeNewForConfig _) as [|client]; [done|].
  destruct (buildAdmission _ _ _ _ _ _) as [|chain] eqn:Hb; [done|]. injection Hc as <-.
  exists client. simpl. split; [done|]. intros Hne Hop Hget Hlater Hadm. unfold admitted in Hadm. simpl in Hadm.
  unfold buildAdmission in Hb. destruct (ReadAdmissionConfiguration _) as [|configFor]; [done|].
  assert (ps !! PluginName = Some (inr (PLifecycle NewLifecycle))) as Hreg.
  { unfold registerAllAdmissionPlugins, registerPlugin in Hps. destruct (genericPlugins !! PluginName); [done|].
    injection Hps as <-. by rewrite lookup_insert_eq. }
  apply (NewFromPlugins_In _ _ _ _ _ _ _ Hb Hname) in Hreg; [|done].
  eapply chain_Admit_None in Hreg; [|exact Hadm]. simpl in Hreg. rewrite bool_decide_eq_true_2 in Hreg by done.
  unfold lifecycle_Admit in Hreg. simpl in Hreg. destruct (kif_HasSynced _) eqn:Hsync; [|done]. split; [done|].
  injection Hreg as Hreg. by apply admitted_iff_namespace_usable in Hreg.
Qed.
End server.

(** ** An example *)

(** A server in a cluster whose cache has one namespace that is being terminated. *)
Definition terminatingNamespaces : KubeInformerFactory :=
  let get name := if bool_decide (name = "old") then inr (mkNamespace "old" NamespaceTerminating)
                  else if bool_decide (name = "test") then inr (mkNamespace "test" NamespaceActive)
                  else inl (NewNotFound name) in
  mkKubeInformerFactory get get true.

Definition emptyConfig : Config := mkConfig "" "" None None "" (Qcanon.Q2Qc (QArith_base.inject_Z 0)) 0.

Definition chartOptions : NavigatorServerOptions := mkServerOptions [] ["KubernetesNamespaceLifecycle"] false.

Definition demoServerConfig : outcome (Res (ServerConfig (B := string) (Other := unit))) :=
  server_Config (λ _ o, o) (λ _, None) ∅ None (inr (emptyConfig, 0)) (λ _, inr "/") (λ _, inr SchemeGroupVersion) "agent"
    (inr emptyConfig) (λ _, inr (λ name, inl (NewNotFound name))) (λ _, terminatingNamespaces) (λ _, inr (λ _, None)) chartOptions.

Lemma in_cluster_server_checks_namespaces_witness :
  ∃ config, demoServerConfig = Ret (inr config) ∧
    admitted (λ _ _ _, Ret None) config "test" OpCreate = Ret None ∧
    admitted (λ _ _ _, Ret None) config "old" OpCreate ≠ Ret None.
Proof.
  destruct demoServerConfig as [[err|config]|] eqn:Hc; [vm_compute in Hc; discriminate| |vm_compute in Hc; discriminate].
  exists config. split; [reflexivity|].
  split; [vm_compute in Hc; injection Hc as <-; vm_compute; reflexivity|]. intros Hadm.
  unfold demoServerConfig in Hc.
  destruct (in_cluster_server_checks_namespaces _ _ (λ _ _ _, Ret None) _ _ _ _ _ _ _ _ _ _ _ _ "old" OpCreate Hc eq_refl
    ltac:(decide_closed)) as (client & _ & Hns).
  destruct Hns as [_ (ns & [= <-] & Hph)]; [discriminate|decide_closed|intros ? [=]|intros ? [=]|exact Hadm|].
  by apply Hph.
Defined.
