(* ===== verification/ControllerApp.v ===== *)
(** * The controller process

    cmd/controller/app/controller.go: the configuration of the clients, the
    context with the shared informers, and Run, with or without leader
    election; what the informers of a running controller list and watch. *)

From S2P Require Import Prelude GoStrings Semver K8s WorkQueue Types Internal CassandraVersion Cluster Fixtures Handlers RestClient APIRoutes Informers CassUtil Wiring LeaderElection.

Section app.
(** The sources of a configuration: the service account of the pod, and the
    kubeconfig file with the client configuration made of it. *)
Context {APIConfig : Type} (InClusterConfig : Res Config) (LoadRules : Res APIConfig) (ClientConfig : APIConfig → Res Config).
(** Of the client library: the path of a host, and the Kubernetes client set. *)
Context {KubeClientset : Type} (hostPath : string → Res string) (userAgent : string) (kubeNewForConfig : Config → Res KubeClientset).
Context {B : Type}.

Definition newConfig (host : string) : Config := mkConfig host "" None None "" (Qcanon.Q2Qc (QArith_base.inject_Z 0)) 0.

Definition KubeConfig (apiServerHost : string) : Res Config :=
  if bool_decide (0 < String.length apiServerHost)%nat then inr (newConfig apiServerHost)
  else
    match InClusterConfig with
    | inr cfg => inr cfg
    | inl _ =>
        match LoadRules with
        | inl err => inl (Errorf "error loading cluster config: %s" [AErr err])
        | inr apiCfg =>
            match ClientConfig apiCfg with
            | inl err => inl (Errorf "error loading cluster client config: %s" [AErr err])
            | inr cfg => inr cfg
            end
        end
    end.

(** controllers.Context; the Kubernetes factory is made of the same namespace. *)
Record AppContext := mkAppContext {
  ctx_Client : KubeClientset;
  ctx_NavigatorClient : RESTClient;
  ctx_SharedInformerFactory : sharedInformerFactory (B := B);
  ctx_KubeNamespace : string;
  ctx_Namespace : string;
}.

Definition buildControllerContext (opts : ControllerOptions) : Res (AppContext * Config) :=
  match KubeConfig (co_APIServerHost opts) with
  | inl err => inl (Errorf "error creating rest config: %s" [AErr err])
  | inr kubeCfg =>
      match versioned_NewForConfig hostPath userAgent kubeCfg with
      | inl err => inl (Errorf "error creating internal group client: %s" [AErr err])
      | inr cl =>
          match kubeNewForConfig kubeCfg with
          | inl err => inl (Errorf "error creating kubernetes client: %s" [AErr err])
          | inr kubecl =>
              inr (mkAppContext kubecl cl (NewFilteredSharedInformerFactory (30 * Second) (co_Namespace opts) None)
                     (co_Namespace opts) (co_Namespace opts), kubeCfg)
          end
      end
  end.

(** Run, from the results of the controllers in the order in which they return and
    the end of the election: it always ends the process, with a message of
    [glog.Fatalf] or a panic.  [acquired]: this process becomes the leader, and
    [lost]: it loses the lease before a controller returns an error. *)
Definition app_Run (opts : ControllerOptions) (hostname : Res string) (acquired lost : bool) (results : list (string * option Err))
    : option (outcome Err) :=
  match buildControllerContext opts with
  | inl err => Some (Ret err)
  | inr (_, kubeCfg) =>
      if negb (co_LeaderElect opts) then Some (Ret (run_exit results))
      else
        match kubeNewForConfig kubeCfg with
        | inl err => Some (Ret (Errorf "error creating leader election client: %s" [AErr err]))
        | inr _ =>
            match startLeaderElection opts hostname with
            | Panic p => Some (Panic p)
            | Ret (inl err) => Some (Ret err)
            | Ret (inr _) =>
                if negb acquired then None
                else if lost then Some (Ret (Errorf "leaderelection lost" []))
                else Some (Ret (run_exit results))
            end
        end
  end.

(** ** What the controllers watch *)

Lemma construct_config c (f : sharedInformerFactory (B := B)) ctrl : config (construct c f ctrl) = config f.
Proof.
  unfold construct. generalize (ct_informers ctrl). intros ks. revert f.
  induction ks as [|k ks IH]; intros f; [done|]. simpl. rewrite IH. destruct (kindType k) as [t|]; [|done].
  apply (step_config (versionedListWatch c) f (UseInformer t)).
Qed.

Lemma startAll_config c ctrls (f : sharedInformerFactory (B := B)) : config (startAll c ctrls f) = config f.
Proof.
  unfold startAll. rewrite Start_config. revert f.
  induction ctrls as [|[n ctrl] ctrls IH]; intros f; [done|]. simpl. by rewrite IH, construct_config.
Qed.

(** Every informer of a running controller lists and watches its resource of the Navigator API
    in the namespace of the options, and in all of them when none is given. *)
Theorem controllers_watch_their_namespace `{MapRange} opts ctx cfg ctrls i inf o base :
  buildControllerContext opts = inr (ctx, cfg) →
  hostPath (if bool_decide (cf_Host cfg = "") then "localhost" else cf_Host cfg) = inr base → base = "" ∨ base = "/" →
  co_Namespace opts = "" ∨ segment (co_Namespace opts) → ctrls ≡ₚ map_to_list Known →
  fa_made (startAll (ctx_NavigatorClient ctx) ctrls (ctx_SharedInformerFactory ctx)) !! i = Some inf →
  reaches (lw_List (inf_ListWatch inf) o) None (if lo_Watch o then "watch" else "list") (co_Namespace opts)
    (typeResource (inf_Type inf)) "" "" "LIST" ∧
  reaches (lw_Watch (inf_ListWatch inf) o) None "watch" (co_Namespace opts) (typeResource (inf_Type inf)) "" "" "LIST".
Proof.
  intros Hctx Hhost Hbase Hns Hperm Hmade. unfold buildControllerContext in Hctx.
  destruct (KubeConfig (co_APIServerHost opts)) as [|kubeCfg]; [done|].
  destruct (versioned_NewForConfig hostPath userAgent kubeCfg) as [|cl] eqn:Hcl; [done|].
  destruct (kubeNewForConfig kubeCfg) as [|kubecl]; [done|]. injection Hctx as <- <-. simpl in *.
  destruct (NewForConfig_onNavigator hostPath (λ _, inr SchemeGroupVersion) userAgent kubeCfg _ base eq_refl Hhost Hbase)
    as [(cl' & Hcl' & Hnav) _].
  assert (cl' = cl) as -> by congruence.
  set (f := startAll cl ctrls (NewFilteredSharedInformerFactory (30 * Second) (co_Namespace opts) None)) in *.
  destruct (startAll_runs cl (30 * Second) (co_Namespace opts) None ctrls f Hperm eq_refl) as [Hinv _].
  assert (config f = (co_Namespace opts, None)) as [Hfns Hft]%pair_eq by apply startAll_config.
  apply (inv_all _ _ Hinv) in Hmade as Hreg. apply (inv_made _ _ Hinv) in Hreg. rewrite Hmade in Hreg. injection Hreg as Hdef.
  rewrite Hdef. simpl. rewrite Hfns, Hft. simpl. by apply (listWatch_reaches _ cl); [left|..].
Qed.

(** Without leader election, a process whose control loops have all returned without an error
    still ends with a fatal message. *)
Lemma orderly_stop_is_fatal opts ctx cfg hostname results :
  buildControllerContext opts = inr (ctx, cfg) → co_LeaderElect opts = false →
  Forall (λ r, snd r = None) results →
  app_Run opts hostname true false results = Some (Ret (Errorf "Control loops exited" [])).
Proof.
  intros Hctx Hle Hres. unfold app_Run. rewrite Hctx, Hle. simpl. do 2 f_equal.
  induction Hres as [|[n r] results Hr Hres IH]; [done|]. simpl in *. by subst r.
Qed.
End app.
