(* ===== verification/ControllerCommand.v ===== *)
(** * The command of the controllers

    cmd/controller (main.go, start.go, app/options/options.go): the flags of the
    navigator-controller command, its validation and its start, and the signal
    handler of the processes (pkg/pilot/genericpilot/signals).  The flags that
    other packages register and time.ParseDuration are parameters. *)

From S2P Require Import Prelude GoStrings K8s WorkQueue Types Cluster RestClient Informers Wiring LeaderElection ControllerApp PilotFlags PilotLaunch.
From Stdlib Require Import Ascii.

(** ** Flags *)

(** The variables of the flags: the options, those of the logging library, and the help
    flag that cobra adds *)
Record CommandVars := mkCommandVars { nv_Options : ControllerOptions; nv_Logging : Logging; nv_help : bool }.

Definition set_Options (f : ControllerOptions → ControllerOptions) (v : CommandVars) : CommandVars :=
  mkCommandVars (f (nv_Options v)) (nv_Logging v) (nv_help v).

Definition BoolVar {V} (set : bool → V → V) : Flag V :=
  mkFlag "true" (λ _ value o,
    match ParseBool value with
    | None => inl (Errorf "strconv.ParseBool: parsing %q" [AStr value])
    | Some b => inr (set b o)
    end).

Definition DurationVar {V} (ParseDuration : string → Res Z) (set : Z → V → V) : Flag V :=
  mkFlag "" (λ _ value o,
    match ParseDuration value with
    | inl err => inl err
    | inr d => inr (set d o)
    end).

(** AddFlags of the options *)
Definition controller_flags (ParseDuration : string → Res Z) : list (string * Flag CommandVars) :=
  [ ("master", StringVar (λ v, set_Options (λ o,
       mkControllerOptions v (co_Namespace o) (co_LeaderElect o) (co_LeaderElectionNamespace o)
         (co_LeaderElectionLeaseDuration o) (co_LeaderElectionRenewDeadline o) (co_LeaderElectionRetryPeriod o))));
    ("namespace", StringVar (λ v, set_Options (λ o,
       mkControllerOptions (co_APIServerHost o) v (co_LeaderElect o) (co_LeaderElectionNamespace o)
         (co_LeaderElectionLeaseDuration o) (co_LeaderElectionRenewDeadline o) (co_LeaderElectionRetryPeriod o))));
    ("leader-elect", BoolVar (λ v, set_Options (λ o,
       mkControllerOptions (co_APIServerHost o) (co_Namespace o) v (co_LeaderElectionNamespace o)
         (co_LeaderElectionLeaseDuration o) (co_LeaderElectionRenewDeadline o) (co_LeaderElectionRetryPeriod o))));
    ("leader-election-namespace", StringVar (λ v, set_Options (λ o,
       mkControllerOptions (co_APIServerHost o) (co_Namespace o) (co_LeaderElect o) v
         (co_LeaderElectionLeaseDuration o) (co_LeaderElectionRenewDeadline o) (co_LeaderElectionRetryPeriod o))));
    ("leader-election-lease-duration", DurationVar ParseDuration (λ v, set_Options (λ o,
       mkControllerOptions (co_APIServerHost o) (co_Namespace o) (co_LeaderElect o) (co_LeaderElectionNamespace o)
         v (co_LeaderElectionRenewDeadline o) (co_LeaderElectionRetryPeriod o))));
    ("leader-election-renew-deadline", DurationVar ParseDuration (λ v, set_Options (λ o,
       mkControllerOptions (co_APIServerHost o) (co_Namespace o) (co_LeaderElect o) (co_LeaderElectionNamespace o)
         (co_LeaderElectionLeaseDuration o) v (co_LeaderElectionRetryPeriod o))));
    ("leader-election-retry-period", DurationVar ParseDuration (λ v, set_Options (λ o,
       mkControllerOptions (co_APIServerHost o) (co_Namespace o) (co_LeaderElect o) (co_LeaderElectionNamespace o)
         (co_LeaderElectionLeaseDuration o) (co_LeaderElectionRenewDeadline o) v))) ].

(** The flags of the command: its own, those of the logging library, and help *)
Definition controller_AddFlags (ParseDuration : string → Res Z) (others : string → option (Flag CommandVars)) : FlagSet CommandVars :=
  mkFlagSet
    (formalFlags (controller_flags ParseDuration ++
       glogFlags nv_Logging (λ l v, mkCommandVars (nv_Options v) l (nv_help v)) ++
       [("help", BoolVar (λ b v, mkCommandVars (nv_Options v) (nv_Logging v) b))]) others)
    (λ c, if Ascii.eqb c "h"%char then Some "help" else glogShorthands c).

(** NewNavigatorControllerOptions; the defaults of the flags are the same. *)
Definition NewNavigatorControllerOptions : CommandVars := mkCommandVars NewControllerOptions (mkLogging 0 false) false.

(** ** The command *)

Definition NavigatorControllerOptions_Validate (o : ControllerOptions) : option Err := NewAggregate [ControllerOptions_Validate o].

(** How main ends: help was asked for, a fatal message, a panic, or still running *)
Inductive Exit :=
| ShowHelp
| Fatal (err : Err)
| Panics (why : string)
| Runs.

(** Run of the command; [appRun] is Run of the app package. *)
Definition command_Run (appRun : ControllerOptions → option (outcome Err)) (o : ControllerOptions) : Exit :=
  match NavigatorControllerOptions_Validate o with
  | Some err => Fatal (Errorf "error validating options: %s" [AErr err])
  | None =>
      match appRun o with
      | None => Runs
      | Some (Ret err) => Fatal err
      | Some (Panic p) => Panics p
      end
  end.

(** main: cmd.Execute on the arguments of the process, whose errors are fatal *)
Definition controller_main ParseDuration others appRun (args : list string) : option Exit :=
  match Parse (controller_AddFlags ParseDuration others) args NewNavigatorControllerOptions with
  | None => None
  | Some (inl err) => Some (Fatal err)
  | Some (inr p) => Some (if nv_help (pa_vars p) then ShowHelp else command_Run appRun (nv_Options (pa_vars p)))
  end.

(** ** Signals *)

Definition shutdownSignals : list string := ["interrupt"; "terminated"].

(** The goroutine of SetupSignalHandler: [c] buffers both signals it reads. *)
Inductive Handler := Waiting | Stopping | Exited (code : Z).

Definition onSignal (h : Handler) (sig : string) : Handler :=
  if bool_decide (sig ∈ shutdownSignals) then
    match h with
    | Waiting => Stopping
    | Stopping => Exited 1
    | Exited code => Exited code
    end
  else h.

(** SetupSignalHandler closes a channel, which panics the second time. *)
Definition SetupSignalHandler (onlyOneSignalHandler : bool) : outcome (bool * Handler) :=
  if onlyOneSignalHandler then Panic "close of closed channel" else Ret (true, Waiting).

Definition stopClosed (h : Handler) : bool := match h with Waiting => false | _ => true end.

(** The stop channel is closed by the first shutdown signal and the process exits with the
    second; other signals change nothing. *)
Lemma signals_stop_then_exit sigs :
  let n := length (filter (λ s, s ∈ shutdownSignals) sigs) in
  let h := foldl onSignal Waiting sigs in
  stopClosed h = bool_decide (1 ≤ n)%nat ∧ (h = Exited 1 ↔ (2 ≤ n)%nat).
Proof.
  intros n h. assert (h = match n with O => Waiting | S O => Stopping | _ => Exited 1 end) as ->.
  { subst n h. induction sigs as [|s sigs IH] using rev_ind; [done|]. rewrite foldl_app, filter_app, length_app. simpl. rewrite IH.
    unfold onSignal. rewrite filter_cons. case_bool_decide as Hs.
    - rewrite decide_True by done. simpl. destruct (length (filter _ sigs)) as [|[|n]]; done.
    - rewrite decide_False by done. simpl. by rewrite Nat.add_0_r. }
  destruct n as [|[|n]]; simpl; split; try done; split; try done; lia.
Qed.

(** ** From the flags to the process *)

Section command.
Context (ParseDuration : string → Res Z) (others : string → option (Flag CommandVars)).

(** A flag for every option *)
Definition controllerArgs (FormatDuration : Z → string) (o : ControllerOptions) : list string :=
  [ "--" +:+ "master" +:+ "=" +:+ co_APIServerHost o;
    "--" +:+ "namespace" +:+ "=" +:+ co_Namespace o;
    "--" +:+ "leader-elect" +:+ "=" +:+ (if co_LeaderElect o then "true" else "false");
    "--" +:+ "leader-election-namespace" +:+ "=" +:+ co_LeaderElectionNamespace o;
    "--" +:+ "leader-election-lease-duration" +:+ "=" +:+ FormatDuration (co_LeaderElectionLeaseDuration o);
    "--" +:+ "leader-election-renew-deadline" +:+ "=" +:+ FormatDuration (co_LeaderElectionRenewDeadline o);
    "--" +:+ "leader-election-retry-period" +:+ "=" +:+ FormatDuration (co_LeaderElectionRetryPeriod o) ].

Definition durations (o : ControllerOptions) : list Z :=
  [co_LeaderElectionLeaseDuration o; co_LeaderElectionRenewDeadline o; co_LeaderElectionRetryPeriod o].

Lemma DurationVar_Set {V} (set : Z → V → V) changed value d o :
  ParseDuration value = inr d → fl_Set (DurationVar ParseDuration set) changed value o = inr (set d o).
Proof. simpl. by intros ->. Qed.

Lemma BoolVar_Set {V} (set : bool → V → V) changed (b : bool) o :
  fl_Set (BoolVar set) changed (if b then "true" else "false") o = inr (set b o).
Proof. by destruct b. Qed.

(** Flags for all options set exactly these options. *)
Lemma controller_flags_roundtrip FormatDuration o :
  (∀ d, d ∈ durations o → ParseDuration (FormatDuration d) = inr d) →
  ∃ p, Parse (controller_AddFlags ParseDuration others) (controllerArgs FormatDuration o) NewNavigatorControllerOptions = Some (inr p) ∧
       nv_Options (pa_vars p) = o ∧ nv_help (pa_vars p) = false ∧ pa_args p = [].
Proof.
  intros Hd. eexists. split.
  - unfold Parse, controllerArgs. cbn [length].
    etrans; [eapply (parseArgs_value "m" "aster"); reflexivity|].
    etrans; [eapply (parseArgs_value "n" "amespace"); reflexivity|].
    etrans; [eapply (parseArgs_value "l" "eader-elect"); [reflexivity..|]; apply BoolVar_Set|].
    etrans; [eapply (parseArgs_value "l" "eader-election-namespace"); reflexivity|].
    etrans; [eapply (parseArgs_value "l" "eader-election-lease-duration"); [reflexivity..|]; apply DurationVar_Set, Hd; unfold durations; rewrite !elem_of_cons; auto|].
    etrans; [eapply (parseArgs_value "l" "eader-election-renew-deadline"); [reflexivity..|]; apply DurationVar_Set, Hd; unfold durations; rewrite !elem_of_cons; auto|].
    etrans; [eapply (parseArgs_value "l" "eader-election-retry-period"); [reflexivity..|]; apply DurationVar_Set, Hd; unfold durations; rewrite !elem_of_cons; auto|].
    reflexivity.
  - by destruct o.
Qed.

(** The arguments of the chart of the repository *)
Definition chartArgs (namespace : option string) (releaseNamespace logLevel : string) : list string :=
  match namespace with
  | None => []
  | Some ns => ["--" +:+ "namespace" +:+ "=" +:+ ns]
  end ++
  ["--" +:+ "leader-election-namespace" +:+ "=" +:+ releaseNamespace; "--" +:+ "v" +:+ "=" +:+ logLevel].

(** The chart's controllers watch the namespace of the chart, and all of them without one, and
    elect their leader in the namespace of the release, with durations that the elector takes. *)
Lemma chart_configures_the_controllers namespace releaseNamespace logLevel level id :
  Level_Set logLevel (mkLogging 0 false) = inr level →
  ∃ p, Parse (controller_AddFlags ParseDuration others) (chartArgs namespace releaseNamespace logLevel) NewNavigatorControllerOptions = Some (inr p) ∧
    co_Namespace (nv_Options (pa_vars p)) = default "" namespace ∧
    co_LeaderElectionNamespace (nv_Options (pa_vars p)) = releaseNamespace ∧ nv_Logging (pa_vars p) = level ∧
    NavigatorControllerOptions_Validate (nv_Options (pa_vars p)) = None ∧
    ∃ election, startLeaderElection (nv_Options (pa_vars p)) (inr id) = Ret (inr election).
Proof.
  intros Hlevel. assert (∀ v, fl_Set (V := CommandVars) (mkFlag "" (λ _ value v, match Level_Set value (nv_Logging v) with inl err => inl err | inr l => inr (mkCommandVars (nv_Options v) l (nv_help v)) end)) false logLevel
    (mkCommandVars v (mkLogging 0 false) false) = inr (mkCommandVars v level false)) as Hset by (intros v; simpl; by rewrite Hlevel).
  unfold Parse, chartArgs. destruct namespace as [ns|]; cbn [length app]; eexists; split.
  - etrans; [eapply (parseArgs_value "n" "amespace"); reflexivity|].
    etrans; [eapply (parseArgs_value "l" "eader-election-namespace"); reflexivity|].
    etrans; [eapply (parseArgs_value "v" ""); [reflexivity..|]; apply Hset|]. reflexivity.
  - split_and!; [reflexivity..|eexists; reflexivity].
  - etrans; [eapply (parseArgs_value "l" "eader-election-namespace"); reflexivity|].
    etrans; [eapply (parseArgs_value "v" ""); [reflexivity..|]; apply Hset|]. reflexivity.
  - split_and!; [reflexivity..|eexists; reflexivity].
Qed.

Section process.
Context {APIConfig : Type} (InClusterConfig : Res Config) (LoadRules : Res APIConfig) (ClientConfig : APIConfig → Res Config).
Context {KubeClientset : Type} (hostPath : string → Res string) (userAgent : string) (kubeNewForConfig : Config → Res KubeClientset).
Context {B : Type} (FormatDuration : Z → string).

(** C39. Every set of controller options whose durations the parser of durations reads back from
    the text given for them can be given by flags, which set exactly these options, and none is
    refused. Where the clients can be made, leaders are elected and 1.2 times the retry period
    fits an int64, the process panics exactly when the lease is not longer than the renew
    deadline or the deadline not longer than that product, as Go computes it: rounded to a
    float64 and truncated. With other durations the process waits until it is elected, and ends
    with a fatal message when it loses the lease. *)
Theorem controllers_panic_on_bad_durations o ctx cfg id acquired lost results :
  let appRun o := app_Run InClusterConfig LoadRules ClientConfig hostPath userAgent kubeNewForConfig (B := B) o (inr id) acquired lost results in
  (∀ d, d ∈ durations o → ParseDuration (FormatDuration d) = inr d) →
  buildControllerContext InClusterConfig LoadRules ClientConfig hostPath userAgent kubeNewForConfig (B := B) o = inr (ctx, cfg) →
  co_LeaderElect o = true →
  - (int64_max + 1) ≤ jittered (co_LeaderElectionRetryPeriod o) ≤ int64_max →
  let bad := co_LeaderElectionLeaseDuration o ≤ co_LeaderElectionRenewDeadline o ∨
             co_LeaderElectionRenewDeadline o ≤ jittered (co_LeaderElectionRetryPeriod o) in
  let exit := controller_main ParseDuration others appRun (controllerArgs FormatDuration o) in
  ((∃ why, exit = Some (Panics why)) ↔ bad) ∧ (¬ bad → acquired = false → exit = Some Runs) ∧
  (¬ bad → acquired = true → lost = true → exit = Some (Fatal (Errorf "leaderelection lost" []))).
Proof.
  intros appRun Hduration Hctx Hle _ bad exit. destruct (controller_flags_roundtrip FormatDuration o Hduration) as (p & Hp & Ho & Hh & _).
  assert (exit = Some (command_Run appRun o)) as -> by (unfold exit, controller_main; by rewrite Hp, Hh, Ho).
  assert (∃ client, kubeNewForConfig cfg = inr client) as [client Hk].
  { unfold buildControllerContext in Hctx. repeat case_match; simplify_eq; eauto. }
  unfold command_Run, appRun, app_Run. rewrite Hctx, Hle, Hk. cbn [negb].
  change (NavigatorControllerOptions_Validate o) with (@None Err). unfold startLeaderElection, NewLeaderElector. simpl.
  destruct (decide bad) as [Hbad|Hgood].
  - split; [|split; by intros]. split; [done|]. intros _. destruct Hbad as [Hb|Hb].
    + rewrite bool_decide_eq_true_2 by done. eauto.
    + case_bool_decide; [eauto|]. rewrite bool_decide_eq_true_2 by done. eauto.
  - unfold bad in Hgood. rewrite !bool_decide_eq_false_2 by tauto. cbv iota.
    split; [|split]; [|by intros _ ->|by intros _ -> ->]. split; [|done]. destruct acquired, lost; intros [why ?]; done.
Qed.
End process.
End command.

(** The help text of the renew deadline permits a deadline as long as the lease. *)
Definition equalDurations : ControllerOptions :=
  mkControllerOptions "http://127.0.0.1:8001" "" true "kube-system" (15 * Second) (15 * Second) (2 * Second).

Definition sampleParseDuration (s : string) : Res Z :=
  if String.eqb s "15s" then inr (15 * Second) else if String.eqb s "2s" then inr (2 * Second) else inl (Errorf "time: invalid duration %s" [AStr s]).
Definition sampleFormatDuration (d : Z) : string := if bool_decide (d = 15 * Second) then "15s" else "2s".

Lemma controllers_panic_on_bad_durations_witness :
  ∃ why, controller_main sampleParseDuration (λ _, None)
    (λ o, app_Run (KubeClientset := ()) (B := ()) (inl (Errorf "" [])) (inr ()) (λ _, inl (Errorf "" [])) (λ _, inr "") "navigator" (λ _, inr ()) o (inr "host") true false [])
    (controllerArgs sampleFormatDuration equalDurations) = Some (Panics why).
Proof.
  refine (proj2 (proj1 (controllers_panic_on_bad_durations sampleParseDuration (λ _, None) (inl (Errorf "" [])) (inr ()) (λ _, inl (Errorf "" []))
    (λ _, inr "") "navigator" (λ _, inr ()) sampleFormatDuration equalDurations
    _ _ "host" true false [] _ _ _ _)) _).
  - unfold durations. intros d. rewrite !elem_of_cons. by intros [->|[->|[->|[]%not_elem_of_nil]]].
  - unfold buildControllerContext. simpl. reflexivity.
  - reflexivity.
  - split; vm_compute; discriminate.
  - left. simpl. lia.
Defined.
