(* ===== verification/APIStorage.v ===== *)
(** * Get, create, delete and list of the API server

    The other operations of the generic registry's Store on the etcd store
    (vendor/k8s.io/apiserver), with the selection by labels and fields of
    pkg/registry/navigator/*/strategy.go.

    Reads ask for no resource version, so they reach etcd.  Lists are not
    paged.  Objects have no finalizers, initializers or generated names, and no
    strategy deletes gracefully; delete options name at most a UID. *)

From stdpp Require Import sorting.
From S2P Require Import Prelude GoStrings K8s Types Internal CassandraVersion Validation Registry RestClient APIRoutes APIStore APIServer.

(** ** Field selectors *)

Inductive FieldSelector :=
| hasTerm (field value : string)
| notHasTerm (field value : string)
| andTerm (terms : list FieldSelector).

Definition Everything : FieldSelector := andTerm [].

(** Get of a field that is not there is the empty string. *)
Abbreviation FieldSet := (gmap string string).

Fixpoint fields_Matches (sel : FieldSelector) (ls : FieldSet) : bool :=
  match sel with
  | hasTerm field value => bool_decide (default "" (ls !! field) = value)
  | notHasTerm field value => negb (bool_decide (default "" (ls !! field) = value))
  | andTerm terms => forallb (λ q, fields_Matches q ls) terms
  end.

Fixpoint fields_Empty (sel : FieldSelector) : bool :=
  match sel with
  | andTerm terms => forallb fields_Empty terms
  | _ => false
  end.

Fixpoint RequiresExactMatch (sel : FieldSelector) (field : string) : option string :=
  match sel with
  | hasTerm f value => if bool_decide (f = field) then Some value else None
  | notHasTerm _ _ => None
  | andTerm terms =>
      (fix first terms :=
         match terms with
         | [] => None
         | t :: terms => match RequiresExactMatch t field with Some v => Some v | None => first terms end
         end) terms
  end.

(** generic.ObjectMetaFieldsSet *)
Definition ObjectMetaFieldsSet (m : ObjectMeta) (hasNamespaceField : bool) : FieldSet :=
  if negb hasNamespaceField then {["metadata.name" := om_Name m]}
  else <["metadata.name" := om_Name m]> {["metadata.namespace" := om_Namespace m]}.

(** ** The selection of the three resources *)

(** What GetAttrs returns: labels, fields and whether the object is uninitialized.
    The model's metadata has no initializers. *)
Record Attrs := mkAttrs { at_Labels : option smap; at_Fields : FieldSet; at_Uninitialized : bool }.

Definition PilotToSelectableFields (obj : Pilot) : FieldSet := ObjectMetaFieldsSet (npil_Meta obj) true.
Definition ESClusterToSelectableFields (obj : ElasticsearchCluster) : FieldSet := ObjectMetaFieldsSet (nesc_Meta obj) true.
Definition CassandraClusterToSelectableFields (obj : CassandraCluster) : FieldSet := ObjectMetaFieldsSet (ncass_Meta obj) true.

Definition pilot_GetAttrs (obj : Pilot) : Attrs := mkAttrs (om_Labels (npil_Meta obj)) (PilotToSelectableFields obj) false.
Definition escluster_GetAttrs (obj : ElasticsearchCluster) : Attrs :=
  mkAttrs (om_Labels (nesc_Meta obj)) (ESClusterToSelectableFields obj) false.
Definition cassandracluster_GetAttrs (obj : CassandraCluster) : Attrs :=
  mkAttrs (om_Labels (ncass_Meta obj)) (CassandraClusterToSelectableFields obj) false.

(** storage.SelectionPredicate without a limit and a continuation *)
Record SelectionPredicate (T : Type) := mkPredicate {
  sp_Label : list Requirement;
  sp_Field : FieldSelector;
  sp_IncludeUninitialized : bool;
  sp_GetAttrs : T → Attrs;
}.
Arguments mkPredicate {T}.
Arguments sp_Label {T}.
Arguments sp_Field {T}.
Arguments sp_IncludeUninitialized {T}.
Arguments sp_GetAttrs {T}.

Definition MatchPilot (label : list Requirement) (field : FieldSelector) : SelectionPredicate Pilot :=
  mkPredicate label field false pilot_GetAttrs.
Definition MatchESCluster (label : list Requirement) (field : FieldSelector) : SelectionPredicate ElasticsearchCluster :=
  mkPredicate label field false escluster_GetAttrs.
Definition MatchCassandraCluster (label : list Requirement) (field : FieldSelector) : SelectionPredicate CassandraCluster :=
  mkPredicate label field false cassandracluster_GetAttrs.

Definition labels_Empty (sel : list Requirement) : bool := match sel with [] => true | _ => false end.

Definition sp_Empty {T} (s : SelectionPredicate T) : bool :=
  labels_Empty (sp_Label s) && fields_Empty (sp_Field s) && sp_IncludeUninitialized s.

Definition sp_Matches {T} (s : SelectionPredicate T) (obj : T) : bool :=
  if sp_Empty s then true
  else
    let a := sp_GetAttrs s obj in
    if negb (sp_IncludeUninitialized s) && at_Uninitialized a then false
    else Selector_Matches (sp_Label s) (at_Labels a) && fields_Matches (sp_Field s) (at_Fields a).

Definition MatchesSingle {T} (s : SelectionPredicate T) : option string := RequiresExactMatch (sp_Field s) "metadata.name".

(** What the stores rely on of a resource's selection. *)
Class Selectable (T : Type) `{HasMeta T} := {
  PredicateFunc : list Requirement → FieldSelector → SelectionPredicate T;
  PredicateFunc_Label label field : sp_Label (PredicateFunc label field) = label;
  PredicateFunc_Field label field : sp_Field (PredicateFunc label field) = field;
  PredicateFunc_Attrs label field obj :
    sp_GetAttrs (PredicateFunc label field) obj = mkAttrs (om_Labels (objMeta obj)) (ObjectMetaFieldsSet (objMeta obj) true) false;
}.

#[export] Program Instance Pilot_Selectable : Selectable Pilot := {| PredicateFunc := MatchPilot |}.
Solve All Obligations with done.
#[export] Program Instance ESCluster_Selectable : Selectable ElasticsearchCluster := {| PredicateFunc := MatchESCluster |}.
Solve All Obligations with done.
#[export] Program Instance CassandraCluster_Selectable : Selectable CassandraCluster := {| PredicateFunc := MatchCassandraCluster |}.
Solve All Obligations with done.

(** metainternalversion.ListOptions: [None] is a nil selector. *)
Record ListSelection := mkListSelection {
  ls_LabelSelector : option (list Requirement);
  ls_FieldSelector : option FieldSelector;
  ls_IncludeUninitialized : bool;
}.

(** An API list: its resource version and its items. *)
Record APIList (T : Type) := mkAPIList { li_ResourceVersion : string; li_Items : list T }.
Arguments mkAPIList {T}.
Arguments li_ResourceVersion {T}.
Arguments li_Items {T}.

Definition NewAlreadyExists (name : string) : Err := StatusError StatusReasonAlreadyExists name [].

(** The status a delete answers with. *)
Record DeletedStatus := mkDeletedStatus { del_Name : string; del_UID : string }.

Section storage.
Context {T D : Type} `{HasMeta T} `{!Selectable T} `{EqDecision D}.
Context (Encode : T → D) (Decode : D → T).

Abbreviation decode := (decode Decode).
Abbreviation readKey := (readKey Decode).

(** *** The etcd store *)

Definition etcd_Get (name : string) (key : string * string) (s : Etcd (D := D)) : Res T :=
  match readKey key s with
  | None => inl (NewNotFound name)
  | Some obj => inr obj
  end.

Definition etcd_Create (name : string) (key : string * string) (obj : T) (s : Etcd) : Res T * Etcd :=
  if match ObjectResourceVersion obj with inr version => negb (bool_decide (version = 0)) | inl _ => false end then
    (inl (Errorf "resourceVersion should not be set on objects to be created" []), s)
  else
    let data := Encode (PrepareObjectForStorage obj) in
    match et_kvs s !! key with
    | Some _ => (inl (NewAlreadyExists name), s)
    | None => let s := etcd_put key data s in (inr (decode data (et_rev s)), s)
    end.

Definition checkUID (uid : option string) (obj : T) : bool :=
  match uid with None => true | Some uid => bool_decide (uid = om_UID (objMeta obj)) end.

(** The loop of conditionalDelete, on the last state read.  [env] holds what other
    writers do before each transaction; [None] is out of fuel. *)
Fixpoint conditionalDelete (fuel : nat) (name : string) (key : string * string) (uid : option string)
    (env : list (Etcd → Etcd)) (getResp : option Entry) (s : Etcd) : option (Res T * Etcd) :=
  match fuel with
  | O => None
  | S fuel =>
      match getResp with
      | None => Some (inl (NewNotFound name), s)
      | Some e =>
          let obj := decode (en_data e) (en_rev e) in
          if negb (checkUID uid obj) then Some (inl (NewConflict name), s)
          else
            let s := match env with [] => s | write :: _ => write s end in
            if bool_decide (modRevision key s = en_rev e) then Some (inr obj, etcd_delete key s)
            else conditionalDelete fuel name key uid (tail env) (et_kvs s !! key) s
      end
  end.

(** A retry follows a write of someone else. *)
Definition etcd_Delete (name : string) (key : string * string) (uid : option string) (env : list (Etcd → Etcd)) (s : Etcd)
    : option (Res T * Etcd) :=
  conditionalDelete (2 + length env) name key uid env (et_kvs s !! key) s.

(** The range of a directory: all keys, or those of a namespace, in the order of the keys. *)
Definition keyPath (key : string * string) : string := key.1 +:+ "/" +:+ key.2.
Definition keyLe (a b : (string * string) * Entry (D := D)) : Prop := String.le (keyPath a.1) (keyPath b.1).
#[global] Instance keyLe_dec a b : Decision (keyLe a b).
Proof. unfold keyLe. apply _. Defined.

Definition inRoot (root : string) (key : string * string) : bool := bool_decide (root = "") || bool_decide (key.1 = root).

Definition etcd_range (root : string) (s : Etcd) : list ((string * string) * Entry (D := D)) :=
  merge_sort keyLe (filter (λ kv, inRoot root kv.1) (map_to_list (et_kvs s))).

Definition appendListItem (pred : SelectionPredicate T) (v : list T) (e : Entry) : list T :=
  let obj := decode (en_data e) (en_rev e) in
  if sp_Matches pred obj then v ++ [obj] else v.

Definition versionString (rev : Z) : string := if bool_decide (rev = 0) then "" else itoa rev.

(** A list of a missing key keeps an empty version. *)
Definition GetToList (key : string * string) (pred : SelectionPredicate T) (s : Etcd) : APIList T :=
  match et_kvs s !! key with
  | None => mkAPIList "" []
  | Some e => mkAPIList (versionString (et_rev s)) (appendListItem pred [] e)
  end.

Definition etcd_List (root : string) (pred : SelectionPredicate T) (s : Etcd) : APIList T :=
  mkAPIList (versionString (et_rev s)) (foldl (λ v kv, appendListItem pred v kv.2) [] (etcd_range root s)).

(** *** The registry's Store *)

Definition withIncludeUninitialized (b : bool) (p : SelectionPredicate T) : SelectionPredicate T :=
  mkPredicate (sp_Label p) (sp_Field p) b (sp_GetAttrs p).

(** The root of a list is the namespace of the request, empty for all of them. *)
Definition ListPredicate (ns : string) (p : SelectionPredicate T) (options : option ListSelection) (s : Etcd) : APIList T :=
  let p := withIncludeUninitialized (match options with None => false | Some o => ls_IncludeUninitialized o end) p in
  match MatchesSingle p with
  | Some name =>
      match keyFunc ns name with
      | inr key => GetToList key p s
      | inl _ => etcd_List ns p s
      end
  | None => etcd_List ns p s
  end.

Definition registry_List (ns : string) (options : option ListSelection) (s : Etcd) : APIList T :=
  let label := default [] (options ≫= ls_LabelSelector) in
  let field := default Everything (options ≫= ls_FieldSelector) in
  ListPredicate ns (PredicateFunc label field) options s.

Definition registry_Get (ns name : string) (s : Etcd) : Res T :=
  match keyFunc ns name with
  | inl err => inl err
  | inr key => etcd_Get name key s
  end.

(** A create that finds its key taken reads it again, which changes only the
    message of the error. *)
Definition registry_Create (st : Strategy T) (commonCreate : T → list FieldError) (newUID : string)
    (createValidation : T → option Err) (ns : string) (obj : T) (s : Etcd) : outcome (Res T * Etcd) :=
  res ← BeforeCreate objMeta setObjNamespace clearDeletion (FillObjectMetaSystemFields newUID) ns commonCreate st obj;
  match res with
  | inl err => Ret (inl err, s)
  | inr obj =>
      match createValidation obj with
      | Some err => Ret (inl err, s)
      | None =>
          let name := om_Name (objMeta obj) in
          match keyFunc ns name with
          | inl err => Ret (inl err, s)
          | inr key => Ret (etcd_Create name key obj s)
          end
      end
  end.

Definition finalizeDelete (obj : T) : DeletedStatus := mkDeletedStatus (om_Name (objMeta obj)) (om_UID (objMeta obj)).

(** BeforeDelete checks the UID early; the first write of [env] falls between
    that read and the storage's own. *)
Definition registry_Delete (ns name : string) (uid : option string) (env : list (Etcd → Etcd)) (s : Etcd)
    : option (Res DeletedStatus * Etcd) :=
  match keyFunc ns name with
  | inl err => Some (inl err, s)
  | inr key =>
      match etcd_Get name key s with
      | inl err => Some (inl err, s)
      | inr obj =>
          if negb (checkUID uid obj) then Some (inl (NewConflict (om_Name (objMeta obj))), s)
          else
            let s := match env with [] => s | write :: _ => write s end in
            '(res, s) ← etcd_Delete name key uid (tail env) s;
            Some (match res with inl err => inl err | inr out => inr (finalizeDelete out) end, s)
      end
  end.
End storage.

(** ** Selection *)

(** Whether an object has the labels and fields that are asked for *)
Definition selected {T} `{HasMeta T} (label : list Requirement) (field : FieldSelector) (obj : T) : bool :=
  Selector_Matches label (om_Labels (objMeta obj)) && fields_Matches field (ObjectMetaFieldsSet (objMeta obj) true).

(** Induction through the lists of terms *)
Lemma fields_ind (P : FieldSelector → Prop) :
  (∀ f v, P (hasTerm f v)) → (∀ f v, P (notHasTerm f v)) →
  (∀ terms, Forall P terms → P (andTerm terms)) → ∀ sel, P sel.
Proof.
  intros Hhas Hnot Hand. fix IH 1. intros [f v|f v|terms]; [apply Hhas|apply Hnot|]. apply Hand.
  induction terms as [|t terms IHt]; constructor; [apply IH|apply IHt].
Qed.

Lemma fields_Empty_Matches sel ls : fields_Empty sel = true → fields_Matches sel ls = true.
Proof.
  induction sel as [| |terms IH] using fields_ind; [done..|]. simpl.
  induction IH as [|t terms Ht _ IHt]; [done|]. simpl. rewrite !andb_true_iff. naive_solver.
Qed.

Lemma RequiresExactMatch_sound sel field v ls :
  RequiresExactMatch sel field = Some v → fields_Matches sel ls = true → default "" (ls !! field) = v.
Proof.
  induction sel as [f w| |terms IH] using fields_ind; [|done|].
  - simpl. case_bool_decide; [subst|done]. intros [= <-]. by rewrite bool_decide_eq_true.
  - simpl. induction IH as [|t terms Ht _ IHt]; [done|]. cbn [forallb]. rewrite andb_true_iff.
    destruct (RequiresExactMatch t field) as [w|]; naive_solver.
Qed.

Lemma name_field m : default "" (ObjectMetaFieldsSet m true !! "metadata.name") = om_Name m.
Proof. unfold ObjectMetaFieldsSet. simpl. by rewrite lookup_insert_eq. Qed.

(** ** Lists of pairs *)

Lemma one_key {K A} (k : K) (l : list (K * A)) :
  NoDup l.*1 → Forall (λ kv, kv.1 = k) l → l = [] ∨ ∃ a, l = [(k, a)].
Proof.
  intros Hnd Hall. destruct Hall as [|[k1 a] l Hk Hall]; [by left|]. simpl in Hk. subst k1. right. exists a.
  destruct Hall as [|[k2 b] l Hk _]; [done|]. simpl in *. subst k2. apply NoDup_cons in Hnd as [Hnd _].
  destruct Hnd. left.
Qed.

Lemma filter_fmap_compose {A B} (f : A → B) (P : B → bool) (l : list A) :
  filter (λ b, P b) (f <$> l) = f <$> filter (λ a, P (f a)) l.
Proof. induction l as [|a l IH]; [done|]. simpl. rewrite !filter_cons. case_decide; [|done]. simpl. by f_equal. Qed.

Lemma keyFunc_accepts ns name key : keyFunc ns name = inr key → key = (ns, name) ∧ ns ≠ "".
Proof.
  unfold keyFunc. case_bool_decide; [done|]. case_bool_decide; [done|]. destruct (validSegment name); [|done].
  by intros [= <-].
Qed.

Section keyed.
Context {T D : Type} `{HasMeta T} `{!Selectable T} `{EqDecision D}.
Context (Encode : T → D) (Decode : D → T).
Implicit Types s : Etcd (D := D).

Definition keyOf (obj : T) : string * string := (om_Namespace (objMeta obj), om_Name (objMeta obj)).

(** Every object is stored under its own key. *)
Definition keyed s : Prop := ∀ key e, et_kvs s !! key = Some e → keyOf (Decode (en_data e)) = key.

(** The objects of the server, the map it implements. *)
Definition view s : gmap (string * string) T := (λ e, decode Decode (en_data e) (en_rev e)) <$> et_kvs s.

Lemma keyOf_UpdateObject rev (obj : T) : keyOf (UpdateObject rev obj) = keyOf obj.
Proof. unfold keyOf, UpdateObject, setResourceVersion. by rewrite objMeta_withMeta. Qed.

Lemma UID_UpdateObject rev (obj : T) : om_UID (objMeta (UpdateObject rev obj)) = om_UID (objMeta obj).
Proof. unfold UpdateObject, setResourceVersion. by rewrite objMeta_withMeta. Qed.

Lemma keyOf_decode data rev : keyOf (decode Decode data rev) = keyOf (Decode data).
Proof. apply keyOf_UpdateObject. Qed.

Lemma view_lookup s key : view s !! key = readKey Decode key s.
Proof. apply lookup_fmap. Qed.

Lemma view_keyed s key obj : keyed s → view s !! key = Some obj → keyOf obj = key.
Proof.
  intros Hk. unfold view. rewrite lookup_fmap, fmap_Some. intros (e & He & ->). rewrite keyOf_decode. by apply Hk.
Qed.

(** *** The range of a list *)

Definition objectAt (kv : (string * string) * Entry (D := D)) : T := decode Decode (en_data kv.2) (en_rev kv.2).

Lemma etcd_range_elem root s key e : (key, e) ∈ etcd_range root s ↔ inRoot root key = true ∧ et_kvs s !! key = Some e.
Proof.
  unfold etcd_range. rewrite merge_sort_Permutation, list_elem_of_filter, elem_of_map_to_list. simpl. by rewrite Is_true_true.
Qed.

Lemma etcd_range_keys root s : NoDup (etcd_range root s).*1.
Proof.
  unfold etcd_range. rewrite merge_sort_Permutation. eapply sublist_NoDup; [apply (NoDup_fst_map_to_list (et_kvs s))|].
  apply fmap_sublist, sublist_filter.
Qed.

Lemma foldl_appendListItem pred (v : list T) (l : list ((string * string) * Entry (D := D))) :
  foldl (λ v kv, appendListItem Decode pred v kv.2) v l = v ++ filter (λ obj, sp_Matches pred obj) (objectAt <$> l).
Proof.
  revert v. induction l as [|kv l IH]; intros v; [by rewrite app_nil_r|]. simpl. rewrite IH. unfold appendListItem.
  rewrite filter_cons. fold (objectAt kv). destruct (sp_Matches pred (objectAt kv)); simpl; [by rewrite <- app_assoc|done].
Qed.

(** A selection that names its object finds at most that one. *)
Lemma filter_single pred ns name s :
  keyed s → ns ≠ "" → (∀ obj, sp_Matches pred obj = true → om_Name (objMeta obj) = name) →
  filter (λ obj, sp_Matches pred obj) (objectAt <$> etcd_range ns s) =
  match et_kvs s !! (ns, name) with Some e => appendListItem Decode pred [] e | None => [] end.
Proof.
  intros Hk Hns Hname. rewrite filter_fmap_compose. set (l := filter _ (etcd_range ns s)).
  assert (∀ key e, (key, e) ∈ l ↔ key = (ns, name) ∧ et_kvs s !! key = Some e ∧ sp_Matches pred (objectAt (key, e)) = true) as Hl.
  { intros key e. unfold l. rewrite list_elem_of_filter, etcd_range_elem. rewrite Is_true_true. unfold inRoot.
    rewrite (bool_decide_eq_false_2 (ns = "")) by done. simpl. rewrite bool_decide_eq_true. split.
    - intros (Hm & Hr & He). split_and!; [|done..]. pose proof (Hk key e He) as Hkey. apply Hname in Hm.
      unfold objectAt in Hm. simpl in Hm. pose proof (keyOf_decode (en_data e) (en_rev e)) as Hd.
      rewrite Hkey in Hd. unfold keyOf in Hd. rewrite Hm in Hd. destruct key. simpl in *. congruence.
    - intros (-> & He & Hm). done. }
  destruct (one_key (ns, name) l) as [Hnil|[e Hone]].
  - eapply sublist_NoDup; [apply (etcd_range_keys ns s)|]. apply fmap_sublist, sublist_filter.
  - apply Forall_forall. intros [key e] Hin. apply Hl in Hin as [? _]. done.
  - rewrite Hnil. simpl. destruct (et_kvs s !! (ns, name)) as [e|] eqn:He; [|done]. unfold appendListItem.
    destruct (sp_Matches pred _) eqn:Hm; [|done]. assert ((ns, name, e) ∈ l) as Hin by (by apply Hl).
    rewrite Hnil in Hin. by apply not_elem_of_nil in Hin.
  - assert ((ns, name, e) ∈ l) as (_ & He & Hm)%Hl by (rewrite Hone; by left).
    rewrite Hone, He. unfold appendListItem. unfold objectAt in Hm. simpl in Hm. by rewrite Hm.
Qed.

Lemma sp_Matches_selected label field b (obj : T) :
  sp_Matches (withIncludeUninitialized b (PredicateFunc label field)) obj = selected label field obj.
Proof.
  unfold sp_Matches, selected, sp_Empty. cbn [withIncludeUninitialized sp_Label sp_Field sp_IncludeUninitialized sp_GetAttrs].
  rewrite PredicateFunc_Label, PredicateFunc_Field, PredicateFunc_Attrs. cbn [at_Uninitialized at_Labels at_Fields].
  rewrite andb_false_r. destruct (_ && b) eqn:Hem; [|done]. apply andb_prop in Hem as [[Hl Hf]%andb_prop _].
  destruct label; [|done]. by rewrite (fields_Empty_Matches _ _ Hf).
Qed.

Lemma registry_List_items ns options s :
  keyed s →
  li_Items (registry_List Decode ns options s) =
  filter (λ obj, selected (default [] (options ≫= ls_LabelSelector)) (default Everything (options ≫= ls_FieldSelector)) obj)
    (objectAt <$> etcd_range ns s).
Proof.
  intros Hk. unfold registry_List, ListPredicate. set (label := default [] _). set (field := default Everything _).
  set (b := match options with None => false | Some o => ls_IncludeUninitialized o end). cbv zeta.
  set (p := withIncludeUninitialized b (PredicateFunc label field)).
  assert (∀ l : list T, filter (λ obj, sp_Matches p obj) l = filter (λ obj, selected label field obj) l) as Hp.
  { intros l. apply list_filter_iff. intros obj. unfold p. by rewrite sp_Matches_selected. }
  rewrite <- Hp. assert (li_Items (etcd_List Decode ns p s) = filter (λ obj, sp_Matches p obj) (objectAt <$> etcd_range ns s)) as Hall.
  { unfold etcd_List. simpl. by rewrite foldl_appendListItem. }
  destruct (MatchesSingle p) as [name|] eqn:Hsingle; [|done].
  destruct (keyFunc ns name) as [|key] eqn:Hkey; [done|].
  apply keyFunc_accepts in Hkey as [-> Hns].
  rewrite (filter_single p ns name s Hk Hns).
  - unfold GetToList. by destruct (et_kvs s !! (ns, name)).
  - intros obj Hm. unfold p in Hm. rewrite sp_Matches_selected in Hm. unfold selected in Hm.
    apply andb_prop in Hm as [_ Hm]. unfold MatchesSingle, p in Hsingle.
    cbn [withIncludeUninitialized sp_Field] in Hsingle. rewrite PredicateFunc_Field in Hsingle.
    rewrite <- name_field. by eapply RequiresExactMatch_sound.
Qed.

Lemma StronglySorted_filter {A} (R : relation A) (P : A → bool) l :
  StronglySorted R l → StronglySorted R (filter (λ a, P a) l).
Proof.
  induction 1 as [|a l Hl IH Ha]; [constructor|]. rewrite filter_cons. case_decide; [|done]. constructor; [done|].
  apply Forall_forall. intros x [_ Hx]%list_elem_of_filter. by eapply Forall_forall in Ha.
Qed.

#[local] Instance keyLe_trans : Transitive (keyLe (D := D)).
Proof. intros a b c. unfold keyLe. apply transitivity. Qed.
#[local] Instance keyLe_total : Total (keyLe (D := D)).
Proof. intros a b. unfold keyLe. apply total. apply _. Qed.

Lemma objectAt_key root s kv : keyed s → kv ∈ etcd_range root s → keyOf (objectAt kv) = kv.1.
Proof. intros Hk. destruct kv as [key e]. intros [_ He]%etcd_range_elem. unfold objectAt. simpl. rewrite keyOf_decode. by apply Hk. Qed.

Lemma objects_keys root (P : T → bool) s : keyed s → NoDup (keyOf <$> filter (λ obj, P obj) (objectAt <$> etcd_range root s)).
Proof.
  intros Hk. rewrite filter_fmap_compose, <- list_fmap_compose. eapply sublist_NoDup; [apply (etcd_range_keys root s)|].
  rewrite (Forall_fmap_ext_1 _ fst); [apply fmap_sublist, sublist_filter|].
  apply Forall_forall. intros kv [_ Hin]%list_elem_of_filter. by eapply objectAt_key.
Qed.

Lemma objects_sorted root s :
  keyed s → StronglySorted (λ a b, String.le (keyPath (keyOf a)) (keyPath (keyOf b))) (objectAt <$> etcd_range root s).
Proof.
  intros Hk. assert (StronglySorted keyLe (etcd_range root s)) as Hs by apply (StronglySorted_merge_sort keyLe).
  pose proof (λ kv, objectAt_key root s kv Hk) as Hkey.
  induction Hs as [|kv l Hl IH Hkv]; [constructor|]. simpl. constructor.
  - apply IH. intros kv' Hin. apply Hkey. by right.
  - apply Forall_fmap, Forall_forall. intros kv' Hin. simpl. rewrite !Hkey by (by left || by right).
    eapply Forall_forall in Hkv; [|done]. done.
Qed.
End keyed.

(** ** What the operations store *)

(** What the stores rely on of a strategy: it leaves the metadata alone. *)
Class KeepsMeta {T} `{HasMeta T} (st : Strategy T) : Prop := {
  keeps_scoped : st_NamespaceScoped st = true;
  keeps_create obj : objMeta (st_PrepareForCreate st obj) = objMeta obj;
  keeps_update obj old : objMeta (st_PrepareForUpdate st obj old) = objMeta obj;
  keeps_canonical obj : objMeta (st_Canonicalize st obj) = objMeta obj;
}.

#[export] Instance pilotStrategy_keeps : KeepsMeta pilotStrategy.
Proof. by split. Qed.
#[export] Instance pilotStatusStrategy_keeps : KeepsMeta pilotStatusStrategy.
Proof. by split. Qed.
#[export] Instance esClusterStrategy_keeps vom : KeepsMeta (esClusterStrategy vom).
Proof. by split. Qed.
#[export] Instance esClusterStatusStrategy_keeps vom : KeepsMeta (esClusterStatusStrategy vom).
Proof. by split. Qed.
#[export] Instance cassandraClusterStrategy_keeps vom : KeepsMeta (cassandraClusterStrategy vom).
Proof. by split. Qed.
#[export] Instance cassandraClusterStatusStrategy_keeps vom : KeepsMeta (cassandraClusterStatusStrategy vom).
Proof. by split. Qed.

Section operations.
Context {T D : Type} `{HasMeta T} `{!Selectable T} `{EqDecision D}.
Context (Encode : T → D) (Decode : D → T).
Context (normalize : T → T) `{!StorageCodec Encode Decode normalize}.
Implicit Types s : Etcd (D := D).

Abbreviation keyed := (keyed Decode).
Abbreviation view := (view Decode).

Lemma ValidNamespace_meta ns (obj obj' : T) :
  ValidNamespace objMeta setObjNamespace ns obj = (obj', true) → objMeta obj' = set_om_Namespace ns (objMeta obj).
Proof.
  unfold ValidNamespace. case_bool_decide as He.
  - intros [= <- _]. unfold setObjNamespace. by rewrite objMeta_withMeta.
  - intros [= <- Hns]. apply bool_decide_eq_true in Hns as ->. by destruct (objMeta obj).
Qed.

Lemma BeforeCreate_meta st commonCreate newUID ns (obj ret : T) :
  KeepsMeta st →
  BeforeCreate objMeta setObjNamespace clearDeletion (FillObjectMetaSystemFields newUID) ns commonCreate st obj = Ret (inr ret) →
  objMeta ret = set_om_UID newUID (set_om_DeletionTimestamp None (set_om_Namespace ns (objMeta obj))).
Proof.
  intros Hst. unfold BeforeCreate. rewrite keeps_scoped.
  destruct (ValidNamespace objMeta setObjNamespace ns obj) as [obj' []] eqn:Hv; [|done]. apply ValidNamespace_meta in Hv. cbn [negb].
  destruct (st_Validate _ _) as [[|]|]; [|done..]. simpl. destruct (commonCreate _); [|done]. intros [= <-].
  rewrite keeps_canonical. unfold FillObjectMetaSystemFields, clearDeletion.
  by rewrite objMeta_withMeta, keeps_create, objMeta_withMeta, Hv.
Qed.

Lemma BeforeUpdate_meta st commonUpdate ns (obj old ret : T) :
  KeepsMeta st →
  BeforeUpdate objMeta setObjNamespace ns commonUpdate st obj old = Ret (inr ret) →
  objMeta ret = set_om_Namespace ns (objMeta obj).
Proof.
  intros Hst. unfold BeforeUpdate. rewrite keeps_scoped.
  destruct (ValidNamespace objMeta setObjNamespace ns obj) as [obj' []] eqn:Hv; [|done]. apply ValidNamespace_meta in Hv. cbn [negb].
  destruct (st_ValidateUpdate _ _ _) as [errs|]; [|done]. simpl. destruct (_ ++ _); [|done]. intros [= <-].
  by rewrite keeps_canonical, keeps_update.
Qed.

(** What is stored of an object is the object without its version. *)
Lemma decode_stored (obj : T) rev :
  decode Decode (Encode (PrepareObjectForStorage obj)) rev = UpdateObject rev (normalize obj).
Proof.
  unfold decode, PrepareObjectForStorage, UpdateObject, setResourceVersion. rewrite (codec (Encode := Encode)) by by rewrite objMeta_withMeta.
  by rewrite (normalize_withMeta (normalize := normalize)), !(normalize_objMeta (normalize := normalize)), objMeta_withMeta, withMeta_withMeta.
Qed.

Lemma keyOf_normalize (obj : T) : keyOf (normalize obj) = keyOf obj.
Proof. unfold keyOf. by rewrite (normalize_objMeta (normalize := normalize)). Qed.

Lemma keyOf_stored (obj : T) : keyOf (Decode (Encode (PrepareObjectForStorage obj))) = keyOf obj.
Proof.
  by rewrite <- (keyOf_decode Decode _ 0), decode_stored, keyOf_UpdateObject, keyOf_normalize.
Qed.

Lemma keyed_put s (obj : T) : keyed s → keyed (etcd_put (keyOf obj) (Encode (PrepareObjectForStorage obj)) s).
Proof.
  intros Hk key e. simpl. destruct (decide (key = keyOf obj)) as [->|Hne].
  - rewrite lookup_insert_eq. intros [= <-]. apply keyOf_stored.
  - rewrite lookup_insert_ne by done. apply Hk.
Qed.

Lemma keyed_delete s key : keyed s → keyed (etcd_delete key s).
Proof. intros Hk k e. simpl. rewrite lookup_delete_Some. intros [_ He]. by apply Hk. Qed.

(** Other writers keep every object under its key, too. *)
Definition keyedWrites (env : list (Etcd (D := D) → Etcd)) : Prop := Forall (λ write, ∀ s, keyed s → keyed (write s)) env.

Lemma keyed_env env s : keyedWrites env → keyed s → keyed (match env with [] => s | write :: _ => write s end).
Proof. intros [|write env' Hw _]; [done|apply Hw]. Qed.

Lemma keyedWrites_tail env : keyedWrites env → keyedWrites (tail env).
Proof. intros [|write env' _ Henv]; [constructor|exact Henv]. Qed.

Lemma guaranteedLoop_keyed name key uid tryUpdate fuel env orig must s r s' :
  (∀ ex ret, tryUpdate ex = Ret (inr ret) → keyOf ret = key) → keyedWrites env → keyed s →
  guaranteedLoop Encode Decode name key uid tryUpdate fuel env orig must s = Some (r, s') → keyed s'.
Proof.
  intros Htry. revert env orig must s. induction fuel as [|fuel IH]; intros env orig must s Henv Hk; [done|].
  cbn [guaranteedLoop]. destruct (negb _); [by intros [= _ <-]|].
  destruct (tryUpdate (os_obj orig)) as [[err|ret]|p] eqn:Hret; [| |by intros [= _ <-]].
  - destruct (_ && _); [by apply IH|by intros [= _ <-]].
  - cbv zeta. case_bool_decide; [destruct must; [case_bool_decide; [|by apply IH]|]; by intros [= _ <-]|].
    apply Htry in Hret. pose proof (keyed_env env s Henv Hk) as Hk1.
    case_bool_decide; [|by apply IH; [apply keyedWrites_tail|]]. intros [= _ <-]. subst key. by apply keyed_put.
Qed.

Lemma updateFunc_key st commonCreate commonUpdate newUID admission createValidation updateValidation ns name (obj : T) ex ret :
  KeepsMeta st → om_Name (objMeta obj) = name →
  updateFunc st commonCreate commonUpdate newUID admission createValidation updateValidation ns name obj ex = Ret (inr ret) →
  keyOf ret = (ns, name).
Proof.
  intros Hst Hname. unfold updateFunc, mbind, outcome_bind. repeat (case_match; try done); intros [= <-].
  all: match goal with
       | Hb : BeforeCreate _ _ _ _ _ _ _ _ = _ |- _ => apply BeforeCreate_meta in Hb as Hm; [|done]
       | Hb : BeforeUpdate _ _ _ _ _ _ _ = _ |- _ => apply BeforeUpdate_meta in Hb as Hm; [|done]
       end; unfold keyOf; rewrite Hm; simpl; try by rewrite Hname.
  unfold UpdateObject, setResourceVersion. rewrite objMeta_withMeta. simpl. by rewrite Hname.
Qed.

Lemma UpdateResource_keyed st commonCreate commonUpdate newUID admission createValidation updateValidation ns name env suggestion
    (obj : T) s r s' :
  KeepsMeta st → keyedWrites env → keyed s →
  UpdateResource Encode Decode st commonCreate commonUpdate newUID admission createValidation updateValidation ns name
    env suggestion obj s = Some (r, s') →
  keyed s'.
Proof.
  intros Hst Henv Hk. unfold UpdateResource. destruct (checkName ns name obj) eqn:Hc; [by intros [= _ <-]|].
  assert (om_Name (objMeta obj) = name) as Hname.
  { unfold checkName in Hc. case_bool_decide; [done|]. by case_bool_decide. }
  unfold registry_Update. destruct (keyFunc ns name) as [|key] eqn:Hkey; [by intros [= _ <-]|].
  apply keyFunc_accepts in Hkey as [-> _].
  assert (∀ ex ret, updateFunc st commonCreate commonUpdate newUID admission createValidation updateValidation ns name obj ex =
    Ret (inr ret) → keyOf ret = (ns, name)) as Htry by eauto using updateFunc_key.
  unfold GuaranteedUpdate. destruct suggestion as [sugg|]; [destruct (getStateFromObject _ _); [by intros [= _ <-]|]|].
  - by apply guaranteedLoop_keyed.
  - by apply guaranteedLoop_keyed.
Qed.

Lemma view_put s key (obj : T) :
  view (etcd_put key (Encode (PrepareObjectForStorage obj)) s) = <[key := UpdateObject (et_rev s + 1) (normalize obj)]> (view s).
Proof. unfold view, etcd_put. simpl. rewrite fmap_insert. simpl. by rewrite decode_stored. Qed.

Lemma view_delete s key : view (etcd_delete key s) = delete key (view s).
Proof. unfold view, etcd_delete. simpl. apply fmap_delete. Qed.

Lemma ObjectResourceVersion_empty (obj : T) : om_ResourceVersion (objMeta obj) = "" → ObjectResourceVersion obj = inr 0.
Proof. intros Hrv. unfold ObjectResourceVersion. by rewrite Hrv. Qed.

(** A create either stores the prepared object under a new key or changes nothing. *)
Lemma registry_Create_spec st commonCreate newUID createValidation ns (obj : T) s res s' :
  KeepsMeta st →
  registry_Create Encode Decode st commonCreate newUID createValidation ns obj s = Ret (res, s') →
  match res with
  | inl _ => s' = s
  | inr out =>
      ∃ stored,
        BeforeCreate objMeta setObjNamespace clearDeletion (FillObjectMetaSystemFields newUID) ns commonCreate st obj =
          Ret (inr stored) ∧
        keyOf stored = (ns, om_Name (objMeta obj)) ∧ et_kvs s !! keyOf stored = None ∧
        out = UpdateObject (et_rev s + 1) (normalize stored) ∧
        s' = etcd_put (keyOf stored) (Encode (PrepareObjectForStorage stored)) s
  end.
Proof.
  intros Hst. unfold registry_Create.
  destruct (BeforeCreate _ _ _ _ _ _ _ _) as [[err|stored]|] eqn:Hb; [by intros [= <- <-]| |done]. simpl.
  apply BeforeCreate_meta in Hb as Hm; [|done]. destruct (createValidation stored); [by intros [= <- <-]|].
  destruct (keyFunc ns _) as [|key] eqn:Hkey; [by intros [= <- <-]|]. apply keyFunc_accepts in Hkey as [-> _].
  assert (keyOf stored = (ns, om_Name (objMeta obj))) as Hko by (unfold keyOf; by rewrite Hm).
  assert ((ns, om_Name (objMeta stored)) = keyOf stored) as -> by (unfold keyOf; by rewrite Hm).
  unfold etcd_Create. destruct (match ObjectResourceVersion stored with inl _ => false | inr _ => _ end); [by intros [= <- <-]|].
  cbv zeta. destruct (et_kvs s !! keyOf stored) eqn:He; [by intros [= <- <-]|]. intros [= <- <-].
  exists stored. simpl. rewrite decode_stored. done.
Qed.

(** A delete removes the object it read last, or changes nothing itself. *)
Lemma conditionalDelete_spec fuel name key uid env e0 s0 s res s' :
  Forall (λ write, ∀ s, writes s (write s)) env → wfEtcd s0 → writes s0 s → et_kvs s0 !! key = e0 →
  conditionalDelete Decode fuel name key uid env e0 s = Some (res, s') →
  ∃ s1, writes s s1 ∧
    match res with
    | inl _ => s' = s1
    | inr out => view s1 !! key = Some out ∧ checkUID uid out = true ∧ s' = etcd_delete key s1
    end.
Proof.
  revert env e0 s0 s. induction fuel as [|fuel IH]; intros env e0 s0 s Henv Hwf Hw He0; [done|]. cbn [conditionalDelete].
  destruct e0 as [e|]; [|intros [= <- <-]; by exists s]. destruct (checkUID uid _) eqn:Hu; cbn [negb]; [|intros [= <- <-]; by exists s].
  cbv zeta. set (s1 := match env with [] => s | write :: _ => write s end).
  assert (writes s s1) as Hs1. { subst s1. destruct Henv as [|write env' Hwr _]; [done|apply Hwr]. }
  case_bool_decide as Hrev.
  - intros [= <- <-]. exists s1. split; [done|]. split_and!; [|done..].
    assert (et_kvs s1 !! key = et_kvs s0 !! key) as Heq.
    { apply modRevision_same; [done|by etransitivity|]. rewrite Hrev. unfold modRevision. by rewrite He0. }
    rewrite view_lookup. unfold readKey. by rewrite Heq, He0.
  - intros Hd. apply (IH (tail env) _ s1) in Hd as (s2 & Hs2 & Hres).
    + exists s2. split; [by etransitivity|done].
    + by destruct Henv.
    + eapply writes_wf; [exact Hwf|]. by etransitivity.
    + done.
    + done.
Qed.

Lemma conditionalDelete_terminates fuel name key uid env s :
  (length env < fuel)%nat → is_Some (conditionalDelete Decode fuel name key uid env (et_kvs s !! key) s).
Proof.
  revert env s. induction fuel as [|fuel IH]; intros env s Hlen; [lia|]. cbn [conditionalDelete].
  destruct (et_kvs s !! key) as [e|] eqn:He; [|by eexists]. destruct (negb _); [by eexists|]. cbv zeta.
  destruct env as [|write env].
  - rewrite bool_decide_eq_true_2; [by eexists|]. unfold modRevision. by rewrite He.
  - case_bool_decide; [by eexists|]. apply IH. simpl in *. lia.
Qed.

Lemma conditionalDelete_keyed fuel name key uid env e0 s res s' :
  keyedWrites env → keyed s → conditionalDelete Decode fuel name key uid env e0 s = Some (res, s') → keyed s'.
Proof.
  revert env e0 s. induction fuel as [|fuel IH]; intros env e0 s Henv Hk; [done|]. cbn [conditionalDelete].
  destruct e0 as [e|]; [|by intros [= _ <-]]. destruct (negb _); [by intros [= _ <-]|]. cbv zeta.
  pose proof (keyed_env env s Henv Hk) as Hk1. case_bool_decide; [intros [= _ <-]; by apply keyed_delete|].
  by apply IH; [apply keyedWrites_tail|].
Qed.

Lemma registry_Delete_keyed ns name uid env s res s' :
  keyedWrites env → keyed s → registry_Delete Decode ns name uid env s = Some (res, s') → keyed s'.
Proof.
  intros Henv Hk. unfold registry_Delete. destruct (keyFunc ns name) as [|key]; [by intros [= _ <-]|].
  destruct (etcd_Get Decode name key s) as [|obj]; [by intros [= _ <-]|]. destruct (negb _); [by intros [= _ <-]|]. cbv zeta.
  destruct (etcd_Delete _ _ _ _ _ _) as [[r s1]|] eqn:Hd; [|done]. simpl. intros [= _ <-].
  eapply conditionalDelete_keyed in Hd; [done|by apply keyedWrites_tail|by apply keyed_env].
Qed.

Lemma registry_Get_spec ns name s (obj : T) :
  registry_Get Decode ns name s = inr obj ↔ keyFunc ns name = inr (ns, name) ∧ view s !! (ns, name) = Some obj.
Proof.
  unfold registry_Get. destruct (keyFunc ns name) as [|key] eqn:Hkey; [by split; [|intros []]|].
  apply keyFunc_accepts in Hkey as [-> _]. unfold etcd_Get. rewrite view_lookup.
  destruct (readKey Decode (ns, name) s); naive_solver.
Qed.

(** A valid object is created when, and only when, its key is free. *)
Lemma registry_Create_live st commonCreate newUID createValidation ns (obj stored : T) s :
  KeepsMeta st → om_ResourceVersion (objMeta obj) = "" →
  BeforeCreate objMeta setObjNamespace clearDeletion (FillObjectMetaSystemFields newUID) ns commonCreate st obj = Ret (inr stored) →
  createValidation stored = None → keyFunc ns (om_Name (objMeta obj)) = inr (keyOf stored) →
  registry_Create Encode Decode st commonCreate newUID createValidation ns obj s =
  Ret (match view s !! keyOf stored with
       | Some _ => (inl (NewAlreadyExists (om_Name (objMeta obj))), s)
       | None => (inr (UpdateObject (et_rev s + 1) (normalize stored)), etcd_put (keyOf stored) (Encode (PrepareObjectForStorage stored)) s)
       end).
Proof.
  intros Hst Hrv Hb Hcv Hkey. apply BeforeCreate_meta in Hb as Hm; [|done]. unfold registry_Create. rewrite Hb. simpl.
  rewrite Hcv. assert (om_Name (objMeta stored) = om_Name (objMeta obj)) as -> by by rewrite Hm. rewrite Hkey.
  unfold etcd_Create. rewrite ObjectResourceVersion_empty by by rewrite Hm. simpl. rewrite decode_stored, view_lookup.
  unfold readKey. by destruct (et_kvs s !! keyOf stored).
Qed.

Lemma registry_Delete_spec ns name uid env s :
  Forall (λ write, ∀ s, writes s (write s)) env → wfEtcd s →
  ∃ res s' s1, registry_Delete Decode ns name uid env s = Some (res, s') ∧ writes s s1 ∧
    match res with
    | inl _ => s' = s1
    | inr st => ∃ out, view s1 !! (ns, name) = Some out ∧ checkUID uid out = true ∧ st = finalizeDelete out ∧
                       s' = etcd_delete (ns, name) s1
    end.
Proof.
  intros Henv Hwf. unfold registry_Delete.
  destruct (keyFunc ns name) as [err|key] eqn:Hkey; [by exists (inl err), s, s|]. apply keyFunc_accepts in Hkey as [-> _].
  destruct (etcd_Get Decode name (ns, name) s) as [err|obj]; [by exists (inl err), s, s|].
  destruct (checkUID uid obj); cbn [negb]; [|by eexists (inl _), s, s]. cbv zeta.
  set (s0 := match env with [] => s | write :: _ => write s end).
  assert (writes s s0) as Hs0. { subst s0. destruct Henv as [|write env' Hwr _]; [done|apply Hwr]. }
  assert (wfEtcd s0) as Hwf0 by by eapply writes_wf.
  assert (Forall (λ write, ∀ s, writes s (write s)) (tail env)) as Htl by by destruct Henv.
  unfold etcd_Delete. destruct (conditionalDelete_terminates (2 + length (tail env)) name (ns, name) uid (tail env) s0) as [[r s'] Hd]; [lia|].
  rewrite Hd. simpl. eapply conditionalDelete_spec in Hd as (s1 & Hs1 & Hres); [|exact Htl|exact Hwf0|done|done].
  destruct r as [err|out].
  - exists (inl err), s', s1. split_and!; [done|by etransitivity|done].
  - exists (inr (finalizeDelete out)), s', s1. split_and!; [done|by etransitivity|]. exists out. naive_solver.
Qed.

(** Undisturbed, a delete of a stored object succeeds. *)
Lemma registry_Delete_live ns name uid s (obj : T) :
  keyFunc ns name = inr (ns, name) → view s !! (ns, name) = Some obj → checkUID uid obj = true →
  registry_Delete Decode ns name uid [] s = Some (inr (finalizeDelete obj), etcd_delete (ns, name) s).
Proof.
  intros Hkey Hv Hu. unfold registry_Delete, etcd_Get. rewrite Hkey. rewrite view_lookup in Hv. rewrite Hv, Hu. cbn [negb].
  unfold etcd_Delete. cbn [tail length Nat.add conditionalDelete]. unfold readKey in Hv.
  destruct (et_kvs s !! (ns, name)) as [e|] eqn:He; [|done]. simpl in Hv. injection Hv as Hv. rewrite Hv, Hu. cbn [negb].
  rewrite bool_decide_eq_true_2; [done|]. unfold modRevision. by rewrite He.
Qed.

(** ** The server *)

(** A request that changes the store, with what other writers do meanwhile. *)
Inductive api_step s s' : Prop :=
| step_create st commonCreate newUID createValidation ns obj res :
    KeepsMeta st → registry_Create Encode Decode st commonCreate newUID createValidation ns obj s = Ret (res, s') → api_step s s'
| step_update st commonCreate commonUpdate newUID admission createValidation updateValidation ns name env suggestion obj res :
    KeepsMeta st → keyedWrites env →
    UpdateResource Encode Decode st commonCreate commonUpdate newUID admission createValidation updateValidation ns name
      env suggestion obj s = Some (res, s') → api_step s s'
| step_delete ns name uid env res :
    keyedWrites env → registry_Delete Decode ns name uid env s = Some (res, s') → api_step s s'.

Definition emptyEtcd : Etcd (D := D) := mkEtcd ∅ 1.

Lemma api_step_keyed s s' : api_step s s' → keyed s → keyed s'.
Proof.
  intros [st ? ? ? ? ? [|out] Hst Hc|st ? ? ? ? ? ? ? ? env ? ? res Hst Henv Hu|? ? ? env res Henv Hd] Hk.
  - apply registry_Create_spec in Hc; [by subst|done].
  - apply registry_Create_spec in Hc as (stored & _ & _ & _ & _ & ->); [by apply keyed_put|done].
  - by eapply UpdateResource_keyed.
  - by eapply registry_Delete_keyed.
Qed.

Lemma reachable_keyed s : rtc api_step emptyEtcd s → keyed s.
Proof. apply (rtc_ind_r keyed); [done|]. intros s1 s2 _ Hstep Hk. by eapply api_step_keyed. Qed.
End operations.

(** C12. In every state that creates, updates and deletes lead to, a list holds exactly the
    stored objects of its namespace that match the label and field selectors, each once and in
    the order of the keys, also when the field selector names the object and the store reads a
    single key instead of the range. *)
Theorem lists_are_exact {T D} `{HasMeta T} `{!Selectable T} `{EqDecision D} (Encode : T → D) (Decode : D → T)
    (normalize : T → T) `{!StorageCodec Encode Decode normalize} (s : Etcd) ns options :
  let label := default [] (options ≫= ls_LabelSelector) in
  let field := default Everything (options ≫= ls_FieldSelector) in
  let items := li_Items (registry_List Decode ns options s) in
  rtc (api_step Encode Decode) emptyEtcd s →
  (∀ obj, obj ∈ items ↔
     view Decode s !! keyOf obj = Some obj ∧ (ns = "" ∨ om_Namespace (objMeta obj) = ns) ∧ selected label field obj = true) ∧
  NoDup (keyOf <$> items) ∧
  StronglySorted (λ a b, String.le (keyPath (keyOf a)) (keyPath (keyOf b))) items.
Proof.
  intros label field items Hreach. assert (keyed Decode s) as Hk by by eapply reachable_keyed.
  pose proof (registry_List_items Decode ns options s Hk) as Hitems. fold label field items in Hitems. rewrite Hitems. split_and!.
  - intros obj. rewrite list_elem_of_filter, Is_true_true, list_elem_of_fmap. split.
    + intros (Hsel & [key e] & -> & [Hr He]%etcd_range_elem). unfold objectAt. simpl in *.
      rewrite keyOf_decode, (Hk _ _ He), view_lookup. unfold readKey. rewrite He. split_and!; [done| |done].
      unfold inRoot in Hr. apply orb_prop in Hr. rewrite !bool_decide_eq_true in Hr. destruct Hr as [->|<-]; [by left|right].
      pose proof (keyOf_decode Decode (en_data e) (en_rev e)) as Hd. rewrite (Hk _ _ He) in Hd. by rewrite <- Hd.
    + intros (Hv & Hns & Hsel). split; [done|]. rewrite view_lookup in Hv. unfold readKey in Hv.
      destruct (et_kvs s !! keyOf obj) as [e|] eqn:He; [|done]. injection Hv as Hv. exists (keyOf obj, e). split; [done|].
      apply etcd_range_elem. split; [|done]. unfold inRoot. rewrite orb_true_iff, !bool_decide_eq_true. done.
  - by apply objects_keys.
  - by apply StronglySorted_filter, objects_sorted.
Qed.

(** C11. The store of a resource implements a map from namespace and name to objects: a get reads
    it; a valid object is created exactly when its key is free, with the new UID, and is answered
    AlreadyExists otherwise; any other result of a create leaves the map as it is; a delete ends
    whatever others write meanwhile, and when it succeeds it removed the very object it checked
    and reports. *)
Theorem store_refines_map {T D} `{HasMeta T} `{!Selectable T} `{EqDecision D} (Encode : T → D) (Decode : D → T)
    (normalize : T → T) `{!StorageCodec Encode Decode normalize}
    (st : Strategy T) (commonCreate : T → list FieldError) (newUID : string) (createValidation : T → option Err) (s : Etcd) :
  KeepsMeta st → wfEtcd s →
  (∀ ns name obj,
     registry_Get Decode ns name s = inr obj ↔ keyFunc ns name = inr (ns, name) ∧ view Decode s !! (ns, name) = Some obj) ∧
  (∀ ns obj stored,
     BeforeCreate objMeta setObjNamespace clearDeletion (FillObjectMetaSystemFields newUID) ns commonCreate st obj = Ret (inr stored) →
     createValidation stored = None → keyFunc ns (om_Name (objMeta obj)) = inr (keyOf stored) → om_ResourceVersion (objMeta obj) = "" →
     ∃ res s', registry_Create Encode Decode st commonCreate newUID createValidation ns obj s = Ret (res, s') ∧
       match view Decode s !! keyOf stored with
       | Some _ => res = inl (NewAlreadyExists (om_Name (objMeta obj))) ∧ s' = s
       | None => ∃ out, res = inr out ∧ keyOf out = (ns, om_Name (objMeta obj)) ∧ om_UID (objMeta out) = newUID ∧
                        out = UpdateObject (et_rev s + 1) (normalize stored) ∧ view Decode s' = <[keyOf out := out]> (view Decode s)
       end) ∧
  (∀ ns obj res s',
     registry_Create Encode Decode st commonCreate newUID createValidation ns obj s = Ret (res, s') →
     match res with
     | inl _ => view Decode s' = view Decode s
     | inr out => view Decode s !! keyOf out = None ∧ view Decode s' = <[keyOf out := out]> (view Decode s)
     end) ∧
  (∀ ns name uid env, Forall (λ write, ∀ s, writes s (write s)) env →
     ∃ res s' s1, registry_Delete Decode ns name uid env s = Some (res, s') ∧ writes s s1 ∧
       match res with
       | inl _ => s' = s1
       | inr details => ∃ out, view Decode s1 !! (ns, name) = Some out ∧ checkUID uid out = true ∧
                               details = finalizeDelete out ∧ view Decode s' = delete (ns, name) (view Decode s1)
       end) ∧
  (∀ ns name uid obj, keyFunc ns name = inr (ns, name) → view Decode s !! (ns, name) = Some obj → checkUID uid obj = true →
     ∃ s', registry_Delete Decode ns name uid [] s = Some (inr (finalizeDelete obj), s') ∧
           view Decode s' = delete (ns, name) (view Decode s)).
Proof.
  intros Hst Hwf. split_and!.
  - intros. apply registry_Get_spec.
  - intros ns obj stored Hb Hcv Hkey Hrv. rewrite (registry_Create_live _ _ normalize _ _ _ _ _ _ stored) by done.
    destruct (view Decode s !! keyOf stored) as [|] eqn:Hv; [by eexists _, _|]. eexists _, _. split; [done|].
    apply BeforeCreate_meta in Hb; [|done]. exists (UpdateObject (et_rev s + 1) (normalize stored)).
    rewrite keyOf_UpdateObject, UID_UpdateObject, (view_put _ _ normalize), (keyOf_normalize Encode Decode _), (normalize_objMeta (Encode := Encode) (normalize := normalize)).
    unfold keyOf. by rewrite Hb.
  - intros ns obj res s' Hc. apply (registry_Create_spec _ _ normalize) in Hc; [|done]. destruct res as [|out]; [by subst|].
    destruct Hc as (stored & _ & _ & Hnone & -> & ->). rewrite keyOf_UpdateObject, (keyOf_normalize Encode Decode _), view_lookup, (view_put _ _ normalize).
    unfold readKey. by rewrite Hnone.
  - intros ns name uid env Henv. destruct (registry_Delete_spec Decode ns name uid env s Henv Hwf) as (res & s' & s1 & Hd & Hw & Hres).
    exists res, s', s1. split_and!; [done..|]. destruct res as [|details]; [done|].
    destruct Hres as (out & Hv & Hu & -> & ->). exists out. by rewrite view_delete.
  - intros ns name uid obj Hkey Hv Hu. eexists. split; [by apply registry_Delete_live|]. apply view_delete.
Qed.

(** ** Two pilots *)

Definition pilotNamed (name : string) : Pilot :=
  mkPilot (mkObjectMeta name "test" "" "" None None [] None) (mkPilotStatus [] None None).

Definition createNamed (name uid : string) : Etcd (D := Pilot) → outcome (Res Pilot * Etcd) :=
  registry_Create id id pilotStrategy (λ _, []) uid (λ _, None) "test" (pilotNamed name).

Definition storeOf (r : outcome (Res Pilot * Etcd (D := Pilot))) : Etcd :=
  match r with Ret (_, s) => s | Panic _ => emptyEtcd end.

Definition onePilot : Etcd := storeOf (createNamed "es-demo-1" "uid-1" emptyEtcd).
Definition twoPilots : Etcd := storeOf (createNamed "es-demo-0" "uid-0" onePilot).

Definition byName (name : string) : option ListSelection := Some (mkListSelection None (Some (hasTerm "metadata.name" name)) false).

Definition storedPilot (name uid rv : string) : Pilot :=
  mkPilot (mkObjectMeta name "test" uid rv None None [] None) (mkPilotStatus [] None None).

(** The list of a namespace, in the order of the keys, and of one name. *)
Example list_pilots :
  li_Items (registry_List id "test" None twoPilots) = [storedPilot "es-demo-0" "uid-0" "3"; storedPilot "es-demo-1" "uid-1" "2"] ∧
  registry_List id "test" (byName "es-demo-1") twoPilots = mkAPIList "3" [storedPilot "es-demo-1" "uid-1" "2"] ∧
  registry_List id "test" (byName "es-demo-2") twoPilots = mkAPIList "" [] ∧
  li_Items (registry_List id "" (byName "es-demo-1") twoPilots) = [storedPilot "es-demo-1" "uid-1" "2"].
Proof. split_and!; vm_compute; reflexivity. Qed.

Lemma lists_are_exact_witness :
  rtc (api_step id id) emptyEtcd twoPilots ∧
  storedPilot "es-demo-0" "uid-0" "3" ∈ li_Items (registry_List id "test" (byName "es-demo-0") twoPilots).
Proof.
  assert (rtc (api_step id id) emptyEtcd twoPilots) as Hreach.
  { eapply rtc_l; [|apply rtc_once].
    - eapply (step_create id id emptyEtcd onePilot pilotStrategy (λ _, []) "uid-1" (λ _, None) "test" (pilotNamed "es-demo-1"));
        [apply _|vm_compute; reflexivity].
    - eapply (step_create id id onePilot twoPilots pilotStrategy (λ _, []) "uid-0" (λ _, None) "test" (pilotNamed "es-demo-0"));
        [apply _|vm_compute; reflexivity]. }
  split; [exact Hreach|].
  apply (lists_are_exact id id id twoPilots "test" (byName "es-demo-0") Hreach).
  split_and!; [vm_compute; reflexivity|right; reflexivity|vm_compute; reflexivity].
Defined.

Lemma store_refines_map_witness :
  (∃ out s', createNamed "es-demo-2" "uid-2" twoPilots = Ret (inr out, s') ∧ view id s' = <[keyOf out := out]> (view id twoPilots)) ∧
  (∃ s', registry_Delete id "test" "es-demo-1" (Some "uid-1") [] twoPilots = Some (inr (mkDeletedStatus "es-demo-1" "uid-1"), s') ∧
         view id s' = delete ("test", "es-demo-1") (view id twoPilots)).
Proof.
  destruct (store_refines_map id id id pilotStrategy (λ _, []) "uid-2" (λ _, None) twoPilots)
    as (_ & Hcreate & _ & _ & Hdelete).
  - apply _.
  - split; [vm_compute; discriminate|]. apply map_Forall_to_list. vm_compute. repeat constructor; discriminate.
  - split.
    + destruct (Hcreate "test" (pilotNamed "es-demo-2") (storedPilot "es-demo-2" "uid-2" "")) as (res & s' & Hc & Hres);
        [vm_compute; reflexivity..|].
      replace (view id twoPilots !! keyOf (storedPilot "es-demo-2" "uid-2" "")) with (@None Pilot) in Hres by (vm_compute; reflexivity).
      destruct Hres as (out & -> & _ & _ & _ & Hv). by exists out, s'.
    + apply (Hdelete "test" "es-demo-1" (Some "uid-1") (storedPilot "es-demo-1" "uid-1" "2")); vm_compute; reflexivity.
Defined.
