(* ===== verification/StorageCodecs.v ===== *)
(** * The codec of the store

    LegacyCodec of pkg/apiserver and cmd/apiserver/start.go: objects are
    converted to v1alpha1 before they are serialized, and what is read is defaulted and
    converted back (vendor/k8s.io/apimachinery/pkg/runtime/serializer/versioning).
    With it the theorems of APIServer and APIStorage hold of the three resources.
    The data in the store are the versioned objects the codec hands to the JSON
    serializer and gets from it; the JSON text is not modelled but for the
    versions (VersionJSON). *)

From S2P Require Import Prelude GoStrings Semver K8s Types Internal CassandraVersion Conversion Defaults Validation Registry Fixtures.
From S2P Require Import RestClient APIRoutes APIStore APIServer APIStorage.

(** ** Versioned resources *)

(** What the scheme registers for a resource: the conversions between its two
    versions and the defaults of the versioned one.  Defaults are those of the
    specification; creates keep the object as it is. *)
Class VersionedResource (V T Spec Status : Type) {HV : HasMeta V} {HT : HasMeta T} {REST : StatusStorage T Spec Status} := {
  toVersion : T → V;
  toInternal : V → T;
  setDefaults : V → V;
  toInternal_toVersion obj : toInternal (toVersion obj) = obj;
  toVersion_toInternal v : toVersion (toInternal v) = v;
  setDefaults_idemp v : setDefaults (setDefaults v) = setDefaults v;
  toVersion_withMeta m obj : toVersion (withMeta m obj) = withMeta m (toVersion obj);
  toInternal_withMeta m v : toInternal (withMeta m v) = withMeta m (toInternal v);
  setDefaults_withMeta m v : setDefaults (withMeta m v) = withMeta m (setDefaults v);
  toInternal_meta v : objMeta (toInternal v) = objMeta v;
  setDefaults_meta v : objMeta (setDefaults v) = objMeta v;
  defaults_spec a b : specOf a = specOf b → specOf (toInternal (setDefaults (toVersion a))) = specOf (toInternal (setDefaults (toVersion b)));
  defaults_status obj : statusOf (toInternal (setDefaults (toVersion obj))) = statusOf obj;
  create_keeps obj : st_PrepareForCreate storeStrategy obj = obj;
  canonical_keeps obj : st_Canonicalize storeStrategy obj = obj;
}.
Arguments VersionedResource V T Spec Status {_ _ _}.


Lemma cass_defaults_idemp c : SetObjectDefaults_CassandraCluster (SetObjectDefaults_CassandraCluster c) = SetObjectDefaults_CassandraCluster c.
Proof. apply (proj2 defaulting_complete_and_idempotent). Qed.

#[local] Existing Instances ElasticsearchCluster_v1alpha1_roundtrip ElasticsearchCluster_navigator_roundtrip
  CassandraCluster_v1alpha1_roundtrip CassandraCluster_navigator_roundtrip Pilot_v1alpha1_roundtrip Pilot_navigator_roundtrip.

#[local] Obligation Tactic := intros; first [done | apply (cancel _ _) | idtac].


Program Definition cassandraclusters vom :
    VersionedResource Types.CassandraCluster CassandraCluster CassandraClusterSpec CassandraClusterStatus
      (REST := cassandracluster_NewREST vom) :=
  {| toVersion := autoConvert_navigator_CassandraCluster_To_v1alpha1_CassandraCluster;
     toInternal := autoConvert_v1alpha1_CassandraCluster_To_navigator_CassandraCluster;
     setDefaults := SetObjectDefaults_CassandraCluster;
     setDefaults_idemp := cass_defaults_idemp |}.
Next Obligation. destruct a, b; simpl in *; by subst. Qed.
Next Obligation.
  destruct obj as [m sp st]. simpl. apply CassandraClusterStatus_navigator_roundtrip.
Qed.

(** Pilots have no defaults. *)
Program Definition pilots :
    VersionedResource Types.Pilot Pilot unit PilotStatus (REST := pilot_NewREST) :=
  {| toVersion := autoConvert_navigator_Pilot_To_v1alpha1_Pilot;
     toInternal := autoConvert_v1alpha1_Pilot_To_navigator_Pilot;
     setDefaults v := v |}.
Next Obligation.
  destruct obj as [m st]. simpl. apply PilotStatus_navigator_roundtrip.
Qed.

(** ** The codec *)

Section codec.
Context {V T Spec Status : Type} {HV : HasMeta V} {HT : HasMeta T} {REST : StatusStorage T Spec Status}.
Context {R : VersionedResource V T Spec Status}.

(** The conversion that comes before the serializer on the way to the store, and the defaults
    and the conversion that come after it on the way back; none of them fails. *)
Definition codec_Encode (obj : T) : V := toVersion obj.
Definition codec_Decode (data : V) : T := toInternal (setDefaults data).

Definition withDefaults (obj : T) : T := toInternal (setDefaults (toVersion obj)).

#[local] Instance scheme_codec : StorageCodec codec_Encode codec_Decode withDefaults.
Proof.
  split.
  - by intros obj _.
  - intros m obj. unfold withDefaults. by rewrite toVersion_withMeta, setDefaults_withMeta, toInternal_withMeta.
  - intros obj. unfold withDefaults. rewrite toInternal_meta, setDefaults_meta, <- toInternal_meta. by rewrite toInternal_toVersion.
  - intros data. unfold withDefaults, codec_Decode. by rewrite toVersion_toInternal, setDefaults_idemp.
Qed.

#[local] Instance scheme_defaults : SpecDefaults withDefaults.
Proof. split; [apply defaults_spec|apply defaults_status]. Qed.


(** ** Creates *)

Context `{EqDecision V} `{!Selectable T} {HK : KeepsMeta (storeStrategy (T := T))}.


End codec.

(** ** A cluster without defaults *)

#[export] Instance ImageSpec_eq_dec : EqDecision Types.ImageSpec.
Proof. solve_decision. Defined.
#[export] Instance NavigatorSecurityContext_eq_dec : EqDecision Types.NavigatorSecurityContext.
Proof. solve_decision. Defined.
#[export] Instance NavigatorClusterConfig_eq_dec : EqDecision Types.NavigatorClusterConfig.
Proof. solve_decision. Defined.
#[export] Instance ClusterCondition_eq_dec : EqDecision Types.ClusterCondition.
Proof. solve_decision. Defined.
#[export] Instance NavigatorClusterStatus_eq_dec : EqDecision Types.NavigatorClusterStatus.
Proof. solve_decision. Defined.
#[export] Instance ElasticsearchClusterSpec_eq_dec : EqDecision Types.ElasticsearchClusterSpec.
Proof. solve_decision. Defined.
#[export] Instance ElasticsearchClusterNodePoolStatus_eq_dec : EqDecision Types.ElasticsearchClusterNodePoolStatus.
Proof. solve_decision. Defined.
#[export] Instance ElasticsearchClusterStatus_eq_dec : EqDecision Types.ElasticsearchClusterStatus.
Proof. solve_decision. Defined.
#[export] Instance ElasticsearchCluster_eq_dec : EqDecision Types.ElasticsearchCluster.
Proof. solve_decision. Defined.





