(* ===== verification/PilotWiring.v ===== *)
(** * How a pilot process is put together

    The constructors of the pilots (NewPilot of pkg/pilot/elasticsearch/v5 and
    pkg/pilot/cassandra/v3, Options.Pilot and NewController of genericpilot) and
    Run of their options: which informers are asked for, which caches are waited
    for and what the events of an informer do.  The fields that hold clients
    and recorders are left out; the file that NewPilot of Cassandra edits is in
    CassPilot. *)

From S2P Require Import Prelude GoStrings K8s WorkQueue Types CassandraVersion Cluster Fixtures Handlers RestClient APIRoutes Informers.
From S2P Require Import PilotScheduler PilotRuntime Wiring.

(** ** Constructors *)

(** What a pilot of a database asks its factories for. *)
Record DatabasePilot := mkDatabasePilot { dp_informers : list Kind; dp_waits : list Kind }.

Definition es_NewPilot : DatabasePilot :=
  {| dp_informers := [KPilots; KElasticsearchClusters; KPods; KStatefulSets];
     dp_waits := [KPilots; KElasticsearchClusters] |}.

Definition cass_NewPilot : DatabasePilot := {| dp_informers := [KPilots]; dp_waits := [KPilots] |}.

(** NewController, with the queue and the scheduler it begins with *)
Record PilotLoop := mkPilotLoop {
  pl_informers : list Kind;
  pl_handlers : list (Kind * EventHandler);
  pl_waits : list Kind;
  pl_controller : PilotRuntime.Controller;
  pl_queue : Queue;
}.

Definition NewController : PilotLoop :=
  {| pl_informers := [KPilots];
     pl_handlers := [(KPilots, QueuingEventHandler)];
     pl_waits := [KPilots];
     pl_controller := newController;
     pl_queue := newQueue |}.

(** Options.Pilot: the listers of the generic pilot and of its state, and the
    lock of its elector *)
Record WiredPilot := mkWiredPilot {
  wp_informers : list Kind;
  wp_loop : PilotLoop;
  wp_lockName : string;
  wp_lockNamespace : string;
}.

Definition Options_Pilot (pilotNamespace leaderElectionConfigMap : string) : WiredPilot :=
  {| wp_informers := [KPilots] ++ pl_informers NewController ++ [KPilots; KPods; KStatefulSets];
     wp_loop := NewController;
     wp_lockName := leaderElectionConfigMap;
     wp_lockNamespace := pilotNamespace |}.

(** ** Run *)

Definition workers : nat := 1.

(** Controller.Run up to its workers *)
Definition loop_Run (synced : Kind → bool) (l : PilotLoop) : Res Sys :=
  if forallb synced (pl_waits l) then inr (mkSys (pl_queue l) (replicate workers Idle))
  else inl (Errorf "error waiting for controller caches to sync: %s" [AErr (Errorf "timed out waiting for caches to sync" [])]).

Section run.
Context {B : Type} (c : RESTClient).
Notation factory := (sharedInformerFactory (B := B)).

(** The informers that the constructors ask the Navigator factory for. *)
Definition askAll (ks : list Kind) (f : factory) : factory :=
  foldl (λ f k, match kindType k with
                | Some t => (typeInformer (versionedListWatch c) t f).2
                | None => f
                end) f ks.

(** Complete makes the factory and the pilot; Run makes the generic pilot, starts both
    factories, waits and runs the generic pilot, whose loop this is. *)
Definition Options_Run (d : DatabasePilot) (resync : Z) (pilotNamespace lock : string)
    (hasSynced : nat → bool) (kubeSynced : Kind → bool) : factory * Res Sys :=
  let p := Options_Pilot pilotNamespace lock in
  let f := NewFilteredSharedInformerFactory resync pilotNamespace None in
  let f := askAll (dp_informers d ++ wp_informers p) f in
  let f := Start f in
  (f,
   if forallb (syncedIn hasSynced kubeSynced f) (dp_waits d) then loop_Run (syncedIn hasSynced kubeSynced f) (wp_loop p)
   else inl (Errorf "timed out waiting for caches to sync" [])).

(** ** What runs *)

Notation lw := (versionedListWatch (B := B) c).

(** [askAll] is what the constructors of the controllers do, too. *)
Lemma askAll_construct ks f : askAll ks f = construct c f (Wiring.mkController ks [] [] (λ _ _, mret None)).
Proof. reflexivity. Qed.

Lemma askAll_spec ks f :
  factoryInv lw f →
  factoryInv lw (askAll ks f) ∧ (∀ k t, k ∈ ks → kindType k = Some t → is_Some (fa_informers (askAll ks f) !! t)).
Proof. rewrite askAll_construct. intros Hi. by destruct (construct_spec c f (Wiring.mkController ks [] [] (λ _ _, mret None)) Hi) as (H1 & _ & H3). Qed.

Lemma askAll_config ks (f : factory) : config (askAll ks f) = config f.
Proof.
  revert f. induction ks as [|k ks IH]; intros f; [done|]. simpl. rewrite IH. destruct (kindType k) as [t|]; [|done].
  apply (step_config lw f (UseInformer t)).
Qed.

(** A started informer that has synced answers a wait. *)
Lemma syncedIn_started hasSynced kubeSynced (f : factory) k :
  factoryInv lw f → (∀ i, i ∈ fa_runs f → hasSynced i = true) → (∀ k, kubeSynced k = true) →
  (∀ t, kindType k = Some t → fa_startedInformers f !! t = Some true) → syncedIn hasSynced kubeSynced f k = true.
Proof.
  intros Hi Hsync Hkube Hk. unfold syncedIn. destruct (kindType k) as [t|]; [|done]. specialize (Hk t eq_refl).
  destruct (inv_started _ _ Hi t true Hk) as [_ [i Hti]].
  assert (WaitForCacheSync hasSynced f !! t = Some (hasSynced i)) as ->.
  { unfold WaitForCacheSync. apply lookup_fmap_Some. exists i. split; [done|]. apply map_lookup_filter_Some. by rewrite Hk. }
  simpl. apply Hsync, (inv_runs _ _ Hi). eauto.
Qed.

(** Every informer a pilot asks for is started, each once, in the namespace of the pilot, and
    once the Navigator caches have synced its loop begins: no pilot waits for an informer that
    is not started. *)
Theorem pilots_start_with_their_informers d resync ns lock hasSynced kubeSynced f r :
  d ∈ [es_NewPilot; cass_NewPilot] → (f, r) = Options_Run d resync ns lock hasSynced kubeSynced →
  (∀ i, i ∈ fa_runs f → hasSynced i = true) → (∀ k, kubeSynced k = true) →
  NoDup (fa_runs f) ∧ fa_namespace f = ns ∧
  (∀ k t, k ∈ dp_informers d ++ wp_informers (Options_Pilot ns lock) → kindType k = Some t → fa_startedInformers f !! t = Some true) ∧
  r = inr (initial workers).
Proof.
  intros Hd [= -> ->] Hsync Hkube. set (f0 := NewFilteredSharedInformerFactory resync ns None) in *.
  destruct (askAll_spec (dp_informers d ++ wp_informers (Options_Pilot ns lock)) f0 (factoryInv_new lw resync ns None)) as [Hi Hall].
  set (f1 := askAll _ f0) in *. destruct (Start_spec lw f1 Hi) as (Hi' & Hinf & Hs).
  assert (∀ k t, k ∈ dp_informers d ++ wp_informers (Options_Pilot ns lock) → kindType k = Some t →
    fa_startedInformers (Start f1) !! t = Some true) as Hst.
  { intros k t Hk Ht. destruct (Hall k t Hk Ht) as [i Hti]. by apply (Hs t i). }
  assert (∀ ks, Forall (λ k, k ∈ dp_informers d ++ wp_informers (Options_Pilot ns lock)) ks →
    forallb (syncedIn hasSynced kubeSynced (Start f1)) ks = true) as Hwait.
  { intros ks Hks. apply forallb_forall. intros k Hk%list_elem_of_In. rewrite Forall_forall in Hks. apply syncedIn_started; eauto. }
  split_and!; [apply (inv_runs_once _ _ Hi')| |done|].
  - pose proof (Start_config f1) as Hc. unfold f1 in Hc at 2. rewrite askAll_config in Hc. by injection Hc.
  - assert (Forall (λ k, k ∈ dp_informers d ++ wp_informers (Options_Pilot ns lock)) (dp_waits d)) as Hdw.
    { rewrite !elem_of_cons in Hd. destruct Hd as [->|[->|[]%not_elem_of_nil]]; simpl; decide_closed. }
    rewrite (Hwait _ Hdw). unfold loop_Run. rewrite Hwait; [done|]. simpl. constructor; [|constructor].
    apply elem_of_app. right. apply elem_of_cons. by left.
Qed.
End run.
