(* ===== verification/PilotAccess.v ===== *)
(** * What the pilots may do

    The requests a pilot process sends to the two API servers, as its clients
    build them, against the role that the controllers create for the pods of its
    cluster (its role, rolebinding and serviceaccount packages).  The
    authorizer of Kubernetes is a parameter: [RBACAuthorizer] states what its
    documentation promises. *)

From S2P Require Import Prelude GoStrings Semver K8s WorkQueue Types CassandraVersion Cluster Fixtures Handlers RestClient APIRoutes Informers.
From S2P Require Import CassUtil CassResources ESUtil ESResources ESResourcesFacts PilotScheduler PilotRuntime Wiring PilotWiring.

(** ** The clients of a pilot *)

(** CoreV1() and AppsV1beta1() of the Kubernetes client set *)
Definition kube_setConfigDefaults (gv : GroupVersion) (apiPath DefaultKubernetesUserAgent : string) (config : Config) : Res Config :=
  inr {| cf_Host := cf_Host config;
         cf_APIPath := apiPath;
         cf_GroupVersion := Some gv;
         cf_NegotiatedSerializer := Some DirectCodecs;
         cf_UserAgent := if bool_decide (cf_UserAgent config = "") then DefaultKubernetesUserAgent else cf_UserAgent config;
         cf_QPS := cf_QPS config;
         cf_Burst := cf_Burst config |}.

Definition kube_NewForConfig gv apiPath hostPath ua (c : Config) : Res RESTClient :=
  match kube_setConfigDefaults gv apiPath ua c with
  | inl err => inl err
  | inr config => RESTClientFor hostPath config
  end.

Definition core_NewForConfig := kube_NewForConfig (mkGroupVersion "" "v1") "/api".
Definition apps_NewForConfig := kube_NewForConfig (mkGroupVersion "apps" "v1beta1") "/apis".

Record PilotClients := mkPilotClients { pc_core : RESTClient; pc_apps : RESTClient; pc_navigator : RESTClient }.

(** The two client sets that Complete of the pilots makes of one configuration *)
Definition newPilotClients hostPath ua (c : Config) : Res PilotClients :=
  match core_NewForConfig hostPath ua c, apps_NewForConfig hostPath ua c, versioned_NewForConfig hostPath ua c with
  | inr core, inr apps, inr nav => inr (mkPilotClients core apps nav)
  | inl err, _, _ | _, inl err, _ | _, _, inl err => inl err
  end.

(** ** Its requests *)

(** The fields of an event that its request names *)
Record EventMeta := mkEventMeta { ev_Name : string; ev_Namespace : string }.

Definition NamespaceIfScoped {B} (namespace : string) (scoped : bool) (r : Request B) : Request B :=
  if scoped then setNamespace namespace r else r.

Section requests.
Context {B : Type} (cl : PilotClients) (eventsNs : string).
Context (EncodeEvent : EventMeta → Res B) (EncodeConfigMap : ConfigMap → Res B).
Context (EncodePilot : Pilot → Res B) (EncodeESCluster : ElasticsearchCluster → Res B).

Definition eventRequest (verb : string) (ev : EventMeta) : Request B :=
  Resource "events" (NamespaceIfScoped (ev_Namespace ev) (negb (bool_decide (ev_Namespace ev = ""))) (NewRequest (pc_core cl) verb)).

Definition CreateWithEventNamespace (ev : EventMeta) : Res (Sent B) :=
  if negb (bool_decide (eventsNs = "")) && negb (bool_decide (ev_Namespace ev = eventsNs)) then
    inl (Errorf "can't create an event with namespace '%v' in namespace '%v'" [AStr (ev_Namespace ev); AStr eventsNs])
  else Do (Body (Some (EncodeEvent ev)) (eventRequest "POST" ev)).

Definition PatchWithEventNamespace (ev : EventMeta) (data : B) : Res (Sent B) :=
  if negb (bool_decide (eventsNs = "")) && negb (bool_decide (ev_Namespace ev = eventsNs)) then
    inl (Errorf "can't patch an event with namespace '%v' in namespace '%v'" [AStr (ev_Namespace ev); AStr eventsNs])
  else
    Do (BodyBytes data (Name (ev_Name ev)
      (Resource "events" (NamespaceIfScoped (ev_Namespace ev) (negb (bool_decide (ev_Namespace ev = "")))
         (SetHeader "application/strategic-merge-patch+json" (NewRequest (pc_core cl) "PATCH")))))).

Definition configMaps (ns : string) : ClientOps ConfigMap B := generatedClient "configmaps" cm_Meta EncodeConfigMap (pc_core cl) ns.

(** The list and watch functions of the pod and stateful set informers *)
Definition pods (ns : string) : ListWatcher (B := B) :=
  listWatchOf (generatedClient "pods" pod_Meta (λ _, inl (Errorf "no body" [])) (pc_core cl) ns).
Definition statefulSets (ns : string) : ListWatcher (B := B) :=
  listWatchOf (generatedClient "statefulsets" ss_Meta (λ _, inl (Errorf "no body" [])) (pc_apps cl) ns).

Definition kindListWatch (k : Kind) (ns : string) : option (ListWatcher (B := B)) :=
  match k with
  | KPods => Some (pods ns)
  | KStatefulSets => Some (statefulSets ns)
  | _ => (λ t, versionedListWatch (pc_navigator cl) t ns) <$> kindType k
  end.

(** Every place where the code of a pilot calls an API server: the reflectors of its
    informers, the sync of the pilot, the leading Elasticsearch pilot, the lock of the
    elector, and the recorder's sink. *)
Inductive PilotCall :=
| CallList (k : Kind) (o : ListOptions)
| CallWatch (k : Kind) (o : ListOptions)
| CallUpdatePilotStatus (pilot : Pilot)
| CallUpdateClusterStatus (c : ElasticsearchCluster)
| CallLockGet
| CallLockCreate (annotations : smap)
| CallLockUpdate (cm : ConfigMap)
| CallEventCreate (ev : EventMeta)
| CallEventPatch (ev : EventMeta) (data : B).

(** [informerNs] is the namespace of the factories. *)
Definition callRequest (p : WiredPilot) (informerNs : string) (call : PilotCall) : option (Res (Sent B)) :=
  let noOptions := mkGetOptions "" false in
  match call with
  | CallList k o => (λ lw, lw_List lw o) <$> kindListWatch k informerNs
  | CallWatch k o => (λ lw, lw_Watch lw o) <$> kindListWatch k informerNs
  | CallUpdatePilotStatus pilot =>
      Some (client_UpdateStatus (v1alpha1_pilots EncodePilot (pc_navigator cl) (pil_Namespace pilot)) pilot)
  | CallUpdateClusterStatus c =>
      Some (client_UpdateStatus (v1alpha1_elasticsearchClusters EncodeESCluster (pc_navigator cl) (esc_Namespace c)) c)
  | CallLockGet => Some (client_Get (configMaps (wp_lockNamespace p)) (wp_lockName p) noOptions)
  | CallLockCreate annotations =>
      Some (client_Create (configMaps (wp_lockNamespace p))
              (mkConfigMap (newObjectMeta (wp_lockName p) (wp_lockNamespace p) None (Some annotations) []) None))
  | CallLockUpdate cm => Some (client_Update (configMaps (wp_lockNamespace p)) cm)
  | CallEventCreate ev => Some (CreateWithEventNamespace ev)
  | CallEventPatch ev data => Some (PatchWithEventNamespace ev data)
  end.
End requests.

(** ** Authorization *)

Record Account := mkAccount { acc_Namespace : string; acc_Name : string }.

Definition resourceOf (info : RequestInfo) : string :=
  if bool_decide (ri_Subresource info = "") then ri_Resource info else ri_Resource info +:+ "/" +:+ ri_Subresource info.

(** A rule names the verb, the group and the resource of a request. *)
Definition ruleNames (rule : PolicyRule) (info : RequestInfo) : bool :=
  bool_decide (ri_Verb info ∈ default [] (pr_Verbs rule)) && bool_decide (ri_APIGroup info ∈ default [] (pr_APIGroups rule)) &&
  bool_decide (resourceOf info ∈ default [] (pr_Resources rule)) && bool_decide (pr_ResourceNames rule = None).

(** A binding gives an account a role; a service account without a namespace is one
    of the binding's namespace. *)
Definition binds (binding : RoleBinding) (role : Role) (acc : Account) : bool :=
  bool_decide (om_Namespace (role_Meta role) = om_Namespace (rb_Meta binding)) &&
  bool_decide (rref_Kind (rb_RoleRef binding) = "Role") && bool_decide (rref_Name (rb_RoleRef binding) = om_Name (role_Meta role)) &&
  existsb (λ subj,
    bool_decide (subj_Kind subj = "ServiceAccount") && bool_decide (subj_Name subj = acc_Name acc) &&
    bool_decide ((if bool_decide (subj_Namespace subj = "") then om_Namespace (rb_Meta binding) else subj_Namespace subj) = acc_Namespace acc))
    (default [] (rb_Subjects binding)).

(** RBAC is additive: what a rule of a bound role names is allowed in its namespace. *)
Class RBACAuthorizer (authorize : list Role → list RoleBinding → Account → RequestInfo → bool) : Prop :=
  rbac_allows roles bindings acc info role binding rule :
    role ∈ roles → binding ∈ bindings → binds binding role acc = true → ri_IsResourceRequest info = true →
    ri_Namespace info = om_Namespace (role_Meta role) → rule ∈ default [] (role_Rules role) → ruleNames rule info = true →
    authorize roles bindings acc info = true.

(** ** What a server reads of a request *)

(** The API groups of the clients, with the elements of their paths *)
Definition groups : list (string * list string) :=
  [("", ["api"; "v1"]); ("apps", ["apis"; "apps"; "v1beta1"]); (GroupName, apiSegs)].

Definition onGroup (segs : list string) (c : RESTClient) : Prop :=
  path_Join [path_Join ["/"; rc_basePath c]; rc_versionedAPIPath c] = absPath segs.

Definition kubeResources : list string :=
  ["events"; "configmaps"; "pods"; "statefulsets"; "pilots"; "elasticsearchclusters"; "cassandraclusters"].

Definition asks {B} (r : Res (Sent B)) (verb group ns resource sub : string) : Prop :=
  ∃ s info, r = inr s ∧ NewRequestInfo (sent_Method s) (sent_Path s) (sent_Query s) = inr info ∧
    ri_IsResourceRequest info = true ∧ ri_Verb info = verb ∧ ri_APIGroup info = group ∧ ri_Namespace info = ns ∧
    ri_Resource info = resource ∧ ri_Subresource info = sub.

Lemma kubeResource_plain resource :
  resource ∈ kubeResources →
  ToLower resource = resource ∧ proper resource ∧ validSegment resource = true ∧ has namespaceSubresources resource = false.
Proof.
  intros Hr. unfold kubeResources in Hr. rewrite !elem_of_cons in Hr.
  destruct Hr as [->|[->|[->|[->|[->|[->|[->|[]%not_elem_of_nil]]]]]]]; by repeat split.
Qed.

Lemma groups_proper group segs : (group, segs) ∈ groups → segs ≠ [] ∧ Forall proper segs.
Proof.
  unfold groups. rewrite !elem_of_cons. intros [[= -> ->]|[[= -> ->]|[[= -> ->]|[]%not_elem_of_nil]]];
    (split; [done|]); repeat (apply Forall_cons; split; [by repeat split|]); by apply Forall_nil.
Qed.

Section reads.
Context {B : Type} (c : RESTClient) (group : string) (segs : list string) (ns resource : string).
Context (Hg : (group, segs) ∈ groups) (Hc : onGroup segs c) (Hns : segment ns) (Hr : resource ∈ kubeResources).

(** The path of a request and what it is split into. *)
Lemma built_path verb ct params name sub (body : option B) :
  name = "" ∨ segment name → sub = "" ∨ sub = "status" →
  splitPath (URL_path (built c ns resource verb ct params name sub body)) =
  segs ++ ["namespaces"; ns; resource] ++ nonempty [name; sub].
Proof.
  intros Hname Hsub. destruct (kubeResource_plain resource Hr) as (Hlow & Hp & _). destruct (groups_proper _ _ Hg) as [Hne Hsegs].
  assert (proper ns) as Pns by by apply segment_proper.
  assert (name = "" ∨ proper name) as Pname by (destruct Hname; [by left|right; by apply segment_proper]).
  assert (sub = "" ∨ proper sub) as Psub by (destruct Hsub as [->| ->]; [by left|right; by repeat split]).
  rewrite (URL_path_spec _ segs); simpl; rewrite ?Hlow; try done.
  2: { rewrite !Forall_cons. split_and!; [by right|done..]. }
  rewrite (bool_decide_eq_false_2 (ns = "")) by (by destruct Hns). apply splitPath_abs; [by destruct segs|].
  rewrite Forall_app. split; [done|]. repeat (apply Forall_cons; split; [done || by repeat split|]).
  unfold nonempty. apply Forall_forall. intros s [Hs Hin]%list_elem_of_filter.
  rewrite !elem_of_cons in Hin. destruct Hin as [->|[->|[]%not_elem_of_nil]]; [by destruct Pname|by destruct Psub].
Qed.

(** What NewRequestInfo makes of such a path *)
Lemma info_of_path method path query name sub :
  name = "" ∧ sub = "" ∨ name ≠ "" → sub = "" ∨ sub = "status" →
  splitPath path = segs ++ ["namespaces"; ns; resource] ++ nonempty [name; sub] →
  has specialVerbsNoSubresources (methodVerb method) = false →
  ∃ version prefix, NewRequestInfo method path query =
    inr (mkRequestInfo true path (if bool_decide (name = "") then collectionVerb method query else methodVerb method)
           prefix group version ns resource sub name (resource :: nonempty [name; sub])).
Proof.
  intros Hname Hsub Hpath Hspecial. destruct (kubeResource_plain resource Hr) as (_ & _ & _ & Hres).
  assert (∀ prefix version, resourceInfo path prefix group version (methodVerb method) query ("namespaces" :: ns :: resource :: nonempty [name; sub]) =
    mkRequestInfo true path (if bool_decide (name = "") then collectionVerb method query else methodVerb method)
      prefix group version ns resource sub name (resource :: nonempty [name; sub])) as Hinfo.
  { intros prefix version. unfold resourceInfo. rewrite (bool_decide_eq_true_2 ("namespaces" = "namespaces")) by done.
    rewrite Hres, Hspecial. cbv beta iota zeta. destruct Hname as [[-> ->]|Hname].
    - unfold nonempty. rewrite !filter_cons, !(decide_False (P := "" ≠ "")) by auto. simpl.
      unfold collectionVerb. f_equal.
      destruct (bool_decide (methodVerb method = "get")); [|done].
      destruct (query !! "watch") as [[|v vs]|]; [done| |done]. by destruct (has _ (ToLower v)).
    - unfold nonempty. rewrite filter_cons, decide_True by done. rewrite (bool_decide_eq_false_2 (name = "")) by done. cbn [andb].
      destruct Hsub as [-> | ->]; [|done]. rewrite filter_cons, (decide_False (P := "" ≠ "")) by auto. done. }
  unfold NewRequestInfo. rewrite Hpath. unfold groups in Hg. rewrite !elem_of_cons in Hg.
  destruct Hg as [[= -> ->]|[[= -> ->]|[[= -> ->]|[]%not_elem_of_nil]]]; unfold apiSegs; cbn [app];
    eexists _, _; rewrite <- Hinfo; reflexivity.
Qed.

Lemma built_asks verb ct params name sub (body : option B) :
  name = "" ∧ sub = "" ∨ segment name → sub = "" ∨ sub = "status" → verb ∈ ["GET"; "POST"; "PUT"; "PATCH"] →
  asks (inr (send (built c ns resource verb ct params name sub body)))
    (if bool_decide (name = "") then collectionVerb verb params else methodVerb verb) group ns resource sub.
Proof.
  intros Hname Hsub Hverb.
  destruct (info_of_path verb (URL_path (built c ns resource verb ct params name sub body)) params name sub) as (version & prefix & Hinfo).
  - destruct Hname as [?|[_ ?]]; auto.
  - done.
  - apply built_path; [|done]. destruct Hname as [[? _]|?]; auto.
  - rewrite !elem_of_cons in Hverb. by destruct Hverb as [->|[->|[->|[->|[]%not_elem_of_nil]]]].
  - eexists _, _. split; [done|]. unfold send, sent_Method, sent_Path, sent_Query. cbn [built rq_verb rq_params].
    rewrite Hinfo. by split_and!.
Qed.
End reads.

(** ** The requests of the clients *)

Section asks.
Context {B : Type} (c : RESTClient) (group : string) (segs : list string) (ns resource : string).
Context (Hg : (group, segs) ∈ groups) (Hc : onGroup segs c) (Hns : segment ns) (Hr : resource ∈ kubeResources).

Lemma kube_start verb : Resource resource (setNamespace ns (NewRequest (B := B) c verb)) = built c ns resource verb None ∅ "" "" None.
Proof.
  destruct Hns as [Hv _]. destruct (kubeResource_plain resource Hr) as (_ & _ & Hvr & _).
  unfold setNamespace, unlessErr. cbn -[path_Join validSegment]. rewrite Hv. cbn -[path_Join validSegment].
  unfold Resource, unlessErr. cbn -[path_Join validSegment]. by rewrite Hvr.
Qed.

Lemma kube_start_patch verb pt :
  Resource resource (setNamespace ns (SetHeader pt (NewRequest (B := B) c verb))) = built c ns resource verb (Some pt) ∅ "" "" None.
Proof.
  destruct Hns as [Hv _]. destruct (kubeResource_plain resource Hr) as (_ & _ & Hvr & _).
  unfold setNamespace, unlessErr. cbn -[path_Join validSegment]. rewrite Hv. cbn -[path_Join validSegment].
  unfold Resource, unlessErr. cbn -[path_Join validSegment]. by rewrite Hvr.
Qed.

(** A request that is sent asks for its verb: nothing is sent under a name that is no
    path segment. *)
Definition asksIfSent (r : Res (Sent B)) (verb sub : string) : Prop := (∃ err, r = inl err) ∨ asks r verb group ns resource sub.

Lemma named_asks verb ct params name sub body (finish : Request B → Request B) :
  sub = "" ∨ sub = "status" → verb ∈ ["GET"; "PUT"; "PATCH"] →
  (∀ r err, rq_err r = Some err → rq_err (finish r) = Some err) →
  finish (built c ns resource verb ct ∅ name "" None) = built c ns resource verb params.1 params.2 name sub body ∨
  (∃ err, rq_err (finish (built c ns resource verb ct ∅ name "" None)) = Some err) →
  asksIfSent (Do (finish (Name name (built c ns resource verb ct ∅ "" "" None)))) (methodVerb verb) sub.
Proof.
  intros Hsub Hverb Hkeep Hfin. destruct (decide (segment name)) as [Hname|Hname].
  - rewrite built_name by done. destruct Hfin as [-> |[err He]]; [|left; exists err; by apply Do_error].
    rewrite Do_built by done. right. pose proof (built_asks c group segs ns resource Hg Hc Hns Hr verb params.1 params.2 name sub body) as Ha.
    rewrite bool_decide_eq_false_2 in Ha by apply Hname. apply Ha; [by right|done|set_solver].
  - destruct (built_name_err (B := B) c ns resource verb ct ∅ "" None name Hname) as [err He].
    left. exists err. by apply Do_error, Hkeep.
Qed.

Lemma unlessErr_keeps (f : Request B → Request B) r err : rq_err r = Some err → rq_err (unlessErr f r) = Some err.
Proof. unfold unlessErr. intros H. by rewrite H. Qed.

Lemma Get_asks {T} (meta : T → ObjectMeta) Encode name (o : GetOptions) :
  asksIfSent (client_Get (generatedClient resource meta Encode c ns) name o) "get" "".
Proof.
  simpl. rewrite kube_start. apply (named_asks "GET" None (None, union_with (λ old new, Some (old ++ new)) ∅ (encodeParameters o)) name "" None (VersionedParams o));
    [by left|set_solver|intros; by apply unlessErr_keeps|by left].
Qed.

Lemma Update_asks {T} (meta : T → ObjectMeta) Encode obj :
  asksIfSent (client_Update (generatedClient resource meta Encode c ns) obj) "update" "".
Proof.
  simpl. rewrite kube_start. destruct (Encode obj) as [err|b].
  - apply (named_asks "PUT" None (None, ∅) _ "" None (Body (Some (inl err)))); [by left|set_solver|intros; by apply unlessErr_keeps|right; by eexists].
  - apply (named_asks "PUT" None (Some "application/json", ∅) _ "" (Some b) (Body (Some (inr b))));
      [by left|set_solver|intros; by apply unlessErr_keeps|by left].
Qed.

Lemma UpdateStatus_asks {T} (meta : T → ObjectMeta) Encode obj :
  asksIfSent (client_UpdateStatus (generatedClient resource meta Encode c ns) obj) "update" "status".
Proof.
  simpl. rewrite kube_start. destruct (Encode obj) as [err|b].
  - apply (named_asks "PUT" None (None, ∅) _ "status" None (λ r, Body (Some (inl err)) (SubResource ["status"] r)));
      [by right|set_solver|intros; by do 2 apply unlessErr_keeps|right; by eexists].
  - apply (named_asks "PUT" None (Some "application/json", ∅) _ "status" (Some b) (λ r, Body (Some (inr b)) (SubResource ["status"] r)));
      [by right|set_solver|intros; by do 2 apply unlessErr_keeps|by left].
Qed.

Lemma patch_asks pt name data :
  asksIfSent (Do (BodyBytes data (Name name (Resource resource (setNamespace ns (SetHeader pt (NewRequest (B := B) c "PATCH"))))))) "patch" "".
Proof.
  rewrite kube_start_patch. apply (named_asks "PATCH" (Some pt) (Some pt, ∅) name "" (Some data) (BodyBytes data));
    [by left|set_solver|intros; by apply unlessErr_keeps|by left].
Qed.

Lemma create_asks (enc : Res B) :
  asksIfSent (Do (Body (Some enc) (Resource resource (setNamespace ns (NewRequest c "POST"))))) "create" "".
Proof.
  rewrite kube_start. destruct enc as [err|b]; [left; exists err; by apply Do_error|]. right.
  change (Body _ _) with (built (B := B) c ns resource "POST" (Some "application/json") ∅ "" "" (Some b)). rewrite Do_built by done.
  apply (built_asks c group segs ns resource Hg Hc Hns Hr "POST"); [by left|by left|set_solver].
Qed.

Lemma list_asks (o : ListOptions) :
  let r := VersionedParams o (Resource resource (setNamespace ns (NewRequest (B := B) c "GET"))) in
  asksIfSent (Do r) (if lo_Watch o then "watch" else "list") "" ∧ asksIfSent (Watch_ r) (if lo_Watch o then "watch" else "list") "".
Proof.
  intros r. subst r. rewrite kube_start. set (params := union_with (λ old new, Some (old ++ new)) ∅ (encodeParameters o)).
  change (VersionedParams o _) with (built (B := B) c ns resource "GET" None params "" "" None).
  assert (collectionVerb "GET" params = if lo_Watch o then "watch" else "list") as Hverb.
  { unfold collectionVerb, params. rewrite params_watch. by destruct (lo_Watch o). }
  assert (asks (inr (send (built (B := B) c ns resource "GET" None params "" "" None))) (if lo_Watch o then "watch" else "list") group ns resource "") as Ha.
  { rewrite <- Hverb. apply (built_asks c group segs ns resource Hg Hc Hns Hr "GET"); [by left|by left|set_solver]. }
  split; [rewrite Do_built by done|]; by right.
Qed.
End asks.

(** ** Permission *)

(** The calls a pilot makes: its informers, pilots and events of its namespace, and
    the status of the cluster when it is an Elasticsearch pilot. *)
Definition makesCall {B} (d : DatabasePilot) (clusters : bool) (p : WiredPilot) (ns : string) (call : PilotCall (B := B)) : Prop :=
  match call with
  | CallList k _ | CallWatch k _ => k ∈ dp_informers d ++ wp_informers p
  | CallUpdatePilotStatus pilot => pil_Namespace pilot = ns
  | CallUpdateClusterStatus c => clusters = true ∧ esc_Namespace c = ns
  | CallLockGet | CallLockCreate _ | CallLockUpdate _ => True
  | CallEventCreate ev | CallEventPatch ev _ => ev_Namespace ev = ns
  end.

(** Some rule of the role names the request. *)
Definition roleNames (role : Role) (verb group resource : string) : bool :=
  existsb (λ rule,
    bool_decide (verb ∈ default [] (pr_Verbs rule)) && bool_decide (group ∈ default [] (pr_APIGroups rule)) &&
    bool_decide (resource ∈ default [] (pr_Resources rule)) && bool_decide (pr_ResourceNames rule = None))
    (default [] (role_Rules role)).

Section permission.
Context {authorize : list Role → list RoleBinding → Account → RequestInfo → bool} `{!RBACAuthorizer authorize}.
Context {B : Type} (roles : list Role) (bindings : list RoleBinding) (acc : Account).
Context (role : Role) (binding : RoleBinding) (Hrole : role ∈ roles) (Hbinding : binding ∈ bindings).
Context (Hbinds : binds binding role acc = true).

(** A request that is sent is authorized. *)
Definition permitted (r : Res (Sent B)) : Prop :=
  ∀ s, r = inr s → ∃ info, NewRequestInfo (sent_Method s) (sent_Path s) (sent_Query s) = inr info ∧
                           authorize roles bindings acc info = true.

Lemma asks_permitted r verb group resource sub :
  asksIfSent group (om_Namespace (role_Meta role)) resource r verb sub →
  roleNames role verb group (if bool_decide (sub = "") then resource else resource +:+ "/" +:+ sub) = true →
  permitted r.
Proof.
  intros [[err ->]|(s & info & -> & Hinfo & Hres & Hv & Hg & Hns & Hr & Hs)] Hnames s' [= <-]; try done.
  exists info. split; [done|]. apply existsb_exists in Hnames as (rule & Hin%list_elem_of_In & Hn).
  apply (rbac_allows roles bindings acc info role binding rule Hrole Hbinding Hbinds Hres Hns Hin).
  unfold ruleNames, resourceOf. by rewrite Hv, Hg, Hr, Hs.
Qed.
End permission.

(** The clients of a configuration whose host has no path *)
Lemma newPilotClients_groups hostPath ua cfg host base cl :
  host = (if bool_decide (cf_Host cfg = "") then "localhost" else cf_Host cfg) → hostPath host = inr base → base = "" ∨ base = "/" →
  newPilotClients hostPath ua cfg = inr cl →
  onGroup ["api"; "v1"] (pc_core cl) ∧ onGroup ["apis"; "apps"; "v1beta1"] (pc_apps cl) ∧ onGroup apiSegs (pc_navigator cl).
Proof.
  intros -> Hhost Hbase. unfold newPilotClients, core_NewForConfig, apps_NewForConfig, kube_NewForConfig, versioned_NewForConfig,
    kube_setConfigDefaults, versioned_setConfigDefaults, RESTClientFor. simpl. rewrite Hhost. intros [= <-].
  destruct Hbase as [->| ->]; split_and!; vm_compute; reflexivity.
Qed.

(** What the role of a cluster has to name for its pilots. *)
Definition coversPilot (navigatorKinds : list string) (clusters : bool) (role : Role) : bool :=
  forallb (λ '(verb, group, resource), roleNames role verb group resource)
    ([("list", "", "pods"); ("watch", "", "pods"); ("list", "apps", "statefulsets"); ("watch", "apps", "statefulsets");
      ("get", "", "configmaps"); ("create", "", "configmaps"); ("update", "", "configmaps");
      ("create", "", "events"); ("patch", "", "events"); ("update", GroupName, "pilots/status")] ++
     (if clusters then [("update", GroupName, "elasticsearchclusters/status")] else []) ++
     (navigatorKinds ≫= λ r, [("list", GroupName, r); ("watch", GroupName, r)])).

Lemma role_covers_pilots c cluster :
  coversPilot ["pilots"; "elasticsearchclusters"] true (roleForCluster c) = true ∧
  coversPilot ["pilots"; "cassandraclusters"] false (RoleForCluster cluster) = true.
Proof. split; vm_compute; reflexivity. Qed.

Section pilot.
Context {authorize : list Role → list RoleBinding → Account → RequestInfo → bool} `{!RBACAuthorizer authorize}.
Context {B : Type} (cl : PilotClients) (roles : list Role) (bindings : list RoleBinding) (acc : Account).
Context (role : Role) (binding : RoleBinding) (Hrole : role ∈ roles) (Hbinding : binding ∈ bindings).
Context (Hbinds : binds binding role acc = true) (Hns : segment (om_Namespace (role_Meta role))).
Context (Hcore : onGroup ["api"; "v1"] (pc_core cl)) (Happs : onGroup ["apis"; "apps"; "v1beta1"] (pc_apps cl)).
Context (Hnav : onGroup apiSegs (pc_navigator cl)).
Context (EncodeEvent : EventMeta → Res B) (EncodeConfigMap : ConfigMap → Res B).
Context (EncodePilot : Pilot → Res B) (EncodeESCluster : ElasticsearchCluster → Res B).
Context (clusterKind : string) (clusters : bool).
Context (Hcovers : coversPilot ["pilots"; clusterKind] clusters role = true).

Lemma covered verb group resource :
  (verb, group, resource) ∈
    ([("list", "", "pods"); ("watch", "", "pods"); ("list", "apps", "statefulsets"); ("watch", "apps", "statefulsets");
      ("get", "", "configmaps"); ("create", "", "configmaps"); ("update", "", "configmaps");
      ("create", "", "events"); ("patch", "", "events"); ("update", GroupName, "pilots/status")] ++
     (if clusters then [("update", GroupName, "elasticsearchclusters/status")] else []) ++
     [("list", GroupName, "pilots"); ("watch", GroupName, "pilots"); ("list", GroupName, clusterKind); ("watch", GroupName, clusterKind)]) →
  roleNames role verb group resource = true.
Proof.
  intros Hin. unfold coversPilot in Hcovers. rewrite forallb_forall in Hcovers.
  specialize (Hcovers (verb, group, resource)). by apply Hcovers, list_elem_of_In.
Qed.

Notation ns := (om_Namespace (role_Meta role)).
Notation allowed := (permitted (authorize := authorize) (B := B) roles bindings acc).

(** The kinds of a pilot's informers are in the role. *)
Definition roleKind (k : Kind) : bool :=
  match k with
  | KPods | KStatefulSets => true
  | _ => match kindType k with Some t => bool_decide (typeResource t ∈ ["pilots"; clusterKind]) | None => false end
  end.

Lemma collection_permitted c group segs resource (o : ListOptions) :
  (group, segs) ∈ groups → onGroup segs c → resource ∈ kubeResources →
  roleNames role "list" group resource = true → roleNames role "watch" group resource = true →
  let r := VersionedParams o (Resource resource (setNamespace ns (NewRequest (B := B) c "GET"))) in
  allowed (Do r) ∧ allowed (Watch_ r).
Proof.
  intros Hg Hc Hr Hlist Hwatch r. destruct (list_asks (B := B) c group segs ns resource Hg Hc Hns Hr o) as [Hd Hw].
  split; eapply asks_permitted; try done; by destruct (lo_Watch o).
Qed.

Lemma listWatch_permitted k (o : ListOptions) lw :
  roleKind k = true → kindListWatch (B := B) cl k ns = Some lw → allowed (lw_List lw o) ∧ allowed (lw_Watch lw o).
Proof.
  assert (∀ c group segs resource, (group, segs) ∈ groups → onGroup segs c → resource ∈ kubeResources →
    roleNames role "list" group resource = true → roleNames role "watch" group resource = true →
    allowed (Do (VersionedParams o (Resource resource (setNamespace ns (NewRequest c "GET"))))) ∧
    allowed (Watch_ (VersionedParams (set_Watch o) (Resource resource (setNamespace ns (NewRequest c "GET")))))) as Hboth.
  { intros c group segs resource Hg Hc Hr Hl Hw. split; by eapply collection_permitted. }
  assert (∀ t, typeResource t ∈ ["pilots"; clusterKind] →
    allowed (lw_List (versionedListWatch (pc_navigator cl) t ns) o) ∧ allowed (lw_Watch (versionedListWatch (pc_navigator cl) t ns) o)) as Htype.
  { intros t Ht. assert (typeResource t ∈ kubeResources) as Hr by (destruct t; decide_closed).
    assert (∀ verb, verb ∈ ["list"; "watch"] → roleNames role verb GroupName (typeResource t) = true) as Hn.
    { intros verb Hv. apply covered. rewrite !elem_of_cons in Hv, Ht. rewrite !elem_of_app. right. right.
      destruct Hv as [->|[->|[]%not_elem_of_nil]], Ht as [->|[->|[]%not_elem_of_nil]]; rewrite !elem_of_cons; tauto. }
    destruct (Hboth (pc_navigator cl) GroupName apiSegs (typeResource t)) as [H1 H2];
      [decide_closed|done|done|apply Hn; set_solver|apply Hn; set_solver|]. by destruct t. }
  intros Hk Hlw. destruct k; simpl in Hk, Hlw; try discriminate Hk; injection Hlw as <-.
  - apply bool_decide_eq_true in Hk. by apply (Htype TElasticsearchCluster).
  - apply bool_decide_eq_true in Hk. by apply (Htype TCassandraCluster).
  - apply (Htype TPilot), elem_of_cons. by left.
  - by apply (Hboth (pc_apps cl) "apps" ["apis"; "apps"; "v1beta1"] "statefulsets"); [decide_closed|done|decide_closed|apply covered; set_solver..].
  - by apply (Hboth (pc_core cl) "" ["api"; "v1"] "pods"); [decide_closed|done|decide_closed|apply covered; set_solver..].
Qed.

Lemma core_group : ("", ["api"; "v1"]) ∈ groups.
Proof. decide_closed. Qed.
Lemma navigator_group : (GroupName, apiSegs) ∈ groups.
Proof. decide_closed. Qed.

Lemma status_permitted {T} resource (meta : T → ObjectMeta) Encode obj :
  resource ∈ kubeResources → roleNames role "update" GroupName (resource +:+ "/status") = true →
  allowed (client_UpdateStatus (generatedClient resource meta Encode (pc_navigator cl) ns) obj).
Proof.
  intros Hr Hn. apply (asks_permitted roles bindings acc role binding Hrole Hbinding Hbinds _ "update" GroupName resource "status"); [|exact Hn].
  by apply (UpdateStatus_asks (pc_navigator cl) GroupName apiSegs ns resource navigator_group Hnav Hns Hr).
Qed.

Lemma pilot_status_named : roleNames role "update" GroupName "pilots/status" = true.
Proof. apply covered. set_solver. Qed.
Lemma cluster_status_named : clusters = true → roleNames role "update" GroupName "elasticsearchclusters/status" = true.
Proof. intros Hcl. apply covered. rewrite Hcl. set_solver. Qed.

Lemma lock_permitted name cm o :
  allowed (client_Get (configMaps cl EncodeConfigMap ns) name o) ∧ allowed (client_Create (configMaps cl EncodeConfigMap ns) cm) ∧
  allowed (client_Update (configMaps cl EncodeConfigMap ns) cm).
Proof.
  assert ("configmaps" ∈ kubeResources) as Hr by decide_closed. unfold configMaps.
  split_and!; eapply (asks_permitted roles bindings acc role binding Hrole Hbinding Hbinds).
  - by apply (Get_asks (pc_core cl) "" ["api"; "v1"] ns "configmaps" core_group Hcore Hns Hr).
  - apply covered. set_solver.
  - by apply (create_asks (pc_core cl) "" ["api"; "v1"] ns "configmaps" core_group Hcore Hns Hr).
  - apply covered. set_solver.
  - by apply (Update_asks (pc_core cl) "" ["api"; "v1"] ns "configmaps" core_group Hcore Hns Hr).
  - apply covered. set_solver.
Qed.

Lemma event_permitted ev :
  ev_Namespace ev = ns →
  allowed (CreateWithEventNamespace cl "" EncodeEvent ev) ∧ ∀ data, allowed (PatchWithEventNamespace cl "" ev data).
Proof.
  intros Hev. assert ("events" ∈ kubeResources) as Hr by decide_closed.
  unfold CreateWithEventNamespace, PatchWithEventNamespace, eventRequest, NamespaceIfScoped.
  rewrite Hev, (bool_decide_eq_false_2 (ns = "")), (bool_decide_eq_true_2 ("" = "")) by (done || apply Hns). cbn [negb andb].
  split; [|intros data]; eapply (asks_permitted roles bindings acc role binding Hrole Hbinding Hbinds).
  - by apply (create_asks (pc_core cl) "" ["api"; "v1"] ns "events" core_group Hcore Hns Hr).
  - apply covered. set_solver.
  - by apply (patch_asks (pc_core cl) "" ["api"; "v1"] ns "events" core_group Hcore Hns Hr).
  - apply covered. set_solver.
Qed.

Lemma Some_allowed (x r : Res (Sent B)) : Some x = Some r → allowed x → allowed r.
Proof. by intros [= ->]. Qed.

Lemma pilot_call_permitted d lock (call : PilotCall (B := B)) r :
  let p := Options_Pilot ns lock in
  Forall (λ k, roleKind k = true) (dp_informers d ++ wp_informers p) →
  makesCall d clusters p ns call →
  callRequest cl "" EncodeEvent EncodeConfigMap EncodePilot EncodeESCluster p ns call = Some r → allowed r.
Proof.
  intros p Hkinds Hmakes Hcall.
  rewrite Forall_forall in Hkinds. destruct call as [k o|k o|pilot|c| |an|cm|ev|ev data]; cbn [makesCall callRequest] in Hmakes, Hcall.
  - destruct (kindListWatch cl k ns) as [lw|] eqn:Hlw; [|done]. apply (Some_allowed _ _ Hcall). by eapply listWatch_permitted; [apply Hkinds|].
  - destruct (kindListWatch cl k ns) as [lw|] eqn:Hlw; [|done]. apply (Some_allowed _ _ Hcall). by eapply listWatch_permitted; [apply Hkinds|].
  - apply (Some_allowed _ _ Hcall). unfold v1alpha1_pilots. rewrite Hmakes. apply (status_permitted "pilots"); [decide_closed|exact pilot_status_named].
  - destruct Hmakes as [Hcl Hmakes]. apply (Some_allowed _ _ Hcall). rewrite Hmakes.
    unfold v1alpha1_elasticsearchClusters. apply (status_permitted "elasticsearchclusters"); [decide_closed|exact (cluster_status_named Hcl)].
  - apply (Some_allowed _ _ Hcall), (proj1 (lock_permitted lock (mkConfigMap (newObjectMeta "" "" None None []) None) _)).
  - apply (Some_allowed _ _ Hcall), (proj1 (proj2 (lock_permitted lock _ (mkGetOptions "" false)))).
  - apply (Some_allowed _ _ Hcall), (proj2 (proj2 (lock_permitted lock cm (mkGetOptions "" false)))).
  - apply (Some_allowed _ _ Hcall). apply (proj1 (event_permitted ev Hmakes)).
  - apply (Some_allowed _ _ Hcall). apply (proj2 (event_permitted ev Hmakes) data).
Qed.
End pilot.

(** The service account of the pods of a set *)
Definition podAccount (ss : StatefulSet) : Account :=
  mkAccount (om_Namespace (ss_Meta ss)) (ps_ServiceAccountName (pt_Spec (sss_Template (ss_Spec ss)))).

Lemma nodePoolStatefulSet_account c np ss :
  nodePoolStatefulSet c np = inr ss → podAccount ss = mkAccount (esc_Namespace c) (ESUtil.ServiceAccountName c).
Proof.
  unfold nodePoolStatefulSet, elasticsearchPodTemplateSpec. destruct (esImageToUse (esc_Spec c)); [done|]. by intros [= <-].
Qed.

Lemma StatefulSetForCluster_account cluster np ss :
  StatefulSetForCluster cluster np = Ret ss → podAccount ss = mkAccount (cass_Namespace cluster) (CassUtil.ServiceAccountName cluster).
Proof. unfold StatefulSetForCluster. destruct (cassImageToUse (cass_Spec cluster)); [|done]. by intros [= <-]. Qed.

(** C16. Every request that the informers, the sync, the leading pilot, the leader election and
    the event recorder of a pilot send, for any Elasticsearch or Cassandra cluster, is permitted
    by the role and the binding that the controllers create for the service account of its pods,
    under any authorizer that permits what a bound role lists. *)
Theorem pilots_are_permitted {B} authorize `{!RBACAuthorizer authorize} roles bindings c np es_set cluster cnp cass_set
    hostPath ua cfg base cl lock EncodeEvent EncodeConfigMap EncodePilot EncodeESCluster (call : PilotCall (B := B)) r :
  let request p ns := callRequest cl "" EncodeEvent EncodeConfigMap EncodePilot EncodeESCluster p ns call in
  hostPath (if bool_decide (cf_Host cfg = "") then "localhost" else cf_Host cfg) = inr base → base = "" ∨ base = "/" →
  newPilotClients hostPath ua cfg = inr cl →
  (nodePoolStatefulSet c np = inr es_set → roleForCluster c ∈ roles → roleBindingForCluster c ∈ bindings → segment (esc_Namespace c) →
   let ns := esc_Namespace c in
   let p := Options_Pilot ns lock in
   makesCall es_NewPilot true p ns call → request p ns = Some r →
   permitted (authorize := authorize) roles bindings (podAccount es_set) r) ∧
  (StatefulSetForCluster cluster cnp = Ret cass_set → RoleForCluster cluster ∈ roles → RoleBindingForCluster cluster ∈ bindings →
   segment (cass_Namespace cluster) →
   let ns := cass_Namespace cluster in
   let p := Options_Pilot ns lock in
   makesCall cass_NewPilot false p ns call → request p ns = Some r →
   permitted (authorize := authorize) roles bindings (podAccount cass_set) r).
Proof.
  intros request Hhost Hbase Hcl. destruct (newPilotClients_groups hostPath ua cfg _ base cl eq_refl Hhost Hbase Hcl) as (Hcore & Happs & Hnav).
  destruct (role_covers_pilots c cluster) as [Hes Hcass]. split.
  - intros Hss Hrole Hbinding Hns ns p Hmakes Hreq.
    assert (binds (roleBindingForCluster c) (roleForCluster c) (podAccount es_set) = true) as Hb.
    { rewrite (nodePoolStatefulSet_account _ _ _ Hss). unfold binds. simpl. by rewrite !bool_decide_eq_true_2. }
    eapply (pilot_call_permitted cl roles bindings _ (roleForCluster c) _ Hrole Hbinding Hb Hns Hcore Happs Hnav
      EncodeEvent EncodeConfigMap EncodePilot EncodeESCluster _ _ Hes es_NewPilot lock call); [|exact Hmakes|exact Hreq].
    repeat (apply Forall_cons; split; [reflexivity|]). by apply Forall_nil.
  - intros Hss Hrole Hbinding Hns ns p Hmakes Hreq.
    assert (binds (RoleBindingForCluster cluster) (RoleForCluster cluster) (podAccount cass_set) = true) as Hb.
    { rewrite (StatefulSetForCluster_account _ _ _ Hss). unfold binds. simpl. by rewrite !bool_decide_eq_true_2. }
    eapply (pilot_call_permitted cl roles bindings _ (RoleForCluster cluster) _ Hrole Hbinding Hb Hns Hcore Happs Hnav
      EncodeEvent EncodeConfigMap EncodePilot EncodeESCluster _ _ Hcass cass_NewPilot lock call); [|exact Hmakes|exact Hreq].
    repeat (apply Forall_cons; split; [reflexivity|]). by apply Forall_nil.
Qed.

(** ** An authorizer *)

Definition simpleAuthorize (roles : list Role) (bindings : list RoleBinding) (acc : Account) (info : RequestInfo) : bool :=
  ri_IsResourceRequest info &&
  existsb (λ role, bool_decide (ri_Namespace info = om_Namespace (role_Meta role)) &&
    existsb (λ binding, binds binding role acc) bindings && existsb (λ rule, ruleNames rule info) (default [] (role_Rules role))) roles.

#[export] Instance simpleAuthorize_rbac : RBACAuthorizer simpleAuthorize.
Proof.
  intros roles bindings acc info role binding rule Hrole Hb Hbinds Hres Hns Hrule Hn. unfold simpleAuthorize. rewrite Hres.
  apply existsb_exists. exists role. split; [by apply list_elem_of_In|]. rewrite bool_decide_eq_true_2 by done.
  apply andb_true_intro. split; apply existsb_exists; eexists; (split; [by apply list_elem_of_In|done]).
Qed.

(** The leading Elasticsearch pilot writes the status of its cluster, which a Cassandra
    pilot may not. *)
Definition pilotConfig : Config := mkConfig "https://kubernetes.default" "" None None "" (Qcanon.Q2Qc (QArith_base.inject_Z 0)) 0.

Definition sampleClients : PilotClients :=
  mkPilotClients (mkRESTClient "/" "/api/v1" (mkGroupVersion "" "v1")) (mkRESTClient "/" "/apis/apps/v1beta1" (mkGroupVersion "apps" "v1beta1"))
    (mkRESTClient "/" "/apis/navigator.jetstack.io/v1alpha1" SchemeGroupVersion).

Definition statusCall : Res (Sent ()) :=
  client_UpdateStatus (v1alpha1_elasticsearchClusters (λ _, inr ()) (pc_navigator sampleClients) (esc_Namespace demoCluster)) demoCluster.

Definition demoAccount (base : string) : Account := mkAccount (esc_Namespace demoCluster) base.

Lemma pilots_are_permitted_witness :
  permitted (authorize := simpleAuthorize) [roleForCluster demoCluster] [roleBindingForCluster demoCluster] (demoAccount "es-demo") statusCall.
Proof.
  assert (∃ ss, nodePoolStatefulSet demoCluster dataPool = inr ss) as [ss Hss].
  { unfold nodePoolStatefulSet, elasticsearchPodTemplateSpec. destruct (esImageToUse (esc_Spec demoCluster)) eqn:Himage; [vm_compute in Himage; discriminate|].
    eexists. reflexivity. }
  change (demoAccount "es-demo") with (mkAccount (esc_Namespace demoCluster) (ESUtil.ServiceAccountName demoCluster)).
  rewrite <- (nodePoolStatefulSet_account _ _ _ Hss).
  refine (proj1 (pilots_are_permitted (B := ()) simpleAuthorize [roleForCluster demoCluster] [roleBindingForCluster demoCluster]
    demoCluster dataPool ss (demoCassandra 3) (ringPool 3) ss (λ _, inr "") "navigator" pilotConfig "" sampleClients "elastic-demo-leaderelection"
    (λ _, inr ()) (λ _, inr ()) (λ _, inr ()) (λ _, inr ()) (CallUpdateClusterStatus demoCluster) statusCall
    eq_refl (or_introl eq_refl) _) Hss _ _ _ _ _).
  - vm_compute. reflexivity.
  - left.
  - left.
  - split; [vm_compute; reflexivity|discriminate].
  - split; reflexivity.
  - reflexivity.
Defined.

(** The statuses of both kinds of clusters stay closed to the pilots of Cassandra. *)
Example cassandra_pilots_do_not_write_clusters cluster :
  Forall (λ resource, roleNames (RoleForCluster cluster) "update" GroupName resource = false)
    ["cassandraclusters"; "cassandraclusters/status"; "elasticsearchclusters/status"; "pilots"].
Proof. repeat constructor. Qed.
